(** * The tile storage engine of the GeoPackage / MBTiles raster driver

    A shallow embedding of [ogr/ogrsf_frmts/gpkg/gdalgeopackagerasterband.cpp]:
    the tile cache descriptors, the quantisation of 16-bit tiles, the decoding
    and fetching of tiles ([ReadTile]), the write-back of the cached tile
    ([WriteTile], [WriteTileInternal]), the batching of insertions in
    transactions ([FlushTiles]) and the store of partial tiles of a shifted
    tile grid ([WriteShiftedTile], [FlushRemainingShiftedTiles]).

    Conventions.
    - C [int] and [GIntBig] quantities are [Z]; signed overflow, which is
      undefined behaviour in C++, is outside the model.
    - C [double] is Rocq's primitive binary64 [float], with the same IEEE-754
      operations.
    - A pixel buffer is a [list Z] of samples: one element per pixel of one
      band, so that [m_nDTSize] is factored out of every offset.  A Byte sample
      is its value, an Int16 or UInt16 sample is its value, a Float32 sample is
      its binary32 bit pattern.
    - SQLite, the transaction layer and the image drivers are not part of this
      file of the repository: they are the fields of [Host].  Every statement
      sent to a database and every transaction call is recorded, most recent
      first, in the ghost field [sql_log]. *)

From Stdlib Require Import ZArith Lia Bool List String Floats Uint63.
From stdpp Require Import base option list gmap sorting.

Open Scope Z_scope.

(** ** C++ scalar conversions *)

(** [static_cast<double>(n)] for an [int], [GInt16], [GUInt16] or [GIntBig]
    of magnitude below 2^63. *)
Definition Z2F (z : Z) : float :=
  if z <? 0 then (- (PrimFloat.of_uint63 (Uint63.of_Z (- z))))%float
  else PrimFloat.of_uint63 (Uint63.of_Z z).

(** Truncation towards zero of a finite [double]; 0 stands for NaN and the
    infinities, whose conversion to an integer is undefined in C++. *)
Definition F2Z_trunc (f : float) : Z :=
  match Prim2SF f with
  | S754_finite s m e =>
      let v := if 0 <=? e then Z.pos m * 2 ^ e else Z.pos m / 2 ^ (- e) in
      if s then - v else v
  | _ => 0
  end.

(** [floor] of C's <cmath>. *)
Definition F_floor (f : float) : float :=
  match Prim2SF f with
  | S754_finite s m e =>
      if 0 <=? e then f
      else
        let q := Z.pos m / 2 ^ (- e) in
        let exact := Z.pos m mod 2 ^ (- e) =? 0 in
        if s then (if exact then f else Z2F (- (q + 1))) else
          (if (q =? 0) then 0%float else Z2F q)
  | _ => f
  end.

(** [static_cast<GUInt16>(d)]: the value is defined for -1 < d < 65536 only;
    elsewhere the model keeps the low 16 bits of the truncated value. *)
Definition static_cast_GUInt16 (d : float) : Z := F2Z_trunc d mod 65536.

(** [static_cast<GInt16>(d)], defined for -32769 < d < 32768. *)
Definition static_cast_GInt16 (d : float) : Z :=
  (F2Z_trunc d + 32768) mod 65536 - 32768.

(** The value of a binary32 bit pattern as a [double] (the implicit
    conversion of a [float] operand; it is exact). *)
Definition f32_to_double (bits : Z) : float :=
  let s := Z.testbit bits 31 in
  let e := Z.land (Z.shiftr bits 23) 255 in
  let m := Z.land bits 8388607 in
  let mag :=
    if e =? 255 then (if m =? 0 then infinity else nan)
    else if e =? 0 then Z.ldexp (Z2F m) (-149)
    else Z.ldexp (Z2F (m + 8388608)) (e - 150) in
  if s then (- mag)%float else mag.

(** ** Enumerations of the driver *)

Inductive CPLErr := CE_None | CE_Failure.

Inductive GDALDataType := GDT_Byte | GDT_Int16 | GDT_UInt16 | GDT_Float32.

(** [GPKGTileFormat], declared in ogr_geopackage.h; the constructors are the
    values this file tests [m_eTF] against. *)
Inductive GPKGTileFormat :=
| GPKG_TF_PNG_JPEG | GPKG_TF_PNG | GPKG_TF_PNG8 | GPKG_TF_JPEG | GPKG_TF_WEBP
| GPKG_TF_PNG_16BIT | GPKG_TF_TIFF_32BIT_FLOAT.

(** The image drivers named by [pszDriverName] and by the driver lists of
    [ReadTile]. *)
Inductive TileDriver := DRV_PNG | DRV_JPEG | DRV_WEBP | DRV_GTiff.

#[global] Instance CPLErr_eq_dec : EqDecision CPLErr.
Proof. solve_decision. Defined.
#[global] Instance GDALDataType_eq_dec : EqDecision GDALDataType.
Proof. solve_decision. Defined.
#[global] Instance GPKGTileFormat_eq_dec : EqDecision GPKGTileFormat.
Proof. solve_decision. Defined.
#[global] Instance TileDriver_eq_dec : EqDecision TileDriver.
Proof. solve_decision. Defined.

(** [GDALGetDataTypeSizeBytes]. *)
Definition GDALGetDataTypeSizeBytes (dt : GDALDataType) : Z :=
  match dt with GDT_Byte => 1 | GDT_Int16 | GDT_UInt16 => 2 | GDT_Float32 => 4 end.

Record GDALColorEntry := { c1 : Z; c2 : Z; c3 : Z; c4 : Z }.

#[global] Instance GDALColorEntry_eq_dec : EqDecision GDALColorEntry.
Proof. solve_decision. Defined.

(** A [GDALColorTable] is the list of its entries. *)
Definition GDALColorTable := list GDALColorEntry.

(** A tile blob, as stored in [tile_data]: its bytes. *)
Definition Blob := list Z.

(** ** Buffers

    [memcpy] and [memset] on sample buffers.  A copy that would run past the
    end of the destination writes the samples that fit (such a copy is
    undefined in C); the functions are total and keep the length. *)

Definition buf_read (buf : list Z) (i : nat) : Z := nth i buf 0.

Definition buf_slice (buf : list Z) (off n : nat) : list Z := take n (drop off buf).

Definition memcpy (dst : list Z) (doff : nat) (src : list Z) (n : nat) : list Z :=
  list_inserts doff (take n src) dst.

Definition memset (dst : list Z) (doff : nat) (v : Z) (n : nat) : list Z :=
  list_inserts doff (replicate n v) dst.

(** [for (iY = y0; iY < y0 + h; iY++) body(iY)] over a buffer. *)
Fixpoint for_rows (y0 : nat) (h : nat) (body : nat -> list Z -> list Z)
  (buf : list Z) : list Z :=
  match h with
  | O => buf
  | S h' => for_rows (S y0) h' body (body y0 buf)
  end.

(** ** Configuration of a dataset

    The fields that the operations below read and never write: the raster
    geometry answered by the host dataset and band ([IGetRasterCount],
    [GetBlockSize], [GetXSize], [GetYSize], [IGetUpdate], [GetNoDataValue]) and
    the members of [GDALGPKGMBTilesLikePseudoDataset] set when the dataset is
    opened. *)
Record Config := {
  nBands : Z;
  nBlockXSize : Z;
  nBlockYSize : Z;
  nRasterXSize : Z;
  nRasterYSize : Z;
  bUpdate : bool;
  m_eDT : GDALDataType;
  m_eTF : GPKGTileFormat;
  m_nZoomLevel : Z;
  m_nShiftXTiles : Z;
  m_nShiftYTiles : Z;
  m_nShiftXPixelsMod : Z;
  m_nShiftYPixelsMod : Z;
  m_nTileMatrixWidth : Z;
  m_nTileMatrixHeight : Z;
  bHasNoData : bool;
  dfNoDataValue : float;
  m_usGPKGNull : Z;
  m_dfOffset : float;
  m_dfScale : float;
  m_dfPrecision : float;
  m_bPNGSupports2Bands : bool;
  m_bPNGSupportsCT : bool;
  m_bDither : bool;
  m_nQuality : Z;
  m_nZLevel : Z;
  m_bForceTempDBCompaction : bool
}.

(** ** The databases *)

(** A row of the tile table, keyed by (zoom_level, tile_row, tile_column).
    [tile_data] is [None] when the column does not hold a BLOB. *)
Record TileRow := { tile_id : Z; tile_data : option Blob }.

(** A row of gpkg_2d_gridded_tile_ancillary, keyed by [tpudt_id].  [offset]
    and [scale] are [None] when the column does not hold a FLOAT. *)
Record AncillaryRow := {
  anc_scale : option float;
  anc_offset : option float;
  anc_min : float;
  anc_max : float;
  anc_mean : float;
  anc_std_dev : float
}.

(** A row of the table [partial_tiles] of the temporary database. *)
Record PartialTile := {
  pt_id : Z;
  pt_zoom_level : Z;
  pt_tile_column : Z;
  pt_tile_row : Z;
  pt_tile_data_band : list (option (list Z));
  pt_partial_flag : Z;
  pt_age : Z
}.

(** The temporary database: the rows of [partial_tiles] in rowid order and
    the next AUTOINCREMENT id. *)
Record TempDB := { partial_tiles : list PartialTile; pt_next_id : Z }.

(** [tile_data_band_<nBand>] of a row, [nBand] from 1. *)
Definition pt_band (r : PartialTile) (nBand : Z) : option (list Z) :=
  match pt_tile_data_band r !! Z.to_nat (nBand - 1) with
  | Some (Some b) => Some b
  | _ => None
  end.

(** ** Statements and events *)

Inductive Stmt :=
| SelectAnyTile (zoom : Z)
| SelectTile (zoom row col : Z)
| SelectTileId (zoom row col : Z)
| SelectAncillary (id : Z)
| DeleteTileStmt (zoom row col : Z)
| DeleteAncillary (id : Z)
| InsertTile (zoom row col : Z) (blob : Blob)
| InsertAncillary (id : Z)
| TmpSetup
| TmpSelectPartial (zoom row col : Z)
| TmpSelectBand (id nBand : Z)
| TmpMarkDead (id : Z)
| TmpSelectDeadAt (zoom row col : Z)
| TmpSelectAnyDead
| TmpInsert (zoom row col nBand flags age : Z)
| TmpUpdate (id zoom row col nBand flags age : Z)
| TmpCountActive (zoom : Z)
| TmpSelectActive (zoom : Z) (by_age : bool)
| TmpStep
| TmpDelete (zoom row col : Z)
| TmpMarkAllDead (zoom : Z)
| TmpDeleteDead
| TmpVacuum.

(** What the host makes of a statement: it runs, its preparation fails
    ([SQLPrepareWithError] does not return SQLITE_OK), or [sqlite3_step]
    answers SQLITE_BUSY or another error code. *)
Inductive Fault := NoFault | PrepareError | StepBusy | StepError.

Inductive Event :=
| EvStmt (s : Stmt) (f : Fault)
| EvStartTransaction
| EvCommitTransaction (ok : bool)
| EvOpenTempDB (ok : bool).

#[global] Instance Fault_eq_dec : EqDecision Fault.
Proof. solve_decision. Defined.

(** ** State of a dataset *)

(** One element of [m_asCachedTilesDesc]. *)
Record CachedTileDesc := {
  nRow : Z;
  nCol : Z;
  nIdxWithinTileData : Z;
  abBandDirty : list bool
}.

(** [m_asCachedTilesDesc[4]]. *)
Record CachedTilesDesc := {
  desc0 : CachedTileDesc;
  desc1 : CachedTileDesc;
  desc2 : CachedTileDesc;
  desc3 : CachedTileDesc
}.

(** The main database behind [IGetDB()]: the tile table of the raster, the
    rowid its next insertion gets, and gpkg_2d_gridded_tile_ancillary. *)
Record MainDB := {
  tiles : gmap (Z * Z * Z) TileRow;
  tile_next_id : Z;
  ancillary : gmap Z AncillaryRow
}.

Record State := {
  m_nTileInsertionCount : Z;
  m_bInWriteTile : bool;
  (** the counter behind [GDALRasterBlock::EnterDisableDirtyBlockFlush] *)
  nDisableDirtyBlockFlush : Z;
  m_asCachedTilesDesc : CachedTilesDesc;
  m_pabyCachedTiles : list Z;
  m_poCT : option GDALColorTable;
  m_bTriedEstablishingCT : bool;
  hDB : MainDB;
  m_hTempDB : option TempDB;
  m_nAge : Z;
  m_nLastSpaceCheckTimestamp : Z;
  (** the host's block cache: (band, block x, block y) of each cached block
      and whether it is dirty *)
  block_cache : gmap (Z * Z * Z) bool;
  sql_log : list Event;
  cpl_errors : list string
}.

Definition set_m_nTileInsertionCount (v : Z) (s : State) : State :=
  Build_State v (m_bInWriteTile s) (nDisableDirtyBlockFlush s)
    (m_asCachedTilesDesc s) (m_pabyCachedTiles s) (m_poCT s)
    (m_bTriedEstablishingCT s) (hDB s) (m_hTempDB s) (m_nAge s)
    (m_nLastSpaceCheckTimestamp s) (block_cache s) (sql_log s) (cpl_errors s).

Definition set_m_bInWriteTile (v : bool) (s : State) : State :=
  Build_State (m_nTileInsertionCount s) v (nDisableDirtyBlockFlush s)
    (m_asCachedTilesDesc s) (m_pabyCachedTiles s) (m_poCT s)
    (m_bTriedEstablishingCT s) (hDB s) (m_hTempDB s) (m_nAge s)
    (m_nLastSpaceCheckTimestamp s) (block_cache s) (sql_log s) (cpl_errors s).

Definition set_nDisableDirtyBlockFlush (v : Z) (s : State) : State :=
  Build_State (m_nTileInsertionCount s) (m_bInWriteTile s) v
    (m_asCachedTilesDesc s) (m_pabyCachedTiles s) (m_poCT s)
    (m_bTriedEstablishingCT s) (hDB s) (m_hTempDB s) (m_nAge s)
    (m_nLastSpaceCheckTimestamp s) (block_cache s) (sql_log s) (cpl_errors s).

Definition set_m_asCachedTilesDesc (v : CachedTilesDesc) (s : State) : State :=
  Build_State (m_nTileInsertionCount s) (m_bInWriteTile s)
    (nDisableDirtyBlockFlush s) v (m_pabyCachedTiles s) (m_poCT s)
    (m_bTriedEstablishingCT s) (hDB s) (m_hTempDB s) (m_nAge s)
    (m_nLastSpaceCheckTimestamp s) (block_cache s) (sql_log s) (cpl_errors s).

Definition set_m_pabyCachedTiles (v : list Z) (s : State) : State :=
  Build_State (m_nTileInsertionCount s) (m_bInWriteTile s)
    (nDisableDirtyBlockFlush s) (m_asCachedTilesDesc s) v (m_poCT s)
    (m_bTriedEstablishingCT s) (hDB s) (m_hTempDB s) (m_nAge s)
    (m_nLastSpaceCheckTimestamp s) (block_cache s) (sql_log s) (cpl_errors s).

Definition set_m_poCT (ct : option GDALColorTable) (tried : bool) (s : State)
  : State :=
  Build_State (m_nTileInsertionCount s) (m_bInWriteTile s)
    (nDisableDirtyBlockFlush s) (m_asCachedTilesDesc s) (m_pabyCachedTiles s)
    ct tried (hDB s) (m_hTempDB s) (m_nAge s)
    (m_nLastSpaceCheckTimestamp s) (block_cache s) (sql_log s) (cpl_errors s).

Definition set_hDB (v : MainDB) (s : State) : State :=
  Build_State (m_nTileInsertionCount s) (m_bInWriteTile s)
    (nDisableDirtyBlockFlush s) (m_asCachedTilesDesc s) (m_pabyCachedTiles s)
    (m_poCT s) (m_bTriedEstablishingCT s) v (m_hTempDB s) (m_nAge s)
    (m_nLastSpaceCheckTimestamp s) (block_cache s) (sql_log s) (cpl_errors s).

Definition set_m_hTempDB (v : option TempDB) (s : State) : State :=
  Build_State (m_nTileInsertionCount s) (m_bInWriteTile s)
    (nDisableDirtyBlockFlush s) (m_asCachedTilesDesc s) (m_pabyCachedTiles s)
    (m_poCT s) (m_bTriedEstablishingCT s) (hDB s) v (m_nAge s)
    (m_nLastSpaceCheckTimestamp s) (block_cache s) (sql_log s) (cpl_errors s).

Definition set_m_nAge (v : Z) (s : State) : State :=
  Build_State (m_nTileInsertionCount s) (m_bInWriteTile s)
    (nDisableDirtyBlockFlush s) (m_asCachedTilesDesc s) (m_pabyCachedTiles s)
    (m_poCT s) (m_bTriedEstablishingCT s) (hDB s) (m_hTempDB s) v
    (m_nLastSpaceCheckTimestamp s) (block_cache s) (sql_log s) (cpl_errors s).

Definition set_m_nLastSpaceCheckTimestamp (v : Z) (s : State) : State :=
  Build_State (m_nTileInsertionCount s) (m_bInWriteTile s)
    (nDisableDirtyBlockFlush s) (m_asCachedTilesDesc s) (m_pabyCachedTiles s)
    (m_poCT s) (m_bTriedEstablishingCT s) (hDB s) (m_hTempDB s) (m_nAge s)
    v (block_cache s) (sql_log s) (cpl_errors s).

Definition set_sql_log (v : list Event) (s : State) : State :=
  Build_State (m_nTileInsertionCount s) (m_bInWriteTile s)
    (nDisableDirtyBlockFlush s) (m_asCachedTilesDesc s) (m_pabyCachedTiles s)
    (m_poCT s) (m_bTriedEstablishingCT s) (hDB s) (m_hTempDB s) (m_nAge s)
    (m_nLastSpaceCheckTimestamp s) (block_cache s) v (cpl_errors s).

(** [CPLError(CE_Failure or CE_Warning, ..., msg)]: the message, without its
    arguments, is recorded. *)
Definition CPLError (msg : string) (s : State) : State :=
  Build_State (m_nTileInsertionCount s) (m_bInWriteTile s)
    (nDisableDirtyBlockFlush s) (m_asCachedTilesDesc s) (m_pabyCachedTiles s)
    (m_poCT s) (m_bTriedEstablishingCT s) (hDB s) (m_hTempDB s) (m_nAge s)
    (m_nLastSpaceCheckTimestamp s) (block_cache s) (sql_log s)
    (msg :: cpl_errors s).

(** The assignment of -1 to [nRow], [nCol] and [nIdxWithinTileData]. *)
Definition desc_invalidate (d : CachedTileDesc) : CachedTileDesc :=
  {| nRow := -1; nCol := -1; nIdxWithinTileData := -1;
     abBandDirty := abBandDirty d |}.

(** [for (int i = 1; i <= 3; i++)] of the same assignment. *)
Definition invalidate_desc_1_3 (c : CachedTilesDesc) : CachedTilesDesc :=
  {| desc0 := desc0 c; desc1 := desc_invalidate (desc1 c);
     desc2 := desc_invalidate (desc2 c); desc3 := desc_invalidate (desc3 c) |}.

Definition set_desc0 (d : CachedTileDesc) (c : CachedTilesDesc) : CachedTilesDesc :=
  {| desc0 := d; desc1 := desc1 c; desc2 := desc2 c; desc3 := desc3 c |}.

(** ** The host *)

(** A tile opened by [GDALDataset::Open] from a blob. *)
Record TileDS := {
  ds_RasterXSize : Z;
  ds_RasterYSize : Z;
  ds_RasterCount : Z;
  ds_Driver : TileDriver;
  (** the colour table of its first band *)
  ds_ColorTable : option GDALColorTable;
  (** [RasterIO(GF_Read, ...)] of all its bands, band after band, in the
      requested type; [None] when it does not return CE_None *)
  ds_RasterIO : GDALDataType -> option (list Z)
}.

(** The options given to [CreateCopy]. *)
Inductive DriverOption :=
| OPT_INTERNAL_DATASET
| OPT_LOSSLESS
| OPT_QUALITY (q : Z)
| OPT_ZLEVEL (z : Z)
| OPT_COMPRESS_LZW
| OPT_BLOCKYSIZE (n : Z).

(** The in-memory dataset handed to [CreateCopy]: its bands are the pixels
    they point at when the copy is made. *)
Record MEMDataset := {
  mem_XSize : Z;
  mem_YSize : Z;
  mem_DataType : GDALDataType;
  mem_Bands : list (list Z);
  mem_ColorTable : option GDALColorTable
}.

(** What this file of the repository calls and does not define.  The
    functions of the log see the history of the database calls, so that a
    host may answer two calls differently. *)
Record Host := {
  (** the fate of a statement *)
  sqlite_fault : list Event -> Stmt -> Fault;
  (** [ICommitTransaction() == OGRERR_NONE] *)
  ICommitTransaction_ok : list Event -> bool;
  (** [sqlite3_open] of the temporary database returns SQLITE_OK *)
  sqlite3_open_ok : list Event -> bool;
  (** the filter [m_osWHERE] on the rows of the tile table; constantly
      [true] when [m_osWHERE] is empty *)
  m_osWHERE : Z * Z * Z -> TileRow -> bool;
  GetRowFromIntoTopConvention : Z -> Z;
  (** [GDALGetDriverByName(name) != nullptr] *)
  GDALGetDriverByName : TileDriver -> bool;
  WEBPSupports4Bands : bool;
  GDALOpen : list TileDriver -> Blob -> option TileDS;
  CreateCopy : TileDriver -> list DriverOption -> MEMDataset -> option Blob;
  (** [GDALCopyWords64] of one [double] to the given type *)
  GDALCopyWords64 : float -> GDALDataType -> Z;
  (** [static_cast<float>(d)], as a binary32 bit pattern *)
  static_cast_float : float -> Z;
  GDALComputeMedianCutPCT : list Z -> list Z -> list Z -> GDALColorTable;
  GDALDitherRGB2PCT :
    list Z -> list Z -> list Z -> GDALColorTable -> bool -> list Z;
  (** [time(nullptr)] *)
  time_now : list Event -> Z;
  VSIGetDiskFreeSpace : list Event -> Z;
  (** [st_size] of the temporary database, of its journal and of its
      write-ahead log, when [VSIStatL] finds them *)
  VSIStatL_TempDB : list Event -> option Z;
  VSIStatL_Journal : list Event -> option Z;
  VSIStatL_Wal : list Event -> option Z;
  (** the macro [DIV_ROUND_UP] of cpl_port.h *)
  DIV_ROUND_UP : Z -> Z -> Z
}.

(** ** ProcessInt16UInt16Tile *)

(** The template parameter [T]. *)
Inductive SampleType := T_GInt16 | T_GUInt16.

(** [std::numeric_limits<T>::min()]. *)
Definition numeric_limits_min (T : SampleType) : Z :=
  match T with T_GInt16 => -32768 | T_GUInt16 => 0 end.

(** The reference parameters of the function, which are also the locals of
    [WriteTileInternal] it is called on. *)
Record TileStats := {
  dfTileOffset : float;
  dfTileScale : float;
  dfTileMin : float;
  dfTileMax : float;
  dfTileMean : float;
  dfTileStdDev : float;
  nValidPixels : Z
}.

(** Their initial values in [WriteTileInternal]. *)
Definition TileStats_init : TileStats :=
  {| dfTileOffset := 0; dfTileScale := 1; dfTileMin := 0; dfTileMax := 0;
     dfTileMean := 0; dfTileStdDev := 0; nValidPixels := 0 |}.

(** The locals of the first loop: [nMin], [nMax], [dfM2], and the two
    reference parameters it updates. *)
Record StatAcc := {
  acc_nMin : Z;
  acc_nMax : Z;
  acc_dfM2 : float;
  acc_nValidPixels : Z;
  acc_dfTileMean : float
}.

(** One iteration of the first loop. *)
Definition stat_step (bHasNoData_ : bool) (dfNoDataValue_ : float)
  (a : StatAcc) (nVal : Z) : StatAcc :=
  if bHasNoData_ && (Z2F nVal =? dfNoDataValue_)%float then a
  else
    let nMin := if acc_nValidPixels a =? 0 then nVal else Z.min (acc_nMin a) nVal in
    let nMax := if acc_nValidPixels a =? 0 then nVal else Z.max (acc_nMax a) nVal in
    let n := acc_nValidPixels a + 1 in
    let dfDelta := (Z2F nVal - acc_dfTileMean a)%float in
    let mean := (acc_dfTileMean a + dfDelta / Z2F n)%float in
    {| acc_nMin := nMin; acc_nMax := nMax;
       acc_dfM2 := (acc_dfM2 a + dfDelta * (Z2F nVal - mean))%float;
       acc_nValidPixels := n; acc_dfTileMean := mean |}.

(** The value [dfVal] of the second loop, before its conversion. *)
Definition quantized_dfVal (nVal : Z) (dfOffset dfScale tileOffset tileScale : float)
  : float :=
  (((Z2F nVal - dfOffset) / dfScale - tileOffset) / tileScale)%float.

(** The condition of [CPLAssert(dfVal >= 0.0 && dfVal < 65535.5)]. *)
Definition quantized_in_range (dfVal : float) : bool :=
  (0 <=? dfVal)%float && (dfVal <? 65535.5)%float.

(** One iteration of the second loop: the value of [pTempTileBuffer[i]]. *)
Definition quantize_pixel (bHasNoData_ : bool) (dfNoDataValue_ : float)
  (usGPKGNull : Z) (dfOffset dfScale tileOffset tileScale : float) (nVal : Z) : Z :=
  if bHasNoData_ && (Z2F nVal =? dfNoDataValue_)%float then usGPKGNull
  else
    let dfVal := quantized_dfVal nVal dfOffset dfScale tileOffset tileScale in
    let v := static_cast_GUInt16 (dfVal + 0.5)%float in
    if bHasNoData_ && (v =? usGPKGNull) then
      (if 0 <? usGPKGNull then (v - 1) mod 65536 else (v + 1) mod 65536)
    else v.

(** The tile offset and scale chosen between the two loops. *)
Definition choose_offset_scale (T : SampleType) (bIsInt16 bHasNoData_ : bool)
  (dfNoDataValue_ : float) (usGPKGNull : Z) (dfOffset dfScale : float)
  (nMin nMax : Z) (tileOffset0 tileScale0 : float) : float * float :=
  let dfGlobalMin := ((Z2F nMin - dfOffset) / dfScale)%float in
  let dfGlobalMax := ((Z2F nMax - dfOffset) / dfScale)%float in
  let dfRange :=
    if bHasNoData_ && (usGPKGNull =? 65535)
       && (65535 <=? dfGlobalMax - dfGlobalMin)%float
    then 65534%float else 65535%float in
  let tileScale :=
    if (dfRange <? dfGlobalMax - dfGlobalMin)%float
    then ((dfGlobalMax - dfGlobalMin) / dfRange)%float else tileScale0 in
  let tileOffset :=
    if (dfGlobalMin <? 0)%float then (- dfGlobalMin)%float
    else if (dfRange <? dfGlobalMax / tileScale)%float
         then (dfGlobalMax - dfRange * tileScale)%float
         else tileOffset0 in
  if bHasNoData_ && (numeric_limits_min T =? 0) && (dfOffset =? 0)%float
     && (dfScale =? 1)%float
  then (0%float, 1%float)
  else if bHasNoData_ && bIsInt16 && (dfNoDataValue_ =? -32768)%float
          && (usGPKGNull =? 65535) && (dfOffset =? -32768)%float
          && (dfScale =? 1)%float
  then (1%float, 1%float)
  else (tileOffset, tileScale).

Definition ProcessInt16UInt16Tile (T : SampleType) (pSrc : list Z)
  (bIsInt16 bHasNoData_ : bool) (dfNoDataValue_ : float) (usGPKGNull : Z)
  (dfOffset dfScale : float) (s0 : TileStats) : list Z * TileStats :=
  let a := foldl (stat_step bHasNoData_ dfNoDataValue_)
             {| acc_nMin := 0; acc_nMax := 0; acc_dfM2 := 0;
                acc_nValidPixels := nValidPixels s0;
                acc_dfTileMean := dfTileMean s0 |} pSrc in
  let stddev :=
    if acc_nValidPixels a =? 0 then dfTileStdDev s0
    else PrimFloat.sqrt (acc_dfM2 a / Z2F (acc_nValidPixels a))%float in
  let '(tileOffset, tileScale) :=
    choose_offset_scale T bIsInt16 bHasNoData_ dfNoDataValue_ usGPKGNull
      dfOffset dfScale (acc_nMin a) (acc_nMax a)
      (dfTileOffset s0) (dfTileScale s0) in
  (map (quantize_pixel bHasNoData_ dfNoDataValue_ usGPKGNull dfOffset dfScale
          tileOffset tileScale) pSrc,
   {| dfTileOffset := tileOffset; dfTileScale := tileScale;
      dfTileMin := Z2F (acc_nMin a); dfTileMax := Z2F (acc_nMax a);
      dfTileMean := acc_dfTileMean a; dfTileStdDev := stddev;
      nValidPixels := acc_nValidPixels a |}).

(** ** GPKGFindBestEntry *)

Definition color_distance (e : GDALColorEntry) (b1 b2 b3 b4 nTileBandCount : Z) : Z :=
  let d := (c1 e - b1) * (c1 e - b1) + (c2 e - b2) * (c2 e - b2)
           + (c3 e - b3) * (c3 e - b3) in
  if nTileBandCount =? 4 then d + (c4 e - b4) * (c4 e - b4) else d.

(** The loop of [GPKGFindBestEntry] from entry [i] on, with the best index
    and distance so far. *)
Fixpoint find_best_entry_from (es : list GDALColorEntry) (i : Z)
  (b1 b2 b3 b4 nTileBandCount : Z) (iBestIdx nBestDistance : Z) : Z :=
  match es with
  | [] => iBestIdx
  | e :: es' =>
      let nDistance := color_distance e b1 b2 b3 b4 nTileBandCount in
      if nDistance <? nBestDistance
      then find_best_entry_from es' (i + 1) b1 b2 b3 b4 nTileBandCount i nDistance
      else find_best_entry_from es' (i + 1) b1 b2 b3 b4 nTileBandCount
             iBestIdx nBestDistance
  end.

Definition GPKGFindBestEntry (poCT : GDALColorTable) (b1 b2 b3 b4 nTileBandCount : Z)
  : Z :=
  find_best_entry_from (take 256 poCT) 0 b1 b2 b3 b4 nTileBandCount 0 (4 * 256 * 256).

(** The key of [oMapEntryToIndex] for four bytes. *)
Definition rgba_key (b1 b2 b3 b4 nTileBandCount : Z) : Z :=
  let nVal := b1 + Z.shiftl b2 8 + Z.shiftl b3 16 in
  if nTileBandCount =? 4 then (nVal + Z.shiftl b4 24) mod 4294967296 else nVal.

(** [oMapEntryToIndex] after the loop over the first 256 entries; a later
    entry of the same colour replaces an earlier one. *)
Definition entry_to_index (poCT : GDALColorTable) (nTileBandCount : Z) : gmap Z Z :=
  fst (foldl (fun '(m, i) e =>
                (<[ rgba_key (c1 e mod 256) (c2 e mod 256) (c3 e mod 256)
                      (c4 e mod 4294967296) nTileBandCount := i ]> m, i + 1))
         (∅, 0) (take 256 poCT)).

(** [abyCT[4 * i + k]]: the bytes of the first 256 entries, 0 past them. *)
Definition abyCT (poCT : GDALColorTable) (i k : Z) : Z :=
  match take 256 poCT !! Z.to_nat i with
  | Some e =>
      (match k with 0 => c1 e | 1 => c2 e | 2 => c3 e | _ => c4 e end) mod 256
  | None => 0
  end.

Section Engine.

Variable host : Host.
Variable cfg : Config.

(** Number of pixels of a band of a tile, and the first sample of band
    [i] (from 0) of the tile buffer that starts at [base]. *)
Definition nBlockPixels : nat := Z.to_nat (nBlockXSize cfg * nBlockYSize cfg).

Definition band_off (base : nat) (i : Z) : nat := (base + Z.to_nat i * nBlockPixels)%nat.

(** [nTileBands]: the bands a cached tile has room for. *)
Definition nCacheTileBands : Z := if decide (m_eDT cfg = GDT_Byte) then 4 else 1.

(** The start of the [k]-th tile of [m_pabyCachedTiles]:
    [m_pabyCachedTiles + k * nTileBands * nBandBlockSize]. *)
Definition cached_tile (k : Z) : nat := Z.to_nat (k * nCacheTileBands) * nBlockPixels.

(** Sending a statement to a database: the host decides its fate, the log
    records both. *)
Definition exec (s : Stmt) (st : State) : Fault * State :=
  let f := sqlite_fault host (sql_log st) s in
  (f, set_sql_log (EvStmt s f :: sql_log st) st).

(** *** FillBuffer, FillEmptyTile, FillEmptyTileSingleBand *)

Definition FillBuffer (pabyData : nat) (nPixels : nat) (st : State) : State :=
  if negb (bHasNoData cfg) || (dfNoDataValue cfg =? 0)%float
  then set_m_pabyCachedTiles (memset (m_pabyCachedTiles st) pabyData 0 nPixels) st
  else set_m_pabyCachedTiles
         (memset (m_pabyCachedTiles st) pabyData
            (GDALCopyWords64 host (dfNoDataValue cfg) (m_eDT cfg)) nPixels) st.

Definition FillEmptyTile (pabyData : nat) (st : State) : State :=
  FillBuffer pabyData (Z.to_nat (nBands cfg) * nBlockPixels) st.

Definition FillEmptyTileSingleBand (pabyData : nat) (st : State) : State :=
  FillBuffer pabyData nBlockPixels st.

(** *** GetColorTable *)

(** The rows of the tile table in key order. *)
Definition tile_rows (st : State) : list (Z * Z * Z * TileRow) :=
  map_to_list (tiles (hDB st)).

(** One turn of the loop: the tile the statement selects is opened as a PNG;
    it gives its colour table when it has one band.  The result tells whether
    to retry. *)
Definition GetColorTable_query (s : Stmt) (row : option TileRow) (st : State)
  : bool * State :=
  let '(f, st) := exec s st in
  match f, row with
  | NoFault, Some {| tile_data := Some blob |} =>
      match GDALOpen host [DRV_PNG] blob with
      | Some ds =>
          if ds_RasterCount ds =? 1
          then (false, set_m_poCT (ds_ColorTable ds) (m_bTriedEstablishingCT st) st)
          else (true, st)
      | None => (true, st)
      end
  | _, _ => (false, st)
  end.

Definition GetColorTable (st : State) : option GDALColorTable * State :=
  if negb (nBands cfg =? 1) then (None, st)
  else if m_bTriedEstablishingCT st then (m_poCT st, st)
  else
    let st := set_m_poCT (m_poCT st) true st in
    let first :=
      snd <$> head (filter (fun '(z, _, _, _) => z = m_nZoomLevel cfg) (tile_rows st)) in
    let '(bRetry, st) :=
      GetColorTable_query (SelectAnyTile (m_nZoomLevel cfg)) first st in
    if bRetry then
      let col := m_nShiftXTiles cfg + nRasterXSize cfg ÷ 2 ÷ nBlockXSize cfg in
      let row := GetRowFromIntoTopConvention host
                   (m_nShiftYTiles cfg + nRasterYSize cfg ÷ 2 ÷ nBlockYSize cfg) in
      let '(_, st) :=
        GetColorTable_query (SelectTile (m_nZoomLevel cfg) row col)
          (tiles (hDB st) !! (m_nZoomLevel cfg, row, col)) st in
      (m_poCT st, st)
    else (m_poCT st, st).

(** *** ReadTile (osMemFileName, pabyTileData, dfTileOffset, dfTileScale,
    pbIsLossyFormat)

    The overload that decodes a blob, here [ReadTileBlob].  [pabyTileData] is
    the place of the destination in [m_pabyCachedTiles]. *)

(** The samples [off .. off + n - 1] of a buffer replaced by their images. *)
Definition map_region (f : Z -> Z) (buf : list Z) (off n : nat) : list Z :=
  list_inserts off (map f (buf_slice buf off n)) buf.

(** The loop over the pixels [i] of a tile at [off], each writing the buffer. *)
Definition for_pixels (body : nat -> list Z -> list Z) (buf : list Z) : list Z :=
  foldl (fun b i => body i b) buf (seq 0 nBlockPixels).

Definition decode_Int16 (dfTileOffset_ dfTileScale_ : float) (usVal : Z) : Z :=
  let dfVal := F_floor ((Z2F usVal * dfTileScale_ + dfTileOffset_) * m_dfScale cfg
                        + m_dfOffset cfg + 0.5)%float in
  let dfVal := if bHasNoData cfg && (usVal =? m_usGPKGNull cfg)
               then dfNoDataValue cfg else dfVal in
  let dfVal := if (32767 <? dfVal)%float then 32767%float
               else if (dfVal <? -32768)%float then (-32768)%float else dfVal in
  static_cast_GInt16 dfVal.

Definition decode_UInt16 (dfTileOffset_ dfTileScale_ : float) (nVal : Z) : Z :=
  let dfVal := F_floor ((Z2F nVal * dfTileScale_ + dfTileOffset_) * m_dfScale cfg
                        + m_dfOffset cfg + 0.5)%float in
  let dfVal := if bHasNoData cfg && (nVal =? m_usGPKGNull cfg)
               then dfNoDataValue cfg else dfVal in
  let dfVal := if (65535 <? dfVal)%float then 65535%float
               else if (dfVal <? 0)%float then 0%float else dfVal in
  static_cast_GUInt16 dfVal.

Definition decode_Float32 (dfTileOffset_ dfTileScale_ : float) (usVal : Z) : Z :=
  let dfVal := ((Z2F usVal * dfTileScale_ + dfTileOffset_) * m_dfScale cfg
                + m_dfOffset cfg)%float in
  let dfVal := if (m_dfPrecision cfg =? 1)%float
               then F_floor (dfVal + 0.5)%float else dfVal in
  let dfVal := if bHasNoData cfg && (usVal =? m_usGPKGNull cfg)
               then dfNoDataValue cfg else dfVal in
  static_cast_float host dfVal.

(** The drivers a blob may be opened with. *)
Definition ReadTile_drivers : list TileDriver :=
  if decide (m_eDT cfg = GDT_Byte) then [DRV_JPEG; DRV_PNG; DRV_WEBP]
  else if decide (m_eTF cfg = GPKG_TF_TIFF_32BIT_FLOAT) then [DRV_GTiff]
  else [DRV_PNG].

(** The test before "Inconsistent tiles characteristics". *)
Definition inconsistent_tile (ds : TileDS) : bool :=
  negb ((ds_RasterXSize ds =? nBlockXSize cfg)
        && (ds_RasterYSize ds =? nBlockYSize cfg)
        && ((1 <=? ds_RasterCount ds) && (ds_RasterCount ds <=? 4)))
  || (negb (bool_decide (m_eDT cfg = GDT_Byte)) && negb (ds_RasterCount ds =? 1)).

Definition eRequestDT : GDALDataType :=
  if decide (m_eTF cfg = GPKG_TF_PNG_16BIT) then GDT_UInt16
  else if decide (m_eTF cfg = GPKG_TF_TIFF_32BIT_FLOAT) then GDT_Float32
  else GDT_Byte.

(** The part of the function for a tile that is not of type Byte. *)
Definition ReadTile_convert_nonByte (off : nat) (dfTileOffset_ dfTileScale_ : float)
  (buf : list Z) : list Z :=
  match m_eDT cfg with
  | GDT_Int16 => map_region (decode_Int16 dfTileOffset_ dfTileScale_) buf off nBlockPixels
  | GDT_UInt16 =>
      if negb (m_dfOffset cfg =? 0)%float || negb (m_dfScale cfg =? 1)%float
         || negb (dfTileOffset_ =? 0)%float || negb (dfTileScale_ =? 1)%float
      then map_region (decode_UInt16 dfTileOffset_ dfTileScale_) buf off nBlockPixels
      else buf
  | GDT_Float32 =>
      if decide (eRequestDT = GDT_UInt16)
      then map_region (decode_Float32 dfTileOffset_ dfTileScale_) buf off nBlockPixels
      else buf
  | GDT_Byte => buf
  end.

(** "Map RGB(A) tile to single-band color indexed". *)
Definition map_rgb_to_index (ct : GDALColorTable) (nTileBandCount : Z) (off : nat)
  (buf : list Z) : list Z :=
  let oMapEntryToIndex := entry_to_index ct nTileBandCount in
  let iBestEntryFor0 := GPKGFindBestEntry ct 0 0 0 0 nTileBandCount in
  for_pixels (fun i b =>
    let b1 := buf_read b (off + i) in
    let b2 := buf_read b (off + i + nBlockPixels) in
    let b3 := buf_read b (off + i + 2 * nBlockPixels) in
    let b4 := buf_read b (off + i + 3 * nBlockPixels) in
    let nVal := rgba_key b1 b2 b3 b4 nTileBandCount in
    let idx :=
      if nVal =? 0 then iBestEntryFor0
      else match oMapEntryToIndex !! nVal with
           | None => GPKGFindBestEntry ct b1 b2 b3 b4 nTileBandCount
           | Some j => j
           end in
    <[(off + i)%nat := idx mod 256]> b) buf.

(** "Expand color indexed to RGB(A)" with the colour table of the tile. *)
Definition expand_index_to_rgba (ct : GDALColorTable) (off : nat) (buf : list Z)
  : list Z :=
  for_pixels (fun i b =>
    let byVal := buf_read b (off + i) in
    let b := <[(off + i)%nat := abyCT ct byVal 0]> b in
    let b := <[(off + i + nBlockPixels)%nat := abyCT ct byVal 1]> b in
    let b := <[(off + i + 2 * nBlockPixels)%nat := abyCT ct byVal 2]> b in
    <[(off + i + 3 * nBlockPixels)%nat := abyCT ct byVal 3]> b) buf.

(** [memcpy] of band [src] of the tile at [off] onto its band [dst]. *)
Definition copy_band (off : nat) (dst src : Z) (buf : list Z) : list Z :=
  memcpy buf (band_off off dst) (buf_slice buf (band_off off src) nBlockPixels)
    nBlockPixels.

(** The band bookkeeping at the end of the function, for a Byte tile. *)
Definition ReadTile_expand_bands (nTileBandCount : Z) (poCT : option GDALColorTable)
  (ct : option GDALColorTable) (off : nat) (buf : list Z) : list Z :=
  if nBands cfg =? 2 then
    if (nTileBandCount =? 1) || (nTileBandCount =? 3)
    then memset buf (band_off off 1) 255 nBlockPixels
    else if nTileBandCount =? 4 then copy_band off 1 3 buf
    else buf
  else if nTileBandCount =? 2 then
    copy_band off 2 0 (copy_band off 1 0 (copy_band off 3 1 buf))
  else if (nTileBandCount =? 1) && negb ((nBands cfg =? 1) && bool_decide (ct ≠ None))
  then
    match poCT with
    | Some tct => expand_index_to_rgba tct off buf
    | None =>
        let buf := copy_band off 2 0 (copy_band off 1 0 buf) in
        if nBands cfg =? 4 then memset buf (band_off off 3) 255 nBlockPixels
        else buf
    end
  else if (nTileBandCount =? 3) && (nBands cfg =? 4)
  then memset buf (band_off off 3) 255 nBlockPixels
  else buf.

(** The diagnostics on the colour tables of the dataset and of the tile. *)
Definition ReadTile_check_ct (nTileBandCount : Z) (poCT : option GDALColorTable)
  (st : State) : State :=
  if (nBands cfg =? 1) && (nTileBandCount =? 1) && bool_decide (poCT ≠ None)
     && bool_decide (m_poCT st ≠ None) && negb (bool_decide (poCT = m_poCT st))
  then CPLError "Different color tables. Unhandled for now" st
  else if ((nBands cfg =? 1) && (3 <=? nTileBandCount))
          || ((nBands cfg =? 1) && (nTileBandCount =? 1)
              && bool_decide (m_poCT st ≠ None) && bool_decide (poCT = None))
          || (((nBands cfg =? 1) || (nBands cfg =? 2)) && (nTileBandCount =? 1)
              && bool_decide (m_poCT st = None) && bool_decide (poCT ≠ None))
  then CPLError "Inconsistent dataset and tiles band characteristics" st
  else st.

(** The result is the error code, the value left in [*pbIsLossyFormat] (which
    the callers that pass it have set to false) and the state. *)
Definition ReadTileBlob (blob : Blob) (pabyTileData : nat)
  (dfTileOffset_ dfTileScale_ : float) (st : State) : CPLErr * bool * State :=
  match GDALOpen host ReadTile_drivers blob with
  | None =>
      (CE_Failure, false,
       FillEmptyTile pabyTileData (CPLError "Cannot parse tile data" st))
  | Some poDSTile =>
      let nTileBandCount := ds_RasterCount poDSTile in
      if inconsistent_tile poDSTile then
        (CE_Failure, false,
         FillEmptyTile pabyTileData
           (CPLError "Inconsistent tiles characteristics" st))
      else
        match ds_RasterIO poDSTile eRequestDT with
        | None => (CE_Failure, false, FillEmptyTile pabyTileData st)
        | Some px =>
            let st :=
              set_m_pabyCachedTiles
                (memcpy (m_pabyCachedTiles st) pabyTileData px
                   (Z.to_nat nTileBandCount * nBlockPixels)) st in
            if negb (bool_decide (m_eDT cfg = GDT_Byte)) then
              (CE_None, false,
               set_m_pabyCachedTiles
                 (ReadTile_convert_nonByte pabyTileData dfTileOffset_
                    dfTileScale_ (m_pabyCachedTiles st)) st)
            else
              let '(poCT, st) :=
                if (nBands cfg =? 1) || (nTileBandCount =? 1)
                then (ds_ColorTable poDSTile, snd (GetColorTable st))
                else (None, st) in
              let lossy :=
                negb (bool_decide (ds_Driver poDSTile = DRV_PNG))
                || match poCT with
                   | Some t => Z.of_nat (length t) =? 256
                   | None => false
                   end in
              match m_poCT st with
              | Some ct =>
                  if (nBands cfg =? 1) && negb (nTileBandCount =? 1) then
                    (CE_None, lossy,
                     set_m_pabyCachedTiles
                       (map_rgb_to_index ct nTileBandCount pabyTileData
                          (m_pabyCachedTiles st)) st)
                  else
                    let st := ReadTile_check_ct nTileBandCount poCT st in
                    (CE_None, lossy,
                     set_m_pabyCachedTiles
                       (ReadTile_expand_bands nTileBandCount poCT (m_poCT st)
                          pabyTileData (m_pabyCachedTiles st)) st)
              | None =>
                  let st := ReadTile_check_ct nTileBandCount poCT st in
                  (CE_None, lossy,
                   set_m_pabyCachedTiles
                     (ReadTile_expand_bands nTileBandCount poCT (m_poCT st)
                        pabyTileData (m_pabyCachedTiles st)) st)
              end
        end
  end.

(** *** GetTileOffsetAndScale *)

Definition GetTileOffsetAndScale (nTileId : Z) (st : State) : float * float * State :=
  if decide (m_eTF cfg = GPKG_TF_PNG_16BIT) then
    let '(f, st) := exec (SelectAncillary nTileId) st in
    match f, ancillary (hDB st) !! nTileId with
    | NoFault, Some r =>
        (default 0%float (anc_offset r), default 1%float (anc_scale r), st)
    | _, _ => (0%float, 1%float, st)
    end
  else (0%float, 1%float, st).

(** *** ReadTile (nRow, nCol, pabyData, pbIsLossyFormat)

    The overload that fetches a tile, here [ReadTileAt].  The first component
    of the result is false for a null pointer, true for [pabyData]. *)

(** The row of [partial_tiles] a statement keyed by (zoom, row, column)
    selects. *)
Definition find_partial (zoom row col : Z) (db : TempDB) : option PartialTile :=
  head (filter (fun r => pt_zoom_level r = zoom ∧ pt_tile_row r = row
                         ∧ pt_tile_column r = col) (partial_tiles db)).

(** The mask of the four quadrant bits of band [iBand] (from 1):
    [((1 << 4) - 1) << (4 * (iBand - 1))]. *)
Definition band_mask (iBand : Z) : Z := Z.shiftl (Z.shiftl 1 4 - 1) (4 * (iBand - 1)).

(** The loop over the bands that copies the bands of a partial tile to the
    tile at [off], an empty band standing for a band without quadrant. *)
Definition load_partial_bands (r : PartialTile) (nPartialFlag : Z) (off : nat)
  (st : State) : State :=
  foldl (fun st iBand =>
           if Z.land nPartialFlag (band_mask iBand) =? 0
           then FillEmptyTileSingleBand (band_off off (iBand - 1)) st
           else set_m_pabyCachedTiles
                  (memcpy (m_pabyCachedTiles st) (band_off off (iBand - 1))
                     (default [] (pt_band r iBand)) nBlockPixels) st)
    st (seqZ 1 (nBands cfg)).

Definition shifted : bool :=
  negb (m_nShiftXPixelsMod cfg =? 0) || negb (m_nShiftYPixelsMod cfg =? 0).

Definition ReadTileAt (nRow_ nCol_ : Z) (pabyData : nat) (st : State)
  : bool * bool * State :=
  if (nRow_ <? 0) || (nCol_ <? 0) || (m_nTileMatrixHeight cfg <=? nRow_)
     || (m_nTileMatrixWidth cfg <=? nCol_)
  then (true, false, FillEmptyTile pabyData st)
  else
    let key := (m_nZoomLevel cfg, GetRowFromIntoTopConvention host nRow_, nCol_) in
    let '(f, st) := exec (SelectTile key.1.1 key.1.2 key.2) st in
    let row := match tiles (hDB st) !! key with
               | Some r => if m_osWHERE host key r then Some r else None
               | None => None
               end in
    match f, row with
    | PrepareError, _ => (false, false, st)
    | NoFault, Some {| tile_id := id; tile_data := Some blob |} =>
        let nTileId := if decide (m_eDT cfg = GDT_Byte) then 0 else id in
        let '(dfTileOffset_, dfTileScale_, st) := GetTileOffsetAndScale nTileId st in
        let '(_, lossy, st) :=
          ReadTileBlob blob pabyData dfTileOffset_ dfTileScale_ st in
        (true, lossy, st)
    | StepBusy, _ =>
        (true, false,
         CPLError "sqlite3_step(%s) failed (SQLITE_BUSY): %s"
           (FillEmptyTile pabyData st))
    | _, _ =>
        match m_hTempDB st with
        | Some db =>
            if shifted then
              let '(f, st) :=
                exec (TmpSelectPartial (m_nZoomLevel cfg) nRow_ nCol_) st in
              match f, find_partial (m_nZoomLevel cfg) nRow_ nCol_ db with
              | PrepareError, _ => (true, false, FillEmptyTile pabyData st)
              | NoFault, Some r =>
                  (true, false,
                   load_partial_bands r (pt_partial_flag r) pabyData st)
              | _, _ => (true, false, FillEmptyTile pabyData st)
              end
            else (true, false, FillEmptyTile pabyData st)
        | None => (true, false, FillEmptyTile pabyData st)
        end
    end.

(** *** GetTileId, DeleteTile, DeleteFromGriddedTileAncillary *)

Definition tile_key (nRow_ nCol_ : Z) : Z * Z * Z :=
  (m_nZoomLevel cfg, GetRowFromIntoTopConvention host nRow_, nCol_).

(** [SQLGetInteger64] answers 0 when the statement fails or selects no row. *)
Definition GetTileId (nRow_ nCol_ : Z) (st : State) : Z * State :=
  let key := tile_key nRow_ nCol_ in
  let '(f, st) := exec (SelectTileId key.1.1 key.1.2 key.2) st in
  match f, tiles (hDB st) !! key with
  | NoFault, Some r => (tile_id r, st)
  | _, _ => (0, st)
  end.

Definition DeleteTile (nRow_ nCol_ : Z) (st : State) : bool * State :=
  let key := tile_key nRow_ nCol_ in
  let '(f, st) := exec (DeleteTileStmt key.1.1 key.1.2 key.2) st in
  match f with
  | NoFault =>
      (true,
       set_hDB {| tiles := delete key (tiles (hDB st));
                  tile_next_id := tile_next_id (hDB st);
                  ancillary := ancillary (hDB st) |} st)
  | _ => (false, CPLError "Failure when deleting tile (row=%d,col=%d) at zoom_level=%d : %s" st)
  end.

(** The result is [rc == SQLITE_OK] for the code of [sqlite3_step], which is
    SQLITE_DONE when the statement ran. *)
Definition DeleteFromGriddedTileAncillary (nTileId : Z) (st : State) : bool * State :=
  let '(f, st) := exec (DeleteAncillary nTileId) st in
  match f with
  | NoFault =>
      (false,
       set_hDB {| tiles := tiles (hDB st);
                  tile_next_id := tile_next_id (hDB st);
                  ancillary := delete nTileId (ancillary (hDB st)) |} st)
  | _ => (false, st)
  end.

(** *** WriteTileInternal: the cached tile *)

(** [abBandDirty[i]] of the first descriptor. *)
Definition band_dirty (st : State) (i : Z) : bool :=
  nth (Z.to_nat i) (abBandDirty (desc0 (m_asCachedTilesDesc st))) false.

(** [bAllDirty] and [bAllNonDirty] after the loop over the bands. *)
Definition bAllDirty (st : State) : bool :=
  forallb (band_dirty st) (seqZ 0 (nBands cfg)).

Definition bAllNonDirty (st : State) : bool :=
  forallb (fun i => negb (band_dirty st i)) (seqZ 0 (nBands cfg)).

(** The descriptor of a slot after its flush. *)
Definition desc_flushed : CachedTileDesc :=
  {| nRow := -1; nCol := -1; nIdxWithinTileData := -1;
     abBandDirty := [false; false; false; false] |}.

(** "If all bands for that block are not dirty/written, we need to fetch the
    missing ones if the tile exists": the tile is read into the second cached
    tile and its bands replace the bands that are not dirty.  The result
    carries [bIsLossyFormat]. *)
Definition fetch_missing_bands (nRow_ nCol_ : Z) (st : State) : bool * State :=
  let st := set_m_asCachedTilesDesc
              (invalidate_desc_1_3 (m_asCachedTilesDesc st)) st in
  let pabyTemp := cached_tile 1 in
  let '(_, bIsLossyFormat, st) := ReadTileAt nRow_ nCol_ pabyTemp st in
  (bIsLossyFormat,
   foldl (fun st i =>
            if band_dirty st i then st
            else set_m_pabyCachedTiles
                   (memcpy (m_pabyCachedTiles st) (band_off 0 i)
                      (buf_slice (m_pabyCachedTiles st) (band_off pabyTemp i)
                         nBlockPixels) nBlockPixels) st)
     st (seqZ 0 (nBands cfg))).

(** "Validity area of tile data in intra-tile coordinate space". *)
Record Validity := {
  bPartialTile : bool;
  iXOff : Z;
  iYOff : Z;
  iXCount : Z;
  iYCount : Z
}.

Definition nAlphaBand : Z :=
  if nBands cfg =? 2 then 2 else if nBands cfg =? 4 then 4 else 0.

(** "Compute origin of tile in GDAL raster space". *)
Definition tile_nXOff (nCol_ : Z) : Z :=
  (nCol_ - m_nShiftXTiles cfg) * nBlockXSize cfg - m_nShiftXPixelsMod cfg.

Definition tile_nYOff (nRow_ : Z) : Z :=
  (nRow_ - m_nShiftYTiles cfg) * nBlockYSize cfg - m_nShiftYPixelsMod cfg.

Definition validity (nXOff nYOff : Z) : Validity :=
  if nAlphaBand =? 0 then
    let x1 := nXOff <? 0 in
    let x2 := nRasterXSize cfg - nBlockXSize cfg <? nXOff in
    let y1 := nYOff <? 0 in
    let y2 := nRasterYSize cfg - nBlockYSize cfg <? nYOff in
    let xc := if x1 then nBlockXSize cfg + nXOff else nBlockXSize cfg in
    let yc := if y1 then nBlockYSize cfg + nYOff else nBlockYSize cfg in
    {| bPartialTile := x1 || x2 || y1 || y2;
       iXOff := if x1 then - nXOff else 0;
       iYOff := if y1 then - nYOff else 0;
       iXCount := if x2 then xc - (nXOff + nBlockXSize cfg - nRasterXSize cfg) else xc;
       iYCount := if y2 then yc - (nYOff + nBlockYSize cfg - nRasterYSize cfg) else yc |}
  else
    {| bPartialTile := false; iXOff := 0; iYOff := 0;
       iXCount := nBlockXSize cfg; iYCount := nBlockYSize cfg |}.

(** The outcome of the detection of an empty tile: the tile is to be removed,
    or it is kept and [bAllOpaque] has the given value. *)
Inductive Emptiness := TileIsEmpty | TileKept (bAllOpaque : bool).

Definition bHasNanNoData : bool := bHasNoData cfg && PrimFloat.is_nan (dfNoDataValue cfg).

(** The test of the loop over a Float32 tile: the sample is skipped. *)
Definition float_is_nodata (fVal : Z) : bool :=
  if bHasNanNoData then PrimFloat.is_nan (f32_to_double fVal)
  else
    let fNoDataValueOrZero :=
      if bHasNoData cfg then static_cast_float host (dfNoDataValue cfg) else 0 in
    (f32_to_double fVal =? f32_to_double fNoDataValueOrZero)%float.

Definition detect_empty (allDirty : bool) (st : State) : Emptiness :=
  let buf := m_pabyCachedTiles st in
  if allDirty && bool_decide (m_eDT cfg = GDT_Byte) && bool_decide (m_poCT st = None)
     && negb (nAlphaBand =? 0)
  then
    let alpha := buf_slice buf (band_off 0 (nAlphaBand - 1)) nBlockPixels in
    let byFirstAlphaVal := buf_read buf (band_off 0 (nAlphaBand - 1)) in
    if forallb (fun v => v =? byFirstAlphaVal) (drop 1 alpha) then
      if byFirstAlphaVal =? 0 then TileIsEmpty
      else TileKept (byFirstAlphaVal =? 255)
    else TileKept false
  else if allDirty && bool_decide (m_eDT cfg = GDT_Byte)
          && bool_decide (m_poCT st = None)
          && (negb (bHasNoData cfg) || (dfNoDataValue cfg =? 0)%float)
  then
    if forallb (fun v => v =? 0)
         (buf_slice buf 0 (nBlockPixels * Z.to_nat (nBands cfg)))
    then TileIsEmpty else TileKept true
  else if allDirty && bool_decide (m_eDT cfg = GDT_Float32) then
    if forallb float_is_nodata (buf_slice buf 0 nBlockPixels)
    then TileIsEmpty else TileKept true
  else TileKept true.

(** *** WriteTileInternal: the choice of the driver and of the bands *)

Record DriverChoice := {
  pszDriverName : TileDriver;
  bTileDriverSupports1Band : bool;
  bTileDriverSupports2Bands : bool;
  bTileDriverSupports4Bands : bool;
  bTileDriverSupportsCT : bool;
  eTileDT : GDALDataType
}.

Definition driver_PNG_full : DriverChoice :=
  {| pszDriverName := DRV_PNG; bTileDriverSupports1Band := true;
     bTileDriverSupports2Bands := m_bPNGSupports2Bands cfg;
     bTileDriverSupports4Bands := true;
     bTileDriverSupportsCT := m_bPNGSupportsCT cfg; eTileDT := GDT_Byte |}.

Definition driver_JPEG : DriverChoice :=
  {| pszDriverName := DRV_JPEG; bTileDriverSupports1Band := true;
     bTileDriverSupports2Bands := false; bTileDriverSupports4Bands := false;
     bTileDriverSupportsCT := false; eTileDT := GDT_Byte |}.

Definition choose_driver (allDirty allOpaque partialTile : bool)
  (ct : option GDALColorTable) : DriverChoice :=
  if bool_decide (m_eTF cfg = GPKG_TF_PNG_JPEG)
     || (negb allDirty && bool_decide (m_eTF cfg = GPKG_TF_JPEG))
  then
    if partialTile || negb allDirty || ((nBands cfg =? 2) && negb allOpaque)
       || ((nBands cfg =? 4) && negb allOpaque) || bool_decide (ct ≠ None)
    then driver_PNG_full else driver_JPEG
  else
    match m_eTF cfg with
    | GPKG_TF_PNG | GPKG_TF_PNG8 => driver_PNG_full
    | GPKG_TF_JPEG => driver_JPEG
    | GPKG_TF_WEBP =>
        {| pszDriverName := DRV_WEBP; bTileDriverSupports1Band := false;
           bTileDriverSupports2Bands := false;
           bTileDriverSupports4Bands := WEBPSupports4Bands host;
           bTileDriverSupportsCT := false; eTileDT := GDT_Byte |}
    | GPKG_TF_PNG_16BIT =>
        {| pszDriverName := DRV_PNG; bTileDriverSupports1Band := true;
           bTileDriverSupports2Bands := false; bTileDriverSupports4Bands := false;
           bTileDriverSupportsCT := false; eTileDT := GDT_UInt16 |}
    | GPKG_TF_TIFF_32BIT_FLOAT =>
        {| pszDriverName := DRV_GTiff; bTileDriverSupports1Band := true;
           bTileDriverSupports2Bands := false; bTileDriverSupports4Bands := false;
           bTileDriverSupportsCT := false; eTileDT := GDT_Float32 |}
    | GPKG_TF_PNG_JPEG =>
        {| pszDriverName := DRV_PNG; bTileDriverSupports1Band := false;
           bTileDriverSupports2Bands := false; bTileDriverSupports4Bands := false;
           bTileDriverSupportsCT := false; eTileDT := GDT_Byte |}
    end.

(** [nTileBands] of the tile to encode. *)
Definition choose_nTileBands (d : DriverChoice) (allDirty allOpaque partialTile : bool)
  (ct : option GDALColorTable) : Z :=
  if partialTile && (nBands cfg =? 1) && bool_decide (ct = None)
     && bTileDriverSupports2Bands d
  then 2
  else if partialTile && bTileDriverSupports4Bands d then 4
  else if allDirty && bool_decide (m_eTF cfg = GPKG_TF_PNG8) && (3 <=? nBands cfg)
          && allOpaque && negb partialTile
  then 1
  else if nBands cfg =? 2 then
    if allOpaque then (if bTileDriverSupports2Bands d then 1 else 3)
    else if negb (bTileDriverSupports2Bands d)
    then (if bTileDriverSupports4Bands d then 4 else 3)
    else nBands cfg
  else if (nBands cfg =? 4) && (allOpaque || negb (bTileDriverSupports4Bands d))
  then 3
  else
    match ct with
    | Some t =>
        if (nBands cfg =? 1) && negb (bTileDriverSupportsCT d) then
          if bTileDriverSupports4Bands d && existsb (fun e => c4 e =? 0) t
          then 4 else 3
        else nBands cfg
    | None =>
        if (nBands cfg =? 1) && negb (bTileDriverSupports1Band d) then 3
        else nBands cfg
    end.

(** The alpha band of a partial tile: zero, and 255 over the valid area. *)
Definition fill_partial_alpha (v : Validity) (nTargetAlphaBand : Z) (buf : list Z)
  : list Z :=
  let buf := memset buf (band_off 0 (nTargetAlphaBand - 1)) 0 nBlockPixels in
  for_rows (Z.to_nat (iYOff v)) (Z.to_nat (iYCount v))
    (fun iY b =>
       memset b (Z.to_nat (((nTargetAlphaBand - 1) * nBlockYSize cfg + Z.of_nat iY)
                           * nBlockXSize cfg + iXOff v))
         255 (Z.to_nat (iXCount v)))
    buf.

(** *** WriteTileInternal: the statistics and the quantisation of a Float32
    tile *)

(** [std::min] and [std::max] of two [float]. *)
Definition f32_min (a b : Z) : Z :=
  if (f32_to_double b <? f32_to_double a)%float then b else a.
Definition f32_max (a b : Z) : Z :=
  if (f32_to_double a <? f32_to_double b)%float then b else a.

(** The samples the loops skip as no-data. *)
Definition float_skipped (fVal : Z) : bool :=
  if bHasNanNoData then PrimFloat.is_nan (f32_to_double fVal)
  else bHasNoData cfg
       && (f32_to_double fVal
           =? f32_to_double (static_cast_float host (dfNoDataValue cfg)))%float.

(** One iteration of the loop of the statistics; [skip_inf] is true for the
    16-bit PNG format, which also skips the infinities. *)
Definition float_stat_step (skip_inf : bool) (a : StatAcc) (fVal : Z) : StatAcc :=
  if float_skipped fVal then a
  else if skip_inf && PrimFloat.is_infinity (f32_to_double fVal) then a
  else
    let fMin := if acc_nValidPixels a =? 0 then fVal else f32_min (acc_nMin a) fVal in
    let fMax := if acc_nValidPixels a =? 0 then fVal else f32_max (acc_nMax a) fVal in
    let n := acc_nValidPixels a + 1 in
    let dfDelta := (f32_to_double fVal - acc_dfTileMean a)%float in
    let mean := (acc_dfTileMean a + dfDelta / Z2F n)%float in
    {| acc_nMin := fMin; acc_nMax := fMax;
       acc_dfM2 := (acc_dfM2 a + dfDelta * (f32_to_double fVal - mean))%float;
       acc_nValidPixels := n; acc_dfTileMean := mean |}.

Definition float_stats (skip_inf : bool) (pSrc : list Z) : StatAcc :=
  foldl (float_stat_step skip_inf)
    {| acc_nMin := 0; acc_nMax := 0; acc_dfM2 := 0; acc_nValidPixels := 0;
       acc_dfTileMean := 0 |} pSrc.

Definition float_offset_scale (fMin fMax : Z) : float * float :=
  let dfGlobalMin := ((f32_to_double fMin - m_dfOffset cfg) / m_dfScale cfg)%float in
  let dfGlobalMax := ((f32_to_double fMax - m_dfOffset cfg) / m_dfScale cfg)%float in
  if (dfGlobalMin <? dfGlobalMax)%float then
    if bHasNoData cfg && (m_usGPKGNull cfg =? 65535)
       && (65534 <=? dfGlobalMax - dfGlobalMin)%float
    then (dfGlobalMin, ((dfGlobalMax - dfGlobalMin) / 65534)%float)
    else if bHasNoData cfg && (m_usGPKGNull cfg =? 0)
            && negb ((dfNoDataValue cfg - m_dfOffset cfg) / m_dfScale cfg =? 0)%float
    then
      let o := ((65535 * dfGlobalMin - dfGlobalMax) / 65534)%float in
      (o, (dfGlobalMin - o)%float)
    else (dfGlobalMin, ((dfGlobalMax - dfGlobalMin) / 65535)%float)
  else (dfGlobalMin, 1%float).

Definition quantize_float_pixel (tileOffset tileScale : float) (fVal : Z) : Z :=
  let d := f32_to_double fVal in
  if (if bHasNanNoData then PrimFloat.is_nan d
      else bHasNoData cfg
           && (d =? f32_to_double (static_cast_float host (dfNoDataValue cfg)))%float)
  then m_usGPKGNull cfg
  else
    let dfVal :=
      if PrimFloat.is_finite d
      then (((d - m_dfOffset cfg) / m_dfScale cfg - tileOffset) / tileScale)%float
      else if (0 <? d)%float then 65535%float else 0%float in
    let v := static_cast_GUInt16 (dfVal + 0.5)%float in
    if bHasNoData cfg && (v =? m_usGPKGNull cfg) then
      (if 0 <? m_usGPKGNull cfg then (v - 1) mod 65536 else (v + 1) mod 65536)
    else v.

Definition stats_of_float_acc (a : StatAcc) (tileOffset tileScale : float) : TileStats :=
  {| dfTileOffset := tileOffset; dfTileScale := tileScale;
     dfTileMin := f32_to_double (acc_nMin a);
     dfTileMax := f32_to_double (acc_nMax a);
     dfTileMean := acc_dfTileMean a;
     dfTileStdDev := if acc_nValidPixels a =? 0 then 0%float
                     else PrimFloat.sqrt (acc_dfM2 a / Z2F (acc_nValidPixels a))%float;
     nValidPixels := acc_nValidPixels a |}.

(** *** WriteTileInternal: the in-memory dataset *)

(** Where a band of the in-memory dataset points: at a band of
    [m_pabyCachedTiles], or at [pTempTileBuffer]. *)
Inductive BandSource := BandOfCache (iSrc : Z) | BandOfTemp (pTempTileBuffer : list Z).

(** [iSrc] for band [i] (from 0) of a Byte tile. *)
Definition byte_band_iSrc (nTileBands : Z) (partialTile : bool)
  (ct : option GDALColorTable) (i : Z) : Z :=
  if (nBands cfg =? 1) && bool_decide (ct = None) && (nTileBands =? 3) then 0
  else if (nBands cfg =? 1) && bool_decide (ct = None) && partialTile
          && (nTileBands =? 4)
  then (if i <? 3 then 0 else 3)
  else if (nBands cfg =? 2) && (3 <=? nTileBands) then (if i <? 3 then 0 else 1)
  else i.

(** The bands added to [poMEMDS], its colour table, and the statistics. *)
Definition build_bands (nTileBands : Z) (partialTile : bool) (st : State)
  : list BandSource * option GDALColorTable * TileStats :=
  let buf := m_pabyCachedTiles st in
  let px := buf_slice buf 0 nBlockPixels in
  if decide (m_eTF cfg = GPKG_TF_PNG_16BIT) then
    match m_eDT cfg with
    | GDT_Int16 =>
        let '(tmp, s) :=
          ProcessInt16UInt16Tile T_GInt16 px true (bHasNoData cfg)
            (dfNoDataValue cfg) (m_usGPKGNull cfg) (m_dfOffset cfg)
            (m_dfScale cfg) TileStats_init in
        ([BandOfTemp tmp], None, s)
    | GDT_UInt16 =>
        let '(tmp, s) :=
          ProcessInt16UInt16Tile T_GUInt16 px false (bHasNoData cfg)
            (dfNoDataValue cfg) (m_usGPKGNull cfg) (m_dfOffset cfg)
            (m_dfScale cfg) TileStats_init in
        ([BandOfTemp tmp], None, s)
    | GDT_Float32 =>
        let a := float_stats true px in
        let '(o, sc) := float_offset_scale (acc_nMin a) (acc_nMax a) in
        ([BandOfTemp (map (quantize_float_pixel o sc) px)], None,
         stats_of_float_acc a o sc)
    | GDT_Byte =>
        ([BandOfTemp (replicate nBlockPixels 0)], None, TileStats_init)
    end
  else if decide (m_eTF cfg = GPKG_TF_TIFF_32BIT_FLOAT) then
    ([BandOfCache 0], None, stats_of_float_acc (float_stats false px) 0 1)
  else
    (map (fun i => BandOfCache (byte_band_iSrc nTileBands partialTile (m_poCT st) i))
       (seqZ 0 nTileBands),
     if nTileBands =? 1 then m_poCT st else None,
     TileStats_init).

(** The pixels a band holds when [CreateCopy] reads it. *)
Definition resolve_band (buf : list Z) (b : BandSource) : list Z :=
  match b with
  | BandOfCache iSrc => buf_slice buf (band_off 0 iSrc) nBlockPixels
  | BandOfTemp tmp => tmp
  end.

(** The expansion of a paletted band to four bands, zero outside the
    validity area. *)
Definition memset4 (buf : list Z) (off n : nat) : list Z :=
  memset (memset (memset (memset buf off 0 n) (band_off off 1) 0 n)
            (band_off off 2) 0 n) (band_off off 3) 0 n.

Definition expand_palette_row (ct : GDALColorTable) (v : Validity) (iY : nat)
  (buf : list Z) : list Z :=
  let W := nBlockXSize cfg in
  let buf :=
    if 0 <? iXOff v then memset4 buf (Z.to_nat (Z.of_nat iY * W)) (Z.to_nat (iXOff v))
    else buf in
  let buf :=
    foldl (fun b iX =>
             let i := Z.to_nat (Z.of_nat iY * W + iX) in
             let byVal := buf_read b i in
             let b := <[i := abyCT ct byVal 0]> b in
             let b := <[band_off i 1 := abyCT ct byVal 1]> b in
             let b := <[band_off i 2 := abyCT ct byVal 2]> b in
             <[band_off i 3 := abyCT ct byVal 3]> b)
      buf (seqZ (iXOff v) (iXCount v)) in
  if iXOff v + iXCount v <? W
  then memset4 buf (Z.to_nat (Z.of_nat iY * W + iXOff v + iXCount v))
         (Z.to_nat (W - (iXOff v + iXCount v)))
  else buf.

Definition expand_palette (ct : GDALColorTable) (v : Validity) (buf : list Z) : list Z :=
  let W := nBlockXSize cfg in
  let H := nBlockYSize cfg in
  let buf := if 0 <? iYOff v then memset4 buf 0 (Z.to_nat (W * iYOff v)) else buf in
  let buf := for_rows (Z.to_nat (iYOff v)) (Z.to_nat (iYCount v))
               (expand_palette_row ct v) buf in
  if iYOff v + iYCount v <? H
  then memset4 buf (Z.to_nat ((iYOff v + iYCount v) * W))
         (Z.to_nat (W * (H - (iYOff v + iYCount v))))
  else buf.

(** The last changes of the pixels before the copy: the reduction of an RGB
    tile to 256 colours for PNG8, or the expansion of a paletted band.  The
    result carries the colour table the first band of [poMEMDS] gets, if it
    gets one here. *)
Definition finish_pixels (nTileBands : Z) (v : Validity) (st : State)
  : option GDALColorTable * State :=
  let buf := m_pabyCachedTiles st in
  if bool_decide (m_eTF cfg = GPKG_TF_PNG8) && (nTileBands =? 1) && (3 <=? nBands cfg)
  then
    let r := buf_slice buf 0 nBlockPixels in
    let g := buf_slice buf (band_off 0 1) nBlockPixels in
    let b := buf_slice buf (band_off 0 2) nBlockPixels in
    let poCT := GDALComputeMedianCutPCT host r g b in
    (Some poCT,
     set_m_pabyCachedTiles
       (memcpy buf 0 (GDALDitherRGB2PCT host r g b poCT (m_bDither cfg)) nBlockPixels)
       st)
  else
    match m_poCT st with
    | Some ct =>
        if (nBands cfg =? 1) && (1 <? nTileBands)
        then (None, set_m_pabyCachedTiles (expand_palette ct v buf) st)
        else (None, st)
    | None => (None, st)
    end.

Definition driver_options (d : DriverChoice) (allDirty : bool) : list DriverOption :=
  OPT_INTERNAL_DATASET ::
  match pszDriverName d with
  | DRV_JPEG => [OPT_QUALITY (m_nQuality cfg)]
  | DRV_WEBP => if negb allDirty then [OPT_LOSSLESS] else [OPT_QUALITY (m_nQuality cfg)]
  | DRV_PNG => [OPT_ZLEVEL (m_nZLevel cfg)]
  | DRV_GTiff =>
      OPT_COMPRESS_LZW ::
      (if nBlockXSize cfg * nBlockYSize cfg <=? 512 * 512
       then [OPT_BLOCKYSIZE (nBlockYSize cfg)] else [])
  end.

(** *** WriteTileInternal: the transaction and the insertion *)

Definition IStartTransaction (st : State) : State :=
  set_sql_log (EvStartTransaction :: sql_log st) st.

(** The result is [ICommitTransaction() == OGRERR_NONE]. *)
Definition ICommitTransaction (st : State) : bool * State :=
  let ok := ICommitTransaction_ok host (sql_log st) in
  (ok, set_sql_log (EvCommitTransaction ok :: sql_log st) st).

(** "Create or commit and recreate transaction", up to the increment of
    [m_nTileInsertionCount]; [false] when the commit fails. *)
Definition begin_or_commit (st : State) : bool * State :=
  if m_nTileInsertionCount st =? 0 then
    let st := IStartTransaction st in
    (true, set_m_nTileInsertionCount (m_nTileInsertionCount st + 1) st)
  else if m_nTileInsertionCount st =? 1000 then
    let '(ok, st) := ICommitTransaction st in
    if ok then
      let st := IStartTransaction st in
      let st := set_m_nTileInsertionCount 0 st in
      (true, set_m_nTileInsertionCount (m_nTileInsertionCount st + 1) st)
    else (false, set_m_nTileInsertionCount (-1) st)
  else (true, set_m_nTileInsertionCount (m_nTileInsertionCount st + 1) st).

(** INSERT OR REPLACE INTO the tile table; the result is [eErr]. *)
Definition insert_tile (nRow_ nCol_ : Z) (blob : Blob) (st : State) : CPLErr * State :=
  let key := tile_key nRow_ nCol_ in
  let '(f, st) := exec (InsertTile key.1.1 key.1.2 key.2 blob) st in
  match f with
  | NoFault =>
      (CE_None,
       set_hDB {| tiles := <[key := {| tile_id := tile_next_id (hDB st);
                                       tile_data := Some blob |}]> (tiles (hDB st));
                  tile_next_id := tile_next_id (hDB st) + 1;
                  ancillary := ancillary (hDB st) |} st)
  | PrepareError => (CE_Failure, st)
  | _ =>
      (CE_Failure,
       CPLError "Failure when inserting tile (row=%d,col=%d) at zoom_level=%d : %s" st)
  end.

(** The row of gpkg_2d_gridded_tile_ancillary of a quantised tile is deleted
    and inserted again; the table holds one row for an id. *)
Definition insert_ancillary (nRow_ nCol_ : Z) (s : TileStats) (st : State)
  : CPLErr * State :=
  let '(nTileId, st) := GetTileId nRow_ nCol_ st in
  if nTileId =? 0 then (CE_Failure, st)
  else
    let '(_, st) := DeleteFromGriddedTileAncillary nTileId st in
    let '(f, st) := exec (InsertAncillary nTileId) st in
    match f with
    | NoFault =>
        (CE_None,
         set_hDB {| tiles := tiles (hDB st);
                    tile_next_id := tile_next_id (hDB st);
                    ancillary :=
                      <[nTileId := {| anc_scale := Some (dfTileScale s);
                                      anc_offset := Some (dfTileOffset s);
                                      anc_min := dfTileMin s; anc_max := dfTileMax s;
                                      anc_mean := dfTileMean s;
                                      anc_std_dev := dfTileStdDev s |}]>
                        (ancillary (hDB st)) |} st)
    | PrepareError => (CE_Failure, st)
    | _ => (CE_Failure, CPLError "Cannot insert into gpkg_2d_gridded_tile_ancillary" st)
    end.

(** The tile format stores quantised tiles, with their ancillary row. *)
Definition quantized_format : bool :=
  bool_decide (m_eTF cfg = GPKG_TF_PNG_16BIT)
  || bool_decide (m_eTF cfg = GPKG_TF_TIFF_32BIT_FLOAT).

(** What follows a successful [CreateCopy]. *)
Definition store_tile (nRow_ nCol_ : Z) (blob : Blob) (s : TileStats) (st : State)
  : CPLErr * State :=
  let '(ok, st) := begin_or_commit st in
  if negb ok then (CE_Failure, st)
  else
    let '(eErr, st) := insert_tile nRow_ nCol_ blob st in
    if quantized_format then insert_ancillary nRow_ nCol_ s st
    else (eErr, st).

(** "Don't serialize it and remove it if it exists", for a quantised tile
    without a valid pixel. *)
Definition remove_quantized_tile (nRow_ nCol_ : Z) (st : State) : CPLErr * State :=
  let '(nId, st) := GetTileId nRow_ nCol_ st in
  if 0 <? nId then
    let '(_, st) := DeleteTile nRow_ nCol_ st in
    let '(_, st) := DeleteFromGriddedTileAncillary nId st in
    (CE_None, st)
  else (CE_None, st).

(** From the choice of the driver to the end of the function, for a tile
    that is not empty. *)
Definition encode_and_store (nRow_ nCol_ : Z) (allDirty allOpaque : bool)
  (v : Validity) (st : State) : CPLErr * State :=
  let st :=
    if (nBands cfg =? 1) && bool_decide (m_eDT cfg = GDT_Byte)
    then snd (GetColorTable st) else st in
  let d := choose_driver allDirty allOpaque (bPartialTile v) (m_poCT st) in
  if negb (GDALGetDriverByName host (pszDriverName d))
  then (CE_Failure, CPLError "Cannot find driver %s" st)
  else
    let nTileBands :=
      choose_nTileBands d allDirty allOpaque (bPartialTile v) (m_poCT st) in
    let st :=
      if bPartialTile v && ((nTileBands =? 2) || (nTileBands =? 4))
      then set_m_pabyCachedTiles
             (fill_partial_alpha v nTileBands (m_pabyCachedTiles st)) st
      else st in
    let '(bands, memct, stats) := build_bands nTileBands (bPartialTile v) st in
    if quantized_format && (nValidPixels stats =? 0)
    then remove_quantized_tile nRow_ nCol_ st
    else
      let '(ct8, st) := finish_pixels nTileBands v st in
      let poMEMDS :=
        {| mem_XSize := nBlockXSize cfg; mem_YSize := nBlockYSize cfg;
           mem_DataType := eTileDT d;
           mem_Bands := map (resolve_band (m_pabyCachedTiles st)) bands;
           mem_ColorTable := match ct8 with Some c => Some c | None => memct end |} in
      match CreateCopy host (pszDriverName d) (driver_options d allDirty) poMEMDS with
      | None => (CE_Failure, st)
      | Some blob => store_tile nRow_ nCol_ blob stats st
      end.

Definition WriteTileInternal (st : State) : CPLErr * State :=
  let d0 := desc0 (m_asCachedTilesDesc st) in
  if negb (bUpdate cfg && (0 <=? nRow d0) && (0 <=? nCol d0)
           && (nIdxWithinTileData d0 =? 0))
  then (CE_None, st)
  else
    let nRow_ := nRow d0 in
    let nCol_ := nCol d0 in
    let allDirty := bAllDirty st in
    if bAllNonDirty st then (CE_None, st)
    else
      let '(bIsLossyFormat, st) :=
        if negb allDirty then fetch_missing_bands nRow_ nCol_ st else (false, st) in
      let nXOff := tile_nXOff nCol_ in
      let nYOff := tile_nYOff nRow_ in
      if (nRasterXSize cfg <=? nXOff) || (nRasterYSize cfg <=? nYOff)
      then (CE_None, st)
      else
        let v := validity nXOff nYOff in
        let st := set_m_asCachedTilesDesc
                    (set_desc0 desc_flushed (m_asCachedTilesDesc st)) st in
        match detect_empty allDirty st with
        | TileIsEmpty => (CE_None, snd (DeleteTile nRow_ nCol_ st))
        | TileKept allOpaque => encode_and_store nRow_ nCol_ allDirty allOpaque v st
        end.

(** *** WriteTile *)

(** Modelled from the spec: [GDALRasterBlock::EnterDisableDirtyBlockFlush] and
    [GDALRasterBlock::LeaveDisableDirtyBlockFlush] are not in this file.  They
    open and close the "block-flush disabled" region of the spec: the block
    cache flushes no dirty block while the counter is positive. *)
Definition EnterDisableDirtyBlockFlush (st : State) : State :=
  set_nDisableDirtyBlockFlush (nDisableDirtyBlockFlush st + 1) st.

Definition LeaveDisableDirtyBlockFlush (st : State) : State :=
  set_nDisableDirtyBlockFlush (nDisableDirtyBlockFlush st - 1) st.

Definition WriteTile (st : State) : CPLErr * State :=
  if m_nTileInsertionCount st <? 0 then (CE_Failure, st)
  else if m_bInWriteTile st then
    (CE_Failure,
     CPLError "Recursive call to GDALGPKGMBTilesLikePseudoDataset::WriteTile()" st)
  else
    let st := EnterDisableDirtyBlockFlush st in
    let st := set_m_bInWriteTile true st in
    let '(eErr, st) := WriteTileInternal st in
    let st := set_m_bInWriteTile false st in
    let st := LeaveDisableDirtyBlockFlush st in
    (eErr, st).

(** *** The table partial_tiles *)

(** The columns of UNIQUE (zoom_level, tile_column, tile_row). *)
Definition pt_key (r : PartialTile) : Z * Z * Z :=
  (pt_zoom_level r, pt_tile_column r, pt_tile_row r).

Definition unique_ok (rows : list PartialTile) : bool :=
  bool_decide (NoDup (pt_key <$> rows)).

(** A statement that changes [partial_tiles]: it runs unless the host fails
    it or the new rows break the UNIQUE constraint, which [sqlite3_step]
    reports as an error. *)
Definition tmp_exec (s : Stmt) (change : TempDB -> TempDB) (st : State)
  : Fault * State :=
  let '(f, st) := exec s st in
  match f, m_hTempDB st with
  | NoFault, Some db =>
      if unique_ok (partial_tiles (change db))
      then (NoFault, set_m_hTempDB (Some (change db)) st)
      else (StepError, st)
  | NoFault, None => (StepError, st)
  | _, _ => (f, st)
  end.

(** zoom_level = -1 - m_nZoomLevel, partial_flag = 0, age = -1. *)
Definition pt_dead (r : PartialTile) : PartialTile :=
  {| pt_id := pt_id r; pt_zoom_level := -1 - m_nZoomLevel cfg;
     pt_tile_column := pt_tile_column r; pt_tile_row := pt_tile_row r;
     pt_tile_data_band := pt_tile_data_band r; pt_partial_flag := 0;
     pt_age := -1 |}.

Definition on_rows (f : list PartialTile -> list PartialTile) (db : TempDB) : TempDB :=
  {| partial_tiles := f (partial_tiles db); pt_next_id := pt_next_id db |}.

(** WHERE zoom_level = m_nZoomLevel AND partial_flag != 0. *)
Definition pt_active (r : PartialTile) : Prop :=
  pt_zoom_level r = m_nZoomLevel cfg ∧ pt_partial_flag r ≠ 0.

#[local] Instance pt_active_dec r : Decision (pt_active r).
Proof. unfold pt_active. apply _. Defined.

(** ORDER BY age. *)
Definition age_le (a b : PartialTile) : Prop := pt_age a ≤ pt_age b.

#[local] Instance age_le_dec a b : Decision (age_le a b).
Proof. unfold age_le. apply _. Defined.

Definition select_active (by_age : bool) (db : TempDB) : list PartialTile :=
  let rows := filter pt_active (partial_tiles db) in
  if by_age then merge_sort age_le rows else rows.

(** *** FlushRemainingShiftedTiles *)

(** "This method assumes that there are no dirty blocks alive so check this
    assumption": the loops over [iX], [iY] and [iBand]. *)
Definition found_dirty_block (nRow_ nCol_ : Z) (st : State) : bool :=
  let nXBlocks := DIV_ROUND_UP host (nRasterXSize cfg) (nBlockXSize cfg) in
  let nYBlocks := DIV_ROUND_UP host (nRasterYSize cfg) (nBlockYSize cfg) in
  let nBlockXOff := nCol_ - m_nShiftXTiles cfg in
  let nBlockYOff := nRow_ - m_nShiftYTiles cfg in
  existsb (fun iX =>
    if (nBlockXOff + iX <? 0) || (nXBlocks <=? nBlockXOff + iX) then false
    else
      existsb (fun iY =>
        if (nBlockYOff + iY <? 0) || (nYBlocks <=? nBlockYOff + iY) then false
        else
          existsb (fun iBand =>
            bool_decide (block_cache st !! (iBand, nBlockXOff + iX, nBlockYOff + iY)
                         = Some true))
            (seqZ 1 (nBands cfg)))
        (seqZ 0 (if negb (m_nShiftYPixelsMod cfg =? 0) then 2 else 1)))
    (seqZ 0 (if negb (m_nShiftXPixelsMod cfg =? 0) then 2 else 1)).

Definition nFullFlags : Z := Z.shiftl 1 (4 * nBands cfg) - 1.

(** [iQuadrantFlag] of the quadrant loops. *)
Definition quadrant_flag (iXQuadrant iYQuadrant iXQuadrantMax iYQuadrantMax : Z) : Z :=
  Z.lor (Z.lor (Z.lor
    (if (iXQuadrant =? 0) && (iYQuadrant =? 0) then Z.shiftl 1 0 else 0)
    (if (iXQuadrant =? iXQuadrantMax) && (iYQuadrant =? 0) then Z.shiftl 1 1 else 0))
    (if (iXQuadrant =? 0) && (iYQuadrant =? iYQuadrantMax) then Z.shiftl 1 2 else 0))
    (if (iXQuadrant =? iXQuadrantMax) && (iYQuadrant =? iYQuadrantMax)
     then Z.shiftl 1 3 else 0).

(** The copy of the rows [nYOff .. nYOff + nYSize - 1], columns [nXOff ..
    nXOff + nXSize - 1], of band [nBand] from the tile at [src] to the tile
    at [dst]. *)
Definition copy_rect (dst src : nat) (nBand nXOff nYOff nXSize nYSize : Z)
  (buf : list Z) : list Z :=
  for_rows (Z.to_nat nYOff) (Z.to_nat nYSize)
    (fun iY b =>
       let o := Z.to_nat (((nBand - 1) * nBlockYSize cfg + Z.of_nat iY)
                          * nBlockXSize cfg + nXOff) in
       memcpy b (dst + o) (buf_slice b (src + o) (Z.to_nat nXSize)) (Z.to_nat nXSize))
    buf.

(** "Use the parts of that tile that aren't in the temporary database". *)
Definition merge_missing_quadrants (nPartialFlags : Z) (pabyTemp : nat)
  (buf : list Z) : list Z :=
  let iYQuadrantMax := if negb (m_nShiftYPixelsMod cfg =? 0) then 1 else 0 in
  let iXQuadrantMax := if negb (m_nShiftXPixelsMod cfg =? 0) then 1 else 0 in
  foldl (fun buf iYQuadrant =>
    foldl (fun buf iXQuadrant =>
      foldl (fun buf nBand =>
        let nLocalFlag :=
          Z.shiftl (quadrant_flag iXQuadrant iYQuadrant iXQuadrantMax iYQuadrantMax)
            (4 * (nBand - 1)) in
        if Z.land nPartialFlags nLocalFlag =? 0 then
          let '(nXOff, nXSize) :=
            if (iXQuadrant =? 0) && negb (m_nShiftXPixelsMod cfg =? 0)
            then (0, m_nShiftXPixelsMod cfg)
            else (m_nShiftXPixelsMod cfg, nBlockXSize cfg - m_nShiftXPixelsMod cfg) in
          let '(nYOff, nYSize) :=
            if (iYQuadrant =? 0) && negb (m_nShiftYPixelsMod cfg =? 0)
            then (0, m_nShiftYPixelsMod cfg)
            else (m_nShiftYPixelsMod cfg, nBlockYSize cfg - m_nShiftYPixelsMod cfg) in
          copy_rect 0 pabyTemp nBand nXOff nYOff nXSize nYSize buf
        else buf)
        buf (seqZ 1 (nBands cfg)))
      buf (seqZ 0 (iXQuadrantMax + 1)))
    buf (seqZ 0 (iYQuadrantMax + 1)).

(** The tile of the main database, when a quadrant is missing. *)
Definition merge_with_main_tile (nRow_ nCol_ nPartialFlags : Z) (st : State) : State :=
  let key := tile_key nRow_ nCol_ in
  let '(f, st) := exec (SelectTile key.1.1 key.1.2 key.2) st in
  let row := match tiles (hDB st) !! key with
             | Some r => if m_osWHERE host key r then Some r else None
             | None => None
             end in
  match f, row with
  | PrepareError, _ => st
  | NoFault, Some {| tile_id := id; tile_data := Some blob |} =>
      let nTileId := if decide (m_eDT cfg = GDT_Byte) then 0 else id in
      let '(dfTileOffset_, dfTileScale_, st) := GetTileOffsetAndScale nTileId st in
      let pabyTemp := cached_tile 1 in
      let '(_, _, st) := ReadTileBlob blob pabyTemp dfTileOffset_ dfTileScale_ st in
      set_m_pabyCachedTiles
        (merge_missing_quadrants nPartialFlags pabyTemp (m_pabyCachedTiles st)) st
  | NoFault, None => st
  | _, _ => CPLError "sqlite3_step(%s) failed: %s" st
  end.

Definition desc_all_dirty (nRow_ nCol_ : Z) : CachedTileDesc :=
  {| nRow := nRow_; nCol := nCol_; nIdxWithinTileData := 0;
     abBandDirty := [true; true; true; true] |}.

(** The bands of a row of [partial_tiles] loaded into the first cached tile,
    completed from the main database, then written as a tile whose bands are
    all dirty. *)
Definition flush_partial_row (r : PartialTile) (st : State) : CPLErr * State :=
  let nRow_ := pt_tile_row r in
  let nCol_ := pt_tile_column r in
  let nPartialFlags := pt_partial_flag r in
  let st := load_partial_bands r nPartialFlags 0 st in
  let st := if nPartialFlags =? nFullFlags then st
            else merge_with_main_tile nRow_ nCol_ nPartialFlags st in
  let st := set_m_asCachedTilesDesc
              (set_desc0 (desc_all_dirty nRow_ nCol_) (m_asCachedTilesDesc st)) st in
  WriteTile st.

(** The do-while loop over the selected rows: [rows] are the rows the
    statement has still to return.  The result carries [eErr],
    [nCountFlushedTiles] and [bGotPartialTiles]. *)
Fixpoint flush_rows (bPartialFlush : bool) (nPartialActiveTiles : Z)
  (rows : list PartialTile) (nCountFlushedTiles : Z) (bGotPartialTiles : bool)
  (st : State) : CPLErr * Z * bool * State :=
  let '(f, st) := exec TmpStep st in
  match rows with
  | [] =>
      match f with
      | NoFault => (CE_None, nCountFlushedTiles, bGotPartialTiles, st)
      | _ => (CE_None, nCountFlushedTiles, bGotPartialTiles,
              CPLError "sqlite3_step(%s) failed: %s" st)
      end
  | r :: rows' =>
      match f with
      | NoFault =>
          if bPartialFlush && found_dirty_block (pt_tile_row r) (pt_tile_column r) st
          then flush_rows bPartialFlush nPartialActiveTiles rows'
                 nCountFlushedTiles true st
          else
            let n := nCountFlushedTiles + 1 in
            if bPartialFlush && (nPartialActiveTiles ÷ 2 <=? n)
            then (CE_None, n, true, st)
            else
              let '(eErr, st) := flush_partial_row r st in
              match eErr with
              | CE_None =>
                  let st :=
                    if bPartialFlush then
                      snd (tmp_exec (TmpDelete (m_nZoomLevel cfg) (pt_tile_row r)
                                       (pt_tile_column r))
                             (on_rows (filter (fun x =>
                                ¬ (pt_zoom_level x = m_nZoomLevel cfg
                                   ∧ pt_tile_row x = pt_tile_row r
                                   ∧ pt_tile_column x = pt_tile_column r))))
                             st)
                    else st in
                  flush_rows bPartialFlush nPartialActiveTiles rows' n true st
              | CE_Failure => (CE_Failure, n, true, st)
              end
      | _ => (CE_None, nCountFlushedTiles, bGotPartialTiles,
              CPLError "sqlite3_step(%s) failed: %s" st)
      end
  end.

Definition invalidate_all_desc (c : CachedTilesDesc) : CachedTilesDesc :=
  {| desc0 := desc_invalidate (desc0 c); desc1 := desc_invalidate (desc1 c);
     desc2 := desc_invalidate (desc2 c); desc3 := desc_invalidate (desc3 c) |}.

Definition FlushRemainingShiftedTiles (bPartialFlush : bool) (st : State)
  : CPLErr * State :=
  match m_hTempDB st with
  | None => (CE_None, st)
  | Some db =>
      let st := set_m_asCachedTilesDesc
                  (invalidate_all_desc (m_asCachedTilesDesc st)) st in
      let '(nPartialActiveTiles, st) :=
        if bPartialFlush then
          let '(f, st) := exec (TmpCountActive (m_nZoomLevel cfg)) st in
          match f with
          | NoFault => (Z.of_nat (length (filter pt_active (partial_tiles db))), st)
          | _ => (0, st)
          end
        else (0, st) in
      let '(f, st) := exec (TmpSelectActive (m_nZoomLevel cfg) bPartialFlush) st in
      match f with
      | PrepareError => (CE_Failure, st)
      | _ =>
          let '(eErr, _, bGotPartialTiles, st) :=
            flush_rows bPartialFlush nPartialActiveTiles
              (select_active bPartialFlush db) 0 false st in
          let st :=
            if bGotPartialTiles && negb bPartialFlush then
              snd (tmp_exec (TmpMarkAllDead (m_nZoomLevel cfg))
                     (on_rows (map (fun r => if decide (pt_active r) then pt_dead r
                                             else r))) st)
            else st in
          (eErr, st)
      end
  end.

(** *** DoPartialFlushOfPartialTilesIfNecessary *)

Definition DoPartialFlushOfPartialTilesIfNecessary (st : State) : CPLErr * State :=
  let nCurTimeStamp := time_now host (sql_log st) in
  let st := if m_nLastSpaceCheckTimestamp st =? 0
            then set_m_nLastSpaceCheckTimestamp nCurTimeStamp st else st in
  if (0 <? m_nLastSpaceCheckTimestamp st)
     && (m_bForceTempDBCompaction cfg
         || (10 <? nCurTimeStamp - m_nLastSpaceCheckTimestamp st))
  then
    let st := set_m_nLastSpaceCheckTimestamp nCurTimeStamp st in
    let nFreeSpace := VSIGetDiskFreeSpace host (sql_log st) in
    let bTryFreeing :=
      if (0 <=? nFreeSpace) && (nFreeSpace <? 1024 * 1024 * 1024) then true
      else
        match VSIStatL_TempDB host (sql_log st) with
        | Some size =>
            let nTempSpace :=
              match VSIStatL_Journal host (sql_log st) with
              | Some j => size + j
              | None =>
                  match VSIStatL_Wal host (sql_log st) with
                  | Some w => size + w
                  | None => size
                  end
              end in
            4 * nRasterXSize cfg * nBlockYSize cfg * nBands cfg
              * GDALGetDataTypeSizeBytes (m_eDT cfg) <? nTempSpace
        | None => false
        end in
    if bTryFreeing then
      let '(eErr, st) := FlushRemainingShiftedTiles true st in
      match eErr with
      | CE_Failure => (CE_Failure, st)
      | CE_None =>
          let '(_, st) :=
            tmp_exec TmpDeleteDead
              (on_rows (filter (fun r => ¬ (pt_zoom_level r < 0)))) st in
          let '(_, st) := exec TmpVacuum st in
          (CE_None, st)
      end
    else (CE_None, st)
  else (CE_None, st).

(** *** FlushTiles *)

Definition FlushTiles (st : State) : CPLErr * State :=
  if m_nTileInsertionCount st <? 0 then (CE_Failure, st)
  else
    let '(eErr, st) :=
      if bUpdate cfg then
        if shifted then FlushRemainingShiftedTiles false st else WriteTile st
      else (CE_None, st) in
    if 0 <? m_nTileInsertionCount st then
      let '(ok, st) := ICommitTransaction st in
      if ok then (eErr, set_m_nTileInsertionCount 0 st)
      else (CE_Failure, set_m_nTileInsertionCount (-1) st)
    else (eErr, st).

(** *** WriteShiftedTile *)

(** [iQuadrantFlag] of the rectangle written. *)
Definition written_quadrants (nDstXOffset nDstYOffset nDstXSize nDstYSize : Z) : Z :=
  let right := negb (nDstXOffset =? 0) || (nDstXOffset + nDstXSize =? nBlockXSize cfg) in
  let bottom := negb (nDstYOffset =? 0) || (nDstYOffset + nDstYSize =? nBlockYSize cfg) in
  Z.lor (Z.lor (Z.lor
    (if (nDstXOffset =? 0) && (nDstYOffset =? 0) then Z.shiftl 1 0 else 0)
    (if right && (nDstYOffset =? 0) then Z.shiftl 1 1 else 0))
    (if (nDstXOffset =? 0) && bottom then Z.shiftl 1 2 else 0))
    (if right && bottom then Z.shiftl 1 3 else 0).

(** The temporary database is created when it does not exist yet. *)
Definition open_temp_db (st : State) : bool * State :=
  match m_hTempDB st with
  | Some _ => (true, st)
  | None =>
      let ok := sqlite3_open_ok host (sql_log st) in
      let st := set_sql_log (EvOpenTempDB ok :: sql_log st) st in
      if ok then
        let '(_, st) := exec TmpSetup st in
        (true, set_m_hTempDB (Some {| partial_tiles := []; pt_next_id := 1 |}) st)
      else (false, CPLError "Cannot create temporary database %s" st)
  end.

(** The other bands of the record are read back into the first cached tile,
    the band just written is copied from the temporary tile; [None] when a
    statement cannot be prepared. *)
Fixpoint gather_bands (bands : list Z) (nBand nExistingId : Z) (pabyTemp : nat)
  (st : State) : option State :=
  match bands with
  | [] => Some st
  | iBand :: bands' =>
      if iBand =? nBand then
        gather_bands bands' nBand nExistingId pabyTemp
          (set_m_pabyCachedTiles
             (memcpy (m_pabyCachedTiles st) (band_off 0 (iBand - 1))
                (buf_slice (m_pabyCachedTiles st) (band_off pabyTemp (iBand - 1))
                   nBlockPixels) nBlockPixels) st)
      else
        let '(f, st) := exec (TmpSelectBand nExistingId iBand) st in
        let row := match m_hTempDB st with
                   | Some db => head (filter (fun r => pt_id r = nExistingId)
                                        (partial_tiles db))
                   | None => None
                   end in
        match f, row with
        | PrepareError, _ => None
        | NoFault, Some r =>
            gather_bands bands' nBand nExistingId pabyTemp
              (set_m_pabyCachedTiles
                 (memcpy (m_pabyCachedTiles st) (band_off 0 (iBand - 1))
                    (default [] (pt_band r iBand)) nBlockPixels) st)
        | _, _ => gather_bands bands' nBand nExistingId pabyTemp st
        end
  end.

(** [SQLGetInteger] of a statement that selects the id of a row. *)
Definition select_id (s : Stmt) (P : PartialTile -> bool) (st : State) : Z * State :=
  let '(f, st) := exec s st in
  match f, m_hTempDB st with
  | NoFault, Some db =>
      (default 0 (pt_id <$> head (filter (fun r => P r = true) (partial_tiles db))), st)
  | _, _ => (0, st)
  end.

(** [tile_data_band_<nBand>] of a row set to a blob. *)
Definition set_band (bands : list (option (list Z))) (nBand : Z) (blob : list Z)
  : list (option (list Z)) :=
  <[Z.to_nat (nBand - 1) := Some blob]> bands.

(** The end of both paths: a failure of the partial flush resets [eErr]. *)
Definition after_partial_flush (eErr : CPLErr) (st : State) : CPLErr * State :=
  let '(e, st) := DoPartialFlushOfPartialTilesIfNecessary st in
  match e with
  | CE_None => (eErr, st)
  | CE_Failure => (CE_None, st)
  end.

Definition WriteShiftedTile (nRow_ nCol_ nBand nDstXOffset nDstYOffset
  nDstXSize nDstYSize : Z) (st : State) : CPLErr * State :=
  let '(ok, st) := open_temp_db st in
  if negb ok then (CE_Failure, st)
  else
    let iQuadrantFlag :=
      written_quadrants nDstXOffset nDstYOffset nDstXSize nDstYSize in
    let l_nFlags := Z.shiftl iQuadrantFlag (4 * (nBand - 1)) in
    let st := set_m_asCachedTilesDesc
                (invalidate_desc_1_3 (m_asCachedTilesDesc st)) st in
    let '(f, st) := exec (TmpSelectPartial (m_nZoomLevel cfg) nRow_ nCol_) st in
    match f with
    | PrepareError => (CE_Failure, st)
    | _ =>
        let pabyTemp := cached_tile 1 in
        let found :=
          match f, m_hTempDB st with
          | NoFault, Some db => find_partial (m_nZoomLevel cfg) nRow_ nCol_ db
          | _, _ => None
          end in
        let nExistingId := default 0 (pt_id <$> found) in
        let nOldFlags := default 0 (pt_partial_flag <$> found) in
        let st :=
          match found with
          | Some r =>
              if Z.land nOldFlags (band_mask nBand) =? 0
              then FillEmptyTileSingleBand (band_off pabyTemp (nBand - 1)) st
              else set_m_pabyCachedTiles
                     (memcpy (m_pabyCachedTiles st) (band_off pabyTemp (nBand - 1))
                        (default [] (pt_band r nBand)) nBlockPixels) st
          | None => FillEmptyTileSingleBand (band_off pabyTemp (nBand - 1)) st
          end in
        let st :=
          set_m_pabyCachedTiles
            (copy_rect pabyTemp 0 nBand nDstXOffset nDstYOffset nDstXSize
               nDstYSize (m_pabyCachedTiles st)) st in
        let l_nFlags := Z.lor l_nFlags nOldFlags in
        if l_nFlags =? nFullFlags then
          match gather_bands (seqZ 1 (nBands cfg)) nBand nExistingId pabyTemp st with
          | None => (CE_Failure, st)
          | Some st =>
              let st := set_m_asCachedTilesDesc
                          (set_desc0 (desc_all_dirty nRow_ nCol_)
                             (m_asCachedTilesDesc st)) st in
              let '(_, st) :=
                tmp_exec (TmpMarkDead nExistingId)
                  (on_rows (map (fun r => if pt_id r =? nExistingId then pt_dead r
                                          else r))) st in
              let '(eErr, st) := WriteTile st in
              after_partial_flush eErr st
          end
        else
          let '(nExistingId, st) :=
            if nExistingId =? 0 then
              let '(id, st) :=
                select_id (TmpSelectDeadAt (-1 - m_nZoomLevel cfg) nRow_ nCol_)
                  (fun r => (pt_partial_flag r =? 0)
                            && (pt_zoom_level r =? -1 - m_nZoomLevel cfg)
                            && (pt_tile_row r =? nRow_) && (pt_tile_column r =? nCol_))
                  st in
              if id =? 0
              then select_id TmpSelectAnyDead (fun r => pt_partial_flag r =? 0) st
              else (id, st)
            else (nExistingId, st) in
          let nAge := m_nAge st in
          let blob := buf_slice (m_pabyCachedTiles st) (band_off pabyTemp (nBand - 1))
                        nBlockPixels in
          let stmt :=
            if nExistingId =? 0
            then TmpInsert (m_nZoomLevel cfg) nRow_ nCol_ nBand l_nFlags nAge
            else TmpUpdate nExistingId (m_nZoomLevel cfg) nRow_ nCol_ nBand
                   l_nFlags nAge in
          let change (db : TempDB) : TempDB :=
            if nExistingId =? 0 then
              {| partial_tiles :=
                   partial_tiles db ++
                   [{| pt_id := pt_next_id db; pt_zoom_level := m_nZoomLevel cfg;
                       pt_tile_column := nCol_; pt_tile_row := nRow_;
                       pt_tile_data_band := set_band [None; None; None; None] nBand blob;
                       pt_partial_flag := l_nFlags; pt_age := nAge |}];
                 pt_next_id := pt_next_id db + 1 |}
            else
              on_rows (map (fun r =>
                if pt_id r =? nExistingId then
                  {| pt_id := pt_id r; pt_zoom_level := m_nZoomLevel cfg;
                     pt_tile_column := nCol_; pt_tile_row := nRow_;
                     pt_tile_data_band := set_band (pt_tile_data_band r) nBand blob;
                     pt_partial_flag := l_nFlags; pt_age := nAge |}
                else r)) db in
          let st := set_m_nAge (m_nAge st + 1) st in
          let '(f, st) := tmp_exec stmt change st in
          match f with
          | PrepareError => (CE_Failure, st)
          | NoFault => after_partial_flush CE_None st
          | _ =>
              after_partial_flush CE_Failure
                (CPLError "Failure when inserting partial tile (row=%d,col=%d) at zoom_level=%d : %s" st)
          end
    end.

End Engine.

(** ** The cache of tiles and the band accessors *)

(** [m_asCachedTilesDesc[i]]. *)
Definition desc_at (c : CachedTilesDesc) (i : Z) : CachedTileDesc :=
  match i with 0 => desc0 c | 1 => desc1 c | 2 => desc2 c | _ => desc3 c end.

(** [m_asCachedTilesDesc[i].nIdxWithinTileData = idx]. *)
Definition set_nIdxWithinTileData (i idx : Z) (c : CachedTilesDesc) : CachedTilesDesc :=
  let upd d := {| nRow := nRow d; nCol := nCol d; nIdxWithinTileData := idx;
                  abBandDirty := abBandDirty d |} in
  match i with
  | 0 => {| desc0 := upd (desc0 c); desc1 := desc1 c; desc2 := desc2 c;
            desc3 := desc3 c |}
  | 1 => {| desc0 := desc0 c; desc1 := upd (desc1 c); desc2 := desc2 c;
            desc3 := desc3 c |}
  | 2 => {| desc0 := desc0 c; desc1 := desc1 c; desc2 := upd (desc2 c);
            desc3 := desc3 c |}
  | _ => {| desc0 := desc0 c; desc1 := desc1 c; desc2 := desc2 c;
            desc3 := upd (desc3 c) |}
  end.

Section Bands.

Variable host : Host.
Variable cfg : Config.

(** *** ReadTile (nRow, nCol)

    The overload that reads a tile into the cache, here [ReadTileCached].
    The result is [None] when [CPLAssert(i < 4)] fails; otherwise it carries
    the pointer returned, [None] for a null pointer and the place in
    [m_pabyCachedTiles] for another. *)

(** The place a descriptor without place gets: the one of its pair that the
    other descriptor of the pair has not. *)
Definition free_place (i : Z) (c : CachedTilesDesc) : Z :=
  match i with
  | 0 => if nIdxWithinTileData (desc1 c) =? 0 then 1 else 0
  | 1 => if nIdxWithinTileData (desc0 c) =? 0 then 1 else 0
  | 2 => if nIdxWithinTileData (desc3 c) =? 2 then 3 else 2
  | _ => if nIdxWithinTileData (desc2 c) =? 2 then 3 else 2
  end.

Definition ReadTileCached (nRow_ nCol_ : Z) (st : State)
  : option (option nat * State) :=
  if shifted cfg then
    match List.find (fun i => (nRow (desc_at (m_asCachedTilesDesc st) i) =? nRow_)
                              && (nCol (desc_at (m_asCachedTilesDesc st) i) =? nCol_))
            [0; 1; 2; 3] with
    | Some i =>
        let d := desc_at (m_asCachedTilesDesc st) i in
        if 0 <=? nIdxWithinTileData d
        then Some (Some (cached_tile cfg (nIdxWithinTileData d)), st)
        else
          let idx := free_place i (m_asCachedTilesDesc st) in
          let st := set_m_asCachedTilesDesc
                      (set_nIdxWithinTileData i idx (m_asCachedTilesDesc st)) st in
          let pabyData := cached_tile cfg idx in
          let '(ok, _, st) := ReadTileAt host cfg nRow_ nCol_ pabyData st in
          Some (if ok then Some pabyData else None, st)
    | None => None
    end
  else
    let pabyDest := cached_tile cfg 2 in
    if bAllNonDirty cfg st then
      let '(ok, _, st) := ReadTileAt host cfg nRow_ nCol_ pabyDest st in
      Some (if ok then Some pabyDest else None, st)
    else
      let pabyTemp := cached_tile cfg 3 in
      let '(ok, _, st) := ReadTileAt host cfg nRow_ nCol_ pabyTemp st in
      let st :=
        if ok then
          foldl (fun st i =>
                   if band_dirty st i then st
                   else set_m_pabyCachedTiles
                          (memcpy (m_pabyCachedTiles st) (band_off cfg pabyDest i)
                             (buf_slice (m_pabyCachedTiles st)
                                (band_off cfg pabyTemp i) (nBlockPixels cfg))
                             (nBlockPixels cfg)) st)
            st (seqZ 0 (nBands cfg))
        else st in
      Some (Some pabyDest, st).

(** *** IReadBlock: the descriptors of the four cached tiles

    The statements of [IReadBlock] after the label [retry]: for a shifted
    dataset the four descriptors are made to stand for the tiles
    (nRowMin, nColMin) .. (nRowMin + 1, nColMin + 1); when the block read is
    the right neighbour of the last one, the tiles of the right column keep
    their places and become the left column.  The first component tells
    whether the three [CPLAssert] hold. *)
Definition IReadBlock_descriptors (nRowMin nColMin : Z) (c : CachedTilesDesc)
  : bool * CachedTilesDesc :=
  if shifted cfg then
    let left_to_right :=
      (nRowMin =? nRow (desc0 c)) && (nColMin =? nCol (desc0 c) + 1)
      && (0 <=? nIdxWithinTileData (desc0 c)) in
    let asserted :=
      if left_to_right then
        (nRowMin =? nRow (desc1 c)) && (nColMin =? nCol (desc1 c))
        && ((nIdxWithinTileData (desc0 c) =? 0)
            || (nIdxWithinTileData (desc0 c) =? 1))
      else true in
    let idx0 := if left_to_right then nIdxWithinTileData (desc1 c) else -1 in
    let idx2 := if left_to_right then nIdxWithinTileData (desc3 c) else -1 in
    (asserted,
     {| desc0 := {| nRow := nRowMin; nCol := nColMin; nIdxWithinTileData := idx0;
                    abBandDirty := abBandDirty (desc0 c) |};
        desc1 := {| nRow := nRowMin; nCol := nColMin + 1; nIdxWithinTileData := -1;
                    abBandDirty := abBandDirty (desc1 c) |};
        desc2 := {| nRow := nRowMin + 1; nCol := nColMin; nIdxWithinTileData := idx2;
                    abBandDirty := abBandDirty (desc2 c) |};
        desc3 := {| nRow := nRowMin + 1; nCol := nColMin + 1;
                    nIdxWithinTileData := -1;
                    abBandDirty := abBandDirty (desc3 c) |} |})
  else (true, c).

(** *** GetColorInterpretation, SetColorInterpretation

    The values of [GDALColorInterp] the functions use are those of gdal.h;
    they are taken as they come. *)

Variables GCI_Undefined GCI_GrayIndex GCI_PaletteIndex GCI_RedBand GCI_AlphaBand : Z.

Definition GetColorInterpretation (nBand : Z) (st : State) : Z * State :=
  if negb (bool_decide (m_eDT cfg = GDT_Byte)) then (GCI_Undefined, st)
  else if nBands cfg =? 1 then
    let '(ct, st) := GetColorTable host cfg st in
    (match ct with Some _ => GCI_PaletteIndex | None => GCI_GrayIndex end, st)
  else if nBands cfg =? 2 then
    (if nBand =? 1 then GCI_GrayIndex else GCI_AlphaBand, st)
  else (GCI_RedBand + (nBand - 1), st).

(** [CE_Warning], which the functions above do not return. *)
Inductive CPLErrOrWarning := CE_Warning | CE_Of (e : CPLErr).

Definition SetColorInterpretation (nBand eInterp : Z) (st : State)
  : CPLErrOrWarning * State :=
  if eInterp =? GCI_Undefined then (CE_Of CE_None, st)
  else if (nBands cfg =? 1)
          && ((eInterp =? GCI_GrayIndex) || (eInterp =? GCI_PaletteIndex))
  then (CE_Of CE_None, st)
  else if (nBands cfg =? 2)
          && (((nBand =? 1) && (eInterp =? GCI_GrayIndex))
              || ((nBand =? 2) && (eInterp =? GCI_AlphaBand)))
  then (CE_Of CE_None, st)
  else if (3 <=? nBands cfg) && (eInterp =? GCI_RedBand + nBand - 1)
  then (CE_Of CE_None, st)
  else (CE_Warning,
        CPLError "%s color interpretation not supported. Will be ignored" st).

(** *** SetColorTable, AssignColorTable

    [m_bNew] is a member of the dataset that these operations read only. *)

Definition AssignColorTable (poCT : option GDALColorTable) (st : State) : State :=
  set_m_poCT poCT true st.

Definition SetColorTable (m_bNew : bool) (poCT : option GDALColorTable) (st : State)
  : CPLErr * State :=
  if negb (bool_decide (m_eDT cfg = GDT_Byte)) then (CE_Failure, st)
  else if negb (nBands cfg =? 1) then
    (CE_Failure,
     CPLError "SetColorTable() only supported for a single band dataset" st)
  else if negb m_bNew || m_bTriedEstablishingCT st then
    (CE_Failure,
     CPLError "SetColorTable() only supported on a newly created dataset" st)
  else (CE_None, AssignColorTable poCT st).

End Bands.

(** ** The no-data value of the bands of a GeoPackage raster *)

(** [m_bHasNoData] and [m_dfNoDataValue] of a band. *)
Record BandNoData := {
  m_bHasNoData : bool;
  m_dfNoDataValue : float
}.

(** The bands of a dataset (band 1 first) and the members of the dataset that
    [SetNoDataValue] writes. *)
Record RasterBands := {
  rb_bands : list BandNoData;
  rb_usGPKGNull : Z;
  m_bMetadataDirty : bool;
  rb_errors : list string
}.

Section NoData.

Variable cfg : Config.

(** [GDALPamRasterBand::GetNoDataValue] of a band: the value and
    [*pbSuccess]. *)
Variable PamGetNoDataValue : Z -> float * bool.

Definition band_at (s : RasterBands) (nBand : Z) : BandNoData :=
  nth (Z.to_nat (nBand - 1)) (rb_bands s)
    {| m_bHasNoData := false; m_dfNoDataValue := 0 |}.

(** The value returned and [*pbSuccess]. *)
Definition GetNoDataValue (s : RasterBands) (nBand : Z) : float * bool :=
  if m_bHasNoData (band_at s nBand) then (m_dfNoDataValue (band_at s nBand), true)
  else PamGetNoDataValue nBand.

Definition SetNoDataValueInternal (nBand : Z) (dfNoDataValue_ : float)
  (s : RasterBands) : RasterBands :=
  {| rb_bands := <[Z.to_nat (nBand - 1) :=
                     {| m_bHasNoData := true; m_dfNoDataValue := dfNoDataValue_ |}]>
                   (rb_bands s);
     rb_usGPKGNull := rb_usGPKGNull s;
     m_bMetadataDirty := m_bMetadataDirty s;
     rb_errors := rb_errors s |}.

Definition rb_error (msg : string) (s : RasterBands) : RasterBands :=
  {| rb_bands := rb_bands s; rb_usGPKGNull := rb_usGPKGNull s;
     m_bMetadataDirty := m_bMetadataDirty s; rb_errors := msg :: rb_errors s |}.

(** [static_cast<int>(d) == d] for a [d] between 0 and 255. *)
Definition is_integral (d : float) : bool := (Z2F (F2Z_trunc d) =? d)%float.

(** The result codes of SQLite the function meets. *)
Inductive SqliteRc := SQLITE_OK | SQLITE_ERROR | SQLITE_BUSY | SQLITE_DONE.

#[global] Instance SqliteRc_eq_dec : EqDecision SqliteRc.
Proof. solve_decision. Defined.

(** The code of [SQLPrepareWithError] and, for a prepared statement that
    returns no row, the code of [sqlite3_step]. *)
Definition prepare_rc (f : Fault) : SqliteRc :=
  match f with PrepareError => SQLITE_ERROR | _ => SQLITE_OK end.

Definition step_rc (f : Fault) : SqliteRc :=
  match f with
  | StepBusy => SQLITE_BUSY
  | StepError | PrepareError => SQLITE_ERROR
  | NoFault => SQLITE_DONE
  end.

(** [fault] is what the host makes of the UPDATE of
    gpkg_2d_gridded_coverage_ancillary. *)
Definition SetNoDataValue (fault : Fault) (nBand : Z) (dfNoDataValue_ : float)
  (s : RasterBands) : CPLErr * RasterBands :=
  if bool_decide (m_eDT cfg = GDT_Byte) then
    if negb ((0 <=? dfNoDataValue_)%float && (dfNoDataValue_ <=? 255)%float
             && is_integral dfNoDataValue_)
    then (CE_Failure, rb_error "Invalid nodata value for a Byte band: %.17g" s)
    else if existsb (fun i =>
                       negb (i =? nBand)
                       && snd (GetNoDataValue s i)
                       && negb (fst (GetNoDataValue s i) =? dfNoDataValue_)%float)
              (seqZ 1 (nBands cfg))
    then (CE_Failure,
          rb_error "Only the same nodata value can be set on all bands" s)
    else
      let s := SetNoDataValueInternal nBand dfNoDataValue_ s in
      (CE_None,
       {| rb_bands := rb_bands s; rb_usGPKGNull := rb_usGPKGNull s;
          m_bMetadataDirty := true; rb_errors := rb_errors s |})
  else
    let s := if PrimFloat.is_nan dfNoDataValue_
             then rb_error "A NaN nodata value cannot be recorded in gpkg_2d_gridded_coverage_ancillary table" s
             else s in
    let s := SetNoDataValueInternal nBand dfNoDataValue_ s in
    let rc := prepare_rc fault in
    let '(rc, s) :=
      if decide (rc = SQLITE_OK) then
        let s :=
          if bool_decide (m_eTF cfg = GPKG_TF_PNG_16BIT) then
            {| rb_bands := rb_bands s;
               rb_usGPKGNull :=
                 if bool_decide (m_eDT cfg = GDT_UInt16)
                    && (m_dfOffset cfg =? 0)%float && (m_dfScale cfg =? 1)%float
                    && (0 <=? dfNoDataValue_)%float && (dfNoDataValue_ <=? 65535)%float
                    && (Z2F (static_cast_GUInt16 dfNoDataValue_) =? dfNoDataValue_)%float
                 then static_cast_GUInt16 dfNoDataValue_
                 else 65535;
               m_bMetadataDirty := m_bMetadataDirty s;
               rb_errors := rb_errors s |}
          else s in
        (step_rc fault, s)
      else (rc, s) in
    (if decide (rc = SQLITE_OK) then CE_None else CE_Failure, s).

End NoData.

(** ** IGetDataCoverageStatus *)

(** The flags of gdal.h and [INT_MAX]. *)
Definition GDAL_DATA_COVERAGE_STATUS_UNIMPLEMENTED : Z := 1.
Definition GDAL_DATA_COVERAGE_STATUS_DATA : Z := 2.
Definition GDAL_DATA_COVERAGE_STATUS_EMPTY : Z := 4.
Definition INT_MAX : Z := 2147483647.

(** The tiles the status is asked for: columns [iColMin .. iColMax] of rows
    [iRowMin .. iRowMax]. *)
Record TileWindow := {
  iColMin : Z;
  iColMax : Z;
  iRowMin : Z;
  iRowMax : Z
}.

Section Coverage.

Variable host : Host.
Variable cfg : Config.

Definition coverage_window (nXOff nYOff nXSize nYSize : Z) : TileWindow :=
  {| iColMin := nXOff ÷ nBlockXSize cfg + m_nShiftXTiles cfg;
     iColMax := (nXOff + nXSize - 1) ÷ nBlockXSize cfg + m_nShiftXTiles cfg
                + (if m_nShiftXPixelsMod cfg =? 0 then 0 else 1);
     iRowMin := nYOff ÷ nBlockYSize cfg + m_nShiftYTiles cfg;
     iRowMax := (nYOff + nYSize - 1) ÷ nBlockYSize cfg + m_nShiftYTiles cfg
                + (if m_nShiftYPixelsMod cfg =? 0 then 0 else 1) |}.

(** The rows of the SELECT, as (tile_column, tile_row): the tiles of the zoom
    level with [tile_row BETWEEN iDBRowMin AND iDBRowMax] and [tile_column
    BETWEEN iColMin AND iColMax] that pass [m_osWHERE]. *)
Definition coverage_rows (w : TileWindow) (db : MainDB) : list (Z * Z) :=
  let a := GetRowFromIntoTopConvention host (iRowMin w) in
  let b := GetRowFromIntoTopConvention host (iRowMax w) in
  let iDBRowMin := if b <? a then b else a in
  let iDBRowMax := if b <? a then a else b in
  omap (fun '(z, r, c, row) =>
          if (z =? m_nZoomLevel cfg) && (iDBRowMin <=? r) && (r <=? iDBRowMax)
             && (iColMin w <=? c) && (c <=? iColMax w)
             && m_osWHERE host (z, r, c) row
          then Some (c, r) else None)
    (map_to_list (tiles db)).

(** [oSetTiles]: the pairs (column, row) of the rows, the row taken through
    [GetRowFromIntoTopConvention]. *)
Definition oSetTiles (w : TileWindow) (db : MainDB) : gset (Z * Z) :=
  list_to_set (map (fun cr => (cr.1, GetRowFromIntoTopConvention host cr.2))
                 (coverage_rows w db)).

(** The pixels of the window in the tile ([iX], [iY]). *)
Definition tile_pixels_in_window (nXOff nYOff nXSize nYSize iX iY : Z) : Z :=
  let iXGDAL := iX - m_nShiftXTiles cfg in
  let iYGDAL := iY - m_nShiftYTiles cfg in
  let nXBlockRight :=
    if INT_MAX - nBlockXSize cfg <? iXGDAL * nBlockXSize cfg then INT_MAX
    else (iXGDAL + 1) * nBlockXSize cfg in
  let nYBlockBottom :=
    if INT_MAX - nBlockYSize cfg <? iYGDAL * nBlockYSize cfg then INT_MAX
    else (iYGDAL + 1) * nBlockYSize cfg in
  (Z.min nXBlockRight (nXOff + nXSize) - Z.max (iXGDAL * nBlockXSize cfg) nXOff)
  * (Z.min nYBlockBottom (nYOff + nYSize) - Z.max (iYGDAL * nBlockYSize cfg) nYOff).

(** The two loops over the tiles of the window, row by row.  The result is
    [nStatus], [nPixelsData] and whether the loops were left by the
    [return] for [nMaskFlagStop]. *)
Fixpoint coverage_scan (tiles : gset (Z * Z)) (nXOff nYOff nXSize nYSize : Z)
  (nMaskFlagStop : Z) (cells : list (Z * Z)) (nStatus nPixelsData : Z)
  : Z * Z * bool :=
  match cells with
  | [] => (nStatus, nPixelsData, false)
  | (iY, iX) :: rest =>
      let '(nStatus, nPixelsData) :=
        if decide ((iX, iY) ∈ tiles)
        then (Z.lor nStatus GDAL_DATA_COVERAGE_STATUS_DATA,
              nPixelsData + tile_pixels_in_window nXOff nYOff nXSize nYSize iX iY)
        else (Z.lor nStatus GDAL_DATA_COVERAGE_STATUS_EMPTY, nPixelsData) in
      if negb (nMaskFlagStop =? 0) && negb (Z.land nMaskFlagStop nStatus =? 0)
      then (nStatus, nPixelsData, true)
      else coverage_scan tiles nXOff nYOff nXSize nYSize nMaskFlagStop rest
             nStatus nPixelsData
  end.

(** The tiles of the window in the order of the loops. *)
Definition window_cells (w : TileWindow) : list (Z * Z) :=
  flat_map (fun iY => map (pair iY) (seqZ (iColMin w) (iColMax w - iColMin w + 1)))
    (seqZ (iRowMin w) (iRowMax w - iRowMin w + 1)).

(** [static_cast<size_t>(iRowMax - iRowMin + 1) * (iColMax - iColMin + 1)]. *)
Definition window_size_t (w : TileWindow) : Z :=
  (((iRowMax w - iRowMin w + 1) mod 2 ^ 64) * ((iColMax w - iColMin w + 1) mod 2 ^ 64))
  mod 2 ^ 64.

(** [db] is the tile table when the statement runs (for a dataset in update
    mode, after [FlushCache]) and [fault] what becomes of the statement.  The
    result is the status and the value given to [*pdfDataPct], if any. *)
Definition IGetDataCoverageStatus (fault : Fault)
  (nXOff nYOff nXSize nYSize nMaskFlagStop : Z) (db : MainDB)
  : Z * option float :=
  let w := coverage_window nXOff nYOff nXSize nYSize in
  match fault with
  | NoFault =>
      let tiles := oSetTiles w db in
      if decide (tiles = ∅) then (GDAL_DATA_COVERAGE_STATUS_EMPTY, Some 0%float)
      else if (m_nShiftXPixelsMod cfg =? 0) && (m_nShiftYPixelsMod cfg =? 0)
              && (Z.of_nat (size tiles) =? window_size_t w)
      then (GDAL_DATA_COVERAGE_STATUS_DATA, Some 100%float)
      else if (m_nShiftXPixelsMod cfg =? 0) && (m_nShiftYPixelsMod cfg =? 0)
      then
        let '(nStatus, nPixelsData, stopped) :=
          coverage_scan tiles nXOff nYOff nXSize nYSize nMaskFlagStop
            (window_cells w) 0 0 in
        if stopped then (nStatus, Some (-1)%float)
        else (nStatus,
              Some (100 * Z2F nPixelsData / Z2F (nXSize * nYSize))%float)
      else (Z.lor GDAL_DATA_COVERAGE_STATUS_UNIMPLEMENTED
              GDAL_DATA_COVERAGE_STATUS_DATA, None)
  | _ => (Z.lor GDAL_DATA_COVERAGE_STATUS_UNIMPLEMENTED
            GDAL_DATA_COVERAGE_STATUS_DATA, None)
  end.

End Coverage.

(** * Specification *)

Definition is_tx (e : Event) : bool :=
  match e with
  | EvStmt (InsertTile _ _ _ _) _ | EvStartTransaction | EvCommitTransaction _ => true
  | _ => false
  end.

Definition tx_log (st : State) : list Event := List.filter is_tx (sql_log st).

Definition same_view (st st' : State) : Prop :=
  m_nTileInsertionCount st' = m_nTileInsertionCount st
  ∧ m_bInWriteTile st' = m_bInWriteTile st
  ∧ nDisableDirtyBlockFlush st' = nDisableDirtyBlockFlush st
  ∧ tx_log st' = tx_log st.


Definition is_insert (e : Event) : bool :=
  match e with EvStmt (InsertTile _ _ _ _) _ => true | _ => false end.

(** The transaction events of [st'] are those of [st] after [evs], the
    counter is [c], and the two guards of [WriteTile] are as in [st]. *)
Definition tx_step (evs : list Event) (c : Z) (st st' : State) : Prop :=
  m_nTileInsertionCount st' = c
  ∧ m_bInWriteTile st' = m_bInWriteTile st
  ∧ nDisableDirtyBlockFlush st' = nDisableDirtyBlockFlush st
  ∧ tx_log st' = evs ++ tx_log st.

Inductive tx_outcome (st st' : State) (e : CPLErr) : Prop :=
| txo_none : same_view st st' -> tx_outcome st st' e
| txo_first ins :
    is_insert ins = true -> m_nTileInsertionCount st = 0 ->
    tx_step [ins; EvStartTransaction] 1 st st' -> tx_outcome st st' e
| txo_rollover ins :
    is_insert ins = true -> m_nTileInsertionCount st = 1000 ->
    tx_step [ins; EvStartTransaction; EvCommitTransaction true] 1 st st' ->
    tx_outcome st st' e
| txo_next ins :
    is_insert ins = true ->
    m_nTileInsertionCount st <> 0 -> m_nTileInsertionCount st <> 1000 ->
    tx_step [ins] (m_nTileInsertionCount st + 1) st st' -> tx_outcome st st' e
| txo_poison :
    m_nTileInsertionCount st = 1000 -> e = CE_Failure ->
    tx_step [EvCommitTransaction false] (-1) st st' -> tx_outcome st st' e.


Definition is_commit (e : Event) : bool :=
  match e with EvCommitTransaction true => true | _ => false end.
Definition is_failed_commit (e : Event) : bool :=
  match e with EvCommitTransaction false => true | _ => false end.
Definition count_events (p : Event -> bool) (l : list Event) : Z :=
  Z.of_nat (length (List.filter p l)).
Definition n_inserts (st : State) : Z := count_events is_insert (sql_log st).
Definition n_commits (st : State) : Z := count_events is_commit (sql_log st).
Definition n_failed_commits (st : State) : Z := count_events is_failed_commit (sql_log st).

(** The transaction events of the log, without their arguments. *)
Inductive TxEvent := TxInsert | TxBegin | TxCommit | TxCommitFailed.

#[global] Instance TxEvent_eq_dec : EqDecision TxEvent.
Proof. solve_decision. Defined.

Definition tx_event (e : Event) : option TxEvent :=
  match e with
  | EvStmt (InsertTile _ _ _ _) _ => Some TxInsert
  | EvStartTransaction => Some TxBegin
  | EvCommitTransaction true => Some TxCommit
  | EvCommitTransaction false => Some TxCommitFailed
  | _ => None
  end.

Definition tx_shape (st : State) : list TxEvent := omap tx_event (sql_log st).

(** The transaction events (most recent first) and the insertion counter
    after [n] upserts of a session in which every commit succeeded. *)
Fixpoint batches (n : nat) : list TxEvent * Z :=
  match n with
  | O => ([], 0)
  | S m =>
      let '(l, c) := batches m in
      if c =? 0 then (TxInsert :: TxBegin :: l, 1)
      else if c =? 1000 then (TxInsert :: TxBegin :: TxCommit :: l, 1)
      else (TxInsert :: l, c + 1)
  end.

Definition batch_inv (st : State) : Prop :=
  exists n, batches n = (tx_shape st, m_nTileInsertionCount st).

Definition same_guards (st st' : State) : Prop :=
  m_bInWriteTile st' = m_bInWriteTile st
  ∧ nDisableDirtyBlockFlush st' = nDisableDirtyBlockFlush st.

Definition good_run (st st' : State) : Prop :=
  same_guards st st'
  ∧ n_failed_commits st' = n_failed_commits st
  ∧ (batch_inv st -> batch_inv st')
  ∧ (0 ≤ m_nTileInsertionCount st -> 0 ≤ m_nTileInsertionCount st')
  ∧ (m_nTileInsertionCount st < 0 -> same_view st st').

Definition poisoning (st st' : State) : Prop :=
  same_guards st st'
  ∧ 0 ≤ m_nTileInsertionCount st
  ∧ m_nTileInsertionCount st' = -1
  ∧ n_failed_commits st' = n_failed_commits st + 1
  ∧ n_inserts st' = n_inserts st ∧ n_commits st' = n_commits st.

Definition op_spec (st st' : State) (e : CPLErr) : Prop :=
  good_run st st' ∨ (e = CE_Failure ∧ ∃ sm, good_run st sm ∧ poisoning sm st').

(** One call: the run goes on, or a commit fails after some of it. *)
Definition weak_op (st st' : State) : Prop :=
  good_run st st' ∨ ∃ sm, good_run st sm ∧ poisoning sm st'.

(** *** Views of the state *)

(** The state but for the messages of [CPLError]. *)
Definition same_store (st st' : State) : Prop :=
  m_nTileInsertionCount st' = m_nTileInsertionCount st
  ∧ m_bInWriteTile st' = m_bInWriteTile st
  ∧ nDisableDirtyBlockFlush st' = nDisableDirtyBlockFlush st
  ∧ m_asCachedTilesDesc st' = m_asCachedTilesDesc st
  ∧ m_pabyCachedTiles st' = m_pabyCachedTiles st
  ∧ m_poCT st' = m_poCT st
  ∧ m_bTriedEstablishingCT st' = m_bTriedEstablishingCT st
  ∧ hDB st' = hDB st
  ∧ m_hTempDB st' = m_hTempDB st
  ∧ m_nAge st' = m_nAge st
  ∧ m_nLastSpaceCheckTimestamp st' = m_nLastSpaceCheckTimestamp st
  ∧ block_cache st' = block_cache st
  ∧ sql_log st' = sql_log st.

(** The state but for the pixels of the cached tiles and the messages. *)
Definition same_but_pixels (st st' : State) : Prop :=
  m_nTileInsertionCount st' = m_nTileInsertionCount st
  ∧ m_bInWriteTile st' = m_bInWriteTile st
  ∧ nDisableDirtyBlockFlush st' = nDisableDirtyBlockFlush st
  ∧ m_asCachedTilesDesc st' = m_asCachedTilesDesc st
  ∧ m_poCT st' = m_poCT st
  ∧ m_bTriedEstablishingCT st' = m_bTriedEstablishingCT st
  ∧ hDB st' = hDB st
  ∧ m_hTempDB st' = m_hTempDB st
  ∧ m_nAge st' = m_nAge st
  ∧ m_nLastSpaceCheckTimestamp st' = m_nLastSpaceCheckTimestamp st
  ∧ block_cache st' = block_cache st
  ∧ sql_log st' = sql_log st.

(** The sample [FillBuffer] writes. *)
Definition fill_value (host : Host) (cfg : Config) : Z :=
  if negb (bHasNoData cfg) || (dfNoDataValue cfg =? 0)%float then 0
  else GDALCopyWords64 host (dfNoDataValue cfg) (m_eDT cfg).

(** The samples of a tile of the dataset. *)
Definition tile_samples (cfg : Config) : nat :=
  (Z.to_nat (nBands cfg) * nBlockPixels cfg)%nat.

(** [n] samples from [off] are [v], the others are those of [buf]. *)
Definition filled (buf buf' : list Z) (off n : nat) (v : Z) : Prop :=
  length buf' = length buf
  ∧ buf_slice buf' off n = replicate n v
  ∧ ∀ i, (i < off ∨ off + n ≤ i)%nat → buf' !! i = buf !! i.

(** A decoded tile has the geometry of the tiles of the dataset. *)
Definition tile_geometry_ok (cfg : Config) (ds : TileDS) : Prop :=
  ds_RasterXSize ds = nBlockXSize cfg
  ∧ ds_RasterYSize ds = nBlockYSize cfg
  ∧ 1 ≤ ds_RasterCount ds ≤ 4
  ∧ (m_eDT cfg ≠ GDT_Byte → ds_RasterCount ds = 1).

(** *** Write sessions *)

(** What the raster bands do with the tile layer between two flushes of the
    dataset: [IWriteBlock] and [IReadBlock] fill the cached tiles and their
    descriptors, the block cache of the bands changes, and they call
    [WriteTile], [WriteShiftedTile] and [ReadTile]. *)
Inductive Call :=
| CallStage (d : CachedTilesDesc) (buf : list Z) (blocks : gmap (Z * Z * Z) bool)
| CallReadTile (nRow_ nCol_ : Z) (pabyData : nat)
| CallWriteTile
| CallWriteShiftedTile (nRow_ nCol_ nBand nDstXOffset nDstYOffset nDstXSize
    nDstYSize : Z).

Definition stage (d : CachedTilesDesc) (buf : list Z) (blocks : gmap (Z * Z * Z) bool)
  (s : State) : State :=
  Build_State (m_nTileInsertionCount s) (m_bInWriteTile s)
    (nDisableDirtyBlockFlush s) d buf (m_poCT s) (m_bTriedEstablishingCT s)
    (hDB s) (m_hTempDB s) (m_nAge s) (m_nLastSpaceCheckTimestamp s) blocks
    (sql_log s) (cpl_errors s).

Definition run_call (host : Host) (cfg : Config) (st : State) (c : Call) : State :=
  match c with
  | CallStage d buf blocks => stage d buf blocks st
  | CallReadTile r c p => (ReadTileAt host cfg r c p st).2
  | CallWriteTile => (WriteTile host cfg st).2
  | CallWriteShiftedTile r c b x y w h => (WriteShiftedTile host cfg r c b x y w h st).2
  end.

Definition run_calls (host : Host) (cfg : Config) (calls : list Call) (st : State)
  : State :=
  foldl (run_call host cfg) st calls.

(** What [FlushTiles] does to the transaction log. *)
Inductive flush_outcome (st st' : State) (e : CPLErr) : Prop :=
| fo_poisoned :
    m_nTileInsertionCount st < 0 -> e = CE_Failure -> st' = st ->
    flush_outcome st st' e
| fo_idle s2 :
    0 <= m_nTileInsertionCount st -> op_spec st s2 e ->
    m_nTileInsertionCount s2 <= 0 -> st' = s2 -> flush_outcome st st' e
| fo_commit s2 e2 :
    0 <= m_nTileInsertionCount st -> op_spec st s2 e2 ->
    0 < m_nTileInsertionCount s2 -> e = e2 ->
    tx_step [EvCommitTransaction true] 0 s2 st' -> flush_outcome st st' e
| fo_failed s2 e2 :
    0 <= m_nTileInsertionCount st -> op_spec st s2 e2 ->
    0 < m_nTileInsertionCount s2 -> e = CE_Failure ->
    tx_step [EvCommitTransaction false] (-1) s2 st' -> flush_outcome st st' e.


(** *** Concrete datasets

    A host in which every statement runs and every commit succeeds, on a
    raw tile codec: the blob is the width, the height and the band count,
    then the samples band by band. *)

Definition raw_open (drivers : list TileDriver) (b : Blob) : option TileDS :=
  match b with
  | x :: y :: n :: px =>
      Some {| ds_RasterXSize := x; ds_RasterYSize := y; ds_RasterCount := n;
              ds_Driver := DRV_PNG; ds_ColorTable := None;
              ds_RasterIO := fun _ => Some px |}
  | _ => None
  end.

Definition raw_copy (d : TileDriver) (o : list DriverOption) (m : MEMDataset)
  : option Blob :=
  Some (mem_XSize m :: mem_YSize m :: Z.of_nat (length (mem_Bands m))
        :: concat (mem_Bands m)).

(** [commits] answers [ICommitTransaction]. *)
Definition raw_host (commits : bool) : Host :=
  {| sqlite_fault := fun _ _ => NoFault;
     ICommitTransaction_ok := fun _ => commits;
     sqlite3_open_ok := fun _ => true;
     m_osWHERE := fun _ _ => true;
     GetRowFromIntoTopConvention := fun r => r;
     GDALGetDriverByName := fun _ => true;
     WEBPSupports4Bands := true;
     GDALOpen := raw_open;
     CreateCopy := raw_copy;
     GDALCopyWords64 := fun d _ => F2Z_trunc d;
     static_cast_float := fun _ => 0;
     GDALComputeMedianCutPCT := fun _ _ _ => [];
     GDALDitherRGB2PCT := fun r _ _ _ _ => r;
     time_now := fun _ => 100;
     VSIGetDiskFreeSpace := fun _ => 2 ^ 40;
     VSIStatL_TempDB := fun _ => None;
     VSIStatL_Journal := fun _ => None;
     VSIStatL_Wal := fun _ => None;
     DIV_ROUND_UP := fun a b => (a + b - 1) / b |}.

(** A dataset of [bands] bands of type [dt] stored as [tf], with tiles of
    2 x 2 pixels on a matrix of [width] x 1 tiles at zoom level [zoom]; the
    raster starts [shift] pixels to the right of the first tile. *)
Definition strip_cfg (bands : Z) (dt : GDALDataType) (tf : GPKGTileFormat)
  (zoom width shift : Z) (nodata : option float) : Config :=
  {| nBands := bands; nBlockXSize := 2; nBlockYSize := 2;
     nRasterXSize := 2 * width - 2 * shift; nRasterYSize := 2;
     bUpdate := true; m_eDT := dt; m_eTF := tf; m_nZoomLevel := zoom;
     m_nShiftXTiles := 0; m_nShiftYTiles := 0;
     m_nShiftXPixelsMod := shift; m_nShiftYPixelsMod := 0;
     m_nTileMatrixWidth := width; m_nTileMatrixHeight := 1;
     bHasNoData := bool_decide (nodata ≠ None);
     dfNoDataValue := default 0%float nodata;
     m_usGPKGNull := 65535; m_dfOffset := 0; m_dfScale := 1;
     m_dfPrecision := 1; m_bPNGSupports2Bands := true; m_bPNGSupportsCT := true;
     m_bDither := false; m_nQuality := 75; m_nZLevel := 6;
     m_bForceTempDBCompaction := false |}.

Definition no_tile : CachedTileDesc :=
  {| nRow := -1; nCol := -1; nIdxWithinTileData := -1;
     abBandDirty := [false; false; false; false] |}.

(** The first cached tile is the tile at ([row], [col]) with the given
    dirty bands. *)
Definition slot0 (row col : Z) (dirty : list bool) : CachedTilesDesc :=
  {| desc0 := {| nRow := row; nCol := col; nIdxWithinTileData := 0;
                 abBandDirty := dirty |};
     desc1 := no_tile; desc2 := no_tile; desc3 := no_tile |}.

(** A dataset just opened on an empty tile table. *)
Definition fresh (buf : list Z) : State :=
  {| m_nTileInsertionCount := 0; m_bInWriteTile := false;
     nDisableDirtyBlockFlush := 0;
     m_asCachedTilesDesc :=
       {| desc0 := no_tile; desc1 := no_tile; desc2 := no_tile; desc3 := no_tile |};
     m_pabyCachedTiles := buf; m_poCT := None; m_bTriedEstablishingCT := false;
     hDB := {| tiles := ∅; tile_next_id := 1; ancillary := ∅ |};
     m_hTempDB := None; m_nAge := 0; m_nLastSpaceCheckTimestamp := 0;
     block_cache := ∅; sql_log := []; cpl_errors := [] |}.

(** The tiles of columns 0 to [n - 1] are written one after the other. *)
Definition write_strip (n : Z) : list Call :=
  flat_map (fun col => [CallStage (slot0 0 col [true; false; false; false])
                          (replicate 64 7) ∅;
                        CallWriteTile])
    (seqZ 0 n).

(** *** Empty tiles *)

(** The samples of band [i] (from 0) of the first cached tile. *)
Definition band_samples (cfg : Config) (st : State) (i : Z) : list Z :=
  buf_slice (m_pabyCachedTiles st) (band_off cfg 0 i) (nBlockPixels cfg).

(** The first cached tile holds a tile of the raster to write, and all its
    bands are dirty. *)
Definition slot_all_dirty (cfg : Config) (st : State) : Prop :=
  let d0 := desc0 (m_asCachedTilesDesc st) in
  bUpdate cfg = true ∧ 0 ≤ nRow d0 ∧ 0 ≤ nCol d0 ∧ nIdxWithinTileData d0 = 0
  ∧ 1 ≤ nBands cfg
  ∧ (∀ i, 0 ≤ i < nBands cfg → band_dirty st i = true)
  ∧ tile_nXOff cfg (nCol d0) < nRasterXSize cfg
  ∧ tile_nYOff cfg (nRow d0) < nRasterYSize cfg.

(** All the samples of the alpha band are 0. *)
Definition fully_transparent (cfg : Config) (st : State) : Prop :=
  nAlphaBand cfg ≠ 0
  ∧ band_samples cfg st (nAlphaBand cfg - 1) ≠ []
  ∧ Forall (λ v, v = 0) (band_samples cfg st (nAlphaBand cfg - 1)).

(** No alpha band, a no-data value that is absent or 0, and all the samples
    of the bands are 0. *)
Definition fully_zero (cfg : Config) (st : State) : Prop :=
  nAlphaBand cfg = 0
  ∧ (bHasNoData cfg = false ∨ (dfNoDataValue cfg =? 0)%float = true)
  ∧ Forall (λ v, v = 0)
      (buf_slice (m_pabyCachedTiles st) 0 (nBlockPixels cfg * Z.to_nat (nBands cfg))).

(** Every sample of a Float32 tile is the no-data value (0 without one). *)
Definition no_valid_float (host : Host) (cfg : Config) (st : State) : Prop :=
  Forall (λ v, float_is_nodata host cfg v = true) (band_samples cfg st 0).

(** Every sample of an Int16 or UInt16 tile is the no-data value. *)
Definition no_valid_integer (cfg : Config) (st : State) : Prop :=
  bHasNoData cfg = true
  ∧ Forall (λ v, (Z2F v =? dfNoDataValue cfg)%float = true) (band_samples cfg st 0).

(** The row of the tile is deleted, nothing else of the tables changes and
    no tile is inserted. *)
Definition tile_removed (host : Host) (cfg : Config) (st st' : State) : Prop :=
  let d0 := desc0 (m_asCachedTilesDesc st) in
  let key := tile_key host cfg (nRow d0) (nCol d0) in
  tiles (hDB st') = delete key (tiles (hDB st))
  ∧ ancillary (hDB st') = ancillary (hDB st)
  ∧ sql_log st' = EvStmt (DeleteTileStmt key.1.1 key.1.2 key.2) NoFault :: sql_log st
  ∧ m_nTileInsertionCount st' = m_nTileInsertionCount st.

(** The row of the tile and its row of gpkg_2d_gridded_tile_ancillary are
    deleted, nothing else of the tables changes and no tile is inserted. *)
Definition quantized_tile_removed (host : Host) (cfg : Config) (st st' : State)
  : Prop :=
  let d0 := desc0 (m_asCachedTilesDesc st) in
  let key := tile_key host cfg (nRow d0) (nCol d0) in
  tiles (hDB st') = delete key (tiles (hDB st))
  ∧ ancillary (hDB st')
    = match tiles (hDB st) !! key with
      | Some r => delete (tile_id r) (ancillary (hDB st))
      | None => ancillary (hDB st)
      end
  ∧ n_inserts st' = n_inserts st
  ∧ tx_log st' = tx_log st
  ∧ m_nTileInsertionCount st' = m_nTileInsertionCount st.

(** *** Partial tiles *)

(** A band in which the pixels of the rectangle that starts at ([nXOff],
    [nYOff]) are those of [src], and the others those of [old]. *)
Definition merged_band (cfg : Config) (old src : list Z)
  (nXOff nYOff nXSize nYSize : Z) : list Z :=
  imap (λ i o,
          let x := Z.of_nat i mod nBlockXSize cfg in
          let y := Z.of_nat i / nBlockXSize cfg in
          if bool_decide (nXOff ≤ x < nXOff + nXSize ∧ nYOff ≤ y < nYOff + nYSize)
          then default o (src !! i) else o)
    old.

(** The rectangle lies in a tile. *)
Definition rect_in_tile (cfg : Config) (nXOff nYOff nXSize nYSize : Z) : Prop :=
  0 ≤ nXOff ∧ 0 ≤ nXSize ∧ nXOff + nXSize ≤ nBlockXSize cfg
  ∧ 0 ≤ nYOff ∧ 0 ≤ nYSize ∧ nYOff + nYSize ≤ nBlockYSize cfg.

(** *** Reading *)

(** The statements that read a table. *)
Definition is_query (e : Event) : bool :=
  match e with
  | EvStmt (SelectAnyTile _ | SelectTile _ _ _ | SelectTileId _ _ _
           | SelectAncillary _ | TmpSelectPartial _ _ _ | TmpSelectBand _ _
           | TmpSelectDeadAt _ _ _ | TmpSelectAnyDead | TmpCountActive _
           | TmpSelectActive _ _ | TmpStep) _ => true
  | _ => false
  end.

(** The events of the log that are not queries. *)
Definition updates_log (st : State) : list Event :=
  List.filter (λ e, negb (is_query e)) (sql_log st).

(** What a read leaves as it is: the tables, the transaction, the guards,
    the descriptors of the cached tiles and the block cache; the log grows by
    queries only. *)
Definition read_only (st st' : State) : Prop :=
  hDB st' = hDB st
  ∧ m_hTempDB st' = m_hTempDB st
  ∧ m_nTileInsertionCount st' = m_nTileInsertionCount st
  ∧ m_bInWriteTile st' = m_bInWriteTile st
  ∧ nDisableDirtyBlockFlush st' = nDisableDirtyBlockFlush st
  ∧ m_asCachedTilesDesc st' = m_asCachedTilesDesc st
  ∧ m_nAge st' = m_nAge st
  ∧ m_nLastSpaceCheckTimestamp st' = m_nLastSpaceCheckTimestamp st
  ∧ block_cache st' = block_cache st
  ∧ updates_log st' = updates_log st.

(** *** Regions of the cached tiles *)

(** The samples of [buf'] outside [off .. off + n - 1] are those of [buf],
    and the buffers have the same length. *)
Definition within (off n : nat) (buf buf' : list Z) : Prop :=
  length buf' = length buf
  ∧ ∀ j, (j < off ∨ off + n ≤ j)%nat → buf' !! j = buf !! j.

(** The samples of a cached tile: [nTileBands] bands. *)
Definition cache_tile_samples (cfg : Config) : nat :=
  (Z.to_nat (nCacheTileBands cfg) * nBlockPixels cfg)%nat.

(** The entries of a colour table are bytes. *)
Definition byte_entry (e : GDALColorEntry) : Prop :=
  0 ≤ c1 e ≤ 255 ∧ 0 ≤ c2 e ≤ 255 ∧ 0 ≤ c3 e ≤ 255 ∧ 0 ≤ c4 e ≤ 255.

(** *** The places of the cached tiles *)

(** Two descriptors that share the places [lo] and [lo + 1]: each has one of
    them or none, and they have not the same. *)
Definition place_pair (lo : Z) (a b : CachedTileDesc) : Prop :=
  (nIdxWithinTileData a = -1 ∨ nIdxWithinTileData a = lo
   ∨ nIdxWithinTileData a = lo + 1)
  ∧ (nIdxWithinTileData b = -1 ∨ nIdxWithinTileData b = lo
     ∨ nIdxWithinTileData b = lo + 1)
  ∧ (nIdxWithinTileData a = nIdxWithinTileData b → nIdxWithinTileData a = -1).

(** No two descriptors have the same place in [m_pabyCachedTiles]: the first
    two share the places 0 and 1, the last two the places 2 and 3. *)
Definition places_distinct (c : CachedTilesDesc) : Prop :=
  place_pair 0 (desc0 c) (desc1 c) ∧ place_pair 2 (desc2 c) (desc3 c).

(** The descriptors stand for the four tiles of a window of two rows and two
    columns. *)
Definition cache_window (c : CachedTilesDesc) : Prop :=
  nRow (desc1 c) = nRow (desc0 c) ∧ nCol (desc1 c) = nCol (desc0 c) + 1
  ∧ nRow (desc2 c) = nRow (desc0 c) + 1 ∧ nCol (desc2 c) = nCol (desc0 c)
  ∧ nRow (desc3 c) = nRow (desc0 c) + 1 ∧ nCol (desc3 c) = nCol (desc0 c) + 1.

(** The tile and the place of a descriptor. *)
Definition same_tile_and_place (a b : CachedTileDesc) : Prop :=
  nRow a = nRow b ∧ nCol a = nCol b
  ∧ nIdxWithinTileData a = nIdxWithinTileData b.

(** The tiles and the dirty flags of the descriptors, without the places. *)
Definition same_tiles (c c' : CachedTilesDesc) : Prop :=
  ∀ i, nRow (desc_at c' i) = nRow (desc_at c i)
       ∧ nCol (desc_at c' i) = nCol (desc_at c i)
       ∧ abBandDirty (desc_at c' i) = abBandDirty (desc_at c i).

(** *** Flushing *)

(** The state in which [WriteTileInternal] looks at the tile: the descriptor
    of the first cached tile is reset. *)
Definition flushing (st : State) : State :=
  set_m_asCachedTilesDesc (set_desc0 desc_flushed (m_asCachedTilesDesc st)) st.

(** *** The codec of the tiles *)

(** The PNG driver of the host loses nothing of a dataset without colour
    table: what [CreateCopy] encodes, [GDALOpen] decodes to a dataset of the
    same size, with the same bands and samples. *)
Definition lossless_png (host : Host) : Prop :=
  GDALGetDriverByName host DRV_PNG = true
  ∧ ∀ opts m, mem_ColorTable m = None →
      ∃ blob, CreateCopy host DRV_PNG opts m = Some blob
        ∧ ∀ drivers, DRV_PNG ∈ drivers →
            ∃ ds, GDALOpen host drivers blob = Some ds
              ∧ ds_RasterXSize ds = mem_XSize m
              ∧ ds_RasterYSize ds = mem_YSize m
              ∧ ds_RasterCount ds = Z.of_nat (length (mem_Bands m))
              ∧ ds_Driver ds = DRV_PNG
              ∧ ds_ColorTable ds = None
              ∧ ds_RasterIO ds (mem_DataType m) = Some (concat (mem_Bands m)).

(** The tile of the first descriptor lies in the tile matrix and inside the
    raster. *)
Definition tile_inside (cfg : Config) (st : State) : Prop :=
  let d0 := desc0 (m_asCachedTilesDesc st) in
  nRow d0 < m_nTileMatrixHeight cfg ∧ nCol d0 < m_nTileMatrixWidth cfg
  ∧ 0 ≤ tile_nXOff cfg (nCol d0) ≤ nRasterXSize cfg - nBlockXSize cfg
  ∧ 0 ≤ tile_nYOff cfg (nRow d0) ≤ nRasterYSize cfg - nBlockYSize cfg.

(** *** The coverage of a window *)

(** [GetRowFromIntoTopConvention] is its own inverse and keeps or reverses
    the order of the rows (the identity for a GeoPackage, the flip of the
    rows for MBTiles). *)
Definition row_convention (host : Host) : Prop :=
  (∀ r, GetRowFromIntoTopConvention host (GetRowFromIntoTopConvention host r) = r)
  ∧ ((∀ a b, a ≤ b →
        GetRowFromIntoTopConvention host a ≤ GetRowFromIntoTopConvention host b)
     ∨ (∀ a b, a ≤ b →
          GetRowFromIntoTopConvention host b ≤ GetRowFromIntoTopConvention host a)).

(** The tile of column [iX] and row [iY] has a row in the tile table that
    passes [m_osWHERE]. *)
Definition tile_stored (host : Host) (cfg : Config) (db : MainDB) (iX iY : Z) : Prop :=
  ∃ row, tiles db !! tile_key host cfg iY iX = Some row
         ∧ m_osWHERE host (tile_key host cfg iY iX) row = true.

Definition in_window (w : TileWindow) (iX iY : Z) : Prop :=
  iColMin w ≤ iX ≤ iColMax w ∧ iRowMin w ≤ iY ≤ iRowMax w.

(** A window of the raster, of a size that [int] holds. *)
Definition window_ok (cfg : Config) (nXOff nYOff nXSize nYSize : Z) : Prop :=
  0 < nBlockXSize cfg ∧ 0 < nBlockYSize cfg
  ∧ 0 ≤ nXOff ∧ 0 < nXSize ∧ nXOff + nXSize ≤ INT_MAX
  ∧ 0 ≤ nYOff ∧ 0 < nYSize ∧ nYOff + nYSize ≤ INT_MAX.

(** What the loops of [IGetDataCoverageStatus] make of the tiles they have
    seen. *)
Definition scan_summary (tiles : gset (Z * Z)) (cells : list (Z * Z)) : Z :=
  Z.lor (if existsb (fun c => bool_decide ((c.2, c.1) ∈ tiles)) cells
         then GDAL_DATA_COVERAGE_STATUS_DATA else 0)
        (if existsb (fun c => negb (bool_decide ((c.2, c.1) ∈ tiles))) cells
         then GDAL_DATA_COVERAGE_STATUS_EMPTY else 0).

(** *** The table of partial tiles *)

(** Band [i] (from 1) of a row of [partial_tiles] as [ReadTile] loads it:
    the blob of the band when one of its quadrants is flagged, the fill
    value otherwise. *)
Definition partial_band (host : Host) (cfg : Config) (r : PartialTile) (i : Z)
  : list Z :=
  if Z.land (pt_partial_flag r) (band_mask i) =? 0
  then replicate (nBlockPixels cfg) (fill_value host cfg)
  else default [] (pt_band r i).

(** A row of [partial_tiles] has the four band columns, and a band with a
    flagged quadrant holds the samples of a block. *)
Definition partial_row_ok (cfg : Config) (r : PartialTile) : Prop :=
  length (pt_tile_data_band r) = 4%nat
  ∧ ∀ i, 1 ≤ i ≤ nBands cfg →
         Z.land (pt_partial_flag r) (band_mask i) ≠ 0 →
         ∃ blob, pt_band r i = Some blob ∧ length blob = nBlockPixels cfg.

(** What the schema of [partial_tiles] and the statements that write it
    keep: ids come from AUTOINCREMENT, (zoom_level, tile_column, tile_row) is
    UNIQUE, and the rows are as [partial_row_ok] says. *)
Definition partial_tiles_ok (cfg : Config) (db : TempDB) : Prop :=
  0 < pt_next_id db
  ∧ NoDup (pt_id <$> partial_tiles db)
  ∧ NoDup (pt_key <$> partial_tiles db)
  ∧ ∀ r, r ∈ partial_tiles db →
      0 < pt_id r < pt_next_id db ∧ partial_row_ok cfg r.

(** The quadrant flags of the partial tile of row [nRow_] and column
    [nCol_], 0 when there is none. *)
Definition partial_flags (cfg : Config) (st : State) (nRow_ nCol_ : Z) : Z :=
  match m_hTempDB st with
  | Some db =>
      default 0 (pt_partial_flag <$> find_partial (m_nZoomLevel cfg) nRow_ nCol_ db)
  | None => 0
  end.

(** [bTryFreeing] of [DoPartialFlushOfPartialTilesIfNecessary]: less than
    1 GB of free space, or a temporary database above four rows of blocks
    of the raster. *)
Definition bTryFreeing (host : Host) (cfg : Config) (log : list Event) : bool :=
  let nFreeSpace := VSIGetDiskFreeSpace host log in
  if (0 <=? nFreeSpace) && (nFreeSpace <? 1024 * 1024 * 1024) then true
  else
    match VSIStatL_TempDB host log with
    | Some size =>
        let nTempSpace :=
          match VSIStatL_Journal host log with
          | Some j => size + j
          | None =>
              match VSIStatL_Wal host log with
              | Some w => size + w
              | None => size
              end
          end in
        4 * nRasterXSize cfg * nBlockYSize cfg * nBands cfg
          * GDALGetDataTypeSizeBytes (m_eDT cfg) <? nTempSpace
    | None => false
    end.

(** * Proofs *)

Section Frames.
Variable host : Host.
Variable cfg : Config.

Lemma same_view_refl st : same_view st st.
Proof. by repeat split. Qed.

Lemma same_view_trans a b c : same_view a b -> same_view b c -> same_view a c.
Proof. unfold same_view. intros (?&?&?&?) (?&?&?&?). repeat split; congruence. Qed.

Lemma foldl_same_view {A} (step : State -> A -> State) l st :
  (forall s x, same_view s (step s x)) -> same_view st (foldl step st l).
Proof.
  intros H. revert st. induction l as [|x l IH]; intros st; simpl.
  - apply same_view_refl.
  - eapply same_view_trans; [apply H | apply IH].
Qed.

Lemma exec_frame s st f st1 :
  is_tx (EvStmt s NoFault) = false ->
  exec host s st = (f, st1) -> same_view st st1.
Proof.
  unfold exec. intros Hs [= <- <-]. unfold same_view, tx_log. simpl.
  destruct s; simpl in *; try discriminate; by repeat split.
Qed.

Ltac frame_hyp L :=
  match goal with
  | E : _ = (_, _) |- _ => apply L in E; [| try reflexivity ..]
  end.

Ltac close_view :=
  repeat match goal with H : same_view _ _ |- _ => destruct H as (?&?&?&?) end;
  unfold same_view, tx_log in *; simpl in *; repeat split; congruence.

Lemma FillBuffer_frame o n st : same_view st (FillBuffer host cfg o n st).
Proof. unfold FillBuffer. case_match; close_view. Qed.

Lemma FillEmptyTile_frame o st : same_view st (FillEmptyTile host cfg o st).
Proof. apply FillBuffer_frame. Qed.

Lemma FillEmptyTileSingleBand_frame o st :
  same_view st (FillEmptyTileSingleBand host cfg o st).
Proof. apply FillBuffer_frame. Qed.

Lemma CPLError_frame m st : same_view st (CPLError m st).
Proof. close_view. Qed.

Lemma GetColorTable_query_frame s row st b st1 :
  is_tx (EvStmt s NoFault) = false ->
  GetColorTable_query host s row st = (b, st1) -> same_view st st1.
Proof.
  unfold GetColorTable_query. intros Hs H.
  destruct (exec host s st) as [f st2] eqn:E. apply exec_frame in E; [|done].
  repeat (case_match; simplify_eq); close_view.
Qed.

Lemma GetColorTable_frame st ct st1 :
  GetColorTable host cfg st = (ct, st1) -> same_view st st1.
Proof.
  unfold GetColorTable. intros H.
  repeat (case_match; simplify_eq); try apply same_view_refl.
  all: repeat frame_hyp GetColorTable_query_frame; close_view.
Qed.

Lemma GetColorTable_frame' st : same_view st (snd (GetColorTable host cfg st)).
Proof. destruct (GetColorTable host cfg st) eqn:E. eapply GetColorTable_frame, E. Qed.

Lemma ReadTile_check_ct_frame n ct st : same_view st (ReadTile_check_ct cfg n ct st).
Proof. unfold ReadTile_check_ct. repeat case_match; close_view. Qed.

Lemma ReadTileBlob_frame blob off o s st e l st1 :
  ReadTileBlob host cfg blob off o s st = (e, l, st1) -> same_view st st1.
Proof.
  unfold ReadTileBlob. intros H.
  repeat (case_match; simplify_eq).
  all: repeat match goal with
  | |- context [FillEmptyTile host cfg ?o ?s] =>
      pose proof (FillEmptyTile_frame o s); generalize dependent (FillEmptyTile host cfg o s); intros
  | |- context [ReadTile_check_ct cfg ?n ?c ?s] =>
      pose proof (ReadTile_check_ct_frame n c s); generalize dependent (ReadTile_check_ct cfg n c s); intros
  | |- context [GetColorTable host cfg ?s] =>
      pose proof (GetColorTable_frame' s); generalize dependent (GetColorTable host cfg s); intros
  | H : context [GetColorTable host cfg ?s] |- _ =>
      pose proof (GetColorTable_frame' s); generalize dependent (GetColorTable host cfg s); intros
  end.
  all: close_view.
Qed.

Ltac absorb_calls :=
  repeat match goal with
  | |- context [FillEmptyTile host cfg ?o ?s] =>
      pose proof (FillEmptyTile_frame o s);
      generalize dependent (FillEmptyTile host cfg o s); intros
  | |- context [FillEmptyTileSingleBand host cfg ?o ?s] =>
      pose proof (FillEmptyTileSingleBand_frame o s);
      generalize dependent (FillEmptyTileSingleBand host cfg o s); intros
  | |- context [ReadTile_check_ct cfg ?n ?c ?s] =>
      pose proof (ReadTile_check_ct_frame n c s);
      generalize dependent (ReadTile_check_ct cfg n c s); intros
  | |- context [GetColorTable host cfg ?s] =>
      pose proof (GetColorTable_frame' s);
      generalize dependent (GetColorTable host cfg s); intros
  | H : context [GetColorTable host cfg ?s] |- _ =>
      pose proof (GetColorTable_frame' s);
      generalize dependent (GetColorTable host cfg s); intros
  end.

Lemma GetTileOffsetAndScale_frame id st o s st1 :
  GetTileOffsetAndScale host cfg id st = (o, s, st1) -> same_view st st1.
Proof.
  unfold GetTileOffsetAndScale. intros H.
  repeat (case_match; simplify_eq); try apply same_view_refl.
  all: frame_hyp exec_frame; close_view.
Qed.

Lemma load_partial_bands_frame r fl off st :
  same_view st (load_partial_bands host cfg r fl off st).
Proof.
  unfold load_partial_bands. apply foldl_same_view. intros s x.
  case_match; [apply FillEmptyTileSingleBand_frame | close_view].
Qed.

Lemma ReadTileAt_frame r c off st ok l st1 :
  ReadTileAt host cfg r c off st = (ok, l, st1) -> same_view st st1.
Proof.
  unfold ReadTileAt. intros H.
  repeat (case_match; simplify_eq).
  all: repeat frame_hyp exec_frame.
  all: repeat frame_hyp GetTileOffsetAndScale_frame.
  all: repeat frame_hyp ReadTileBlob_frame.
  all: repeat match goal with
       | |- context [load_partial_bands host cfg ?r ?f ?o ?s] =>
           pose proof (load_partial_bands_frame r f o s);
           generalize dependent (load_partial_bands host cfg r f o s); intros
       end.
  all: absorb_calls; close_view.
Qed.

Lemma GetTileId_frame r c st id st1 :
  GetTileId host cfg r c st = (id, st1) -> same_view st st1.
Proof.
  unfold GetTileId. intros H. repeat (case_match; simplify_eq).
  all: frame_hyp exec_frame; close_view.
Qed.

Lemma DeleteTile_frame r c st b st1 :
  DeleteTile host cfg r c st = (b, st1) -> same_view st st1.
Proof.
  unfold DeleteTile. intros H. repeat (case_match; simplify_eq).
  all: frame_hyp exec_frame; close_view.
Qed.

Lemma DeleteFromGriddedTileAncillary_frame id st b st1 :
  DeleteFromGriddedTileAncillary host id st = (b, st1) -> same_view st st1.
Proof.
  unfold DeleteFromGriddedTileAncillary. intros H. repeat (case_match; simplify_eq).
  all: frame_hyp exec_frame; close_view.
Qed.

Lemma fetch_missing_bands_frame r c st l st1 :
  fetch_missing_bands host cfg r c st = (l, st1) -> same_view st st1.
Proof.
  unfold fetch_missing_bands. intros H.
  repeat (case_match; simplify_eq).
  frame_hyp ReadTileAt_frame.
  eapply same_view_trans; [| apply foldl_same_view].
  - close_view.
  - intros sx x. case_match; close_view.
Qed.

Lemma finish_pixels_frame n v st ct st1 :
  finish_pixels host cfg n v st = (ct, st1) -> same_view st st1.
Proof.
  unfold finish_pixels. intros H. repeat (case_match; simplify_eq); close_view.
Qed.

Lemma insert_ancillary_frame r c s st e st1 :
  insert_ancillary host cfg r c s st = (e, st1) -> same_view st st1.
Proof.
  unfold insert_ancillary. intros H. repeat (case_match; simplify_eq).
  all: frame_hyp GetTileId_frame.
  all: try frame_hyp DeleteFromGriddedTileAncillary_frame.
  all: try frame_hyp exec_frame.
  all: close_view.
Qed.

Lemma remove_quantized_tile_frame r c st e st1 :
  remove_quantized_tile host cfg r c st = (e, st1) -> same_view st st1.
Proof.
  unfold remove_quantized_tile. intros H. repeat (case_match; simplify_eq).
  all: frame_hyp GetTileId_frame.
  all: try frame_hyp DeleteTile_frame.
  all: try frame_hyp DeleteFromGriddedTileAncillary_frame.
  all: close_view.
Qed.

Lemma same_view_step a b : same_view a b <-> tx_step [] (m_nTileInsertionCount a) a b.
Proof. unfold same_view, tx_step. simpl. tauto. Qed.

Lemma tx_step_view_l evs c a b d : same_view a b -> tx_step evs c b d -> tx_step evs c a d.
Proof.
  unfold same_view, tx_step. intros (?&?&?&?) (?&?&?&?). repeat split; congruence.
Qed.

Lemma tx_step_view_r evs c a b d : tx_step evs c a b -> same_view b d ->
  tx_step evs c a d.
Proof.
  unfold same_view, tx_step. intros (?&?&?&?) (?&?&?&?). repeat split; congruence.
Qed.

Lemma tx_outcome_view_l a b d e : same_view a b -> tx_outcome b d e -> tx_outcome a d e.
Proof.
  intros Hab H. pose proof Hab as (Hc&_).
  destruct H as [H|ins ? ? H|ins ? ? H|ins ? ? ? H|? ? H].
  - apply txo_none. eapply same_view_trans; eauto.
  - eapply txo_first; eauto; [congruence | eapply tx_step_view_l; eauto].
  - eapply txo_rollover; eauto; [congruence | eapply tx_step_view_l; eauto].
  - eapply txo_next; eauto; try congruence. rewrite <- Hc. eapply tx_step_view_l; eauto.
  - eapply txo_poison; eauto; [congruence | eapply tx_step_view_l; eauto].
Qed.

Lemma tx_outcome_view_r a b d e : tx_outcome a b e -> same_view b d -> tx_outcome a d e.
Proof.
  intros H Hbd.
  destruct H as [H|ins ? ? H|ins ? ? H|ins ? ? ? H|? ? H].
  - apply txo_none. eapply same_view_trans; eauto.
  - eapply txo_first; eauto. eapply tx_step_view_r; eauto.
  - eapply txo_rollover; eauto. eapply tx_step_view_r; eauto.
  - eapply txo_next; eauto. eapply tx_step_view_r; eauto.
  - eapply txo_poison; eauto. eapply tx_step_view_r; eauto.
Qed.

Lemma begin_or_commit_spec st ok st1 :
  begin_or_commit host st = (ok, st1) ->
  (ok = true /\ m_nTileInsertionCount st = 0 /\ tx_step [EvStartTransaction] 1 st st1)
  \/ (ok = true /\ m_nTileInsertionCount st = 1000
      /\ tx_step [EvStartTransaction; EvCommitTransaction true] 1 st st1)
  \/ (ok = true /\ m_nTileInsertionCount st <> 0 /\ m_nTileInsertionCount st <> 1000
      /\ tx_step [] (m_nTileInsertionCount st + 1) st st1)
  \/ (ok = false /\ m_nTileInsertionCount st = 1000
      /\ tx_step [EvCommitTransaction false] (-1) st st1).
Proof.
  unfold begin_or_commit, ICommitTransaction, IStartTransaction. intros H.
  repeat (case_match; simplify_eq); unfold tx_step, tx_log; simpl.
  all: repeat match goal with
       | H : (_ =? _) = true |- _ => apply Z.eqb_eq in H
       | H : (_ =? _) = false |- _ => apply Z.eqb_neq in H
       end.
  - left. repeat split; auto; lia.
  - right; left. repeat split; auto; lia.
  - right; right; right. repeat split; auto; lia.
  - right; right; left. repeat split; auto; lia.
Qed.

Lemma insert_tile_spec r c blob st e st1 :
  insert_tile host cfg r c blob st = (e, st1) ->
  exists ins, is_insert ins = true /\ tx_step [ins] (m_nTileInsertionCount st) st st1.
Proof.
  unfold insert_tile, exec. intros H.
  repeat (case_match; simplify_eq); eexists; (split; [| unfold tx_step, tx_log; simpl; repeat split; reflexivity]); reflexivity.
Qed.

Lemma store_tile_spec r c blob s st e st1 :
  store_tile host cfg r c blob s st = (e, st1) -> tx_outcome st st1 e.
Proof.
  unfold store_tile. intros H.
  destruct (begin_or_commit host st) as [ok st2] eqn:Hb.
  apply begin_or_commit_spec in Hb.
  destruct ok; simpl in H.
  - destruct (insert_tile host cfg r c blob st2) as [e2 st3] eqn:Hi.
    apply insert_tile_spec in Hi as (ins & Hins & Hi).
    assert (Hv : same_view st3 st1).
    { destruct (quantized_format cfg).
      - eapply insert_ancillary_frame; eauto.
      - simplify_eq. apply same_view_refl. }
    assert (H3 : tx_step [ins] (m_nTileInsertionCount st2) st2 st1)
      by (eapply tx_step_view_r; eauto).
    clear Hi Hv H.
    destruct Hb as [(_&Hc&Hs)|[(_&Hc&Hs)|[(_&Hc&Hc'&Hs)|(?&_)]]]; try discriminate.
    + eapply txo_first; eauto. unfold tx_step in *. destruct Hs as (?&?&?&?), H3 as (?&?&?&?).
      repeat split; try congruence. simpl in *. congruence.
    + eapply txo_rollover; eauto. unfold tx_step in *. destruct Hs as (?&?&?&?), H3 as (?&?&?&?).
      repeat split; try congruence. simpl in *. congruence.
    + eapply txo_next; eauto. unfold tx_step in *. destruct Hs as (?&?&?&?), H3 as (?&?&?&?).
      repeat split; try congruence. simpl in *. congruence.
  - simplify_eq.
    destruct Hb as [(?&_)|[(?&_)|[(?&_)|(_&Hc&Hs)]]]; try discriminate.
    eapply txo_poison; eauto.
Qed.

Lemma encode_and_store_spec r c ad ao v st e st1 :
  encode_and_store host cfg r c ad ao v st = (e, st1) -> tx_outcome st st1 e.
Proof.
  unfold encode_and_store. intros H.
  set (st2 := if (nBands cfg =? 1) && bool_decide (m_eDT cfg = GDT_Byte)
              then (GetColorTable host cfg st).2 else st) in *.
  assert (Hv2 : same_view st st2).
  { subst st2. clear H.
    destruct ((nBands cfg =? 1) && bool_decide (m_eDT cfg = GDT_Byte));
      [apply GetColorTable_frame' | apply same_view_refl]. }
  clearbody st2.
  eapply tx_outcome_view_l; [exact Hv2|]. clear Hv2.
  case_match; simplify_eq; [apply txo_none, CPLError_frame|].
  match type of H with context [build_bands _ _ ?n ?p ?s] =>
    set (st3 := s) in *;
    assert (Hv3 : same_view st2 st3)
      by (subst st3; clear H;
          match goal with |- context [if ?b then _ else _] => destruct b end; close_view);
    clearbody st3 end.
  eapply tx_outcome_view_l; [exact Hv3|]. clear Hv3.
  destruct (build_bands _ _ _ _ _) as [[bands memct] stats].
  case_match.
  - apply txo_none. eapply remove_quantized_tile_frame; eauto.
  - destruct (finish_pixels _ _ _ _ _) as [ct8 st4] eqn:Hf.
    apply finish_pixels_frame in Hf.
    eapply tx_outcome_view_l; [exact Hf|].
    case_match; simplify_eq.
    + eapply store_tile_spec; eauto.
    + apply txo_none, same_view_refl.
Qed.

Lemma WriteTileInternal_spec st e st1 :
  WriteTileInternal host cfg st = (e, st1) -> tx_outcome st st1 e.
Proof.
  unfold WriteTileInternal. intros H.
  case_match; simplify_eq; [apply txo_none, same_view_refl|].
  case_match; simplify_eq; [apply txo_none, same_view_refl|].
  match type of H with context [if negb ?b then ?x else ?y] =>
    destruct (if negb b then x else y) as [lossy st2] eqn:Hf end.
  assert (Hv2 : same_view st st2).
  { clear H. destruct (negb (bAllDirty cfg st)); simplify_eq;
      [eapply fetch_missing_bands_frame; eauto | apply same_view_refl]. }
  clear Hf. eapply tx_outcome_view_l; [exact Hv2|]. clear Hv2.
  case_match; simplify_eq; [apply txo_none, same_view_refl|].
  match type of H with context [detect_empty _ _ _ ?s] =>
    set (st3 := s) in *; assert (Hv3 : same_view st2 st3) by (subst st3; close_view);
    clearbody st3 end.
  eapply tx_outcome_view_l; [exact Hv3|]. clear Hv3.
  case_match.
  - simplify_eq. apply txo_none.
    destruct (DeleteTile _ _ _ _ _) eqn:Hd. eapply DeleteTile_frame; eauto.
  - eapply encode_and_store_spec; eauto.
Qed.

Lemma WriteTile_spec st e st1 :
  WriteTile host cfg st = (e, st1) -> tx_outcome st st1 e.
Proof.
  unfold WriteTile, EnterDisableDirtyBlockFlush, LeaveDisableDirtyBlockFlush.
  intros H.
  destruct (m_nTileInsertionCount st <? 0); simplify_eq; [apply txo_none, same_view_refl|].
  destruct (m_bInWriteTile st) eqn:Hw; simplify_eq; [apply txo_none, CPLError_frame|].
  match type of H with context [WriteTileInternal host cfg ?s] =>
    destruct (WriteTileInternal host cfg s) as [e2 st2] eqn:Hi end.
  simplify_eq. apply WriteTileInternal_spec in Hi.
  destruct Hi as [Hi|ins ? ? Hi|ins ? ? Hi|ins ? ? ? Hi|? ? Hi];
    [apply txo_none | eapply txo_first | eapply txo_rollover | eapply txo_next
    | eapply txo_poison]; eauto;
    unfold same_view, tx_step, tx_log in *; simpl in *;
    destruct Hi as (?&?&?&?); repeat split; try congruence; try lia.
Qed.

Lemma count_events_tx p st :
  (forall e, p e = true -> is_tx e = true) ->
  count_events p (sql_log st) = count_events p (tx_log st).
Proof.
  intros Hp. unfold count_events, tx_log. f_equal. f_equal.
  induction (sql_log st) as [|e l IH]; simpl; [done|].
  destruct (p e) eqn:He.
  - rewrite (Hp _ He). simpl. rewrite He. by f_equal.
  - destruct (is_tx e); simpl; rewrite ?He; done.
Qed.

Lemma n_inserts_tx st : n_inserts st = count_events is_insert (tx_log st).
Proof. apply count_events_tx. by intros [[]| | |]. Qed.
Lemma n_commits_tx st : n_commits st = count_events is_commit (tx_log st).
Proof. apply count_events_tx. by intros [[]| |[]|]. Qed.
Lemma n_failed_commits_tx st :
  n_failed_commits st = count_events is_failed_commit (tx_log st).
Proof. apply count_events_tx. by intros [[]| |[]|]. Qed.

Lemma same_view_counts a b : same_view a b ->
  m_nTileInsertionCount b = m_nTileInsertionCount a
  /\ n_inserts b = n_inserts a /\ n_commits b = n_commits a
  /\ n_failed_commits b = n_failed_commits a /\ same_guards a b.
Proof.
  intros (?&?&?&Ht). rewrite !n_inserts_tx, !n_commits_tx, !n_failed_commits_tx, Ht.
  by repeat split.
Qed.

Lemma tx_shape_tx st : tx_shape st = omap tx_event (tx_log st).
Proof.
  unfold tx_shape, tx_log. induction (sql_log st) as [|e l IH]; [done|].
  destruct e as [[]| |[]|]; simpl; rewrite ?IH; try done.
  all: f_equal; exact IH.
Qed.

Lemma same_view_shape a b : same_view a b -> tx_shape b = tx_shape a.
Proof. intros (_&_&_&Ht). by rewrite !tx_shape_tx, Ht. Qed.

Lemma tx_step_shape evs c a b : tx_step evs c a b ->
  tx_shape b = omap tx_event evs ++ tx_shape a.
Proof. intros (_&_&_&Ht). by rewrite !tx_shape_tx, Ht, omap_app. Qed.

Lemma batches_count n : 0 <= (batches n).2 <= 1000.
Proof.
  induction n as [|n IH]; simpl; [lia|].
  destruct (batches n) as [l c]. simpl in *.
  destruct (Z.eqb_spec c 0); simpl; [lia|].
  destruct (Z.eqb_spec c 1000); simpl; lia.
Qed.

Lemma batches_zero n : (batches n).2 = 0 -> n = O.
Proof.
  destruct n as [|n]; [done|]. simpl. pose proof (batches_count n) as Hc.
  destruct (batches n) as [l c]. simpl in *.
  destruct (Z.eqb_spec c 0); simpl; [lia|].
  destruct (Z.eqb_spec c 1000); simpl; lia.
Qed.

Lemma batch_inv_count st : batch_inv st -> 0 <= m_nTileInsertionCount st <= 1000.
Proof. intros [n Hn]. pose proof (batches_count n) as H. by rewrite Hn in H. Qed.

Lemma same_view_good a b : same_view a b -> good_run a b.
Proof.
  intros H. pose proof (same_view_counts _ _ H) as (Hc&Hi&Hm&Hf&Hg).
  unfold good_run, batch_inv. rewrite Hc, Hf, (same_view_shape _ _ H).
  split; [exact Hg|]. split; [done|]. split; [tauto|]. split; [tauto|].
  intros _; exact H.
Qed.

Lemma good_run_trans a b c : good_run a b -> good_run b c -> good_run a c.
Proof.
  unfold good_run, same_guards.
  intros ((?&?)&?&?&?&Hab) ((?&?)&?&?&?&Hbc).
  split; [split; congruence|]. split; [congruence|]. split; [auto|]. split; [auto|].
  intros Hneg. pose proof (Hab Hneg) as Hv. eapply same_view_trans; [exact Hv|].
  apply Hbc. destruct Hv as (->&_). done.
Qed.

Lemma tx_step_counts evs c a b : tx_step evs c a b ->
  m_nTileInsertionCount b = c
  /\ n_inserts b = count_events is_insert evs + n_inserts a
  /\ n_commits b = count_events is_commit evs + n_commits a
  /\ n_failed_commits b = count_events is_failed_commit evs + n_failed_commits a
  /\ same_guards a b.
Proof.
  intros (?&?&?&Ht). rewrite !n_inserts_tx, !n_commits_tx, !n_failed_commits_tx, Ht.
  unfold count_events. rewrite !List.filter_app, !length_app. repeat split; auto; lia.
Qed.

Lemma tx_outcome_op a b e : 0 <= m_nTileInsertionCount a -> tx_outcome a b e ->
  good_run a b \/ (e = CE_Failure /\ poisoning a b).
Proof.
  intros Hnn [H|ins Hins Hc H|ins Hins Hc H|ins Hins Hc Hc' H|Hc He H].
  - left. by apply same_view_good.
  - left. pose proof (tx_step_shape _ _ _ _ H) as Hs.
    apply tx_step_counts in H as (H1&H2&H3&H4&H5).
    destruct ins as [[]| | |]; simpl in *; try discriminate.
    unfold count_events in *. simpl in *.
    split; [exact H5|]. split; [lia|]. split; [|split; [lia | intros; exfalso; lia]].
    intros [n Hn]. exists (S n). simpl. by rewrite Hn, Hc, Hs, H1.
  - left. pose proof (tx_step_shape _ _ _ _ H) as Hs.
    apply tx_step_counts in H as (H1&H2&H3&H4&H5).
    destruct ins as [[]| | |]; simpl in *; try discriminate.
    unfold count_events in *. simpl in *.
    split; [exact H5|]. split; [lia|]. split; [|split; [lia | intros; exfalso; lia]].
    intros [n Hn]. exists (S n). simpl. by rewrite Hn, Hc, Hs, H1.
  - left. pose proof (tx_step_shape _ _ _ _ H) as Hs.
    apply tx_step_counts in H as (H1&H2&H3&H4&H5).
    destruct ins as [[]| | |]; simpl in *; try discriminate.
    unfold count_events in *. simpl in *.
    split; [exact H5|]. split; [lia|]. split; [|split; [lia | intros; exfalso; lia]].
    intros [n Hn]. exists (S n). simpl. rewrite Hn, Hs, H1.
    destruct (Z.eqb_spec (m_nTileInsertionCount a) 0); [done|].
    destruct (Z.eqb_spec (m_nTileInsertionCount a) 1000); done.
  - right. split; [done|]. apply tx_step_counts in H as (H1&H2&H3&H4&H5).
    unfold count_events in *. simpl in *.
    unfold poisoning. split; [exact H5|]. repeat split; lia.
Qed.

Lemma WriteTile_op st e st1 :
  WriteTile host cfg st = (e, st1) ->
  good_run st st1 \/ (e = CE_Failure /\ poisoning st st1).
Proof.
  intros H. destruct (Z.lt_ge_cases (m_nTileInsertionCount st) 0) as [Hneg|Hnn].
  - left. apply same_view_good. unfold WriteTile in H.
    apply Z.ltb_lt in Hneg. rewrite Hneg in H. simplify_eq. apply same_view_refl.
  - apply tx_outcome_op; [done|]. by eapply WriteTile_spec.
Qed.

Lemma op_spec_good_l a b c e : good_run a b -> op_spec b c e -> op_spec a c e.
Proof.
  intros Hab [H|(He&sm&Hg&Hp)].
  - left. eapply good_run_trans; eauto.
  - right. split; [done|]. exists sm. split; [eapply good_run_trans; eauto | done].
Qed.

Lemma op_spec_view_r a b c e : op_spec a b e -> same_view b c -> op_spec a c e.
Proof.
  intros [H|(He&sm&Hg&Hp)] Hv.
  - left. eapply good_run_trans; eauto using same_view_good.
  - right. split; [done|]. exists sm. split; [done|].
    pose proof (same_view_counts _ _ Hv) as (?&?&?&?&[? ?]).
    destruct Hp as ([? ?]&?&?&?&?&?). unfold poisoning, same_guards.
    repeat split; congruence.
Qed.

Lemma tmp_exec_frame s ch st f st1 :
  is_tx (EvStmt s NoFault) = false ->
  tmp_exec host s ch st = (f, st1) -> same_view st st1.
Proof.
  unfold tmp_exec. intros Hs H.
  destruct (exec host s st) as [f2 st2] eqn:E. apply exec_frame in E; [|done].
  repeat (case_match; simplify_eq); close_view.
Qed.

Lemma merge_with_main_tile_frame r c fl st :
  same_view st (merge_with_main_tile host cfg r c fl st).
Proof.
  unfold merge_with_main_tile.
  repeat (case_match; simplify_eq).
  all: repeat frame_hyp exec_frame.
  all: repeat frame_hyp GetTileOffsetAndScale_frame.
  all: repeat frame_hyp ReadTileBlob_frame.
  all: close_view.
Qed.

Lemma flush_partial_row_op r st e st1 :
  flush_partial_row host cfg r st = (e, st1) ->
  good_run st st1 \/ (e = CE_Failure /\ poisoning st st1).
Proof.
  unfold flush_partial_row. intros H.
  match type of H with WriteTile host cfg ?s = _ =>
    assert (Hv : same_view st s); [| generalize dependent s; intros sw H Hv] end.
  { eapply same_view_trans; [apply load_partial_bands_frame|].
    eapply same_view_trans; [| apply same_view_step; unfold tx_step; simpl; repeat split; reflexivity].
    case_match; [apply same_view_refl | apply merge_with_main_tile_frame]. }
  apply WriteTile_op in H. pose proof (same_view_good _ _ Hv) as Hg.
  destruct H as [H|(He&Hp)].
  - left. eapply good_run_trans; eauto.
  - right. split; [done|].
    pose proof (same_view_counts _ _ Hv) as (?&?&?&?&[? ?]).
    destruct Hp as ([? ?]&?&?&?&?&?). unfold poisoning, same_guards.
    repeat split; congruence.
Qed.

Lemma poisoning_op a b : poisoning a b -> op_spec a b CE_Failure.
Proof.
  intros H. right. split; [done|]. exists a. split; [apply same_view_good, same_view_refl | done].
Qed.

Lemma flush_rows_op bp na rows n g st e n' g' st1 :
  flush_rows host cfg bp na rows n g st = (e, n', g', st1) -> op_spec st st1 e.
Proof.
  revert n g st. induction rows as [|r rows IH]; intros n g st H;
    cbn [flush_rows] in H.
  - destruct (exec host TmpStep st) as [f st2] eqn:E. apply exec_frame in E; [|done].
    left. apply same_view_good.
    destruct f; simplify_eq; auto; (eapply same_view_trans; [exact E | apply CPLError_frame]).
  - destruct (exec host TmpStep st) as [f st2] eqn:E. apply exec_frame in E; [|done].
    eapply op_spec_good_l; [apply same_view_good, E|]. clear E.
    destruct f; simplify_eq;
      try (left; apply same_view_good, CPLError_frame).
    destruct (bp && found_dirty_block host cfg (pt_tile_row r) (pt_tile_column r) st2);
      [eapply IH; eauto|].
    destruct (bp && (na ÷ 2 <=? n + 1)); simplify_eq;
      [left; apply same_view_good, same_view_refl|].
    destruct (flush_partial_row host cfg r st2) as [e2 st3] eqn:Hf.
    apply flush_partial_row_op in Hf. destruct e2.
    + destruct Hf as [Hf|(?&_)]; [|discriminate].
      eapply op_spec_good_l; [exact Hf|].
      match type of H with flush_rows _ _ _ _ _ _ _ ?s = _ =>
        assert (Hv : same_view st3 s) end.
      { destruct bp; [|apply same_view_refl].
        match goal with |- context [tmp_exec ?h ?s ?c ?x] =>
          destruct (tmp_exec h s c x) eqn:Ht end.
        eapply tmp_exec_frame in Ht; [exact Ht | done]. }
      eapply op_spec_good_l; [apply same_view_good, Hv|]. eapply IH; eauto.
    + simplify_eq. destruct Hf as [Hf|(_&Hp)]; [by left | by apply poisoning_op].
Qed.

Lemma FlushRemainingShiftedTiles_op bp st e st1 :
  FlushRemainingShiftedTiles host cfg bp st = (e, st1) -> op_spec st st1 e.
Proof.
  unfold FlushRemainingShiftedTiles. intros H.
  destruct (m_hTempDB st) as [db|]; [|simplify_eq; left; apply same_view_good, same_view_refl].
  match type of H with context [if bp then ?x else ?y] =>
    destruct (if bp then x else y) as [na st2] eqn:Hc end.
  assert (Hv2 : same_view st st2).
  { destruct bp; [|simplify_eq; close_view].
    destruct (exec host _ _) as [f0 s0] eqn:E0. apply exec_frame in E0; [|done].
    eapply same_view_trans; [|destruct f0; simplify_eq; exact E0]. close_view. }
  clear Hc. eapply op_spec_good_l; [apply same_view_good, Hv2|]. clear Hv2.
  destruct (exec host _ st2) as [f st3] eqn:E. apply exec_frame in E; [|done].
  eapply op_spec_good_l; [apply same_view_good, E|]. clear E.
  assert (Hmain : forall e' st',
    (let '(eErr, _, bGot, s) :=
       flush_rows host cfg bp na (select_active cfg bp db) 0 false st3 in
     (eErr,
      if bGot && negb bp
      then (tmp_exec host (TmpMarkAllDead (m_nZoomLevel cfg))
              (on_rows (map (fun r => if decide (pt_active cfg r) then pt_dead cfg r else r)))
              s).2
      else s)) = (e', st') -> op_spec st3 st' e').
  { intros e' st' H'.
    destruct (flush_rows _ _ _ _ _ _ _ _) as [[[e2 n2] g2] st4] eqn:Hfl.
    apply flush_rows_op in Hfl. simplify_eq.
    eapply op_spec_view_r; [exact Hfl|].
    destruct (g2 && negb bp); [|apply same_view_refl].
    match goal with |- context [tmp_exec ?h ?s ?c ?x] =>
      destruct (tmp_exec h s c x) eqn:Ht end.
    eapply tmp_exec_frame in Ht; [exact Ht | done]. }
  destruct f; simplify_eq; try (eapply Hmain; eassumption).
  left. apply same_view_good, same_view_refl.
Qed.

Lemma op_spec_weak a b e : op_spec a b e -> weak_op a b.
Proof. intros [H|(_&H)]; [by left | by right]. Qed.

Lemma weak_refl a : weak_op a a.
Proof. left. apply same_view_good, same_view_refl. Qed.

Lemma poisoning_view_r sm b c : poisoning sm b -> same_view b c -> poisoning sm c.
Proof.
  intros ([? ?]&?&?&?&?&?) Hv.
  pose proof (same_view_counts _ _ Hv) as (?&?&?&?&[? ?]).
  unfold poisoning, same_guards. repeat split; congruence.
Qed.

Lemma weak_op_trans a b c : weak_op a b -> weak_op b c -> weak_op a c.
Proof.
  intros [Hab|(sm&Hg&Hp)] [Hbc|(sm'&Hg'&Hp')].
  - left. eapply good_run_trans; eauto.
  - right. exists sm'. split; [eapply good_run_trans; eauto | done].
  - right. exists sm. split; [done|]. eapply poisoning_view_r; [exact Hp|].
    apply Hbc. destruct Hp as (_&_&->&_). lia.
  - exfalso. destruct Hg' as (_&_&_&_&Hv). destruct Hp as (_&_&Hb&_).
    destruct Hv as (Hc&_); [lia|]. destruct Hp' as (_&?&_). lia.
Qed.

Lemma weak_view_l a b c : same_view a b -> weak_op b c -> weak_op a c.
Proof. intros H. apply weak_op_trans. left. by apply same_view_good. Qed.

Lemma weak_view_r a b c : weak_op a b -> same_view b c -> weak_op a c.
Proof. intros H Hv. eapply weak_op_trans; [exact H|]. left. by apply same_view_good. Qed.

Lemma ICommitTransaction_spec st ok st1 :
  ICommitTransaction host st = (ok, st1) ->
  tx_step [EvCommitTransaction ok] (m_nTileInsertionCount st) st st1.
Proof. unfold ICommitTransaction. intros [= <- <-]. by repeat split. Qed.

Lemma FlushTiles_spec st e st1 :
  FlushTiles host cfg st = (e, st1) -> flush_outcome st st1 e.
Proof.
  unfold FlushTiles. intros H.
  destruct (Z.ltb_spec (m_nTileInsertionCount st) 0) as [Hneg|Hnn].
  { simplify_eq. by apply fo_poisoned. }
  match type of H with context [if bUpdate cfg then ?x else ?y] =>
    destruct (if bUpdate cfg then x else y) as [e2 s2] eqn:E end.
  assert (Hop : op_spec st s2 e2).
  { destruct (bUpdate cfg); [|simplify_eq; left; apply same_view_good, same_view_refl].
    destruct (shifted cfg).
    - by eapply FlushRemainingShiftedTiles_op.
    - apply WriteTile_op in E. destruct E as [?|[-> ?]]; [by left | by apply poisoning_op]. }
  clear E. destruct (Z.ltb_spec 0 (m_nTileInsertionCount s2)) as [Hpos|Hle].
  - destruct (ICommitTransaction host s2) as [ok s3] eqn:Ec.
    apply ICommitTransaction_spec in Ec. destruct Ec as (Hc&Hg1&Hg2&Hl).
    destruct ok; simplify_eq.
    + eapply fo_commit; eauto. by repeat split.
    + eapply fo_failed; eauto. by repeat split.
  - simplify_eq. eapply fo_idle; eauto.
Qed.

Lemma tx_step_poisoning a b : 0 <= m_nTileInsertionCount a ->
  tx_step [EvCommitTransaction false] (-1) a b -> poisoning a b.
Proof.
  intros Hnn H. apply tx_step_counts in H as (H1&H2&H3&H4&H5).
  unfold count_events in *. simpl in *. unfold poisoning. repeat split; try lia; apply H5.
Qed.

Lemma FlushTiles_weak st e st1 :
  FlushTiles host cfg st = (e, st1) -> weak_op st st1 \/ (exists s2, weak_op st s2 /\
    tx_step [EvCommitTransaction true] 0 s2 st1).
Proof.
  intros H. apply FlushTiles_spec in H.
  destruct H as [? ? ->|s2 ? Hop ? ->|s2 e2 ? Hop ? ? Hs|s2 e2 ? Hop ? ? Hs].
  - left. apply weak_refl.
  - left. by eapply op_spec_weak.
  - right. exists s2. split; [by eapply op_spec_weak | done].
  - left. eapply weak_op_trans; [by eapply op_spec_weak|].
    right. exists s2. split; [apply same_view_good, same_view_refl|].
    apply tx_step_poisoning; [lia | done].
Qed.

Lemma DoPartialFlushOfPartialTilesIfNecessary_weak st e st1 :
  DoPartialFlushOfPartialTilesIfNecessary host cfg st = (e, st1) -> weak_op st st1.
Proof.
  unfold DoPartialFlushOfPartialTilesIfNecessary. intros H.
  set (now := time_now host (sql_log st)) in *. cbv zeta in H.
  match type of H with context [m_nLastSpaceCheckTimestamp ?s] =>
    lazymatch s with
    | st => fail
    | _ => assert (Hv : same_view st s)
             by (clear H; destruct (m_nLastSpaceCheckTimestamp st =? 0); close_view);
           generalize dependent s; intros s0 H Hv
    end end.
  eapply weak_view_l; [exact Hv|]. clear Hv.
  match type of H with (if ?c then _ else _) = _ => destruct c end;
    [|simplify_eq; apply weak_refl].
  match type of H with (if ?c then _ else _) = _ => destruct c end;
    [|simplify_eq; left; apply same_view_good; close_view].
  destruct (FlushRemainingShiftedTiles _ _ _ _) as [e2 s2] eqn:E.
  apply FlushRemainingShiftedTiles_op, op_spec_weak in E.
  eapply weak_view_l; [|eapply weak_view_r; [exact E|]]; [close_view|].
  destruct e2; simplify_eq; [|apply same_view_refl].
  destruct (tmp_exec _ _ _ _) as [f3 s3] eqn:E3. apply tmp_exec_frame in E3; [|done].
  destruct (exec _ _ _) as [f4 s4] eqn:E4. apply exec_frame in E4; [|done].
  simplify_eq. eapply same_view_trans; eauto.
Qed.

Lemma after_partial_flush_weak e0 st e st1 :
  after_partial_flush host cfg e0 st = (e, st1) -> weak_op st st1.
Proof.
  unfold after_partial_flush. intros H.
  destruct (DoPartialFlushOfPartialTilesIfNecessary _ _ _) as [e2 s2] eqn:E.
  apply DoPartialFlushOfPartialTilesIfNecessary_weak in E.
  destruct e2; by simplify_eq.
Qed.

Lemma open_temp_db_frame st ok st1 :
  open_temp_db host st = (ok, st1) -> same_view st st1.
Proof.
  unfold open_temp_db. intros H.
  destruct (m_hTempDB st); [simplify_eq; apply same_view_refl|].
  destruct (sqlite3_open_ok host (sql_log st)); [|simplify_eq; close_view].
  destruct (exec _ _ _) as [f s2] eqn:E. apply exec_frame in E; [|done].
  simplify_eq. eapply same_view_trans; [|eapply same_view_trans; [exact E|]]; close_view.
Qed.

Lemma gather_bands_frame bands nBand id tmp st st1 :
  gather_bands host cfg bands nBand id tmp st = Some st1 -> same_view st st1.
Proof.
  revert st. induction bands as [|b bands IH]; intros st H; simpl in H.
  - simplify_eq. apply same_view_refl.
  - destruct (b =? nBand).
    + apply IH in H. eapply same_view_trans; [|exact H]. close_view.
    + unfold exec in H. cbv zeta in H.
      repeat (case_match; simplify_eq).
      all: match goal with H : gather_bands _ _ _ _ _ _ _ = _ |- _ => apply IH in H end.
      all: eapply same_view_trans; [|eassumption]; close_view.
Qed.

Lemma select_id_frame s P st id st1 :
  is_tx (EvStmt s NoFault) = false ->
  select_id host s P st = (id, st1) -> same_view st st1.
Proof.
  unfold select_id. intros Hs H.
  destruct (exec _ _ _) as [f s2] eqn:E. apply exec_frame in E; [|done].
  repeat (case_match; simplify_eq); done.
Qed.

Lemma WriteShiftedTile_weak r c b x y w h st e st1 :
  WriteShiftedTile host cfg r c b x y w h st = (e, st1) -> weak_op st st1.
Proof.
  unfold WriteShiftedTile. intros H.
  destruct (open_temp_db host st) as [ok s1] eqn:E1. apply open_temp_db_frame in E1.
  eapply weak_view_l; [exact E1|]. clear E1.
  destruct ok; simpl negb in H; cbv iota in H; [|simplify_eq; apply weak_refl].
  cbv zeta in H.
  destruct (exec host _ _) as [f s2] eqn:E2. apply exec_frame in E2; [|done].
  eapply weak_view_l; [eapply same_view_trans; [|exact E2]; close_view|]. clear E2 s1.
  set (found := match f with
                | NoFault => match m_hTempDB s2 with
                             | Some db => find_partial (m_nZoomLevel cfg) r c db
                             | None => None
                             end
                | _ => None
                end) in *.
  match type of H with context [gather_bands _ _ _ _ _ _ ?s] =>
    assert (Hv : same_view s2 s);
      [| generalize dependent s; intros s3 H Hv] end.
  { clear H. eapply same_view_trans; [|close_view].
    destruct found; [destruct (_ =? _)|]; try apply FillEmptyTileSingleBand_frame.
    close_view. }
  clearbody found.
  assert (Hbody : forall f', f = f' -> f' <> PrepareError -> weak_op s2 st1).
  { intros f' -> Hf'. eapply weak_view_l; [exact Hv|]. clear Hv.
    assert (H' : (if Z.lor (written_quadrants cfg x y w h ≪ (4 * (b - 1)))
                       (default 0 (pt_partial_flag <$> found)) =? nFullFlags cfg
                  then _ else _) = (e, st1)) by (destruct f'; done).
    clear H. destruct (_ =? nFullFlags cfg).
    - destruct (gather_bands _ _ _ _ _ _ _) as [s4|] eqn:Eg;
        [|simplify_eq; apply weak_refl].
      apply gather_bands_frame in Eg. eapply weak_view_l; [exact Eg|]. clear Eg.
      destruct (tmp_exec _ _ _ _) as [f5 s5] eqn:E5. apply tmp_exec_frame in E5; [|done].
      eapply weak_view_l; [eapply same_view_trans; [|exact E5]; close_view|]. clear E5.
      destruct (WriteTile host cfg s5) as [e6 s6] eqn:E6.
      eapply weak_op_trans; [|by eapply after_partial_flush_weak].
      apply WriteTile_op in E6. destruct E6 as [?|[_ ?]]; [by left|].
      right. exists s5. split; [apply same_view_good, same_view_refl | done].
    - match type of H' with context [if ?c then ?x else ?y] =>
        lazymatch type of x with (Z * State)%type =>
          destruct (if c then x else y) as [id s4] eqn:E4 end end.
      assert (Hv : same_view s3 s4).
      { destruct (_ =? 0); [|simplify_eq; apply same_view_refl].
        destruct (select_id _ _ _ _) as [id1 s5] eqn:E5.
        apply select_id_frame in E5; [|done].
        destruct (id1 =? 0); [|by simplify_eq].
        apply select_id_frame in E4; [|done]. eapply same_view_trans; eauto. }
      clear E4. eapply weak_view_l; [exact Hv|]. clear Hv.
      destruct (tmp_exec _ _ _ _) as [f5 s5] eqn:E5. apply tmp_exec_frame in E5;
        [|by destruct (id =? 0)].
      eapply weak_view_l; [eapply same_view_trans; [|exact E5]; close_view|]. clear E5.
      destruct f5; simplify_eq; try apply weak_refl.
      + by eapply after_partial_flush_weak.
      + eapply weak_view_l; [|by eapply after_partial_flush_weak]. close_view.
      + eapply weak_view_l; [|by eapply after_partial_flush_weak]. close_view. }
  destruct f; try (by eapply (Hbody _ eq_refl)). simplify_eq. apply weak_refl.
Qed.

Lemma run_call_weak c st : weak_op st (run_call host cfg st c).
Proof.
  destruct c as [d buf bl|r c p| |r c b x y w h]; simpl.
  - left. apply same_view_good. by repeat split.
  - destruct (ReadTileAt host cfg r c p st) as [[a1 a2] s1] eqn:E.
    apply ReadTileAt_frame in E. left. by apply same_view_good.
  - destruct (WriteTile host cfg st) as [e s1] eqn:E. apply WriteTile_op in E.
    destruct E as [?|[_ ?]]; [by left|].
    right. exists st. split; [apply same_view_good, same_view_refl | done].
  - destruct (WriteShiftedTile host cfg r c b x y w h st) as [e s1] eqn:E.
    by eapply WriteShiftedTile_weak.
Qed.

Lemma run_calls_weak calls st : weak_op st (run_calls host cfg calls st).
Proof.
  unfold run_calls. revert st. induction calls as [|c calls IH]; intros st; simpl.
  - apply weak_refl.
  - eapply weak_op_trans; [apply run_call_weak | apply IH].
Qed.

Lemma n_failed_commits_nonneg st : 0 <= n_failed_commits st.
Proof. unfold n_failed_commits, count_events. lia. Qed.

Lemma weak_op_failed a b : weak_op a b -> n_failed_commits a <= n_failed_commits b.
Proof.
  intros [(_&H&_)|(sm&(_&H&_)&(_&_&_&H'&_))]; lia.
Qed.

(** A run without failed commit keeps the shape of the batches. *)
Lemma weak_op_inv a b :
  weak_op a b -> batch_inv a -> n_failed_commits b = n_failed_commits a -> batch_inv b.
Proof.
  intros [(_&_&Hi&_)|(sm&(_&Hf&_)&(_&_&_&Hf'&_))] Ha Hb; [auto|]. lia.
Qed.

Lemma count_events_shape p k l :
  (forall e, p e = true <-> tx_event e = Some k) ->
  count_events p l = Z.of_nat (length (filter (λ x, x = k) (omap tx_event l))).
Proof.
  intros Hp. unfold count_events. f_equal.
  induction l as [|e l IH]; [done|]. cbn [List.filter omap list_omap].
  fold (omap tx_event l). destruct (p e) eqn:He.
  - apply Hp in He. rewrite He. rewrite filter_cons_True by done. simpl. by f_equal.
  - destruct (tx_event e) as [k'|] eqn:Hk; [|done].
    rewrite filter_cons_False; [done|]. intros ->. apply Hp in Hk. congruence.
Qed.

Lemma n_inserts_shape st :
  n_inserts st = Z.of_nat (length (filter (λ x, x = TxInsert) (tx_shape st))).
Proof. apply count_events_shape. intros [[]| |[]|]; simpl; split; congruence. Qed.

Lemma n_commits_shape st :
  n_commits st = Z.of_nat (length (filter (λ x, x = TxCommit) (tx_shape st))).
Proof. apply count_events_shape. intros [[]| |[]|]; simpl; split; congruence. Qed.

Lemma n_failed_commits_shape st :
  n_failed_commits st =
  Z.of_nat (length (filter (λ x, x = TxCommitFailed) (tx_shape st))).
Proof. apply count_events_shape. intros [[]| |[]|]; simpl; split; congruence. Qed.

Lemma batches_inserts n : length (filter (λ x, x = TxInsert) (batches n).1) = n.
Proof.
  induction n as [|n IH]; [done|]. cbn [batches].
  destruct (batches n) as [l c]. cbn [fst] in *.
  destruct (c =? 0); [|destruct (c =? 1000)]; cbn [fst];
    rewrite filter_cons_True by done; cbn [length];
    rewrite ?(filter_cons_False _ TxBegin), ?(filter_cons_False _ TxCommit) by done;
    by rewrite IH.
Qed.

Lemma batches_no_failure n :
  length (filter (λ x, x = TxCommitFailed) (batches n).1) = O.
Proof.
  induction n as [|n IH]; [done|]. cbn [batches].
  destruct (batches n) as [l c]. cbn [fst] in *.
  destruct (c =? 0); [|destruct (c =? 1000)]; cbn [fst];
    rewrite ?(filter_cons_False _ TxInsert), ?(filter_cons_False _ TxBegin),
      ?(filter_cons_False _ TxCommit) by done; exact IH.
Qed.

Lemma batch_inv_inserts st n :
  batches n = (tx_shape st, m_nTileInsertionCount st) -> n_inserts st = Z.of_nat n.
Proof.
  intros H. rewrite n_inserts_shape. pose proof (batches_inserts n) as Hn.
  rewrite H in Hn. simpl in Hn. by rewrite Hn.
Qed.

Lemma fresh_batch_inv st :
  sql_log st = [] -> m_nTileInsertionCount st = 0 -> batch_inv st.
Proof. intros Hl Hc. exists O. unfold tx_shape. by rewrite Hl, Hc. Qed.

Lemma fresh_no_failure st : sql_log st = [] -> n_failed_commits st = 0.
Proof. intros Hl. unfold n_failed_commits. by rewrite Hl. Qed.

(** The transaction log of a session of [n] upserts that ends with
    [FlushTiles], when no commit failed. *)
Lemma session_shape calls st0 e st' n :
  sql_log st0 = [] -> m_nTileInsertionCount st0 = 0 ->
  FlushTiles host cfg (run_calls host cfg calls st0) = (e, st') ->
  n_failed_commits st' = 0 -> n_inserts st' = Z.of_nat (S n) ->
  tx_shape st' = TxCommit :: (batches (S n)).1 /\ m_nTileInsertionCount st' = 0.
Proof.
  intros Hl Hc Hf Hnf Hn.
  pose proof (run_calls_weak calls st0) as Hw.
  pose proof (fresh_batch_inv _ Hl Hc) as Hinv.
  pose proof (fresh_no_failure _ Hl) as H0.
  set (s := run_calls host cfg calls st0) in *.
  apply FlushTiles_spec in Hf.
  assert (Hmono : forall s2, weak_op s s2 -> n_failed_commits s2 <= 0 -> batch_inv s2).
  { intros s2 Hw2 Hle. pose proof (weak_op_trans _ _ _ Hw Hw2) as Hw3.
    pose proof (weak_op_failed _ _ Hw3). pose proof (n_failed_commits_nonneg s2).
    eapply weak_op_inv; [exact Hw3 | done | lia]. }
  destruct Hf as [Hneg _ ->|s2 _ Hop Hle ->|s2 e2 _ Hop Hpos _ Hs|s2 e2 _ Hop Hpos _ Hs].
  - exfalso. pose proof (Hmono s (weak_refl s) ltac:(lia)) as Hi.
    apply batch_inv_count in Hi. lia.
  - exfalso. pose proof (Hmono s2 (op_spec_weak _ _ _ Hop) ltac:(lia)) as [k Hk].
    pose proof (batches_count k) as Hk'. rewrite Hk in Hk'. simpl in Hk'.
    assert (k = O) by (apply batches_zero; rewrite Hk; simpl; lia). subst k.
    apply batch_inv_inserts in Hk. lia.
  - pose proof (tx_step_shape _ _ _ _ Hs) as Hsh.
    apply tx_step_counts in Hs as (H1&H2&H3&H4&H5).
    unfold count_events in H2, H3, H4. simpl in H2, H3, H4.
    pose proof (Hmono s2 (op_spec_weak _ _ _ Hop) ltac:(lia)) as [k Hk].
    pose proof (batch_inv_inserts _ _ Hk) as Hki.
    assert (k = S n) by lia. subst k.
    split; [|done]. rewrite Hsh, Hk. reflexivity.
  - exfalso. apply tx_step_counts in Hs as (H1&H2&H3&H4&H5).
    unfold count_events in *. simpl in *.
    pose proof (n_failed_commits_nonneg s2). lia.
Qed.

Lemma batches_3000 :
  (batches 3000).1 =
  replicate 1000 TxInsert ++ [TxBegin; TxCommit] ++
  replicate 1000 TxInsert ++ [TxBegin; TxCommit] ++
  replicate 1000 TxInsert ++ [TxBegin].
Proof. vm_compute. reflexivity. Qed.

(** C2: a session that starts on an empty log, issues 3000 tile upserts
    through [WriteTile] and [WriteShiftedTile] and ends with [FlushTiles]
    commits exactly 3 times when no commit fails.  The transaction log
    (most recent event first) shows where: the first upsert opens a
    transaction, the 1001st and the 2001st upserts are preceded by a commit
    and the opening of a new transaction, and [FlushTiles] commits the open
    transaction and resets the counter. *)
Theorem C2_three_commits_for_3000_upserts calls st0 e st' :
  sql_log st0 = [] -> m_nTileInsertionCount st0 = 0 ->
  FlushTiles host cfg (run_calls host cfg calls st0) = (e, st') ->
  n_inserts st' = 3000 -> n_failed_commits st' = 0 ->
  tx_shape st' =
    [TxCommit] ++ replicate 1000 TxInsert ++ [TxBegin; TxCommit] ++
    replicate 1000 TxInsert ++ [TxBegin; TxCommit] ++
    replicate 1000 TxInsert ++ [TxBegin]
  /\ n_commits st' = 3 /\ m_nTileInsertionCount st' = 0.
Proof.
  intros Hl Hc Hf Hn Hnf.
  destruct (session_shape calls st0 e st' 2999 Hl Hc Hf Hnf) as [Hs H0].
  { rewrite Hn. reflexivity. }
  change (S 2999) with 3000%nat in Hs. rewrite batches_3000 in Hs.
  split; [exact Hs|]. split; [|exact H0].
  rewrite n_commits_shape, Hs. vm_compute. reflexivity.
Qed.

(** C3: a commit that fails during [WriteTile] or [FlushTiles] makes the
    call return [CE_Failure] and leaves [m_nTileInsertionCount] at -1; with a
    negative counter [WriteTile] and [FlushTiles] return [CE_Failure] and
    leave the state, its log and its tables as they are; and no call of a
    session makes a negative counter change. *)
Theorem C3_commit_failure_poisons_the_batcher :
  (forall st e st', WriteTile host cfg st = (e, st') ->
     n_failed_commits st' <> n_failed_commits st ->
     e = CE_Failure /\ m_nTileInsertionCount st' = -1)
  /\ (forall st e st', FlushTiles host cfg st = (e, st') ->
     n_failed_commits st' <> n_failed_commits st ->
     e = CE_Failure /\ m_nTileInsertionCount st' = -1)
  /\ (forall st, m_nTileInsertionCount st < 0 ->
     WriteTile host cfg st = (CE_Failure, st)
     /\ FlushTiles host cfg st = (CE_Failure, st))
  /\ (forall calls st, m_nTileInsertionCount st < 0 ->
     m_nTileInsertionCount (run_calls host cfg calls st) = m_nTileInsertionCount st).
Proof.
  split; [|split; [|split]].
  - intros st e st' H Hf. apply WriteTile_op in H.
    destruct H as [(_&H'&_)|(->&_&_&H'&_)]; [done|]. done.
  - intros st e st' H Hf. apply FlushTiles_spec in H.
    destruct H as [? ? ->|s2 ? Hop ? ->|s2 e2 ? Hop ? ? Hs|s2 e2 ? Hop ? ? Hs].
    + done.
    + destruct Hop as [(_&H'&_)|(->&sm&(_&H'&_)&_&_&H''&_)]; done.
    + exfalso. apply tx_step_counts in Hs as (K1&K2&K3&K4&K5).
      unfold count_events in K4. simpl in K4.
      destruct Hop as [(_&H'&_)|(->&sm&_&_&_&H'&_)]; lia.
    + split; [done|]. by destruct Hs as (->&_).
  - intros st Hneg. unfold WriteTile, FlushTiles.
    apply Z.ltb_lt in Hneg. by rewrite Hneg.
  - intros calls st Hneg. pose proof (run_calls_weak calls st) as [H|(sm&Hg&Hp)].
    + destruct H as (_&_&_&_&Hv). by destruct (Hv Hneg) as (->&_).
    + exfalso. destruct Hg as (_&_&_&_&Hv). destruct (Hv Hneg) as (Hc&_).
      destruct Hp as (_&?&_). lia.
Qed.

Lemma leave_enter st :
  LeaveDisableDirtyBlockFlush
    (set_m_bInWriteTile (m_bInWriteTile st)
       (set_m_bInWriteTile true (EnterDisableDirtyBlockFlush st))) = st.
Proof.
  destruct st. unfold LeaveDisableDirtyBlockFlush, EnterDisableDirtyBlockFlush,
    set_m_bInWriteTile, set_nDisableDirtyBlockFlush. simpl. f_equal. lia.
Qed.

Lemma all_non_dirty st :
  (forall i, 0 <= i < nBands cfg -> band_dirty st i = false) ->
  bAllNonDirty cfg st = true.
Proof.
  intros H. unfold bAllNonDirty. apply forallb_forall. intros i Hi.
  apply list_elem_of_In, elem_of_seqZ in Hi. rewrite H; [done | lia].
Qed.

Lemma WriteTileInternal_clean st :
  bAllNonDirty cfg st = true -> WriteTileInternal host cfg st = (CE_None, st).
Proof. intros H. unfold WriteTileInternal. rewrite H. by destruct (negb _). Qed.

(** C4: when no band of the first cached tile is dirty,
    [WriteTileInternal] returns [CE_None] and the state it returns is the
    state it got: no statement, no transaction event, the tables and the
    cache unchanged.  So does [WriteTile], unless the batcher is poisoned or
    a write is in progress. *)
Theorem C4_flush_of_clean_slot_is_noop st :
  (forall i, 0 <= i < nBands cfg -> band_dirty st i = false) ->
  WriteTileInternal host cfg st = (CE_None, st)
  /\ (0 <= m_nTileInsertionCount st -> m_bInWriteTile st = false ->
      WriteTile host cfg st = (CE_None, st)).
Proof.
  intros H. apply all_non_dirty in H. split; [by apply WriteTileInternal_clean|].
  intros Hc Hw. unfold WriteTile.
  destruct (Z.ltb_spec (m_nTileInsertionCount st) 0); [lia|]. rewrite Hw.
  rewrite WriteTileInternal_clean by exact H. by rewrite <- Hw at 1; rewrite leave_enter.
Qed.

Lemma memset_filled buf off v n :
  (off + n <= length buf)%nat -> filled buf (memset buf off v n) off n v.
Proof.
  intros Hlen. unfold filled, memset, buf_slice.
  split; [by rewrite length_inserts|]. split.
  - apply list_eq. intros i. rewrite lookup_take.
    destruct (decide (i < n)%nat) as [Hi|Hi].
    + rewrite lookup_drop, list_lookup_inserts;
        rewrite ?length_replicate; [|lia..].
      by replace (off + i - off)%nat with i by lia.
    + symmetry. apply lookup_replicate_None. lia.
  - intros i [Hi|Hi].
    + by apply list_lookup_inserts_lt.
    + apply list_lookup_inserts_ge. rewrite length_replicate. lia.
Qed.

Lemma FillBuffer_filled off n st :
  (off + n <= length (m_pabyCachedTiles st))%nat ->
  filled (m_pabyCachedTiles st) (m_pabyCachedTiles (FillBuffer host cfg off n st))
    off n (fill_value host cfg)
  /\ same_but_pixels st (FillBuffer host cfg off n st)
  /\ cpl_errors (FillBuffer host cfg off n st) = cpl_errors st.
Proof.
  intros H. unfold FillBuffer, fill_value.
  destruct (negb _ || _); simpl; (split; [by apply memset_filled|]);
    split; [by repeat split | done | by repeat split | done].
Qed.

(** C10: for a tile outside the tile matrix [ReadTile] succeeds, reports no
    lossy format, sends no statement (the log is unchanged) and fills the
    samples of the tile at [pabyData] with the no-data value, or with zero
    when there is none or it is zero. *)
Theorem C10_tile_outside_matrix_reads_as_nodata nRow_ nCol_ pabyData st :
  nRow_ < 0 \/ nCol_ < 0 \/ m_nTileMatrixHeight cfg <= nRow_
    \/ m_nTileMatrixWidth cfg <= nCol_ ->
  (pabyData + tile_samples cfg <= length (m_pabyCachedTiles st))%nat ->
  exists st', ReadTileAt host cfg nRow_ nCol_ pabyData st = (true, false, st')
    /\ filled (m_pabyCachedTiles st) (m_pabyCachedTiles st') pabyData
         (tile_samples cfg) (fill_value host cfg)
    /\ same_but_pixels st st'
    /\ cpl_errors st' = cpl_errors st.
Proof.
  intros Hout Hlen. exists (FillEmptyTile host cfg pabyData st). split.
  - unfold ReadTileAt.
    destruct (Z.ltb_spec nRow_ 0), (Z.ltb_spec nCol_ 0),
      (Z.leb_spec (m_nTileMatrixHeight cfg) nRow_),
      (Z.leb_spec (m_nTileMatrixWidth cfg) nCol_); simpl; try reflexivity; lia.
  - by apply FillBuffer_filled.
Qed.

Lemma inconsistent_tile_spec ds :
  inconsistent_tile cfg ds = false <-> tile_geometry_ok cfg ds.
Proof.
  unfold inconsistent_tile, tile_geometry_ok.
  destruct (Z.eqb_spec (ds_RasterXSize ds) (nBlockXSize cfg)),
    (Z.eqb_spec (ds_RasterYSize ds) (nBlockYSize cfg)),
    (Z.leb_spec 1 (ds_RasterCount ds)), (Z.leb_spec (ds_RasterCount ds) 4),
    (Z.eqb_spec (ds_RasterCount ds) 1); case_bool_decide; simpl;
    intuition (try discriminate; try lia; try congruence).
Qed.

(** C7: when the blob cannot be opened, or the decoded dataset has not the
    width and height of the tiles, or not between 1 and 4 bands, or more than
    one band for a type that is not Byte, [ReadTile] returns [CE_Failure],
    reports an error, and fills the samples of the tile with the no-data
    value; nothing else of the state changes. *)
Theorem C7_decode_validates_tile_geometry blob pabyTileData dfTileOffset_
  dfTileScale_ st :
  (pabyTileData + tile_samples cfg <= length (m_pabyCachedTiles st))%nat ->
  match GDALOpen host (ReadTile_drivers cfg) blob with
  | Some ds => ~ tile_geometry_ok cfg ds
  | None => True
  end ->
  exists st' msg,
    ReadTileBlob host cfg blob pabyTileData dfTileOffset_ dfTileScale_ st
      = (CE_Failure, false, st')
    /\ filled (m_pabyCachedTiles st) (m_pabyCachedTiles st') pabyTileData
         (tile_samples cfg) (fill_value host cfg)
    /\ same_but_pixels st st'
    /\ cpl_errors st' = msg :: cpl_errors st.
Proof.
  intros Hlen Hbad. unfold ReadTileBlob.
  destruct (GDALOpen host (ReadTile_drivers cfg) blob) as [ds|].
  - destruct (inconsistent_tile cfg ds) eqn:Hi;
      [|by apply inconsistent_tile_spec in Hi].
    eexists _, _. split; [reflexivity|].
    pose proof (FillBuffer_filled pabyTileData (tile_samples cfg)
      (CPLError "Inconsistent tiles characteristics" st) Hlen) as (H1&H2&H3).
    split; [exact H1|]. split; [|exact H3]. exact H2.
  - eexists _, _. split; [reflexivity|].
    pose proof (FillBuffer_filled pabyTileData (tile_samples cfg)
      (CPLError "Cannot parse tile data" st) Hlen) as (H1&H2&H3).
    split; [exact H1|]. split; [|exact H3]. exact H2.
Qed.

(** C9: while [m_bInWriteTile] is set, [WriteTile] returns [CE_Failure]
    and changes nothing but the error messages, to which it adds the report
    of the recursive call.  Otherwise [WriteTileInternal] runs with the flag
    set and the count of [EnterDisableDirtyBlockFlush] one higher, both are
    so when it returns, and [WriteTile] restores them. *)
Theorem C9_reentrant_write_fails_fast :
  (forall st, m_bInWriteTile st = true ->
     (WriteTile host cfg st).1 = CE_Failure
     /\ same_store st (WriteTile host cfg st).2
     /\ (0 <= m_nTileInsertionCount st ->
         cpl_errors (WriteTile host cfg st).2 =
         "Recursive call to GDALGPKGMBTilesLikePseudoDataset::WriteTile()"%string
           :: cpl_errors st))
  /\ (forall st, 0 <= m_nTileInsertionCount st -> m_bInWriteTile st = false ->
      let s := set_m_bInWriteTile true (EnterDisableDirtyBlockFlush st) in
      m_bInWriteTile s = true
      /\ nDisableDirtyBlockFlush s = nDisableDirtyBlockFlush st + 1
      /\ exists e st1,
           WriteTileInternal host cfg s = (e, st1)
           /\ m_bInWriteTile st1 = true
           /\ nDisableDirtyBlockFlush st1 = nDisableDirtyBlockFlush st + 1
           /\ WriteTile host cfg st
              = (e, LeaveDisableDirtyBlockFlush (set_m_bInWriteTile false st1))
           /\ m_bInWriteTile (WriteTile host cfg st).2 = false
           /\ nDisableDirtyBlockFlush (WriteTile host cfg st).2
              = nDisableDirtyBlockFlush st).
Proof.
  split.
  - intros st Hw. unfold WriteTile. rewrite Hw.
    destruct (Z.ltb_spec (m_nTileInsertionCount st) 0); simpl.
    + split; [done|]. split; [by repeat split | lia].
    + split; [done|]. split; [by repeat split | done].
  - intros st Hc Hw s. split; [done|]. split; [done|].
    destruct (WriteTileInternal host cfg s) as [e st1] eqn:E. exists e, st1.
    split; [done|].
    assert (Hg : m_bInWriteTile st1 = true
                 /\ nDisableDirtyBlockFlush st1 = nDisableDirtyBlockFlush st + 1).
    { apply WriteTileInternal_spec in E.
      destruct E as [(_&H1&H2&_)|? _ _ (_&H1&H2&_)|? _ _ (_&H1&H2&_)
                    |? _ _ _ (_&H1&H2&_)|_ _ (_&H1&H2&_)];
        by rewrite H1, H2. }
    destruct Hg as [Hg1 Hg2]. split; [done|]. split; [done|].
    unfold WriteTile. destruct (Z.ltb_spec (m_nTileInsertionCount st) 0); [lia|].
    rewrite Hw. fold s. rewrite E. simpl. split; [done|]. split; [done|]. lia.
Qed.
End Frames.

(** ** Buffers *)

Lemma memcpy_length dst off src n : length (memcpy dst off src n) = length dst.
Proof. unfold memcpy. apply length_inserts. Qed.

Lemma memcpy_lookup_in dst off src n i :
  (n <= length src)%nat -> (off + n <= length dst)%nat ->
  (off <= i < off + n)%nat ->
  memcpy dst off src n !! i = src !! (i - off)%nat.
Proof.
  intros Hs Hd Hi. unfold memcpy.
  rewrite list_lookup_inserts; rewrite ?length_take; [|lia..].
  apply lookup_take_lt. lia.
Qed.

Lemma memcpy_lookup_out dst off src n i :
  (i < off \/ off + n <= i)%nat ->
  memcpy dst off src n !! i = dst !! i.
Proof.
  intros [Hi|Hi]; unfold memcpy.
  - by apply list_lookup_inserts_lt.
  - apply list_lookup_inserts_ge. rewrite length_take. lia.
Qed.

Lemma buf_slice_lookup buf off n i :
  (i < n)%nat -> buf_slice buf off n !! i = buf !! (off + i)%nat.
Proof. intros Hi. unfold buf_slice. by rewrite lookup_take_lt, lookup_drop. Qed.

Lemma buf_slice_length buf off n :
  (off + n <= length buf)%nat -> length (buf_slice buf off n) = n.
Proof. intros H. unfold buf_slice. rewrite length_take, length_drop. lia. Qed.

Lemma buf_slice_ext buf buf' off n :
  (forall i, (off <= i < off + n)%nat -> buf' !! i = buf !! i) ->
  buf_slice buf' off n = buf_slice buf off n.
Proof.
  intros H. apply list_eq. intros i. destruct (decide (i < n)%nat).
  - rewrite !buf_slice_lookup by done. apply H. lia.
  - unfold buf_slice. rewrite !lookup_take_ge by lia. done.
Qed.

Lemma buf_slice_memcpy dst off src n :
  length src = n -> (off + n <= length dst)%nat ->
  buf_slice (memcpy dst off src n) off n = src.
Proof.
  intros Hs Hd. apply list_eq. intros i. destruct (decide (i < n)%nat).
  - rewrite buf_slice_lookup by done.
    rewrite memcpy_lookup_in by lia. f_equal. lia.
  - unfold buf_slice. rewrite lookup_take_ge by lia.
    symmetry. apply lookup_ge_None. lia.
Qed.

Lemma memset_length dst off v n : length (memset dst off v n) = length dst.
Proof. unfold memset. apply length_inserts. Qed.

Lemma row_lt (y h w x : nat) :
  (y < h)%nat -> (x < w)%nat -> (y * w + x < h * w)%nat.
Proof.
  intros Hy Hx. assert (S y * w <= h * w)%nat by (apply Nat.mul_le_mono_r; lia).
  simpl in *. lia.
Qed.

Lemma row_le (y h w x n : nat) :
  (y < h)%nat -> (x + n <= w)%nat -> (y * w + x + n <= h * w)%nat.
Proof.
  intros Hy Hx. assert (S y * w <= h * w)%nat by (apply Nat.mul_le_mono_r; lia).
  simpl in *. lia.
Qed.

Lemma rows_apart (y y' w x x' : nat) :
  (y < y')%nat -> (x < w)%nat -> (y * w + x <> y' * w + x')%nat.
Proof.
  intros Hy Hx. assert (S y * w <= y' * w)%nat by (apply Nat.mul_le_mono_r; lia).
  simpl in *. lia.
Qed.

Section CopyRect.
Variable cfg : Config.
Variables (dst : nat) (nBand nXOff nYOff nXSize nYSize : Z).
Hypothesis Hrect : rect_in_tile cfg nXOff nYOff nXSize nYSize.
Hypothesis Hband : 1 <= nBand.
Hypothesis Hdst : (Z.to_nat nBand * nBlockPixels cfg <= dst)%nat.

Let W := Z.to_nat (nBlockXSize cfg).
Let H := Z.to_nat (nBlockYSize cfg).
Let b0 := (Z.to_nat (nBand - 1) * nBlockPixels cfg)%nat.

(** The index of the pixel ([x], [y]) in the band. *)
Let idx (y x : nat) : nat := (b0 + y * W + x)%nat.

Lemma row_offset (iY : nat) :
  Z.to_nat (((nBand - 1) * nBlockYSize cfg + Z.of_nat iY) * nBlockXSize cfg + nXOff)
  = idx iY (Z.to_nat nXOff).
Proof.
  destruct Hrect as (?&?&?&?&?&?). unfold idx, b0, nBlockPixels, W.
  assert (0 <= (nBand - 1) * nBlockYSize cfg) by (apply Z.mul_nonneg_nonneg; lia).
  assert (0 <= ((nBand - 1) * nBlockYSize cfg + Z.of_nat iY) * nBlockXSize cfg)
    by (apply Z.mul_nonneg_nonneg; lia).
  assert (0 <= nBlockXSize cfg * nBlockYSize cfg) by (apply Z.mul_nonneg_nonneg; lia).
  apply Nat2Z.inj. rewrite Z2Nat.id by lia.
  rewrite !Nat2Z.inj_add, !Nat2Z.inj_mul, !Z2Nat.id by lia. ring.
Qed.

Lemma pixels_eq : nBlockPixels cfg = (H * W)%nat.
Proof.
  destruct Hrect as (?&?&?&?&?&?). unfold nBlockPixels, H, W.
  rewrite Z.mul_comm, Z2Nat.inj_mul by lia. lia.
Qed.

(** The rows [y0 .. y0 + k - 1] of the rectangle have been copied. *)
Let rows_copied (buf res : list Z) (y0 k : nat) : Prop :=
  length res = length buf
  /\ forall j,
       (forall y x, (y0 <= y < y0 + k)%nat ->
                    (Z.to_nat nXOff <= x < Z.to_nat (nXOff + nXSize))%nat ->
                    j = (dst + idx y x)%nat -> res !! j = buf !! idx y x)
       /\ ((forall y x, (y0 <= y < y0 + k)%nat ->
                        (Z.to_nat nXOff <= x < Z.to_nat (nXOff + nXSize))%nat ->
                        j <> (dst + idx y x)%nat) -> res !! j = buf !! j).

Lemma idx_bound y x : (y < H)%nat -> (x < W)%nat -> (idx y x < dst)%nat.
Proof.
  intros Hy Hx. unfold idx, b0.
  assert (Z.to_nat nBand = S (Z.to_nat (nBand - 1))) as Hb by lia.
  pose proof Hdst as Hd. rewrite Hb in Hd. pose proof pixels_eq as Hp.
  rewrite Hp in *. pose proof (row_lt y H W x Hy Hx). simpl in Hd. lia.
Qed.

Lemma for_rows_copied k : forall y0 buf,
  (y0 + k <= Z.to_nat (nYOff + nYSize))%nat ->
  (dst + Z.to_nat nBand * nBlockPixels cfg <= length buf)%nat ->
  rows_copied buf
    (for_rows y0 k
       (fun iY b =>
          let o := Z.to_nat (((nBand - 1) * nBlockYSize cfg + Z.of_nat iY)
                             * nBlockXSize cfg + nXOff) in
          memcpy b (dst + o) (buf_slice b (0 + o) (Z.to_nat nXSize)) (Z.to_nat nXSize))
       buf)
    y0 k.
Proof.
  destruct Hrect as (Hx0&Hxs&Hxw&Hy0&Hys&Hyh).
  induction k as [|k IH]; intros y0 buf Hk Hlen; simpl.
  - split; [done|]. intros j. split; [intros y x ?; lia | done].
  - set (o := Z.to_nat (((nBand - 1) * nBlockYSize cfg + Z.of_nat y0)
                         * nBlockXSize cfg + nXOff)).
    assert (Ho : o = idx y0 (Z.to_nat nXOff)) by apply row_offset.
    set (b1 := memcpy buf (dst + o) (buf_slice buf (0 + o) (Z.to_nat nXSize))
                 (Z.to_nat nXSize)).
    assert (Hy0H : (y0 < H)%nat) by (unfold H; lia).
    assert (Hband_in : (b0 + H * W <= Z.to_nat nBand * nBlockPixels cfg)%nat).
    { unfold b0. rewrite <- pixels_eq.
      assert (Z.to_nat nBand = S (Z.to_nat (nBand - 1))) as -> by lia. lia. }
    assert (Hrow : (o + Z.to_nat nXSize <= b0 + H * W)%nat).
    { rewrite Ho. unfold idx.
      assert (Z.to_nat nXOff + Z.to_nat nXSize <= W)%nat by (unfold W; lia).
      pose proof (row_le y0 H W (Z.to_nat nXOff) (Z.to_nat nXSize) Hy0H). lia. }
    assert (Hb1len : length b1 = length buf) by apply memcpy_length.
    assert (Hsl : length (buf_slice buf (0 + o) (Z.to_nat nXSize)) = Z.to_nat nXSize).
    { apply buf_slice_length. lia. }
    destruct (IH (S y0) b1) as [Hl Hj]; [lia | lia |].
    split; [etrans; [exact Hl | exact Hb1len]|].
    intros j. destruct (Hj j) as [Hin Hout]. split.
    + intros y x Hy Hx ->. destruct (decide (y = y0)) as [->|Hne].
      * etrans; [apply Hout|].
        -- intros y' x' Hy' Hx'. unfold idx.
           assert (x < W)%nat by (unfold W; lia).
           pose proof (rows_apart y0 y' W x x'). lia.
        -- unfold b1. rewrite memcpy_lookup_in; [| lia | lia |].
           ++ rewrite buf_slice_lookup; [f_equal; unfold idx in *; lia|].
              unfold idx in *. lia.
           ++ unfold idx in *. lia.
      * etrans; [apply (Hin y x); (done || lia)|].
        unfold b1. apply memcpy_lookup_out.
        assert (idx y x < dst)%nat; [|lia].
        apply idx_bound; unfold H, W; lia.
    + intros Hno. etrans; [apply Hout|].
      * intros y x Hy Hx. apply Hno; lia.
      * unfold b1. apply memcpy_lookup_out.
        destruct (decide (dst + o <= j < dst + o + Z.to_nat nXSize)%nat) as [Hr|]; [|lia].
        exfalso. apply (Hno y0 (j - dst - b0 - y0 * W)%nat); unfold idx in *; lia.
Qed.

Lemma band_off_eq (base : nat) :
  band_off cfg base (nBand - 1) = (base + b0)%nat.
Proof. reflexivity. Qed.

Lemma copy_rect_spec buf :
  (dst + Z.to_nat nBand * nBlockPixels cfg <= length buf)%nat ->
  let res := copy_rect cfg dst 0 nBand nXOff nYOff nXSize nYSize buf in
  length res = length buf
  /\ buf_slice res (band_off cfg dst (nBand - 1)) (nBlockPixels cfg)
     = merged_band cfg
         (buf_slice buf (band_off cfg dst (nBand - 1)) (nBlockPixels cfg))
         (buf_slice buf (band_off cfg 0 (nBand - 1)) (nBlockPixels cfg))
         nXOff nYOff nXSize nYSize
  /\ forall j, (j < band_off cfg dst (nBand - 1)
                \/ band_off cfg dst (nBand - 1) + nBlockPixels cfg <= j)%nat ->
               res !! j = buf !! j.
Proof.
  intros Hlen res. pose proof Hrect as (Hx0&Hxs&Hxw&Hy0&Hys&Hyh).
  assert (Hc : rows_copied buf res (Z.to_nat nYOff) (Z.to_nat nYSize))
    by (apply for_rows_copied; [lia | exact Hlen]).
  destruct Hc as [Hl Hj]. rewrite !band_off_eq.
  assert (Hb : (b0 + nBlockPixels cfg <= Z.to_nat nBand * nBlockPixels cfg)%nat).
  { unfold b0. assert (Z.to_nat nBand = S (Z.to_nat (nBand - 1))) as -> by lia. lia. }
  pose proof pixels_eq as Hp.
  split; [exact Hl|]. split.
  - apply list_eq. intros i. unfold merged_band. rewrite list_lookup_imap.
    destruct (decide (i < nBlockPixels cfg)%nat) as [Hi|Hi].
    2:{ unfold buf_slice. rewrite !lookup_take_ge by lia. done. }
    rewrite !buf_slice_lookup by done.
    assert (HW : (0 < W)%nat) by (destruct W; [lia | lia]).
    assert (Hdiv : i = (i / W * W + i mod W)%nat)
      by (rewrite Nat.mul_comm; apply Nat.div_mod_eq).
    assert (Hmod : (i mod W < W)%nat) by (apply Nat.mod_upper_bound; lia).
    assert (Hq : (i / W < H)%nat).
    { apply Nat.Div0.div_lt_upper_bound. rewrite Nat.mul_comm. lia. }
    assert (HWz : Z.of_nat W = nBlockXSize cfg) by (unfold W; lia).
    assert (Hzm : Z.of_nat i mod nBlockXSize cfg = Z.of_nat (i mod W))
      by (rewrite <- HWz; symmetry; apply Nat2Z.inj_mod).
    assert (Hzd : Z.of_nat i / nBlockXSize cfg = Z.of_nat (i / W))
      by (rewrite <- HWz; symmetry; apply Nat2Z.inj_div).
    assert (Hold : is_Some (buf !! (dst + b0 + i)%nat))
      by (apply lookup_lt_is_Some; lia).
    assert (Hsrc : is_Some (buf !! (0 + b0 + i)%nat))
      by (apply lookup_lt_is_Some; lia).
    destruct Hold as [o Ho], Hsrc as [v Hv]. rewrite Ho, Hv. simpl.
    rewrite Hzm, Hzd. destruct (Hj (dst + b0 + i)%nat) as [Hin Hout].
    case_bool_decide as Hc.
    + rewrite (Hin (i / W)%nat (i mod W)%nat); [| lia | lia | unfold idx; lia].
      unfold idx. rewrite <- Hv. f_equal. lia.
    + rewrite Hout; [exact Ho|]. intros y x Hy Hx Heq. apply Hc.
      unfold idx in Heq. assert (Hi' : i = (y * W + x)%nat) by lia.
      assert (x < W)%nat by lia.
      assert (i / W = y)%nat.
      { symmetry. apply (Nat.div_unique i W y x); [lia|]. rewrite Nat.mul_comm. lia. }
      assert (i mod W = x)%nat.
      { symmetry. apply (Nat.mod_unique i W y x); [lia|]. rewrite Nat.mul_comm. lia. }
      lia.
  - intros j Hout. destruct (Hj j) as [_ Hno]. apply Hno.
    intros y x Hy Hx. unfold idx.
    assert (x < W)%nat by (unfold W; lia). assert (y < H)%nat by (unfold H; lia).
    pose proof (row_lt y H W x). lia.
Qed.

(** X16: The rectangle of band [nBand] copied from the first tile of the buffer
    to the tile at [dst]: in the band at [dst] the pixels of the rectangle
    are those of the first tile, the other samples of the buffer are as they
    were. *)
Theorem copy_rect_merges buf :
  (dst + Z.to_nat nBand * nBlockPixels cfg <= length buf)%nat ->
  let res := copy_rect cfg dst 0 nBand nXOff nYOff nXSize nYSize buf in
  length res = length buf
  /\ buf_slice res (band_off cfg dst (nBand - 1)) (nBlockPixels cfg)
     = merged_band cfg
         (buf_slice buf (band_off cfg dst (nBand - 1)) (nBlockPixels cfg))
         (buf_slice buf (band_off cfg 0 (nBand - 1)) (nBlockPixels cfg))
         nXOff nYOff nXSize nYSize
  /\ forall j, (j < band_off cfg dst (nBand - 1)
                \/ band_off cfg dst (nBand - 1) + nBlockPixels cfg <= j)%nat ->
               res !! j = buf !! j.
Proof. exact (copy_rect_spec buf). Qed.
End CopyRect.

Section EmptyTiles.
Variable host : Host.
Variable cfg : Config.
Hypothesis no_fault : forall l s, sqlite_fault host l s = NoFault.

Lemma all_dirty st :
  (forall i, 0 <= i < nBands cfg -> band_dirty st i = true) ->
  bAllDirty cfg st = true.
Proof.
  intros H. unfold bAllDirty. apply forallb_forall. intros i Hi.
  apply list_elem_of_In, elem_of_seqZ in Hi. apply H. lia.
Qed.

Lemma some_dirty st :
  1 <= nBands cfg -> band_dirty st 0 = true -> bAllNonDirty cfg st = false.
Proof.
  intros Hn H. unfold bAllNonDirty. apply not_true_is_false. intros Hall.
  rewrite forallb_forall in Hall. specialize (Hall 0).
  rewrite H in Hall. discriminate Hall. apply list_elem_of_In, elem_of_seqZ. lia.
Qed.

Lemma WriteTileInternal_all_dirty st :
  slot_all_dirty cfg st ->
  WriteTileInternal host cfg st =
  let d0 := desc0 (m_asCachedTilesDesc st) in
  match detect_empty host cfg true (flushing st) with
  | TileIsEmpty => (CE_None, (DeleteTile host cfg (nRow d0) (nCol d0) (flushing st)).2)
  | TileKept allOpaque =>
      encode_and_store host cfg (nRow d0) (nCol d0) true allOpaque
        (validity cfg (tile_nXOff cfg (nCol d0)) (tile_nYOff cfg (nRow d0)))
        (flushing st)
  end.
Proof.
  intros (Hu&Hr&Hc&Hi&Hn&Hd&Hx&Hy). unfold WriteTileInternal.
  rewrite Hu, Hi. simpl.
  destruct (Z.leb_spec 0 (nRow (desc0 (m_asCachedTilesDesc st)))); [|lia].
  destruct (Z.leb_spec 0 (nCol (desc0 (m_asCachedTilesDesc st)))); [|lia].
  simpl. rewrite (all_dirty st Hd), (some_dirty st Hn) by (apply Hd; lia). simpl.
  destruct (Z.leb_spec (nRasterXSize cfg)
              (tile_nXOff cfg (nCol (desc0 (m_asCachedTilesDesc st))))); [lia|].
  destruct (Z.leb_spec (nRasterYSize cfg)
              (tile_nYOff cfg (nRow (desc0 (m_asCachedTilesDesc st))))); [lia|].
  reflexivity.
Qed.

Lemma DeleteTile_removes st :
  tile_removed host cfg st
    (DeleteTile host cfg (nRow (desc0 (m_asCachedTilesDesc st)))
       (nCol (desc0 (m_asCachedTilesDesc st))) (flushing st)).2.
Proof.
  unfold DeleteTile, exec. simpl. rewrite no_fault. simpl. by repeat split.
Qed.

Lemma forallb_Forall_eq (l : list Z) (x : Z) :
  Forall (λ v, v = x) l -> forallb (λ v, v =? x) l = true.
Proof.
  intros H. apply forallb_forall. intros v Hv.
  rewrite Forall_forall in H. apply Z.eqb_eq, H, list_elem_of_In, Hv.
Qed.

Lemma buf_slice_head buf off n x l :
  buf_slice buf off n = x :: l -> buf_read buf off = x.
Proof.
  unfold buf_slice, buf_read. intros H.
  destruct (drop off buf) as [|y k] eqn:E; [by destruct n|].
  destruct n as [|n]; [done|]. simpl in H. injection H as -> _.
  assert (Hl : buf !! off = Some x).
  { rewrite <- (Nat.add_0_r off), <- lookup_drop, E. done. }
  by apply nth_lookup_Some with (d := 0) in Hl.
Qed.

Lemma detect_transparent st :
  m_eDT cfg = GDT_Byte -> m_poCT st = None -> fully_transparent cfg st ->
  detect_empty host cfg true (flushing st) = TileIsEmpty.
Proof.
  intros Hdt Hct (Ha&Hne&Hall). unfold detect_empty. simpl.
  rewrite !bool_decide_eq_true_2 by done. simpl.
  destruct (Z.eqb_spec (nAlphaBand cfg) 0); [done|]. simpl.
  fold (band_samples cfg st (nAlphaBand cfg - 1)).
  destruct (band_samples cfg st (nAlphaBand cfg - 1)) as [|x l] eqn:E; [done|].
  apply Forall_cons in Hall as [-> Hall].
  rewrite (buf_slice_head _ _ _ _ _ E). simpl. rewrite drop_0.
  by rewrite (forallb_Forall_eq l 0 Hall).
Qed.

Lemma detect_zero st :
  m_eDT cfg = GDT_Byte -> m_poCT st = None -> fully_zero cfg st ->
  detect_empty host cfg true (flushing st) = TileIsEmpty.
Proof.
  intros Hdt Hct (Ha&Hnd&Hall). unfold detect_empty. simpl.
  rewrite !bool_decide_eq_true_2 by done. simpl.
  rewrite Ha. simpl.
  assert (Hc : negb (bHasNoData cfg) || (dfNoDataValue cfg =? 0)%float = true).
  { destruct Hnd as [->| ->]; [done | by rewrite orb_true_r]. }
  rewrite Hc. by rewrite (forallb_Forall_eq _ 0 Hall).
Qed.

Lemma detect_float st :
  m_eDT cfg = GDT_Float32 -> no_valid_float host cfg st ->
  detect_empty host cfg true (flushing st) = TileIsEmpty.
Proof.
  intros Hdt Hall. unfold detect_empty. simpl. rewrite Hdt.
  rewrite ?(bool_decide_eq_false_2 (GDT_Float32 = GDT_Byte)) by done. simpl.
  rewrite ?bool_decide_eq_true_2 by done.
  replace (forallb _ _) with true; [done|]. symmetry.
  apply forallb_forall. intros v Hv. unfold no_valid_float, band_samples in Hall.
  rewrite Forall_forall in Hall. apply Hall, list_elem_of_In.
  unfold band_off. by rewrite Nat.add_0_l, Z2Nat.inj_0, Nat.mul_0_l.
Qed.

Lemma stat_step_skipped nd a px :
  Forall (λ v, (Z2F v =? nd)%float = true) px ->
  foldl (stat_step true nd) a px = a.
Proof.
  induction 1 as [|v px Hv _ IH]; [done|]. simpl.
  unfold stat_step at 2. rewrite Hv. simpl. exact IH.
Qed.

Lemma ProcessInt16UInt16Tile_no_valid T px b nd null o s :
  Forall (λ v, (Z2F v =? nd)%float = true) px ->
  nValidPixels (ProcessInt16UInt16Tile T px b true nd null o s TileStats_init).2 = 0.
Proof.
  intros H. unfold ProcessInt16UInt16Tile. rewrite (stat_step_skipped _ _ _ H).
  by destruct (choose_offset_scale _ _ _ _ _ _ _ _ _ _ _).
Qed.

Lemma choose_nTileBands_16bit allOpaque partialTile ct :
  m_eTF cfg = GPKG_TF_PNG_16BIT -> nBands cfg = 1 ->
  let n := choose_nTileBands cfg
             (choose_driver host cfg true allOpaque partialTile ct)
             true allOpaque partialTile ct in
  n = 1 \/ n = 3.
Proof.
  intros Htf Hn. unfold choose_nTileBands, choose_driver. rewrite Htf, Hn. simpl.
  rewrite !andb_false_r. simpl. destruct ct; auto.
Qed.

Lemma encode_and_store_no_valid_integer r c allOpaque v st :
  m_eDT cfg = GDT_Int16 \/ m_eDT cfg = GDT_UInt16 ->
  m_eTF cfg = GPKG_TF_PNG_16BIT -> nBands cfg = 1 ->
  GDALGetDriverByName host DRV_PNG = true ->
  no_valid_integer cfg st ->
  encode_and_store host cfg r c true allOpaque v (flushing st)
  = remove_quantized_tile host cfg r c (flushing st).
Proof.
  intros Hdt Htf Hn Hdrv (Hnd&Hall). unfold encode_and_store.
  assert (Hnb : bool_decide (m_eDT cfg = GDT_Byte) = false).
  { apply bool_decide_eq_false_2. destruct Hdt as [-> | ->]; done. }
  rewrite Hnb, andb_false_r. cbv zeta.
  pose proof (choose_nTileBands_16bit allOpaque (bPartialTile v)
                (m_poCT (flushing st)) Htf Hn) as Hb.
  cbv zeta in Hb.
  set (d := choose_driver host cfg true allOpaque (bPartialTile v) (m_poCT (flushing st))) in *.
  assert (Hd : pszDriverName d = DRV_PNG).
  { unfold d, choose_driver. by rewrite Htf. }
  rewrite Hd, Hdrv. simpl negb. cbv iota.
  set (n := choose_nTileBands cfg d true allOpaque (bPartialTile v) (m_poCT (flushing st))) in *.
  assert (Hn24 : (n =? 2) || (n =? 4) = false) by (destruct Hb as [-> | ->]; done).
  rewrite Hn24, andb_false_r.
  unfold build_bands. rewrite Htf. simpl decide. cbv iota.
  unfold quantized_format. rewrite Htf. simpl bool_decide.
  unfold band_samples, band_off in Hall. rewrite Nat.add_0_l, Z2Nat.inj_0, Nat.mul_0_l in Hall.
  destruct Hdt as [Hdt | Hdt]; rewrite Hdt, Hnd.
  - pose proof (ProcessInt16UInt16Tile_no_valid T_GInt16 _ true _ (m_usGPKGNull cfg)
                  (m_dfOffset cfg) (m_dfScale cfg) Hall) as Hv.
    simpl m_pabyCachedTiles.
    destruct (ProcessInt16UInt16Tile _ _ _ _ _ _ _ _ _) as [tmp s]. simpl in Hv.
    destruct (decide (GPKG_TF_PNG_16BIT = GPKG_TF_PNG_16BIT)) as [_|?]; [|done].
    simpl. by rewrite Hv.
  - pose proof (ProcessInt16UInt16Tile_no_valid T_GUInt16 _ false _ (m_usGPKGNull cfg)
                  (m_dfOffset cfg) (m_dfScale cfg) Hall) as Hv.
    simpl m_pabyCachedTiles.
    destruct (ProcessInt16UInt16Tile _ _ _ _ _ _ _ _ _) as [tmp s]. simpl in Hv.
    destruct (decide (GPKG_TF_PNG_16BIT = GPKG_TF_PNG_16BIT)) as [_|?]; [|done].
    simpl. by rewrite Hv.
Qed.

Lemma remove_quantized_tile_removes st :
  (forall k r, tiles (hDB st) !! k = Some r -> 0 < tile_id r) ->
  let d0 := desc0 (m_asCachedTilesDesc st) in
  let res := remove_quantized_tile host cfg (nRow d0) (nCol d0) (flushing st) in
  res.1 = CE_None /\ quantized_tile_removed host cfg st res.2.
Proof.
  intros Hpos d0 res. subst res.
  unfold remove_quantized_tile, GetTileId, DeleteTile, DeleteFromGriddedTileAncillary,
    exec, quantized_tile_removed. fold d0. cbv zeta. rewrite !no_fault. simpl.
  destruct (tiles (hDB st) !! tile_key host cfg (nRow d0) (nCol d0)) as [row|] eqn:E.
  - pose proof (Hpos _ _ E) as Hid. destruct (Z.ltb_spec 0 (tile_id row)); [|lia].
    simpl. rewrite !no_fault. simpl. by repeat split.
  - simpl. split; [done|]. split; [by rewrite delete_id|]. by repeat split.
Qed.

(** X13: A tile of which all the bands are dirty and which lies inside the
    raster, flushed when no statement fails.  If the type is Byte, the dataset
    has no colour table and the tile is fully transparent, or fully zero
    without alpha band and with a no-data value that is absent or 0, or if
    the type is Float32 and every sample is the no-data value, [WriteTile]
    encodes nothing, deletes the row of the tile and returns [CE_None].  If
    the type is Int16 or UInt16, stored as 16-bit PNG, and every sample is
    the no-data value, it encodes nothing, deletes the row of the tile and
    its row of gpkg_2d_gridded_tile_ancillary and returns [CE_None]. *)
Theorem empty_tile_of_dirty_bands_is_removed st :
  slot_all_dirty cfg st ->
  (m_eDT cfg = GDT_Byte -> m_poCT st = None ->
   fully_transparent cfg st \/ fully_zero cfg st ->
   exists st', WriteTileInternal host cfg st = (CE_None, st')
               /\ tile_removed host cfg st st')
  /\ (m_eDT cfg = GDT_Float32 -> no_valid_float host cfg st ->
      exists st', WriteTileInternal host cfg st = (CE_None, st')
                  /\ tile_removed host cfg st st')
  /\ (m_eDT cfg = GDT_Int16 \/ m_eDT cfg = GDT_UInt16 ->
      m_eTF cfg = GPKG_TF_PNG_16BIT -> nBands cfg = 1 ->
      GDALGetDriverByName host DRV_PNG = true ->
      (forall k r, tiles (hDB st) !! k = Some r -> 0 < tile_id r) ->
      no_valid_integer cfg st ->
      exists st', WriteTileInternal host cfg st = (CE_None, st')
                  /\ quantized_tile_removed host cfg st st').
Proof.
  intros Hslot. rewrite (WriteTileInternal_all_dirty st Hslot). cbv zeta.
  split; [|split].
  - intros Hdt Hct He.
    assert (Hd : detect_empty host cfg true (flushing st) = TileIsEmpty)
      by (destruct He; [by apply detect_transparent | by apply detect_zero]).
    rewrite Hd. eexists. split; [reflexivity | apply DeleteTile_removes].
  - intros Hdt He. rewrite (detect_float st Hdt He).
    eexists. split; [reflexivity | apply DeleteTile_removes].
  - intros Hdt Htf Hn Hdrv Hpos He.
    assert (Hd : detect_empty host cfg true (flushing st) = TileKept true).
    { unfold detect_empty. simpl.
      rewrite !(bool_decide_eq_false_2 (m_eDT cfg = GDT_Byte)),
        (bool_decide_eq_false_2 (m_eDT cfg = GDT_Float32));
        [done | destruct Hdt as [-> | ->]; done..]. }
    rewrite Hd, (encode_and_store_no_valid_integer _ _ _ _ st Hdt Htf Hn Hdrv He).
    destruct (remove_quantized_tile_removes st Hpos) as [H1 H2].
    eexists. split; [apply injective_projections; [exact H1 | reflexivity] | exact H2].
Qed.
End EmptyTiles.

(** ** The quantisation of Int16 and UInt16 tiles *)

Lemma static_cast_GUInt16_range d : 0 <= static_cast_GUInt16 d < 65536.
Proof. unfold static_cast_GUInt16. apply Z.mod_pos_bound. lia. Qed.


Section Reads.
Variable host : Host.
Variable cfg : Config.

Lemma read_only_refl st : read_only st st.
Proof. by repeat split. Qed.

Lemma read_only_trans a b c : read_only a b -> read_only b c -> read_only a c.
Proof.
  unfold read_only. intros (?&?&?&?&?&?&?&?&?&?) (?&?&?&?&?&?&?&?&?&?).
  repeat split; congruence.
Qed.

Ltac close_read :=
  repeat match goal with
         | H : read_only _ _ |- _ => destruct H as (?&?&?&?&?&?&?&?&?&?)
         end;
  unfold read_only, updates_log in *; simpl in *; repeat split; congruence.

Lemma exec_read s st f st1 :
  is_query (EvStmt s NoFault) = true ->
  exec host s st = (f, st1) -> read_only st st1.
Proof.
  unfold exec. intros Hs [= <- <-]. unfold read_only, updates_log. simpl.
  destruct s; simpl in *; try discriminate; by repeat split.
Qed.

Lemma foldl_read_only {A} (step : State -> A -> State) l st :
  (forall s x, read_only s (step s x)) -> read_only st (foldl step st l).
Proof.
  intros H. revert st. induction l as [|x l IH]; intros st; simpl.
  - apply read_only_refl.
  - eapply read_only_trans; [apply H | apply IH].
Qed.

Lemma FillBuffer_read o n st : read_only st (FillBuffer host cfg o n st).
Proof. unfold FillBuffer. case_match; close_read. Qed.

Lemma FillEmptyTile_read o st : read_only st (FillEmptyTile host cfg o st).
Proof. apply FillBuffer_read. Qed.

Lemma FillEmptyTileSingleBand_read o st :
  read_only st (FillEmptyTileSingleBand host cfg o st).
Proof. apply FillBuffer_read. Qed.

Lemma GetColorTable_query_read s row st b st1 :
  is_query (EvStmt s NoFault) = true ->
  GetColorTable_query host s row st = (b, st1) -> read_only st st1.
Proof.
  unfold GetColorTable_query. intros Hs H.
  destruct (exec host s st) as [f st2] eqn:E. apply exec_read in E; [|done].
  repeat (case_match; simplify_eq); close_read.
Qed.

Lemma GetColorTable_read st ct st1 :
  GetColorTable host cfg st = (ct, st1) -> read_only st st1.
Proof.
  unfold GetColorTable. intros H.
  repeat (case_match; simplify_eq); try apply read_only_refl.
  all: repeat match goal with
       | E : GetColorTable_query _ _ _ _ = (_, _) |- _ =>
           apply GetColorTable_query_read in E; [| reflexivity]
       end; close_read.
Qed.

Lemma GetColorTable_read' st : read_only st (snd (GetColorTable host cfg st)).
Proof. destruct (GetColorTable host cfg st) eqn:E. eapply GetColorTable_read, E. Qed.

Lemma ReadTile_check_ct_read n ct st : read_only st (ReadTile_check_ct cfg n ct st).
Proof. unfold ReadTile_check_ct. repeat case_match; close_read. Qed.

Ltac absorb_reads :=
  repeat match goal with
  | |- context [FillEmptyTile host cfg ?o ?s] =>
      pose proof (FillEmptyTile_read o s);
      generalize dependent (FillEmptyTile host cfg o s); intros
  | |- context [ReadTile_check_ct cfg ?n ?c ?s] =>
      pose proof (ReadTile_check_ct_read n c s);
      generalize dependent (ReadTile_check_ct cfg n c s); intros
  | |- context [GetColorTable host cfg ?s] =>
      pose proof (GetColorTable_read' s);
      generalize dependent (GetColorTable host cfg s); intros
  | H : context [GetColorTable host cfg ?s] |- _ =>
      pose proof (GetColorTable_read' s);
      generalize dependent (GetColorTable host cfg s); intros
  end.

Lemma ReadTileBlob_read blob off o s st e l st1 :
  ReadTileBlob host cfg blob off o s st = (e, l, st1) -> read_only st st1.
Proof.
  unfold ReadTileBlob. intros H.
  repeat (case_match; simplify_eq).
  all: absorb_reads.
  all: close_read.
Qed.

Lemma GetTileOffsetAndScale_read id st o s st1 :
  GetTileOffsetAndScale host cfg id st = (o, s, st1) -> read_only st st1.
Proof.
  unfold GetTileOffsetAndScale. intros H.
  repeat (case_match; simplify_eq); try apply read_only_refl.
  all: match goal with E : exec _ _ _ = _ |- _ => apply exec_read in E; [|reflexivity] end;
    close_read.
Qed.

Lemma load_partial_bands_read r fl off st :
  read_only st (load_partial_bands host cfg r fl off st).
Proof.
  unfold load_partial_bands. apply foldl_read_only. intros s x.
  case_match; [apply FillEmptyTileSingleBand_read | close_read].
Qed.

Lemma ReadTileAt_read nRow_ nCol_ pabyData st ok l st1 :
  ReadTileAt host cfg nRow_ nCol_ pabyData st = (ok, l, st1) -> read_only st st1.
Proof.
  intros H. unfold ReadTileAt in H.
  repeat (case_match; simplify_eq).
  all: repeat match goal with
       | E : exec _ _ _ = (_, _) |- _ => apply exec_read in E; [| reflexivity]
       | E : GetTileOffsetAndScale _ _ _ _ = (_, _) |- _ =>
           apply GetTileOffsetAndScale_read in E
       | E : ReadTileBlob _ _ _ _ _ _ _ = (_, _) |- _ => apply ReadTileBlob_read in E
       end.
  all: repeat match goal with
       | |- context [FillEmptyTile host cfg ?o ?s] =>
           pose proof (FillEmptyTile_read o s);
           generalize dependent (FillEmptyTile host cfg o s); intros
       | |- context [load_partial_bands host cfg ?r ?f ?o ?s] =>
           pose proof (load_partial_bands_read r f o s);
           generalize dependent (load_partial_bands host cfg r f o s); intros
       end.
  all: close_read.
Qed.

(** X1: [ReadTile] does not write: it leaves the tile table, the partial tiles,
    the open transaction and its counter, the guards of [WriteTile], the
    descriptors of the cached tiles and the block cache as they are, and the
    statements it sends are queries.  (It changes pixels of the cached tiles,
    and may establish the colour table.) *)
Theorem ReadTile_is_read_only nRow_ nCol_ pabyData st :
  read_only st (ReadTileAt host cfg nRow_ nCol_ pabyData st).2.
Proof.
  destruct (ReadTileAt host cfg nRow_ nCol_ pabyData st) as [[ok l] st1] eqn:H.
  exact (ReadTileAt_read _ _ _ _ _ _ _ H).
Qed.

Lemma ReadTileAt_missing nRow_ nCol_ pabyData st :
  0 <= nRow_ < m_nTileMatrixHeight cfg -> 0 <= nCol_ < m_nTileMatrixWidth cfg ->
  let s := SelectTile (m_nZoomLevel cfg) (GetRowFromIntoTopConvention host nRow_)
             nCol_ in
  sqlite_fault host (sql_log st) s = NoFault ->
  tiles (hDB st) !! tile_key host cfg nRow_ nCol_ = None ->
  m_hTempDB st = None \/ shifted cfg = false ->
  (pabyData + tile_samples cfg <= length (m_pabyCachedTiles st))%nat ->
  exists st', ReadTileAt host cfg nRow_ nCol_ pabyData st = (true, false, st')
    /\ filled (m_pabyCachedTiles st) (m_pabyCachedTiles st') pabyData
         (tile_samples cfg) (fill_value host cfg)
    /\ sql_log st' = EvStmt s NoFault :: sql_log st
    /\ cpl_errors st' = cpl_errors st.
Proof.
  intros Hr Hc s Hf Hrow Htmp Hlen. unfold ReadTileAt.
  destruct (Z.ltb_spec nRow_ 0); [lia|]. destruct (Z.ltb_spec nCol_ 0); [lia|].
  destruct (Z.leb_spec (m_nTileMatrixHeight cfg) nRow_); [lia|].
  destruct (Z.leb_spec (m_nTileMatrixWidth cfg) nCol_); [lia|]. simpl.
  unfold exec, tile_key in *. simpl. fold s. rewrite Hf, Hrow. simpl.
  set (st2 := set_sql_log _ st).
  assert (Hlen2 : (pabyData + tile_samples cfg <= length (m_pabyCachedTiles st2))%nat)
    by exact Hlen.
  destruct (FillBuffer_filled host cfg pabyData (tile_samples cfg) st2 Hlen2)
    as (F1&F2&F3).
  assert (Hres : (match m_hTempDB st with
                  | Some db =>
                      if shifted cfg
                      then
                        let '(f, st0) :=
                          (sqlite_fault host (sql_log st2)
                             (TmpSelectPartial (m_nZoomLevel cfg) nRow_ nCol_),
                           set_sql_log
                             (EvStmt (TmpSelectPartial (m_nZoomLevel cfg) nRow_ nCol_)
                                (sqlite_fault host (sql_log st2)
                                   (TmpSelectPartial (m_nZoomLevel cfg) nRow_ nCol_))
                              :: sql_log st2) st2) in
                        match f, find_partial (m_nZoomLevel cfg) nRow_ nCol_ db with
                        | PrepareError, _ => (true, false, FillEmptyTile host cfg pabyData st0)
                        | NoFault, Some r =>
                            (true, false,
                             load_partial_bands host cfg r (pt_partial_flag r) pabyData st0)
                        | _, _ => (true, false, FillEmptyTile host cfg pabyData st0)
                        end
                      else (true, false, FillEmptyTile host cfg pabyData st2)
                  | None => (true, false, FillEmptyTile host cfg pabyData st2)
                  end) = (true, false, FillEmptyTile host cfg pabyData st2)).
  { destruct Htmp as [-> | ->]; [done | by destruct (m_hTempDB st)]. }
  exists (FillEmptyTile host cfg pabyData st2). split; [exact Hres|].
  split; [exact F1|]. split; [|exact F3].
  destruct F2 as (_&_&_&_&_&_&_&_&_&_&_&F2). exact F2.
Qed.

(** X3: A tile of the tile matrix that has no row in the tile table, read when
    there is no partial tile of it (no temporary database, or a dataset that
    is not shifted): [ReadTile] sends the SELECT and, the statement running,
    succeeds with the samples of the tile filled with the no-data value. *)
Theorem ReadTile_of_missing_tile nRow_ nCol_ pabyData st :
  0 <= nRow_ < m_nTileMatrixHeight cfg -> 0 <= nCol_ < m_nTileMatrixWidth cfg ->
  let s := SelectTile (m_nZoomLevel cfg) (GetRowFromIntoTopConvention host nRow_)
             nCol_ in
  sqlite_fault host (sql_log st) s = NoFault ->
  tiles (hDB st) !! tile_key host cfg nRow_ nCol_ = None ->
  m_hTempDB st = None \/ shifted cfg = false ->
  (pabyData + tile_samples cfg <= length (m_pabyCachedTiles st))%nat ->
  exists st', ReadTileAt host cfg nRow_ nCol_ pabyData st = (true, false, st')
    /\ filled (m_pabyCachedTiles st) (m_pabyCachedTiles st') pabyData
         (tile_samples cfg) (fill_value host cfg)
    /\ sql_log st' = EvStmt s NoFault :: sql_log st
    /\ cpl_errors st' = cpl_errors st.
Proof. apply ReadTileAt_missing. Qed.

(** X4: [ReadTile] fails on a blob exactly when the blob cannot be opened, the
    decoded dataset has not the geometry of the tiles, or its pixels cannot
    be read. *)
Theorem ReadTile_fails_iff blob pabyTileData dfTileOffset_ dfTileScale_ st :
  (ReadTileBlob host cfg blob pabyTileData dfTileOffset_ dfTileScale_ st).1.1
    = CE_Failure
  <-> match GDALOpen host (ReadTile_drivers cfg) blob with
      | None => True
      | Some ds => ~ tile_geometry_ok cfg ds \/ ds_RasterIO ds (eRequestDT cfg) = None
      end.
Proof.
  unfold ReadTileBlob.
  destruct (GDALOpen host (ReadTile_drivers cfg) blob) as [ds|]; [|done].
  destruct (inconsistent_tile cfg ds) eqn:Hi.
  - simpl. split; [|done]. intros _. left. intros Hok.
    apply inconsistent_tile_spec in Hok. congruence.
  - apply inconsistent_tile_spec in Hi.
    destruct (ds_RasterIO ds (eRequestDT cfg)) as [px|]; [|simpl; tauto].
    split; [|intros [?|?]; done].
    intros H. exfalso. revert H.
    repeat (case_match; simplify_eq; simpl); discriminate.
Qed.

(** X5: [GetColorTable] looks for the colour table in the database once: a
    second call returns what the first call returned and changes nothing. *)
Theorem GetColorTable_is_cached st :
  GetColorTable host cfg (GetColorTable host cfg st).2
  = GetColorTable host cfg st.
Proof.
  unfold GetColorTable at 2 3. destruct (negb (nBands cfg =? 1)) eqn:Hn.
  { simpl. unfold GetColorTable. by rewrite Hn. }
  destruct (m_bTriedEstablishingCT st) eqn:Ht.
  { simpl. unfold GetColorTable. by rewrite Hn, Ht. }
  assert (Hq : forall s row st0 b st1,
             GetColorTable_query host s row st0 = (b, st1) ->
             m_bTriedEstablishingCT st1 = m_bTriedEstablishingCT st0).
  { intros s row st0 b st1. unfold GetColorTable_query, exec.
    intros H. repeat (case_match; simplify_eq); reflexivity. }
  cbv zeta.
  destruct (GetColorTable_query host (SelectAnyTile (m_nZoomLevel cfg)) _ _)
    as [bRetry st1] eqn:E1.
  pose proof (Hq _ _ _ _ _ E1) as H1. simpl in H1.
  destruct bRetry.
  - destruct (GetColorTable_query host (SelectTile _ _ _) _ st1) as [b2 st2] eqn:E2.
    pose proof (Hq _ _ _ _ _ E2) as H2. simpl.
    unfold GetColorTable. by rewrite Hn, H2, H1.
  - simpl. unfold GetColorTable. by rewrite Hn, H1.
Qed.
End Reads.

Section Batches.
Variable host : Host.
Variable cfg : Config.

(** X10: [FlushTiles] leaves no transaction open: the counter of the upserts of
    the open transaction is 0 or negative when it returns, and 0 when it
    returns [CE_None]. *)
Theorem FlushTiles_closes_the_transaction st :
  m_nTileInsertionCount (FlushTiles host cfg st).2 <= 0
  /\ ((FlushTiles host cfg st).1 = CE_None ->
      m_nTileInsertionCount (FlushTiles host cfg st).2 = 0).
Proof.
  destruct (FlushTiles host cfg st) as [e st'] eqn:E. simpl.
  apply FlushTiles_spec in E.
  destruct E as [Hneg -> ->|s2 Hnn Hop Hle ->|s2 e2 Hnn Hop Hpos -> Hs
                |s2 e2 Hnn Hop Hpos -> Hs].
  - split; [lia | discriminate].
  - split; [lia|]. intros ->. destruct Hop as [(_&_&_&Hk&_)|(?&_)]; [|discriminate].
    specialize (Hk Hnn). lia.
  - destruct Hs as (->&_). split; [lia | done].
  - destruct Hs as (->&_). split; [lia | discriminate].
Qed.

Lemma batches_commits n :
  let '(l, c) := batches n in
  Z.of_nat n = 1000 * Z.of_nat (length (filter (λ x, x = TxCommit) l)) + c.
Proof.
  induction n as [|n IH]; [done|]. cbn [batches].
  destruct (batches n) as [l c].
  destruct (Z.eqb_spec c 0); [|destruct (Z.eqb_spec c 1000)];
    rewrite ?(filter_cons_False _ TxInsert), ?(filter_cons_False _ TxBegin) by done;
    rewrite ?filter_cons_True by done; cbn [length]; lia.
Qed.


End Batches.

(** ** GPKGFindBestEntry *)

Lemma color_distance_bound e b1 b2 b3 b4 n :
  byte_entry e -> 0 <= b1 <= 255 -> 0 <= b2 <= 255 -> 0 <= b3 <= 255 ->
  0 <= b4 <= 255 ->
  0 <= color_distance e b1 b2 b3 b4 n < 4 * 256 * 256.
Proof.
  intros (?&?&?&?) ? ? ? ?. unfold color_distance.
  assert (forall x y, 0 <= x <= 255 -> 0 <= y <= 255 -> 0 <= (x - y) * (x - y) <= 65025)
    as Hsq.
  { intros x y Hx Hy. split; [apply Z.square_nonneg|].
    destruct (Z.le_ge_cases 0 (x - y)).
    - change 65025 with (255 * 255). apply Z.mul_le_mono_nonneg; lia.
    - replace ((x - y) * (x - y)) with ((y - x) * (y - x)) by ring.
      change 65025 with (255 * 255). apply Z.mul_le_mono_nonneg; lia. }
  pose proof (Hsq (c1 e) b1). pose proof (Hsq (c2 e) b2).
  pose proof (Hsq (c3 e) b3). pose proof (Hsq (c4 e) b4).
  destruct (n =? 4); lia.
Qed.

(** The loop from entry [i] on: the result is the best index so far, or the
    index of a later entry that is nearer than the best so far and than the
    entries before it, and at least as near as those after it. *)
Lemma find_best_entry_from_spec es : forall i b1 b2 b3 b4 n best dist,
  let r := find_best_entry_from es i b1 b2 b3 b4 n best dist in
  (r = best /\ Forall (λ e, dist <= color_distance e b1 b2 b3 b4 n) es)
  \/ (exists k e, r = i + Z.of_nat k /\ es !! k = Some e
        /\ color_distance e b1 b2 b3 b4 n < dist
        /\ Forall (λ e', color_distance e b1 b2 b3 b4 n
                         <= color_distance e' b1 b2 b3 b4 n) es
        /\ Forall (λ e', color_distance e b1 b2 b3 b4 n
                         < color_distance e' b1 b2 b3 b4 n) (take k es)).
Proof.
  induction es as [|e es IH]; intros i b1 b2 b3 b4 n best dist; simpl.
  - left. split; [done | constructor].
  - destruct (Z.ltb_spec (color_distance e b1 b2 b3 b4 n) dist) as [Hlt|Hge].
    + destruct (IH (i + 1) b1 b2 b3 b4 n i (color_distance e b1 b2 b3 b4 n))
        as [[Hr Hall]|(k&e'&Hr&Hk&Hd&Hall&Hbefore)].
      * right. exists O, e. rewrite Hr. split; [lia|]. split; [done|].
        split; [done|]. split; [constructor; [lia | done] | constructor].
      * right. exists (S k), e'. rewrite Hr. split; [lia|]. split; [done|].
        split; [lia|]. split; [constructor; [lia | done]|].
        simpl. constructor; [lia | done].
    + destruct (IH (i + 1) b1 b2 b3 b4 n best dist)
        as [[Hr Hall]|(k&e'&Hr&Hk&Hd&Hall&Hbefore)].
      * left. split; [done | constructor; [lia | done]].
      * right. exists (S k), e'. rewrite Hr. split; [lia|]. split; [done|].
        split; [done|]. split; [constructor; [lia | done]|].
        simpl. constructor; [lia | done].
Qed.

(** X9: [GPKGFindBestEntry] on a colour table that is not empty, whose entries
    and the colour looked for are bytes: the index returned is that of one of
    the first 256 entries, no entry among them is nearer to the colour, and
    the entries before it are farther. *)
Theorem GPKGFindBestEntry_is_nearest poCT b1 b2 b3 b4 nTileBandCount :
  poCT <> [] -> Forall byte_entry poCT ->
  0 <= b1 <= 255 -> 0 <= b2 <= 255 -> 0 <= b3 <= 255 -> 0 <= b4 <= 255 ->
  exists k e,
    GPKGFindBestEntry poCT b1 b2 b3 b4 nTileBandCount = Z.of_nat k
    /\ (k < 256)%nat /\ poCT !! k = Some e
    /\ (forall j e', (j < 256)%nat -> poCT !! j = Some e' ->
          color_distance e b1 b2 b3 b4 nTileBandCount
          <= color_distance e' b1 b2 b3 b4 nTileBandCount)
    /\ (forall j e', (j < k)%nat -> poCT !! j = Some e' ->
          color_distance e b1 b2 b3 b4 nTileBandCount
          < color_distance e' b1 b2 b3 b4 nTileBandCount).
Proof.
  intros Hne Hbytes H1 H2 H3 H4. unfold GPKGFindBestEntry.
  destruct (find_best_entry_from_spec (take 256 poCT) 0 b1 b2 b3 b4 nTileBandCount
              0 (4 * 256 * 256)) as [[_ Hall]|(k&e&Hr&Hk&Hd&Hall&Hbefore)].
  - exfalso. destruct poCT as [|e l]; [done|]. simpl in Hall.
    apply Forall_cons in Hall as [Hd _]. apply Forall_cons in Hbytes as [He _].
    pose proof (color_distance_bound e b1 b2 b3 b4 nTileBandCount He H1 H2 H3 H4). lia.
  - exists k, e. rewrite Hr. split; [lia|].
    pose proof (lookup_lt_Some _ _ _ Hk) as Hlt. rewrite length_take in Hlt.
    split; [lia|]. rewrite lookup_take_lt in Hk by lia. split; [exact Hk|]. split.
    + intros j e' Hj He'. rewrite Forall_forall in Hall. apply Hall.
      apply list_elem_of_lookup. exists j. by rewrite lookup_take_lt.
    + intros j e' Hj He'. rewrite Forall_forall in Hbefore. apply Hbefore.
      apply list_elem_of_lookup. exists j.
      rewrite lookup_take_lt by lia. by rewrite lookup_take_lt by lia.
Qed.

(** ** What the reads write *)

Lemma within_refl off n buf : within off n buf buf.
Proof. by split. Qed.

Lemma within_trans off n a b c : within off n a b -> within off n b c -> within off n a c.
Proof.
  intros [Hl1 H1] [Hl2 H2]. split; [congruence|].
  intros j Hj. rewrite H2, H1; done.
Qed.

Lemma within_weaken off n off' n' a b :
  (off' <= off)%nat -> (off + n <= off' + n')%nat ->
  within off n a b -> within off' n' a b.
Proof. intros ? ? [Hl H]. split; [done|]. intros j Hj. apply H. lia. Qed.

Lemma within_inserts off k n buf :
  (length k <= n)%nat -> within off n buf (list_inserts off k buf).
Proof.
  intros Hk. split; [apply length_inserts|]. intros j [Hj|Hj].
  - by apply list_lookup_inserts_lt.
  - apply list_lookup_inserts_ge. lia.
Qed.

Lemma within_memcpy buf off src n : within off n buf (memcpy buf off src n).
Proof. apply within_inserts. rewrite length_take. lia. Qed.

Lemma within_memset buf off v n : within off n buf (memset buf off v n).
Proof. apply within_inserts. by rewrite length_replicate. Qed.

Lemma within_insert buf (i : nat) (v : Z) : within i 1 buf (<[i := v]> buf).
Proof.
  split; [apply length_insert|]. intros j Hj.
  apply list_lookup_insert_ne. lia.
Qed.

Lemma within_foldl {A} (step : list Z -> A -> list Z) off n l buf :
  (forall b x, In x l -> within off n b (step b x)) ->
  within off n buf (foldl step buf l).
Proof.
  revert buf. induction l as [|x l IH]; intros buf H; simpl.
  - apply within_refl.
  - eapply within_trans; [apply H; by left|]. apply IH.
    intros b y Hy. apply H. by right.
Qed.

Section Regions.
Variable host : Host.
Variable cfg : Config.

Let B := nBlockPixels cfg.

Lemma within_map_region f buf off n : within off n buf (map_region f buf off n).
Proof.
  unfold map_region. apply within_inserts.
  rewrite length_map. unfold buf_slice. rewrite length_take. lia.
Qed.

Lemma within_for_pixels body off n buf :
  (forall i b, (i < B)%nat -> within off n b (body i b)) ->
  within off n buf (for_pixels cfg body buf).
Proof.
  intros H. unfold for_pixels. apply within_foldl.
  intros b i Hi. apply H. apply in_seq in Hi. unfold B. lia.
Qed.

(** A write in band [k] (from 0) of the tile at [off] is in the tile. *)
Lemma within_band off (k : Z) n a b :
  0 <= k -> (Z.to_nat k < n)%nat ->
  within (band_off cfg off k) B a b -> within off (n * B) a b.
Proof.
  intros Hk Hn. apply within_weaken; unfold band_off; fold B; [lia|].
  assert (S (Z.to_nat k) * B <= n * B)%nat by (apply Nat.mul_le_mono_r; lia).
  simpl in *. lia.
Qed.

Lemma within_pixel off (k i n : nat) a b :
  (k < n)%nat -> (i < B)%nat ->
  within (off + i + k * B) 1 a b -> within off (n * B) a b.
Proof.
  intros Hk Hi. apply within_weaken; [lia|].
  assert (S k * B <= n * B)%nat by (apply Nat.mul_le_mono_r; lia).
  simpl in *. lia.
Qed.

Lemma within_copy_band off dst src n buf :
  0 <= dst -> (Z.to_nat dst < n)%nat ->
  within off (n * B) buf (copy_band cfg off dst src buf).
Proof.
  intros Hd Hn. unfold copy_band. eapply within_band; [exact Hd | exact Hn|].
  apply within_memcpy.
Qed.

Lemma within_expand_index g off buf :
  within off (4 * B) buf (expand_index_to_rgba cfg g off buf).
Proof.
  unfold expand_index_to_rgba. apply within_for_pixels. intros i b Hi.
  eapply within_trans; [eapply within_trans; [eapply within_trans|]|].
  - apply (within_pixel off 0 i 4); [lia | done |].
    rewrite Nat.mul_0_l, Nat.add_0_r. apply within_insert.
  - apply (within_pixel off 1 i 4); [lia | done |].
    rewrite Nat.mul_1_l. apply within_insert.
  - apply (within_pixel off 2 i 4); [lia | done |]. apply within_insert.
  - apply (within_pixel off 3 i 4); [lia | done |]. apply within_insert.
Qed.

Lemma within_expand_bands nTileBandCount poCT ct off buf :
  within off (4 * B) buf
    (ReadTile_expand_bands cfg nTileBandCount poCT ct off buf).
Proof.
  unfold ReadTile_expand_bands. cbv zeta.
  repeat match goal with
         | |- context [if ?c then _ else _] => destruct c
         | |- context [match ?o with Some _ => _ | None => _ end] => destruct o
         end;
    try apply within_refl; try apply within_expand_index;
    repeat match goal with
           | |- within _ _ _ (copy_band _ _ _ _ _) =>
               eapply within_trans; [|apply within_copy_band; simpl; lia]
           | |- within _ _ _ (memset _ (band_off _ _ ?k) _ _) =>
               eapply within_trans;
               [|apply (within_band _ k 4); [lia | simpl; lia | apply within_memset]]
           end;
    apply within_refl.
Qed.

Lemma within_map_rgb ct n off buf :
  within off (4 * B) buf (map_rgb_to_index cfg ct n off buf).
Proof.
  unfold map_rgb_to_index. apply within_for_pixels. intros i b Hi.
  apply (within_pixel off 0 i 4); [lia | done |].
  rewrite Nat.mul_0_l, Nat.add_0_r. apply within_insert.
Qed.

Hypothesis Hbands : 0 <= nBands cfg <= nCacheTileBands cfg.

Let T := cache_tile_samples cfg.

Lemma T_byte : m_eDT cfg = GDT_Byte -> T = (4 * B)%nat.
Proof.
  intros H. unfold T, cache_tile_samples, nCacheTileBands.
  destruct (decide (m_eDT cfg = GDT_Byte)); [done | contradiction].
Qed.

Lemma T_other : m_eDT cfg <> GDT_Byte -> T = (1 * B)%nat.
Proof.
  intros H. unfold T, cache_tile_samples, nCacheTileBands.
  destruct (decide (m_eDT cfg = GDT_Byte)); [contradiction | done].
Qed.

Lemma bands_fit : (Z.to_nat (nBands cfg) * B <= T)%nat.
Proof. unfold T, cache_tile_samples. fold B. apply Nat.mul_le_mono_r. lia. Qed.

Lemma FillBuffer_within p n st :
  within p n (m_pabyCachedTiles st) (m_pabyCachedTiles (FillBuffer host cfg p n st)).
Proof. unfold FillBuffer. destruct (_ || _); apply within_memset. Qed.

Lemma FillEmptyTile_within p st :
  within p T (m_pabyCachedTiles st) (m_pabyCachedTiles (FillEmptyTile host cfg p st)).
Proof.
  unfold FillEmptyTile. eapply within_weaken; [| |apply FillBuffer_within]; [lia|].
  pose proof bands_fit. fold B. lia.
Qed.

Lemma FillEmptyTileSingleBand_within p k st :
  0 <= k < nBands cfg ->
  within p T (m_pabyCachedTiles st)
    (m_pabyCachedTiles (FillEmptyTileSingleBand host cfg (band_off cfg p k) st)).
Proof.
  intros Hk. unfold FillEmptyTileSingleBand.
  eapply within_weaken; [| |apply FillBuffer_within]; unfold band_off; fold B; [lia|].
  pose proof bands_fit.
  assert (S (Z.to_nat k) * B <= Z.to_nat (nBands cfg) * B)%nat
    by (apply Nat.mul_le_mono_r; lia).
  simpl in *. lia.
Qed.

Lemma GetColorTable_query_pixels s row st :
  m_pabyCachedTiles (GetColorTable_query host s row st).2 = m_pabyCachedTiles st.
Proof.
  unfold GetColorTable_query, exec. repeat (case_match; simplify_eq); reflexivity.
Qed.

Lemma GetColorTable_pixels st :
  m_pabyCachedTiles (GetColorTable host cfg st).2 = m_pabyCachedTiles st.
Proof.
  unfold GetColorTable. destruct (negb _); [done|].
  destruct (m_bTriedEstablishingCT st); [done|]. cbv zeta.
  destruct (GetColorTable_query host (SelectAnyTile _) _ _) as [b st1] eqn:E1.
  pose proof (GetColorTable_query_pixels (SelectAnyTile (m_nZoomLevel cfg))
    (snd <$> head (filter (fun '(z, _, _, _) => z = m_nZoomLevel cfg)
       (tile_rows (set_m_poCT (m_poCT st) true st)))) (set_m_poCT (m_poCT st) true st))
    as H1.
  rewrite E1 in H1. simpl in H1. destruct b; [|done].
  destruct (GetColorTable_query host (SelectTile _ _ _) _ st1) as [b2 st2] eqn:E2.
  match type of E2 with GetColorTable_query _ ?s ?r _ = _ =>
    pose proof (GetColorTable_query_pixels s r st1) as H2 end.
  rewrite E2 in H2. simpl in *. congruence.
Qed.

Lemma ReadTile_check_ct_pixels n ct st :
  m_pabyCachedTiles (ReadTile_check_ct cfg n ct st) = m_pabyCachedTiles st.
Proof. unfold ReadTile_check_ct. repeat case_match; reflexivity. Qed.

Lemma ReadTileBlob_within blob p o s st :
  within p T (m_pabyCachedTiles st)
    (m_pabyCachedTiles (ReadTileBlob host cfg blob p o s st).2).
Proof.
  unfold ReadTileBlob.
  destruct (GDALOpen host (ReadTile_drivers cfg) blob) as [ds|];
    [|apply (FillEmptyTile_within p (CPLError _ st))].
  destruct (inconsistent_tile cfg ds) eqn:Hi;
    [apply (FillEmptyTile_within p (CPLError _ st))|].
  destruct (ds_RasterIO ds (eRequestDT cfg)) as [px|];
    [|apply FillEmptyTile_within].
  apply inconsistent_tile_spec in Hi. destruct Hi as (_&_&Hcnt&Hone).
  assert (Hcopy : within p T (m_pabyCachedTiles st)
            (memcpy (m_pabyCachedTiles st) p px
               (Z.to_nat (ds_RasterCount ds) * nBlockPixels cfg))).
  { eapply within_weaken; [| |apply within_memcpy]; [lia|]. fold B.
    destruct (decide (m_eDT cfg = GDT_Byte)) as [Hb|Hb].
    - rewrite (T_byte Hb).
      assert (Z.to_nat (ds_RasterCount ds) * B <= 4 * B)%nat
        by (apply Nat.mul_le_mono_r; lia). lia.
    - rewrite (T_other Hb), (Hone Hb). simpl. lia. }
  cbv zeta. destruct (bool_decide (m_eDT cfg = GDT_Byte)) eqn:Hb; simpl negb; cbv iota.
  - apply bool_decide_eq_true in Hb. pose proof (T_byte Hb) as HT.
    set (st1 := set_m_pabyCachedTiles _ st) in *.
    assert (Hst2 : forall q : bool, exists st2 : State,
              (if q then (ds_ColorTable ds, (GetColorTable host cfg st1).2)
               else (None, st1)) = ((if q then ds_ColorTable ds else None), st2)
              /\ m_pabyCachedTiles st2 = m_pabyCachedTiles st1).
    { intros [|]; eexists; (split; [reflexivity|]);
        [apply GetColorTable_pixels | reflexivity]. }
    destruct (Hst2 ((nBands cfg =? 1) || (ds_RasterCount ds =? 1))) as (st2&E&Hp).
    rewrite E. clear E Hst2.
    destruct (m_poCT st2) as [ct|].
    + destruct ((nBands cfg =? 1) && negb (ds_RasterCount ds =? 1)); simpl.
      * eapply within_trans; [exact Hcopy|]. rewrite Hp, HT. apply within_map_rgb.
      * eapply within_trans; [exact Hcopy|].
        rewrite ReadTile_check_ct_pixels, Hp, HT. apply within_expand_bands.
    + simpl. eapply within_trans; [exact Hcopy|].
      rewrite ReadTile_check_ct_pixels, Hp, HT. apply within_expand_bands.
  - apply bool_decide_eq_false in Hb. eapply within_trans; [exact Hcopy|].
    rewrite (T_other Hb). simpl. rewrite Nat.add_0_r.
    unfold ReadTile_convert_nonByte.
    repeat match goal with
           | |- context [match ?x with _ => _ end] => destruct x
           end; try apply within_refl; apply within_map_region.
Qed.

Lemma GetTileOffsetAndScale_pixels id st :
  m_pabyCachedTiles (GetTileOffsetAndScale host cfg id st).2 = m_pabyCachedTiles st.
Proof.
  unfold GetTileOffsetAndScale, exec. repeat (case_match; simplify_eq); reflexivity.
Qed.

Lemma load_partial_bands_within r fl p st :
  within p T (m_pabyCachedTiles st)
    (m_pabyCachedTiles (load_partial_bands host cfg r fl p st)).
Proof.
  unfold load_partial_bands.
  assert (Hin : forall x, x ∈ seqZ 1 (nBands cfg) -> 0 <= x - 1 < nBands cfg).
  { intros x Hx. apply elem_of_seqZ in Hx. lia. }
  revert st Hin. induction (seqZ 1 (nBands cfg)) as [|x l IH]; intros st Hin.
  - apply within_refl.
  - simpl. eapply within_trans; [|apply IH; intros y Hy; apply Hin; by right].
    assert (Hx : 0 <= x - 1 < nBands cfg) by (apply Hin; by left).
    destruct (Z.land fl (band_mask x) =? 0).
    + by apply FillEmptyTileSingleBand_within.
    + simpl. eapply within_weaken; [| |apply within_memcpy];
        unfold band_off; fold B; [apply Nat.le_add_r|].
      pose proof bands_fit.
      assert (S (Z.to_nat (x - 1)) * B <= Z.to_nat (nBands cfg) * B)%nat
        by (apply Nat.mul_le_mono_r; lia).
      simpl in *. lia.
Qed.

Lemma ReadTileAt_within nRow_ nCol_ p st :
  within p T (m_pabyCachedTiles st)
    (m_pabyCachedTiles (ReadTileAt host cfg nRow_ nCol_ p st).2).
Proof.
  unfold ReadTileAt.
  destruct (_ || _); [apply FillEmptyTile_within|]. cbv zeta.
  unfold exec at 1. cbv zeta.
  set (st1 := set_sql_log _ st).
  assert (H1 : m_pabyCachedTiles st1 = m_pabyCachedTiles st) by reflexivity.
  rewrite <- H1. clearbody st1. clear H1.
  assert (Hempty : forall s, m_pabyCachedTiles s = m_pabyCachedTiles st1 ->
            within p T (m_pabyCachedTiles st1)
              (m_pabyCachedTiles (FillEmptyTile host cfg p s))).
  { intros s Hs. rewrite <- Hs. apply FillEmptyTile_within. }
  assert (Hblob : forall blob id,
            within p T (m_pabyCachedTiles st1)
              (m_pabyCachedTiles
                 (let '(o, sc, s2) := GetTileOffsetAndScale host cfg id st1 in
                  let '(_, lossy, s3) := ReadTileBlob host cfg blob p o sc s2 in
                  (true, lossy, s3)).2)).
  { intros blob id. pose proof (GetTileOffsetAndScale_pixels id st1) as Hg.
    destruct (GetTileOffsetAndScale host cfg id st1) as [[o sc] s2]. simpl in Hg.
    pose proof (ReadTileBlob_within blob p o sc s2) as Hw.
    destruct (ReadTileBlob host cfg blob p o sc s2) as [[e l] s3]. simpl in *.
    by rewrite <- Hg. }
  assert (Htmp : within p T (m_pabyCachedTiles st1)
            (m_pabyCachedTiles
               (match m_hTempDB st1 with
                | Some db =>
                    if shifted cfg then
                      let '(f, s2) :=
                        exec host (TmpSelectPartial (m_nZoomLevel cfg) nRow_ nCol_) st1 in
                      match f, find_partial (m_nZoomLevel cfg) nRow_ nCol_ db with
                      | PrepareError, _ => (true, false, FillEmptyTile host cfg p s2)
                      | NoFault, Some r =>
                          (true, false,
                           load_partial_bands host cfg r (pt_partial_flag r) p s2)
                      | _, _ => (true, false, FillEmptyTile host cfg p s2)
                      end
                    else (true, false, FillEmptyTile host cfg p st1)
                | None => (true, false, FillEmptyTile host cfg p st1)
                end).2)).
  { destruct (m_hTempDB st1); [|by apply Hempty].
    destruct (shifted cfg); [|by apply Hempty].
    unfold exec. cbv zeta.
    repeat case_match; simpl; try by apply Hempty.
    apply (load_partial_bands_within _ _ p (set_sql_log _ st1)). }
  repeat first
    [ exact Htmp | apply Hblob | apply within_refl
    | by apply Hempty | by apply (Hempty (CPLError _ _)) | case_match ].
Qed.


(** X2: [ReadTile] writes the samples of its destination tile only: whatever the
    tile table holds and whatever the statements and the decoding do, the
    cached tiles keep their length and every sample outside the tile at
    [pabyData] is left as it is. *)
Theorem ReadTile_writes_only_its_tile nRow_ nCol_ pabyData st :
  let st' := (ReadTileAt host cfg nRow_ nCol_ pabyData st).2 in
  length (m_pabyCachedTiles st') = length (m_pabyCachedTiles st)
  /\ forall j, (j < pabyData \/ pabyData + cache_tile_samples cfg <= j)%nat ->
       m_pabyCachedTiles st' !! j = m_pabyCachedTiles st !! j.
Proof. exact (ReadTileAt_within nRow_ nCol_ pabyData st). Qed.

End Regions.

(** ** The cache of tiles *)

Lemma bands_apart (i x b j dest : nat) :
  i <> x -> (dest + i * b <= j < dest + i * b + b)%nat ->
  ~ (dest + x * b <= j < dest + x * b + b)%nat.
Proof.
  intros Hne Hi Hx.
  destruct (decide (i < x)%nat).
  - assert (S i * b <= x * b)%nat by (apply Nat.mul_le_mono_r; lia). simpl in *. lia.
  - assert (S x * b <= i * b)%nat by (apply Nat.mul_le_mono_r; lia). simpl in *. lia.
Qed.

Lemma band_below (i n b : nat) : (i < n)%nat -> (i * b + b <= n * b)%nat.
Proof.
  intros H. assert (S i * b <= n * b)%nat by (apply Nat.mul_le_mono_r; lia).
  simpl in *. lia.
Qed.

Section Cache.

Variable host : Host.
Variable cfg : Config.

Let B := nBlockPixels cfg.
Let T := cache_tile_samples cfg.

(** The loop that copies the bands that are not dirty from the tile at
    [temp] to the tile at [dest]. *)
Lemma merge_bands_spec (dest temp : nat) (d : Z -> bool) l st :
  (forall i, i ∈ l -> 0 <= i < nBands cfg) ->
  (dest + Z.to_nat (nBands cfg) * B <= temp)%nat ->
  (temp + Z.to_nat (nBands cfg) * B <= length (m_pabyCachedTiles st))%nat ->
  (forall i, band_dirty st i = d i) ->
  let st' :=
    foldl (fun st i =>
             if band_dirty st i then st
             else set_m_pabyCachedTiles
                    (memcpy (m_pabyCachedTiles st) (band_off cfg dest i)
                       (buf_slice (m_pabyCachedTiles st) (band_off cfg temp i)
                          (nBlockPixels cfg))
                       (nBlockPixels cfg)) st) st l in
  read_only st st'
  /\ length (m_pabyCachedTiles st') = length (m_pabyCachedTiles st)
  /\ (forall j, (forall i, i ∈ l -> d i = false ->
                   ~ (band_off cfg dest i <= j < band_off cfg dest i + B)%nat) ->
        m_pabyCachedTiles st' !! j = m_pabyCachedTiles st !! j)
  /\ (forall i j, i ∈ l -> d i = false ->
        (band_off cfg dest i <= j < band_off cfg dest i + B)%nat ->
        m_pabyCachedTiles st' !! j = m_pabyCachedTiles st !! (j - dest + temp)%nat).
Proof.
  revert st. induction l as [|x l IH]; intros st Hl Hdt Hlen Hd; cbv zeta.
  - simpl. split; [apply read_only_refl|]. split; [done|]. split; [done|].
    intros i j Hi. by apply elem_of_nil in Hi.
  - simpl foldl.
    set (st1 := if band_dirty st x then st else _).
    assert (Hx : 0 <= x < nBands cfg) by (apply Hl; by left).
    assert (Hxb : (Z.to_nat x * B + B <= Z.to_nat (nBands cfg) * B)%nat)
      by (apply band_below; lia).
    assert (H1 : read_only st st1
                 /\ (forall i, band_dirty st1 i = d i)
                 /\ length (m_pabyCachedTiles st1) = length (m_pabyCachedTiles st)
                 /\ (forall j, (d x = false ->
                                ~ (band_off cfg dest x <= j < band_off cfg dest x + B)%nat) ->
                       m_pabyCachedTiles st1 !! j = m_pabyCachedTiles st !! j)
                 /\ (forall j, d x = false ->
                       (band_off cfg dest x <= j < band_off cfg dest x + B)%nat ->
                       m_pabyCachedTiles st1 !! j
                       = m_pabyCachedTiles st !! (j - dest + temp)%nat)).
    { subst st1. rewrite (Hd x). destruct (d x) eqn:Hdx.
      - split; [apply read_only_refl|]. split; [exact Hd|]. split; [done|].
        split; [done|]. intros j ?; discriminate.
      - split; [unfold read_only, updates_log; simpl; by repeat split|]. split; [exact Hd|]. simpl.
        split; [apply memcpy_length|]. split.
        + intros j Hj. apply memcpy_lookup_out. specialize (Hj eq_refl).
          fold B. lia.
        + intros j _ Hj. unfold band_off in *. fold B in Hj |- *.
          rewrite memcpy_lookup_in.
          * rewrite buf_slice_lookup by lia. f_equal. lia.
          * rewrite buf_slice_length; [done|]. fold B. lia.
          * fold B. lia.
          * fold B. lia. }
    destruct H1 as (Hr1 & Hd1 & Hlen1 & Hout1 & Hin1).
    destruct (IH st1) as (Hr & Hlen' & Hout & Hin).
    { intros i Hi. apply Hl. by right. }
    { exact Hdt. }
    { by rewrite Hlen1. }
    { exact Hd1. }
    split; [eapply read_only_trans; eassumption|].
    split; [by rewrite Hlen', Hlen1|]. split.
    + intros j Hj. rewrite Hout.
      * apply Hout1. intros Hdx. apply Hj; [by left | done].
      * intros i Hi Hdi. apply Hj; [by right | done].
    + intros i j Hi Hdi Hj.
      assert (Hib : 0 <= i < nBands cfg) by (by apply Hl).
      assert (Hibb : (Z.to_nat i * B + B <= Z.to_nat (nBands cfg) * B)%nat)
        by (apply band_below; lia).
      assert (Hsrc : m_pabyCachedTiles st1 !! (j - dest + temp)%nat
                     = m_pabyCachedTiles st !! (j - dest + temp)%nat).
      { apply Hout1. intros _. unfold band_off in *. fold B in Hj |- *. lia. }
      destruct (decide (i ∈ l)) as [Hil|Hil].
      * rewrite (Hin i j Hil Hdi Hj). exact Hsrc.
      * apply elem_of_cons in Hi as [->|Hi]; [|contradiction].
        rewrite Hout; [by apply Hin1|].
        intros i' Hi' Hdi'.
        assert (0 <= i' < nBands cfg) by (apply Hl; by right).
        unfold band_off in *. apply (bands_apart (Z.to_nat x)); [|exact Hj].
        intros Heq. apply Hil. assert (x = i') as -> by lia. exact Hi'.
Qed.


Lemma nCacheTileBands_pos : 0 < nCacheTileBands cfg.
Proof. unfold nCacheTileBands. destruct (decide _); lia. Qed.

Lemma cached_tile_eq k : 0 <= k -> cached_tile cfg k = (Z.to_nat k * T)%nat.
Proof.
  intros Hk. unfold cached_tile, T, cache_tile_samples.
  pose proof nCacheTileBands_pos. rewrite Z2Nat.inj_mul by lia. lia.
Qed.

Lemma band_dirty_read st st' i : read_only st st' -> band_dirty st' i = band_dirty st i.
Proof. intros (_&_&_&_&_&Hd&_). unfold band_dirty. by rewrite Hd. Qed.

(** The tile at [temp], read by [ReadTileAt], merged into the tile at
    [dest < temp]: what [ReadTile (nRow, nCol)] and [WriteTileInternal] do
    when some bands of the destination are dirty. *)
Lemma read_and_merge nRow_ nCol_ (kd kt : Z) st ok l st2 :
  0 <= nBands cfg <= nCacheTileBands cfg ->
  0 <= kd < kt ->
  (cached_tile cfg kt + T <= length (m_pabyCachedTiles st))%nat ->
  ReadTileAt host cfg nRow_ nCol_ (cached_tile cfg kt) st = (ok, l, st2) ->
  let dest := cached_tile cfg kd in
  let temp := cached_tile cfg kt in
  let st' :=
    foldl (fun st i =>
             if band_dirty st i then st
             else set_m_pabyCachedTiles
                    (memcpy (m_pabyCachedTiles st) (band_off cfg dest i)
                       (buf_slice (m_pabyCachedTiles st) (band_off cfg temp i)
                          (nBlockPixels cfg))
                       (nBlockPixels cfg)) st) st2 (seqZ 0 (nBands cfg)) in
  read_only st st'
  /\ within dest T (m_pabyCachedTiles st2) (m_pabyCachedTiles st')
  /\ (forall i, 0 <= i < nBands cfg -> band_dirty st i = true ->
        buf_slice (m_pabyCachedTiles st') (band_off cfg dest i) B
        = buf_slice (m_pabyCachedTiles st) (band_off cfg dest i) B)
  /\ (forall i, 0 <= i < nBands cfg -> band_dirty st i = false ->
        buf_slice (m_pabyCachedTiles st') (band_off cfg dest i) B
        = buf_slice (m_pabyCachedTiles st2) (band_off cfg temp i) B).
Proof.
  intros Hbands Hk Hlen E dest temp. cbv zeta.
  pose proof (ReadTileAt_read host cfg _ _ _ _ _ _ _ E) as Hr.
  pose proof (ReadTileAt_within host cfg Hbands nRow_ nCol_ temp st) as [Hl2 Hw].
  unfold temp in Hl2, Hw. rewrite E in Hl2, Hw. simpl in Hl2, Hw. fold temp T in Hw.
  pose proof (bands_fit cfg Hbands) as Hfit. fold B T in Hfit.
  assert (Hdt : (dest + T <= temp)%nat).
  { unfold dest, temp. rewrite !cached_tile_eq by lia.
    assert (S (Z.to_nat kd) * T <= Z.to_nat kt * T)%nat
      by (apply Nat.mul_le_mono_r; lia). simpl in *. lia. }
  destruct (merge_bands_spec dest temp (band_dirty st) (seqZ 0 (nBands cfg)) st2)
    as (Hr' & Hlen' & Hout & Hin).
  { intros i Hi. apply elem_of_seqZ in Hi. lia. }
  { fold B. lia. }
  { rewrite Hl2. fold B. unfold temp. lia. }
  { intros i. by apply band_dirty_read. }
  assert (Hband : forall i, 0 <= i < nBands cfg ->
            (Z.to_nat i * B + B <= Z.to_nat (nBands cfg) * B)%nat).
  { intros i Hi. apply band_below. lia. }
  split; [eapply read_only_trans; eassumption|]. split; [|split].
  - split; [exact Hlen'|]. intros j Hj. apply Hout. intros i Hi _.
    apply elem_of_seqZ in Hi. specialize (Hband i ltac:(lia)).
    unfold band_off. fold B. lia.
  - intros i Hi Hd. apply buf_slice_ext. intros j Hj.
    rewrite Hout.
    + apply Hw. specialize (Hband i Hi). unfold band_off in Hj. fold B in Hj. lia.
    + intros i' Hi' Hd'. apply elem_of_seqZ in Hi'.
      unfold band_off in *. fold B in Hj |- *.
      apply (bands_apart (Z.to_nat i)); [|lia].
      intros Heq. assert (i = i') as -> by lia. congruence.
  - intros i Hi Hd. apply list_eq. intros k.
    destruct (decide (k < B)%nat) as [Hk'|Hk'].
    + rewrite !buf_slice_lookup by done.
      rewrite (Hin i); [| apply elem_of_seqZ; lia | exact Hd | lia].
      f_equal. unfold band_off. lia.
    + unfold buf_slice. by rewrite !lookup_take_ge by lia.
Qed.

(** X17: [ReadTile (nRow, nCol)] of a dataset that is not shifted returns the
    third cached tile or, where the tile cannot be fetched and no band is
    dirty, a null pointer.  It leaves the first two cached tiles and the
    samples of the dirty bands of the third as they are (it does not override
    what was written and not yet flushed); when some band is dirty it fetches
    the tile into the fourth cached tile and, the tile fetched, the bands of
    the third that are not dirty are those of the tile fetched. *)
Theorem ReadTile_keeps_dirty_bands nRow_ nCol_ st :
  shifted cfg = false ->
  0 <= nBands cfg <= nCacheTileBands cfg ->
  (4 * cache_tile_samples cfg <= length (m_pabyCachedTiles st))%nat ->
  let dest := cached_tile cfg 2 in
  let fetched := ReadTileAt host cfg nRow_ nCol_ (cached_tile cfg 3) st in
  exists p st', ReadTileCached host cfg nRow_ nCol_ st = Some (p, st')
    /\ (p = Some dest \/ p = None /\ bAllNonDirty cfg st = true)
    /\ read_only st st'
    /\ (forall j, (j < dest)%nat ->
          m_pabyCachedTiles st' !! j = m_pabyCachedTiles st !! j)
    /\ (forall i, 0 <= i < nBands cfg -> band_dirty st i = true ->
          buf_slice (m_pabyCachedTiles st') (band_off cfg dest i) (nBlockPixels cfg)
          = buf_slice (m_pabyCachedTiles st) (band_off cfg dest i) (nBlockPixels cfg))
    /\ (bAllNonDirty cfg st = false -> fetched.1.1 = true ->
        forall i, 0 <= i < nBands cfg -> band_dirty st i = false ->
          buf_slice (m_pabyCachedTiles st') (band_off cfg dest i) (nBlockPixels cfg)
          = buf_slice (m_pabyCachedTiles fetched.2)
              (band_off cfg (cached_tile cfg 3) i) (nBlockPixels cfg)).
Proof.
  intros Hs Hbands Hlen dest fetched. unfold ReadTileCached. rewrite Hs.
  fold T in Hlen. fold B.
  assert (Hd2 : dest = (2 * T)%nat) by (unfold dest; by rewrite cached_tile_eq).
  assert (Hd3 : cached_tile cfg 3 = (3 * T)%nat) by (by rewrite cached_tile_eq).
  destruct (bAllNonDirty cfg st) eqn:Hnd.
  - fold dest.
    destruct (ReadTileAt host cfg nRow_ nCol_ dest st) as [[ok l] st2] eqn:E.
    pose proof (ReadTileAt_read host cfg _ _ _ _ _ _ _ E) as Hr.
    pose proof (ReadTileAt_within host cfg Hbands nRow_ nCol_ dest st) as [Hl2 Hw].
    rewrite E in Hl2, Hw. simpl in Hl2, Hw.
    eexists _, st2. split; [reflexivity|].
    split; [destruct ok; [by left | by right]|].
    split; [exact Hr|]. split; [intros j Hj; apply Hw; lia|].
    split; [|discriminate].
    intros i Hi Hd. exfalso. unfold bAllNonDirty in Hnd.
    rewrite forallb_forall in Hnd.
    specialize (Hnd i). rewrite Hd in Hnd. simpl in Hnd.
    assert (false = true); [|discriminate]. apply Hnd.
    apply list_elem_of_In, elem_of_seqZ. lia.
  - subst fetched. fold dest.
    destruct (ReadTileAt host cfg nRow_ nCol_ (cached_tile cfg 3) st)
      as [[ok l] st2] eqn:E.
    pose proof (ReadTileAt_read host cfg _ _ _ _ _ _ _ E) as Hr.
    pose proof (ReadTileAt_within host cfg Hbands nRow_ nCol_ (cached_tile cfg 3) st)
      as [Hl2 Hw].
    rewrite E in Hl2, Hw. simpl in Hl2, Hw. fold T in Hw.
    pose proof (bands_fit cfg Hbands) as Hfit. fold B T in Hfit.
    destruct ok.
    + destruct (read_and_merge nRow_ nCol_ 2 3 st true l st2 Hbands)
        as (Hr' & [Hl' Hw'] & Hdirty & Hclean); [lia | rewrite Hd3; lia | exact E |].
      fold dest in Hr', Hl', Hw', Hdirty, Hclean.
      eexists _, _. split; [reflexivity|]. split; [by left|].
      split; [exact Hr'|].
      split; [intros j Hj; rewrite Hw' by lia; apply Hw; lia|].
      split; [exact Hdirty|]. intros _ _. exact Hclean.
    + eexists _, st2. split; [reflexivity|]. split; [by left|].
      split; [exact Hr|]. split; [intros j Hj; apply Hw; lia|].
      split; [|simpl; discriminate].
      intros i Hi Hd. apply buf_slice_ext. intros j Hj. apply Hw.
      assert (Z.to_nat i * B + B <= Z.to_nat (nBands cfg) * B)%nat
        by (apply band_below; lia).
      unfold band_off in Hj. fold B in Hj. lia.
Qed.



Lemma free_place_pair i c :
  places_distinct c -> 0 <= i <= 3 ->
  nIdxWithinTileData (desc_at c i) < 0 ->
  places_distinct (set_nIdxWithinTileData i (free_place i c) c)
  /\ 0 <= free_place i c <= 3
  /\ nIdxWithinTileData (desc_at (set_nIdxWithinTileData i (free_place i c) c) i)
     = free_place i c.
Proof.
  intros [(Ha0 & Ha1 & Ha) (Hb0 & Hb1 & Hb)] Hi Hneg.
  assert (Hcases : i = 0 \/ i = 1 \/ i = 2 \/ i = 3) by lia.
  destruct Hcases as [-> | [-> | [-> | ->]]]; simpl in *;
    unfold places_distinct, place_pair; simpl;
    repeat match goal with
           | |- context [?a =? ?b] => destruct (Z.eqb_spec a b)
           end; repeat split; lia.
Qed.

Lemma set_place_same_tiles i idx c : same_tiles c (set_nIdxWithinTileData i idx c).
Proof.
  intros j. unfold set_nIdxWithinTileData, desc_at.
  repeat case_match; by simplify_eq.
Qed.

Lemma set_place_others i idx c j :
  0 <= i <= 3 -> 0 <= j <= 3 -> j <> i ->
  nIdxWithinTileData (desc_at (set_nIdxWithinTileData i idx c) j)
  = nIdxWithinTileData (desc_at c j).
Proof.
  intros Hi Hj Hne.
  assert (Hcases : j = 0 \/ j = 1 \/ j = 2 \/ j = 3) by lia.
  assert (Hcases' : i = 0 \/ i = 1 \/ i = 2 \/ i = 3) by lia.
  destruct Hcases as [-> | [-> | [-> | ->]]];
    destruct Hcases' as [-> | [-> | [-> | ->]]]; simpl; try done; lia.
Qed.

(** The descriptor that the loop of [ReadTile (nRow, nCol)] finds. *)
Lemma find_descriptor nRow_ nCol_ c :
  match List.find (fun i => (nRow (desc_at c i) =? nRow_)
                            && (nCol (desc_at c i) =? nCol_)) [0; 1; 2; 3] with
  | Some i => 0 <= i <= 3 /\ nRow (desc_at c i) = nRow_ /\ nCol (desc_at c i) = nCol_
  | None => forall i, 0 <= i <= 3 ->
              ~ (nRow (desc_at c i) = nRow_ /\ nCol (desc_at c i) = nCol_)
  end.
Proof.
  destruct (List.find _ _) as [i|] eqn:E.
  - apply find_some in E as [Hin E]. apply andb_prop in E as [E1 E2].
    apply Z.eqb_eq in E1, E2. simpl in Hin. intuition lia.
  - intros i Hi [H1 H2].
    pose proof (find_none _ _ E i) as Hn. simpl in Hn.
    rewrite H1, H2, !Z.eqb_refl in Hn.
    assert (true && true = false); [|discriminate]. apply Hn.
    simpl. lia.
Qed.




End Cache.

(** ** The band accessors *)

Lemma SFeqb_refl (y : SpecFloat.spec_float) :
  y <> SpecFloat.S754_nan -> SpecFloat.SFeqb y y = true.
Proof.
  intros Hn. unfold SpecFloat.SFeqb.
  destruct y as [s|s| |s m e]; simpl; try done.
  - by destruct s.
  - destruct s; rewrite Z.compare_refl; fold (Pos.compare m m);
      by rewrite Pos.compare_refl.
Qed.

Lemma SFleb_not_nan (x y : SpecFloat.spec_float) :
  SpecFloat.SFleb x y = true -> y <> SpecFloat.S754_nan.
Proof.
  intros H ->. unfold SpecFloat.SFleb in H. by destruct x as [s|s| |s m e].
Qed.

Lemma float_leb_eqb_refl (x y : float) : (x <=? y)%float = true -> (y =? y)%float = true.
Proof.
  rewrite FloatAxioms.leb_spec, FloatAxioms.eqb_spec. intros H.
  apply SFeqb_refl. by apply SFleb_not_nan in H.
Qed.

Section Accessors.

Variable host : Host.
Variable cfg : Config.
Variables GCI_Undefined GCI_GrayIndex GCI_PaletteIndex GCI_RedBand GCI_AlphaBand : Z.

(** X8: A band accepts the colour interpretation it reports:
    [SetColorInterpretation] of the value of [GetColorInterpretation]
    returns [CE_None] and leaves the state as it is. *)
Theorem band_accepts_its_colour_interpretation nBand st :
  1 <= nBand <= nBands cfg ->
  let r := GetColorInterpretation host cfg GCI_Undefined GCI_GrayIndex
             GCI_PaletteIndex GCI_RedBand GCI_AlphaBand nBand st in
  SetColorInterpretation cfg GCI_Undefined GCI_GrayIndex GCI_PaletteIndex
    GCI_RedBand GCI_AlphaBand nBand r.1 r.2
  = (CE_Of CE_None, r.2).
Proof.
  intros Hb. cbv zeta. unfold GetColorInterpretation, SetColorInterpretation.
  destruct (bool_decide (m_eDT cfg = GDT_Byte)); simpl negb; cbv iota;
    [|by rewrite Z.eqb_refl].
  destruct (Z.eqb_spec (nBands cfg) 1) as [H1|H1].
  - destruct (GetColorTable host cfg st) as [[ct|] st1]; simpl;
      rewrite Z.eqb_refl, ?orb_true_r; simpl; by destruct (_ =? _).
  - destruct (Z.eqb_spec (nBands cfg) 2) as [H2|H2]; simpl.
    + destruct (Z.eqb_spec nBand 1) as [Hn|Hn]; simpl.
      * rewrite Z.eqb_refl. simpl. by destruct (_ =? _).
      * assert (Hn2 : nBand = 2) by lia. rewrite Hn2. simpl.
        rewrite Z.eqb_refl, ?orb_true_r. by destruct (_ =? _).
    + destruct (Z.leb_spec 3 (nBands cfg)); [|lia]. simpl.
      replace (GCI_RedBand + nBand - 1) with (GCI_RedBand + (nBand - 1)) by lia.
      rewrite Z.eqb_refl. by destruct (_ =? _).
Qed.

Lemma GetColorTable_query_tried s row st :
  m_bTriedEstablishingCT (GetColorTable_query host s row st).2
  = m_bTriedEstablishingCT st.
Proof.
  unfold GetColorTable_query, exec. repeat (case_match; simplify_eq); reflexivity.
Qed.

Lemma GetColorTable_tried st :
  nBands cfg = 1 -> m_bTriedEstablishingCT (GetColorTable host cfg st).2 = true.
Proof.
  intros H1. unfold GetColorTable. rewrite H1. simpl.
  destruct (m_bTriedEstablishingCT st) eqn:Ht; [done|]. cbv zeta.
  match goal with
  | |- context [GetColorTable_query host ?s ?r ?x] =>
      pose proof (GetColorTable_query_tried s r x) as Hq;
      destruct (GetColorTable_query host s r x) as [b st1]
  end.
  simpl in Hq. destruct b; [|done].
  match goal with
  | |- context [GetColorTable_query host ?s ?r ?x] =>
      pose proof (GetColorTable_query_tried s r x) as Hq2;
      destruct (GetColorTable_query host s r x) as [b2 st2]
  end.
  simpl in *. congruence.
Qed.

(** X6: The colour table can be set once, on a new dataset, before it is read:
    after a [SetColorTable] that succeeds, [GetColorTable] returns the table
    set, without a query, and another [SetColorTable] fails. *)
Theorem SetColorTable_then_GetColorTable m_bNew poCT st st' :
  SetColorTable cfg m_bNew poCT st = (CE_None, st') ->
  GetColorTable host cfg st' = (poCT, st')
  /\ sql_log st' = sql_log st
  /\ forall b poCT2, (SetColorTable cfg b poCT2 st').1 = CE_Failure.
Proof.
  unfold SetColorTable.
  destruct (bool_decide (m_eDT cfg = GDT_Byte)) eqn:Hb; simpl negb; cbv iota;
    [|discriminate].
  destruct (Z.eqb_spec (nBands cfg) 1) as [H1|H1]; simpl; [|discriminate].
  destruct (negb m_bNew || m_bTriedEstablishingCT st); [discriminate|].
  intros [= <-]. split; [|split; [done|]].
  - unfold GetColorTable. rewrite H1. by simpl.
  - intros b poCT2. simpl. by rewrite orb_true_r.
Qed.

(** X7: Once [GetColorTable] has been called, [SetColorTable] fails: the call
    has established the colour table of a dataset of one band, and the others
    have none. *)
Theorem SetColorTable_after_GetColorTable m_bNew poCT st :
  (SetColorTable cfg m_bNew poCT (GetColorTable host cfg st).2).1 = CE_Failure.
Proof.
  unfold SetColorTable.
  destruct (bool_decide (m_eDT cfg = GDT_Byte)); simpl negb; cbv iota; [|done].
  destruct (Z.eqb_spec (nBands cfg) 1) as [H1|H1]; simpl; [|done].
  rewrite (GetColorTable_tried st H1). by rewrite orb_true_r.
Qed.

End Accessors.

Section NoDataValue.

Variable cfg : Config.
Variable PamGetNoDataValue : Z -> float * bool.

Lemma band_at_set_same nBand v s :
  1 <= nBand <= Z.of_nat (length (rb_bands s)) ->
  band_at (SetNoDataValueInternal nBand v s) nBand
  = {| m_bHasNoData := true; m_dfNoDataValue := v |}.
Proof.
  intros H. unfold band_at, SetNoDataValueInternal. simpl.
  apply nth_lookup_Some with (d := {| m_bHasNoData := false; m_dfNoDataValue := 0 |}).
  apply list_lookup_insert_eq. lia.
Qed.

Lemma band_at_set_other nBand v s i :
  1 <= nBand -> 1 <= i -> i <> nBand ->
  band_at (SetNoDataValueInternal nBand v s) i = band_at s i.
Proof.
  intros H1 H2 Hne. unfold band_at, SetNoDataValueInternal. simpl.
  rewrite !nth_lookup. by rewrite list_lookup_insert_ne by lia.
Qed.

(** X20: [SetNoDataValue] of a band of type Byte.  When it succeeds the value is
    an integer of 0..255, the band reports it, every band of the dataset
    that reports a no-data value reports one equal to it, and the metadata
    are marked dirty.  When it fails no band is changed. *)
Theorem SetNoDataValue_of_Byte_bands_agree fault nBand v s :
  m_eDT cfg = GDT_Byte ->
  1 <= nBand <= nBands cfg ->
  nBands cfg <= Z.of_nat (length (rb_bands s)) ->
  match SetNoDataValue cfg PamGetNoDataValue fault nBand v s with
  | (CE_None, s') =>
      ((0 <=? v)%float && (v <=? 255)%float && is_integral v = true)
      /\ GetNoDataValue PamGetNoDataValue s' nBand = (v, true)
      /\ (forall i, 1 <= i <= nBands cfg ->
            (GetNoDataValue PamGetNoDataValue s' i).2 = true ->
            ((GetNoDataValue PamGetNoDataValue s' i).1 =? v)%float = true)
      /\ m_bMetadataDirty s' = true
  | (CE_Failure, s') =>
      rb_bands s' = rb_bands s /\ m_bMetadataDirty s' = m_bMetadataDirty s
      /\ rb_usGPKGNull s' = rb_usGPKGNull s
  end.
Proof.
  intros Hb Hn Hlen. unfold SetNoDataValue.
  rewrite bool_decide_eq_true_2 by done.
  destruct ((0 <=? v)%float && (v <=? 255)%float && is_integral v) eqn:Hv;
    simpl negb; cbv iota; [|done].
  destruct (existsb _ _) eqn:Hex; [done|].
  cbv zeta. split; [done|].
  assert (Hself : GetNoDataValue PamGetNoDataValue
            {| rb_bands := rb_bands (SetNoDataValueInternal nBand v s);
               rb_usGPKGNull := rb_usGPKGNull (SetNoDataValueInternal nBand v s);
               m_bMetadataDirty := true;
               rb_errors := rb_errors (SetNoDataValueInternal nBand v s) |} nBand
            = (v, true)).
  { unfold GetNoDataValue.
    change (band_at _ nBand) with (band_at (SetNoDataValueInternal nBand v s) nBand).
    rewrite band_at_set_same by lia. done. }
  split; [exact Hself|]. split; [|done].
  intros i Hi Hhas.
  apply andb_prop in Hv as [Hv _]. apply andb_prop in Hv as [Hv0 _].
  destruct (decide (i = nBand)) as [->|Hne].
  - rewrite Hself. simpl. by apply float_leb_eqb_refl in Hv0.
  - assert (Hsame : GetNoDataValue PamGetNoDataValue
              {| rb_bands := rb_bands (SetNoDataValueInternal nBand v s);
                 rb_usGPKGNull := rb_usGPKGNull (SetNoDataValueInternal nBand v s);
                 m_bMetadataDirty := true;
                 rb_errors := rb_errors (SetNoDataValueInternal nBand v s) |} i
              = GetNoDataValue PamGetNoDataValue s i).
    { unfold GetNoDataValue.
      change (band_at _ i) with (band_at (SetNoDataValueInternal nBand v s) i) at 1 2.
      by rewrite band_at_set_other by lia. }
    rewrite Hsame in Hhas |- *.
    rewrite <- not_true_iff_false, existsb_exists in Hex.
    destruct ((GetNoDataValue PamGetNoDataValue s i).1 =? v)%float eqn:He; [done|].
    exfalso. apply Hex. exists i. split.
    + apply list_elem_of_In, elem_of_seqZ. lia.
    + rewrite Hhas, He. simpl. destruct (Z.eqb_spec i nBand); [contradiction|done].
Qed.

(** X21: [SetNoDataValue] of a band that is not of type Byte records the value in
    the band, and for the format of 16 bits sets a [m_usGPKGNull] of 16 bits
    when the UPDATE could be prepared; but the value it returns is
    [CE_Failure], whatever the statement does, as it expects [SQLITE_OK] of
    [sqlite3_step], which answers [SQLITE_DONE] when the statement has run. *)
Theorem SetNoDataValue_of_gridded_band fault nBand v s :
  m_eDT cfg <> GDT_Byte ->
  1 <= nBand <= Z.of_nat (length (rb_bands s)) ->
  let r := SetNoDataValue cfg PamGetNoDataValue fault nBand v s in
  r.1 = CE_Failure
  /\ GetNoDataValue PamGetNoDataValue r.2 nBand = (v, true)
  /\ (forall i, 1 <= i -> i <> nBand -> band_at r.2 i = band_at s i)
  /\ (fault <> PrepareError -> m_eTF cfg = GPKG_TF_PNG_16BIT ->
      0 <= rb_usGPKGNull r.2 < 65536)
  /\ (fault = PrepareError \/ m_eTF cfg <> GPKG_TF_PNG_16BIT ->
      rb_usGPKGNull r.2 = rb_usGPKGNull s).
Proof.
  intros Hb Hn. cbv zeta. unfold SetNoDataValue.
  rewrite bool_decide_eq_false_2 by done. cbv zeta.
  set (s0 := if PrimFloat.is_nan v then _ else s).
  assert (Hs0 : rb_bands s0 = rb_bands s /\ rb_usGPKGNull s0 = rb_usGPKGNull s)
    by (subst s0; by destruct (PrimFloat.is_nan v)).
  destruct Hs0 as [Hbands0 Hnull0].
  assert (Hat : forall i, band_at s0 i = band_at s i)
    by (intros i; unfold band_at; by rewrite Hbands0).
  assert (Hlen0 : 1 <= nBand <= Z.of_nat (length (rb_bands s0))) by (by rewrite Hbands0).
  pose proof (band_at_set_same nBand v s0 Hlen0) as Hself.
  assert (Hother : forall i, 1 <= i -> i <> nBand ->
            band_at (SetNoDataValueInternal nBand v s0) i = band_at s i).
  { intros i Hi Hne. rewrite band_at_set_other by lia. apply Hat. }
  clearbody s0.
  destruct fault; simpl prepare_rc; simpl step_rc;
    (destruct (decide _) as [Hrc|Hrc]; [|try done]); try discriminate Hrc.
  all: try (destruct (bool_decide (m_eTF cfg = GPKG_TF_PNG_16BIT)) eqn:Htf;
            [apply bool_decide_eq_true in Htf | apply bool_decide_eq_false in Htf]).
  all: simpl; (split; [done|]).
  all: unfold GetNoDataValue; unfold band_at in *; simpl in *;
    rewrite ?Hself; (split; [done|]); (split; [exact Hother|]).
  all: split; [intros Hf Ht; try contradiction; try done
              | intros [Hf|Ht]; try discriminate; try contradiction; try done].
  all: try (destruct (_ && _); [apply static_cast_GUInt16_range | lia]).
Qed.

End NoDataValue.

(** ** Writing a tile and reading it again *)

Section RoundTrip.

Variable host : Host.
Variable cfg : Config.

Hypothesis no_fault : forall l s, sqlite_fault host l s = NoFault.
Hypothesis codec : lossless_png host.
Hypothesis no_filter : forall k r, m_osWHERE host k r = true.
Hypothesis HDT : m_eDT cfg = GDT_Byte.
Hypothesis HTF : m_eTF cfg = GPKG_TF_PNG.
Hypothesis H3 : nBands cfg = 3.

Let B := nBlockPixels cfg.

(** The bands of the first cached tile. *)
Let rgb (st : State) : list (list Z) :=
  map (fun i => buf_slice (m_pabyCachedTiles st) (band_off cfg 0 i) (nBlockPixels cfg))
    [0; 1; 2].

Lemma detect_empty_rgb st :
  m_poCT st = None ->
  detect_empty host cfg true st
  = if (negb (bHasNoData cfg) || (dfNoDataValue cfg =? 0)%float)
       && forallb (fun v => v =? 0)
            (buf_slice (m_pabyCachedTiles st) 0 (nBlockPixels cfg * 3))
    then TileIsEmpty else TileKept true.
Proof.
  intros Hct. unfold detect_empty, nAlphaBand. rewrite H3, HDT, Hct. simpl.
  destruct (negb (bHasNoData cfg) || (dfNoDataValue cfg =? 0)%float); simpl; [|done].
  by destruct (forallb _ _).
Qed.

Lemma encode_and_store_rgb r c st :
  m_poCT st = None ->
  0 <= m_nTileInsertionCount st < 1000 ->
  bPartialTile (validity cfg (tile_nXOff cfg c) (tile_nYOff cfg r)) = false ->
  exists blob st1,
    encode_and_store host cfg r c true true
      (validity cfg (tile_nXOff cfg c) (tile_nYOff cfg r)) st = (CE_None, st1)
    /\ CreateCopy host DRV_PNG [OPT_INTERNAL_DATASET; OPT_ZLEVEL (m_nZLevel cfg)]
         {| mem_XSize := nBlockXSize cfg; mem_YSize := nBlockYSize cfg;
            mem_DataType := GDT_Byte; mem_Bands := rgb st;
            mem_ColorTable := None |} = Some blob
    /\ (exists id, tiles (hDB st1) !! tile_key host cfg r c
                   = Some {| tile_id := id; tile_data := Some blob |})
    /\ m_poCT st1 = None
    /\ m_pabyCachedTiles st1 = m_pabyCachedTiles st
    /\ m_hTempDB st1 = m_hTempDB st
    /\ m_nLastSpaceCheckTimestamp st1 = m_nLastSpaceCheckTimestamp st.
Proof.
  intros Hct Hcount Hv. destruct codec as [Hdrv Hcodec].
  destruct (Hcodec [OPT_INTERNAL_DATASET; OPT_ZLEVEL (m_nZLevel cfg)]
              {| mem_XSize := nBlockXSize cfg; mem_YSize := nBlockYSize cfg;
                 mem_DataType := GDT_Byte; mem_Bands := rgb st;
                 mem_ColorTable := None |} eq_refl) as (blob & Hcopy & _).
  exists blob.
  unfold encode_and_store. rewrite H3, Hv. simpl.
  unfold choose_driver. rewrite HTF, Hct. simpl.
  rewrite Hdrv. simpl.
  unfold choose_nTileBands. rewrite H3, HTF. simpl.
  unfold build_bands. rewrite HTF. simpl.
  unfold quantized_format. rewrite HTF. simpl.
  unfold finish_pixels. rewrite HTF, Hct, H3. simpl.
  unfold byte_band_iSrc. rewrite H3. simpl.
  unfold driver_options. simpl.
  match goal with
  | |- context [CreateCopy host DRV_PNG ?o ?m] =>
      change (CreateCopy host DRV_PNG o m) with
        (CreateCopy host DRV_PNG [OPT_INTERNAL_DATASET; OPT_ZLEVEL (m_nZLevel cfg)]
           {| mem_XSize := nBlockXSize cfg; mem_YSize := nBlockYSize cfg;
              mem_DataType := GDT_Byte; mem_Bands := rgb st;
              mem_ColorTable := None |})
  end.
  rewrite Hcopy.
  unfold store_tile, quantized_format. rewrite HTF.
  assert (Hbc : exists st0, begin_or_commit host st = (true, st0)
                  /\ hDB st0 = hDB st /\ m_poCT st0 = m_poCT st
                  /\ m_pabyCachedTiles st0 = m_pabyCachedTiles st
                  /\ m_hTempDB st0 = m_hTempDB st
                  /\ m_nLastSpaceCheckTimestamp st0 = m_nLastSpaceCheckTimestamp st).
  { unfold begin_or_commit.
    destruct (Z.eqb_spec (m_nTileInsertionCount st) 0); [by eexists|].
    destruct (Z.eqb_spec (m_nTileInsertionCount st) 1000); [lia|]. by eexists. }
  destruct Hbc as (st0 & -> & Hdb & Hct0 & Hpx & Htmp0 & Hts0). simpl.
  unfold insert_tile, exec. simpl. rewrite no_fault. simpl.
  eexists. split; [reflexivity|]. split; [reflexivity|]. simpl.
  split; [eexists; apply lookup_insert_eq|]. by rewrite Hct0, Hpx, Htmp0, Hts0.
Qed.

Lemma rgb_concat st :
  concat (rgb st) = buf_slice (m_pabyCachedTiles st) 0 (3 * B).
Proof.
  unfold rgb, buf_slice, band_off. simpl. rewrite app_nil_r, !Nat.add_0_r. fold B.
  rewrite drop_0.
  replace (3 * B)%nat with (B + (B + B))%nat by lia.
  rewrite <- !take_take_drop, drop_drop. reflexivity.
Qed.

Lemma read_stored_rgb r c p st bands blob id :
  0 <= r < m_nTileMatrixHeight cfg -> 0 <= c < m_nTileMatrixWidth cfg ->
  m_poCT st = None ->
  tiles (hDB st) !! tile_key host cfg r c
    = Some {| tile_id := id; tile_data := Some blob |} ->
  CreateCopy host DRV_PNG [OPT_INTERNAL_DATASET; OPT_ZLEVEL (m_nZLevel cfg)]
    {| mem_XSize := nBlockXSize cfg; mem_YSize := nBlockYSize cfg;
       mem_DataType := GDT_Byte; mem_Bands := bands; mem_ColorTable := None |}
    = Some blob ->
  length bands = 3%nat -> length (concat bands) = (3 * B)%nat ->
  (p + 3 * B <= length (m_pabyCachedTiles st))%nat ->
  exists st2, ReadTileAt host cfg r c p st = (true, false, st2)
    /\ buf_slice (m_pabyCachedTiles st2) p (3 * B) = concat bands.
Proof.
  intros Hr Hc Hct Hrow Hcopy Hn Hlen Hp. destruct codec as [Hdrv Hcodec].
  destruct (Hcodec [OPT_INTERNAL_DATASET; OPT_ZLEVEL (m_nZLevel cfg)]
              {| mem_XSize := nBlockXSize cfg; mem_YSize := nBlockYSize cfg;
                 mem_DataType := GDT_Byte; mem_Bands := bands;
                 mem_ColorTable := None |} eq_refl) as (blob' & Hcopy' & Hopen).
  rewrite Hcopy in Hcopy'. injection Hcopy' as <-.
  destruct (Hopen (ReadTile_drivers cfg)) as (ds & Hds & Hx & Hy & Hcnt & Hdr & Hdct & Hio).
  { unfold ReadTile_drivers. rewrite HDT. simpl. repeat constructor. }
  simpl in Hx, Hy, Hcnt, Hio. rewrite Hn in Hcnt. simpl in Hcnt.
  unfold ReadTileAt.
  destruct (Z.ltb_spec r 0); [lia|]. destruct (Z.ltb_spec c 0); [lia|].
  destruct (Z.leb_spec (m_nTileMatrixHeight cfg) r); [lia|].
  destruct (Z.leb_spec (m_nTileMatrixWidth cfg) c); [lia|]. simpl.
  unfold exec. simpl. rewrite no_fault. unfold tile_key in Hrow. simpl in Hrow.
  simpl. rewrite Hrow, no_filter.
  unfold GetTileOffsetAndScale. rewrite HTF, HDT. simpl.
  unfold ReadTileBlob. rewrite Hds.
  assert (Hinc : inconsistent_tile cfg ds = false).
  { apply inconsistent_tile_spec. unfold tile_geometry_ok. rewrite Hx, Hy, Hcnt.
    repeat split; try lia. intros Hne. congruence. }
  rewrite Hinc.
  assert (Hreq : eRequestDT cfg = GDT_Byte) by (unfold eRequestDT; by rewrite HTF).
  rewrite Hreq, Hio, Hcnt, HDT, H3. simpl.
  rewrite Hct. unfold ReadTile_check_ct, ReadTile_expand_bands. rewrite H3. simpl.
  rewrite Hdr. simpl.
  eexists. split; [reflexivity|]. simpl.
  change (Pos.to_nat 3) with 3%nat. fold B.
  apply buf_slice_memcpy; [exact Hlen | exact Hp].
Qed.

Lemma all_zero_slice (buf : list Z) (n : nat) :
  (n <= length buf)%nat ->
  forallb (fun v => v =? 0) (buf_slice buf 0 n) = true ->
  buf_slice buf 0 n = replicate n 0.
Proof.
  intros Hlen H. rewrite forallb_forall in H.
  apply list_eq. intros i. destruct (decide (i < n)%nat) as [Hi|Hi].
  - rewrite lookup_replicate_2 by done.
    destruct (buf_slice buf 0 n !! i) as [v|] eqn:E.
    + f_equal. apply Z.eqb_eq, H, list_elem_of_In. by eapply list_elem_of_lookup_2.
    + apply lookup_ge_None in E. rewrite buf_slice_length in E by lia. lia.
  - rewrite (proj1 (lookup_replicate_None n 0 i)) by lia.
    apply lookup_ge_None. rewrite buf_slice_length by lia. lia.
Qed.

Lemma validity_inside st :
  tile_inside cfg st ->
  bPartialTile (validity cfg (tile_nXOff cfg (nCol (desc0 (m_asCachedTilesDesc st))))
                  (tile_nYOff cfg (nRow (desc0 (m_asCachedTilesDesc st))))) = false.
Proof.
  intros (_ & _ & Hx & Hy). unfold validity, nAlphaBand. rewrite H3. simpl.
  repeat match goal with
         | |- context [?a <? ?b] => destruct (Z.ltb_spec a b); [lia|]
         end.
  reflexivity.
Qed.

(** X22: A tile of three bands of type Byte, stored as PNG by a codec that loses
    nothing, with all its bands dirty, inside the raster, in a dataset
    without colour table: [WriteTileInternal] succeeds and [ReadTile] of the
    same tile then succeeds and gives back, in the three bands of its
    destination, the samples that were written.  (A tile of zeros is not
    stored when the no-data value is absent or 0: its row is deleted, and it
    reads as zeros.) *)
Theorem RGB_tile_round_trip st p :
  m_hTempDB st = None \/ shifted cfg = false ->
  slot_all_dirty cfg st -> tile_inside cfg st ->
  m_poCT st = None ->
  0 <= m_nTileInsertionCount st < 1000 ->
  (3 * nBlockPixels cfg <= length (m_pabyCachedTiles st))%nat ->
  (p + 3 * nBlockPixels cfg <= length (m_pabyCachedTiles st))%nat ->
  let d0 := desc0 (m_asCachedTilesDesc st) in
  exists st1 st2,
    WriteTileInternal host cfg st = (CE_None, st1)
    /\ ReadTileAt host cfg (nRow d0) (nCol d0) p st1 = (true, false, st2)
    /\ buf_slice (m_pabyCachedTiles st2) p (3 * nBlockPixels cfg)
       = buf_slice (m_pabyCachedTiles st) 0 (3 * nBlockPixels cfg).
Proof.
  intros Htmp Hslot Hin Hct Hcount Hlen Hp d0. fold B in Hlen, Hp |- *.
  rewrite (WriteTileInternal_all_dirty host cfg st Hslot). cbv zeta. fold d0.
  pose proof (validity_inside st Hin) as Hv. fold d0 in Hv.
  destruct Hslot as (_ & Hr0 & Hc0 & _). destruct Hin as (Hr1 & Hc1 & _).
  fold d0 in Hr0, Hc0, Hr1, Hc1.
  rewrite detect_empty_rgb by exact Hct.
  change (m_pabyCachedTiles (flushing st)) with (m_pabyCachedTiles st).
  destruct ((negb (bHasNoData cfg) || (dfNoDataValue cfg =? 0)%float)
            && forallb (fun v => v =? 0)
                 (buf_slice (m_pabyCachedTiles st) 0 (nBlockPixels cfg * 3))) eqn:He.
  - apply andb_prop in He as [Hnd Hz].
    replace (nBlockPixels cfg * 3)%nat with (3 * B)%nat in Hz by (unfold B; lia).
    set (st1 := (DeleteTile host cfg (nRow d0) (nCol d0) (flushing st)).2).
    assert (Hst1 : tiles (hDB st1) !! tile_key host cfg (nRow d0) (nCol d0) = None
                   /\ m_hTempDB st1 = m_hTempDB st
                   /\ m_pabyCachedTiles st1 = m_pabyCachedTiles st).
    { subst st1. unfold DeleteTile, exec. simpl. rewrite no_fault. simpl.
      split; [apply lookup_delete_eq | done]. }
    destruct Hst1 as (Hnone & Htmp1 & Hpx1).
    destruct (ReadTileAt_missing host cfg (nRow d0) (nCol d0) p st1)
      as (st2 & Hread & (_ & Hfill & _) & _); try lia.
    + apply no_fault.
    + exact Hnone.
    + rewrite Htmp1. exact Htmp.
    + rewrite Hpx1. unfold tile_samples. rewrite H3. exact Hp.
    + exists st1, st2. split; [reflexivity|]. split; [exact Hread|].
      unfold tile_samples in Hfill. rewrite H3 in Hfill.
      change (Z.to_nat 3) with 3%nat in Hfill. fold B in Hfill. rewrite Hfill.
      unfold fill_value. rewrite Hnd.
      symmetry. by apply all_zero_slice.
  - destruct (encode_and_store_rgb (nRow d0) (nCol d0) (flushing st))
      as (blob & st1 & Hw & Hcopy & (id & Hrow) & Hct1 & Hpx1 & _); [done..|].
    rewrite Hw.
    destruct (read_stored_rgb (nRow d0) (nCol d0) p st1 (rgb (flushing st)) blob id)
      as (st2 & Hread & Hslice); try done; try lia.
    + change (rgb (flushing st)) with (rgb st). rewrite rgb_concat.
      rewrite buf_slice_length; lia.
    + by rewrite Hpx1.
    + exists st1, st2. split; [reflexivity|]. split; [exact Hread|].
      rewrite Hslice. change (rgb (flushing st)) with (rgb st). apply rgb_concat.
Qed.

End RoundTrip.

Lemma buf_slice_app (buf : list Z) (off n m : nat) :
  buf_slice buf off (n + m) = buf_slice buf off n ++ buf_slice buf (off + n) m.
Proof. unfold buf_slice. by rewrite <- take_take_drop, drop_drop. Qed.

Section RoundTripRGBA.

Variable host : Host.
Variable cfg : Config.

Hypothesis no_fault : forall l s, sqlite_fault host l s = NoFault.
Hypothesis codec : lossless_png host.
Hypothesis no_filter : forall k r, m_osWHERE host k r = true.
Hypothesis HDT : m_eDT cfg = GDT_Byte.
Hypothesis HTF : m_eTF cfg = GPKG_TF_PNG.
Hypothesis H4 : nBands cfg = 4.

Let B := nBlockPixels cfg.

(** The first [n] bands of the first cached tile. *)
Let bands_of (n : Z) (st : State) : list (list Z) :=
  map (fun i => buf_slice (m_pabyCachedTiles st) (band_off cfg 0 i) (nBlockPixels cfg))
    (seqZ 0 n).

(** The samples of the alpha band. *)
Let alpha (st : State) : list Z :=
  buf_slice (m_pabyCachedTiles st) (band_off cfg 0 3) (nBlockPixels cfg).

Lemma alpha_constant st (v : Z) :
  (0 < B)%nat -> (4 * B <= length (m_pabyCachedTiles st))%nat ->
  forallb (fun x => x =? buf_read (m_pabyCachedTiles st) (band_off cfg 0 3))
    (drop 1 (alpha st)) = true ->
  buf_read (m_pabyCachedTiles st) (band_off cfg 0 3) = v ->
  alpha st = replicate B v.
Proof.
  intros HB Hlen Hall Hv. rewrite forallb_forall in Hall.
  assert (Hal : length (alpha st) = B).
  { unfold alpha. rewrite buf_slice_length; [done|]. unfold band_off. fold B.
    simpl. lia. }
  apply list_eq. intros i. destruct (decide (i < B)%nat) as [Hi|Hi].
  - rewrite lookup_replicate_2 by done.
    destruct (alpha st !! i) as [x|] eqn:E;
      [|apply lookup_ge_None in E; lia].
    f_equal. destruct i as [|i].
    + unfold alpha in E. rewrite buf_slice_lookup in E by done.
      rewrite Nat.add_0_r in E. unfold buf_read in Hv.
      rewrite (nth_lookup_Some _ _ _ _ E) in Hv. done.
    + rewrite <- Hv. apply Z.eqb_eq, Hall, list_elem_of_In.
      apply list_elem_of_lookup. exists i. by rewrite lookup_drop.
  - rewrite (proj1 (lookup_replicate_None B v i)) by lia.
    apply lookup_ge_None. lia.
Qed.

Lemma bands_of_concat_nat (k : nat) st :
  concat (bands_of (Z.of_nat k) st)
  = buf_slice (m_pabyCachedTiles st) 0 (k * B).
Proof.
  unfold bands_of. induction k as [|k IH].
  - simpl. unfold buf_slice. by rewrite take_0.
  - rewrite seqZ_S, map_app, concat_app, IH. simpl.
    rewrite app_nil_r. replace (B + k * B)%nat with (k * B + B)%nat by lia.
    rewrite (buf_slice_app _ 0 (k * B) B). f_equal. unfold band_off. fold B.
    rewrite Z.add_0_l, Nat2Z.id. done.
Qed.

Lemma bands_of_concat n st :
  0 <= n ->
  concat (bands_of n st) = buf_slice (m_pabyCachedTiles st) 0 (Z.to_nat n * B).
Proof.
  intros Hn. rewrite <- (bands_of_concat_nat (Z.to_nat n)). by rewrite Z2Nat.id.
Qed.

Lemma alpha_head st :
  (0 < B)%nat -> (4 * B <= length (m_pabyCachedTiles st))%nat ->
  alpha st !! 0%nat = Some (buf_read (m_pabyCachedTiles st) (band_off cfg 0 3)).
Proof.
  intros HB Hlen. unfold alpha. rewrite buf_slice_lookup by done.
  rewrite Nat.add_0_r. unfold buf_read.
  destruct (nth_lookup_or_length (m_pabyCachedTiles st) (band_off cfg 0 3) 0)
    as [H|H]; [exact H|].
  unfold band_off in H. fold B in H. simpl in H. lia.
Qed.

Lemma alpha_not_zero st :
  (0 < B)%nat -> (4 * B <= length (m_pabyCachedTiles st))%nat ->
  forallb (fun v => v =? 0) (alpha st) = true ->
  buf_read (m_pabyCachedTiles st) (band_off cfg 0 3) = 0
  /\ forallb (fun x => x =? buf_read (m_pabyCachedTiles st) (band_off cfg 0 3))
       (drop 1 (alpha st)) = true.
Proof.
  intros HB Hlen Hz. rewrite forallb_forall in Hz.
  assert (H0 : buf_read (m_pabyCachedTiles st) (band_off cfg 0 3) = 0).
  { apply Z.eqb_eq, Hz, list_elem_of_In. eapply list_elem_of_lookup_2.
    by apply alpha_head. }
  split; [exact H0|]. rewrite H0. apply forallb_forall. intros x Hx.
  apply Hz. apply list_elem_of_In. apply list_elem_of_In in Hx.
  apply list_elem_of_lookup in Hx as [i Hi]. rewrite lookup_drop in Hi.
  by eapply list_elem_of_lookup_2.
Qed.

Lemma detect_empty_rgba st :
  m_poCT st = None ->
  detect_empty host cfg true st
  = let first := buf_read (m_pabyCachedTiles st) (band_off cfg 0 3) in
    if forallb (fun v => v =? first) (drop 1 (alpha st)) then
      if first =? 0 then TileIsEmpty else TileKept (first =? 255)
    else TileKept false.
Proof.
  intros Hct. unfold detect_empty, nAlphaBand. rewrite H4, HDT, Hct. simpl.
  reflexivity.
Qed.

Lemma encode_and_store_rgba r c (allOpaque : bool) v st :
  m_poCT st = None ->
  0 <= m_nTileInsertionCount st < 1000 ->
  bPartialTile v = false ->
  let n : Z := if allOpaque then 3 else 4 in
  exists blob st1,
    encode_and_store host cfg r c true allOpaque v st = (CE_None, st1)
    /\ CreateCopy host DRV_PNG [OPT_INTERNAL_DATASET; OPT_ZLEVEL (m_nZLevel cfg)]
         {| mem_XSize := nBlockXSize cfg; mem_YSize := nBlockYSize cfg;
            mem_DataType := GDT_Byte; mem_Bands := bands_of n st;
            mem_ColorTable := None |} = Some blob
    /\ (exists id, tiles (hDB st1) !! tile_key host cfg r c
                   = Some {| tile_id := id; tile_data := Some blob |})
    /\ m_poCT st1 = None
    /\ m_pabyCachedTiles st1 = m_pabyCachedTiles st.
Proof.
  intros Hct Hcount Hv n. destruct codec as [Hdrv Hcodec].
  destruct (Hcodec [OPT_INTERNAL_DATASET; OPT_ZLEVEL (m_nZLevel cfg)]
              {| mem_XSize := nBlockXSize cfg; mem_YSize := nBlockYSize cfg;
                 mem_DataType := GDT_Byte; mem_Bands := bands_of n st;
                 mem_ColorTable := None |} eq_refl) as (blob & Hcopy & _).
  exists blob.
  assert (Hbc : exists st0, begin_or_commit host st = (true, st0)
                  /\ hDB st0 = hDB st /\ m_poCT st0 = m_poCT st
                  /\ m_pabyCachedTiles st0 = m_pabyCachedTiles st).
  { unfold begin_or_commit.
    destruct (Z.eqb_spec (m_nTileInsertionCount st) 0); [by eexists|].
    destruct (Z.eqb_spec (m_nTileInsertionCount st) 1000); [lia|]. by eexists. }
  destruct Hbc as (st0 & Hbc & Hdb & Hct0 & Hpx).
  unfold encode_and_store. rewrite H4, Hv. simpl.
  unfold choose_driver. rewrite HTF, Hct. simpl.
  rewrite Hdrv. simpl.
  unfold choose_nTileBands. rewrite H4, HTF. simpl.
  unfold build_bands. rewrite HTF. simpl.
  unfold quantized_format. rewrite HTF. simpl.
  unfold finish_pixels. rewrite HTF, Hct, H4. simpl.
  unfold byte_band_iSrc. rewrite H4. simpl.
  unfold driver_options. simpl.
  subst n. destruct allOpaque; simpl.
  all: match goal with
       | |- context [CreateCopy host DRV_PNG ?o ?m] =>
           match type of Hcopy with
           | CreateCopy host DRV_PNG ?o' ?m' = _ =>
               change (CreateCopy host DRV_PNG o m) with (CreateCopy host DRV_PNG o' m')
           end
       end.
  all: rewrite Hcopy; unfold store_tile, quantized_format; rewrite HTF, Hbc; simpl.
  all: unfold insert_tile, exec; simpl; rewrite no_fault; simpl.
  all: eexists; split; [reflexivity|]; split; [reflexivity|]; simpl.
  all: split; [eexists; apply lookup_insert_eq|]; by rewrite Hct0, Hpx.
Qed.

Lemma read_stored_rgba r c p st (n : Z) bands blob id :
  0 <= r < m_nTileMatrixHeight cfg -> 0 <= c < m_nTileMatrixWidth cfg ->
  m_poCT st = None ->
  tiles (hDB st) !! tile_key host cfg r c
    = Some {| tile_id := id; tile_data := Some blob |} ->
  CreateCopy host DRV_PNG [OPT_INTERNAL_DATASET; OPT_ZLEVEL (m_nZLevel cfg)]
    {| mem_XSize := nBlockXSize cfg; mem_YSize := nBlockYSize cfg;
       mem_DataType := GDT_Byte; mem_Bands := bands; mem_ColorTable := None |}
    = Some blob ->
  n = 3 \/ n = 4 ->
  Z.of_nat (length bands) = n -> length (concat bands) = (Z.to_nat n * B)%nat ->
  (p + 4 * B <= length (m_pabyCachedTiles st))%nat ->
  exists st2, ReadTileAt host cfg r c p st = (true, false, st2)
    /\ buf_slice (m_pabyCachedTiles st2) p (4 * B)
       = if n =? 3 then concat bands ++ replicate B 255 else concat bands.
Proof.
  intros Hr Hc Hct Hrow Hcopy Hn34 Hn Hlen Hp. destruct codec as [Hdrv Hcodec].
  destruct (Hcodec [OPT_INTERNAL_DATASET; OPT_ZLEVEL (m_nZLevel cfg)]
              {| mem_XSize := nBlockXSize cfg; mem_YSize := nBlockYSize cfg;
                 mem_DataType := GDT_Byte; mem_Bands := bands;
                 mem_ColorTable := None |} eq_refl) as (blob' & Hcopy' & Hopen).
  rewrite Hcopy in Hcopy'. injection Hcopy' as <-.
  destruct (Hopen (ReadTile_drivers cfg)) as (ds & Hds & Hx & Hy & Hcnt & Hdr & Hdct & Hio).
  { unfold ReadTile_drivers. rewrite HDT. simpl. repeat constructor. }
  simpl in Hx, Hy, Hcnt, Hio. rewrite Hn in Hcnt.
  unfold ReadTileAt.
  destruct (Z.ltb_spec r 0); [lia|]. destruct (Z.ltb_spec c 0); [lia|].
  destruct (Z.leb_spec (m_nTileMatrixHeight cfg) r); [lia|].
  destruct (Z.leb_spec (m_nTileMatrixWidth cfg) c); [lia|]. simpl.
  unfold exec. simpl. rewrite no_fault. unfold tile_key in Hrow. simpl in Hrow.
  simpl. rewrite Hrow, no_filter.
  unfold GetTileOffsetAndScale. rewrite HTF, HDT. simpl.
  unfold ReadTileBlob. rewrite Hds.
  assert (Hinc : inconsistent_tile cfg ds = false).
  { apply inconsistent_tile_spec. unfold tile_geometry_ok. rewrite Hx, Hy, Hcnt.
    repeat split; try lia. intros Hne. congruence. }
  rewrite Hinc.
  assert (Hreq : eRequestDT cfg = GDT_Byte) by (unfold eRequestDT; by rewrite HTF).
  rewrite Hreq, Hio, Hcnt, HDT, H4. simpl negb. cbv iota.
  destruct Hn34 as [-> | ->]; simpl.
  - rewrite Hct. unfold ReadTile_check_ct, ReadTile_expand_bands. rewrite H4. simpl.
    rewrite Hdr. simpl.
    eexists. split; [reflexivity|]. simpl.
    change (Pos.to_nat 3) with 3%nat in *. fold B.
    change (B + (B + (B + 0)))%nat with (3 * B)%nat.
    match goal with
    | |- buf_slice ?X p ?n = _ =>
        replace n with (3 * B + B)%nat by lia; rewrite (buf_slice_app X p (3 * B) B)
    end.
    f_equal.
    + etrans; [|apply (buf_slice_memcpy (m_pabyCachedTiles st) p (concat bands) (3 * B));
                 [exact Hlen | lia]].
      apply buf_slice_ext. intros i Hi.
      destruct (memset_filled (memcpy (m_pabyCachedTiles st) p (concat bands) (3 * B))
                  (band_off cfg p 3) 255 B) as (_ & _ & Hout).
      { rewrite memcpy_length. unfold band_off. fold B. simpl. lia. }
      apply Hout. unfold band_off. fold B. simpl. lia.
    + destruct (memset_filled (memcpy (m_pabyCachedTiles st) p (concat bands) (3 * B))
                  (band_off cfg p 3) 255 B) as (_ & Hfill & _).
      { rewrite memcpy_length. unfold band_off. fold B. simpl. lia. }
      unfold band_off in Hfill. fold B in Hfill. exact Hfill.
  - rewrite Hct. unfold ReadTile_check_ct, ReadTile_expand_bands. rewrite H4. simpl.
    rewrite Hdr. simpl.
    eexists. split; [reflexivity|]. simpl.
    change (Pos.to_nat 4) with 4%nat in *. fold B.
    change (B + (B + (B + (B + 0))))%nat with (4 * B)%nat.
    match goal with
    | |- buf_slice ?X p ?n = _ => replace n with (4 * B)%nat by lia
    end.
    apply buf_slice_memcpy; [exact Hlen | exact Hp].
Qed.

(** X23: A tile of four bands (red, green, blue, alpha) of type Byte, stored as
    PNG by a codec that loses nothing, all its bands dirty, in a dataset
    without colour table: [WriteTileInternal] succeeds and [ReadTile] of the
    same tile then succeeds.  Unless the alpha band is 0 everywhere, the four
    bands read are the samples that were written (an opaque tile is stored
    without its alpha band, which is read as 255).  A tile whose alpha band
    is 0 everywhere is not stored: it reads as the no-data value, whatever
    its colours were. *)
Theorem RGBA_tile_round_trip st p :
  m_hTempDB st = None \/ shifted cfg = false ->
  slot_all_dirty cfg st ->
  nRow (desc0 (m_asCachedTilesDesc st)) < m_nTileMatrixHeight cfg ->
  nCol (desc0 (m_asCachedTilesDesc st)) < m_nTileMatrixWidth cfg ->
  m_poCT st = None ->
  0 <= m_nTileInsertionCount st < 1000 ->
  (0 < nBlockPixels cfg)%nat ->
  (4 * nBlockPixels cfg <= length (m_pabyCachedTiles st))%nat ->
  (p + 4 * nBlockPixels cfg <= length (m_pabyCachedTiles st))%nat ->
  let d0 := desc0 (m_asCachedTilesDesc st) in
  exists st1 st2,
    WriteTileInternal host cfg st = (CE_None, st1)
    /\ ReadTileAt host cfg (nRow d0) (nCol d0) p st1 = (true, false, st2)
    /\ buf_slice (m_pabyCachedTiles st2) p (4 * nBlockPixels cfg)
       = if forallb (fun v => v =? 0)
              (buf_slice (m_pabyCachedTiles st) (band_off cfg 0 3) (nBlockPixels cfg))
         then replicate (4 * nBlockPixels cfg) (fill_value host cfg)
         else buf_slice (m_pabyCachedTiles st) 0 (4 * nBlockPixels cfg).
Proof.
  intros Htmp Hslot Hr1 Hc1 Hct Hcount HB Hlen Hp d0.
  change (buf_slice (m_pabyCachedTiles st) (band_off cfg 0 3) (nBlockPixels cfg))
    with (alpha st).
  fold B in HB, Hlen, Hp |- *.
  rewrite (WriteTileInternal_all_dirty host cfg st Hslot). cbv zeta. fold d0.
  destruct Hslot as (_ & Hr0 & Hc0 & _). fold d0 in Hr0, Hc0, Hr1, Hc1.
  rewrite detect_empty_rgba by exact Hct. cbv zeta.
  change (m_pabyCachedTiles (flushing st)) with (m_pabyCachedTiles st).
  change (alpha (flushing st)) with (alpha st).
  fold (alpha st).
  set (first := buf_read (m_pabyCachedTiles st) (band_off cfg 0 3)).
  assert (Hv : bPartialTile (validity cfg (tile_nXOff cfg (nCol d0))
                               (tile_nYOff cfg (nRow d0))) = false).
  { unfold validity, nAlphaBand. by rewrite H4. }
  assert (Hkept : forall allOpaque,
            (allOpaque = true -> alpha st = replicate B 255) ->
            forallb (fun v => v =? 0) (alpha st) = false ->
            exists st1 st2,
              encode_and_store host cfg (nRow d0) (nCol d0) true allOpaque
                (validity cfg (tile_nXOff cfg (nCol d0)) (tile_nYOff cfg (nRow d0)))
                (flushing st) = (CE_None, st1)
              /\ ReadTileAt host cfg (nRow d0) (nCol d0) p st1 = (true, false, st2)
              /\ buf_slice (m_pabyCachedTiles st2) p (4 * B)
                 = buf_slice (m_pabyCachedTiles st) 0 (4 * B)).
  { intros allOpaque Hop Hnz.
    destruct (encode_and_store_rgba (nRow d0) (nCol d0) allOpaque
                (validity cfg (tile_nXOff cfg (nCol d0)) (tile_nYOff cfg (nRow d0)))
                (flushing st))
      as (blob & st1 & Hw & Hcopy & (id & Hrow) & Hct1 & Hpx1); [done..|].
    set (n := if allOpaque then 3 else 4) in *.
    assert (Hn : n = 3 \/ n = 4) by (subst n; destruct allOpaque; auto).
    destruct (read_stored_rgba (nRow d0) (nCol d0) p st1 n (bands_of n (flushing st))
                blob id) as (st2 & Hread & Hslice); try done; try lia.
    + unfold bands_of. rewrite length_map, length_seqZ. lia.
    + rewrite bands_of_concat by lia.
      change (m_pabyCachedTiles (flushing st)) with (m_pabyCachedTiles st).
      rewrite buf_slice_length; [done|]. destruct Hn as [-> | ->]; simpl; lia.
    + by rewrite Hpx1.
    + exists st1, st2. split; [exact Hw|]. split; [exact Hread|].
      rewrite Hslice, bands_of_concat by lia.
      change (m_pabyCachedTiles (flushing st)) with (m_pabyCachedTiles st).
      subst n. destruct allOpaque.
      * change (3 =? 3) with true. cbv iota. change (Z.to_nat 3) with 3%nat.
        replace (4 * B)%nat with (3 * B + B)%nat by lia.
        rewrite (buf_slice_app _ 0 (3 * B) B). f_equal. rewrite <- (Hop eq_refl).
        unfold alpha, band_off. fold B. simpl. reflexivity.
      * change (4 =? 3) with false. cbv iota. reflexivity. }
  destruct (forallb (fun v => v =? first) (drop 1 (alpha st))) eqn:Hall.
  - destruct (Z.eqb_spec first 0) as [H0|H0].
    + pose proof (alpha_constant st 0 HB Hlen Hall H0) as Ha.
      assert (Hz : forallb (fun v => v =? 0) (alpha st) = true).
      { rewrite Ha. apply forallb_forall. intros x Hx.
        apply list_elem_of_In, elem_of_replicate in Hx as [-> _]. done. }
      rewrite Hz.
      set (st1 := (DeleteTile host cfg (nRow d0) (nCol d0) (flushing st)).2).
      assert (Hst1 : tiles (hDB st1) !! tile_key host cfg (nRow d0) (nCol d0) = None
                     /\ m_hTempDB st1 = m_hTempDB st
                     /\ m_pabyCachedTiles st1 = m_pabyCachedTiles st).
      { subst st1. unfold DeleteTile, exec. simpl. rewrite no_fault. simpl.
        split; [apply lookup_delete_eq | done]. }
      destruct Hst1 as (Hnone & Htmp1 & Hpx1).
      destruct (ReadTileAt_missing host cfg (nRow d0) (nCol d0) p st1)
        as (st2 & Hread & (_ & Hfill & _) & _); try lia.
      * apply no_fault.
      * exact Hnone.
      * rewrite Htmp1. exact Htmp.
      * rewrite Hpx1. unfold tile_samples. rewrite H4. exact Hp.
      * exists st1, st2. split; [reflexivity|]. split; [exact Hread|].
        unfold tile_samples in Hfill. rewrite H4 in Hfill.
        change (Z.to_nat 4) with 4%nat in Hfill. exact Hfill.
    + assert (Hnz : forallb (fun v => v =? 0) (alpha st) = false).
      { apply not_true_is_false. intros Hz.
        by destruct (alpha_not_zero st HB Hlen Hz) as [? _]. }
      rewrite Hnz. apply Hkept; [|exact Hnz].
      intros Hop. apply alpha_constant; try done. by apply Z.eqb_eq.
  - assert (Hnz : forallb (fun v => v =? 0) (alpha st) = false).
    { apply not_true_is_false. intros Hz.
      destruct (alpha_not_zero st HB Hlen Hz) as [_ H']. fold first in H'. congruence. }
    rewrite Hnz. apply Hkept; [discriminate | exact Hnz].
Qed.

End RoundTripRGBA.

(** ** The coverage of a window *)

Lemma window_cells_spec w iX iY : (iY, iX) ∈ window_cells w <-> in_window w iX iY.
Proof.
  unfold window_cells, in_window. rewrite list_elem_of_In, in_flat_map. split.
  - intros (y & Hy & Hx). apply list_elem_of_In, elem_of_seqZ in Hy.
    apply in_map_iff in Hx as (x & [= <- <-] & Hx).
    apply list_elem_of_In, elem_of_seqZ in Hx. lia.
  - intros [Hx Hy]. exists iY. split.
    + apply list_elem_of_In, elem_of_seqZ. lia.
    + apply in_map, list_elem_of_In, elem_of_seqZ. lia.
Qed.

Lemma window_cells_NoDup w : NoDup (window_cells w).
Proof.
  unfold window_cells.
  pose proof (NoDup_seqZ (iRowMin w) (iRowMax w - iRowMin w + 1)) as Hr.
  induction Hr as [|y l Hy Hl IH]; simpl; [constructor|].
  apply NoDup_app. split; [|split; [|exact IH]].
  - apply (NoDup_fmap_2 (pair y)), NoDup_seqZ.
  - intros [y' x] Hin Hin'. apply list_elem_of_In, in_map_iff in Hin as (x' & [= <- <-] & _).
    apply list_elem_of_In, in_flat_map in Hin' as (y'' & Hy'' & Hx'').
    apply in_map_iff in Hx'' as (x'' & [= <- <-] & _).
    apply Hy. by apply list_elem_of_In.
Qed.

Lemma swap_cells_NoDup w :
  NoDup (map (fun c : Z * Z => (c.2, c.1)) (window_cells w)).
Proof.
  apply (NoDup_fmap_2_strong (fun c : Z * Z => (c.2, c.1)));
    [|apply window_cells_NoDup].
  intros [a b] [a' b'] _ _. simpl. congruence.
Qed.

Lemma window_cells_length w :
  iColMin w <= iColMax w -> iRowMin w <= iRowMax w ->
  Z.of_nat (length (window_cells w))
  = (iRowMax w - iRowMin w + 1) * (iColMax w - iColMin w + 1).
Proof.
  intros Hc Hr. unfold window_cells.
  rewrite (flat_map_constant_length (c := Z.to_nat (iColMax w - iColMin w + 1))).
  - rewrite length_seqZ. lia.
  - intros y _. by rewrite length_map, length_seqZ.
Qed.


Lemma scan_summary_cons S c l :
  scan_summary S (c :: l) = Z.lor (scan_summary S [c]) (scan_summary S l).
Proof.
  unfold scan_summary. cbn [existsb].
  destruct (bool_decide ((c.2, c.1) ∈ S)); cbn [negb orb];
    destruct (existsb (fun c => bool_decide ((c.2, c.1) ∈ S)) l);
    destruct (existsb (fun c => negb (bool_decide ((c.2, c.1) ∈ S))) l); reflexivity.
Qed.

Section CoverageProofs.

Variable host : Host.
Variable cfg : Config.
Hypothesis Hconv : row_convention host.

Lemma oSetTiles_spec w db iX iY :
  iRowMin w <= iRowMax w ->
  (iX, iY) ∈ oSetTiles host cfg w db
  <-> in_window w iX iY /\ tile_stored host cfg db iX iY.
Proof.
  intros Hrows. destruct Hconv as [Hinv Hmono].
  unfold oSetTiles, coverage_rows, tile_stored, tile_key, in_window.
  rewrite elem_of_list_to_set, list_elem_of_In, in_map_iff.
  set (G := GetRowFromIntoTopConvention host) in *.
  set (a := G (iRowMin w)). set (b := G (iRowMax w)).
  assert (Hrange : forall r,
            ((if b <? a then b else a) <= r <= (if b <? a then a else b))
            <-> iRowMin w <= G r <= iRowMax w).
  { intros r. subst a b.
    destruct Hmono as [Hm|Hm].
    - pose proof (Hm _ _ Hrows) as Hab.
      destruct (Z.ltb_spec (G (iRowMax w)) (G (iRowMin w))); [lia|]. split.
      + intros [H1 H2]. apply Hm in H1, H2. rewrite !Hinv in H1, H2. lia.
      + intros [H1 H2]. apply Hm in H1, H2. rewrite !Hinv in H1, H2. lia.
    - pose proof (Hm _ _ Hrows) as Hab.
      destruct (Z.ltb_spec (G (iRowMax w)) (G (iRowMin w))).
      + split.
        * intros [H1 H2]. apply Hm in H1, H2. rewrite !Hinv in H1, H2. lia.
        * intros [H1 H2]. apply Hm in H1, H2. rewrite !Hinv in H1, H2. lia.
      + split.
        * intros [H1 H2]. apply Hm in H1, H2. rewrite !Hinv in H1, H2. lia.
        * intros [H1 H2]. apply Hm in H1, H2. rewrite !Hinv in H1, H2. lia. }
  split.
  - intros ([c r] & [= <- <-] & Hin). simpl.
    apply list_elem_of_In, list_elem_of_omap in Hin as ([[[z r'] c'] row] & Hin & Hsel).
    apply elem_of_map_to_list in Hin.
    destruct (Z.eqb_spec z (m_nZoomLevel cfg)) as [->|]; [|discriminate]. simpl in Hsel.
    destruct (Z.leb_spec (if b <? a then b else a) r'); [|discriminate].
    destruct (Z.leb_spec r' (if b <? a then a else b)); [|discriminate].
    destruct (Z.leb_spec (iColMin w) c'); [|discriminate].
    destruct (Z.leb_spec c' (iColMax w)); [|discriminate]. simpl in Hsel.
    destruct (m_osWHERE host (m_nZoomLevel cfg, r', c') row) eqn:Hw; [|discriminate].
    injection Hsel as <- <-.
    split; [split; [lia | by apply Hrange]|].
    exists row. fold G. rewrite Hinv. done.
  - intros [[Hx Hy] (row & Hrow & Hw)]. fold G in Hrow, Hw.
    exists (iX, G iY). simpl. rewrite Hinv. split; [done|].
    apply list_elem_of_In, list_elem_of_omap.
    exists (m_nZoomLevel cfg, G iY, iX, row). split; [by apply elem_of_map_to_list|].
    rewrite Z.eqb_refl. simpl.
    assert (Hr : (if b <? a then b else a) <= G iY <= (if b <? a then a else b))
      by (apply Hrange; rewrite Hinv; done).
    destruct (Z.leb_spec (if b <? a then b else a) (G iY)); [|lia].
    destruct (Z.leb_spec (G iY) (if b <? a then a else b)); [|lia].
    destruct (Z.leb_spec (iColMin w) iX); [|lia].
    destruct (Z.leb_spec iX (iColMax w)); [|lia]. simpl. by rewrite Hw.
Qed.


Lemma coverage_scan_spec S xo yo xs ys mask cells : forall st0 px0 st px stopped,
  coverage_scan cfg S xo yo xs ys mask cells st0 px0 = (st, px, stopped) ->
  exists pre post, cells = pre ++ post
    /\ st = Z.lor st0 (scan_summary S pre)
    /\ (stopped = false -> post = [])
    /\ (stopped = true -> mask <> 0 /\ Z.land mask st <> 0).
Proof.
  induction cells as [|[iY iX] rest IH]; intros st0 px0 st px stopped Hscan.
  - injection Hscan as <- <- <-. exists [], []. split; [done|].
    split; [by rewrite Z.lor_0_r|]. split; [done | discriminate].
  - cbn [coverage_scan] in Hscan.
    set (st1 := if decide ((iX, iY) ∈ S)
                then Z.lor st0 GDAL_DATA_COVERAGE_STATUS_DATA
                else Z.lor st0 GDAL_DATA_COVERAGE_STATUS_EMPTY).
    assert (Hst1 : st1 = Z.lor st0 (scan_summary S [(iY, iX)])).
    { subst st1. unfold scan_summary. cbn [existsb fst snd].
      destruct (decide ((iX, iY) ∈ S)) as [H|H];
        [rewrite (bool_decide_eq_true_2 _ H) | rewrite (bool_decide_eq_false_2 _ H)];
        reflexivity. }
    assert (Hstep : exists px1,
              (if decide ((iX, iY) ∈ S)
               then (Z.lor st0 GDAL_DATA_COVERAGE_STATUS_DATA,
                     px0 + tile_pixels_in_window cfg xo yo xs ys iX iY)
               else (Z.lor st0 GDAL_DATA_COVERAGE_STATUS_EMPTY, px0)) = (st1, px1)).
    { subst st1. destruct (decide _); by eexists. }
    destruct Hstep as [px1 Hstep]. rewrite Hstep in Hscan.
    destruct (negb (mask =? 0) && negb (Z.land mask st1 =? 0)) eqn:Hstop.
    + injection Hscan as <- <- <-. exists [(iY, iX)], rest. split; [done|].
      split; [exact Hst1|]. split; [discriminate|]. intros _.
      apply andb_prop in Hstop as [H1 H2].
      apply negb_true_iff, Z.eqb_neq in H1, H2. done.
    + destruct (IH _ _ _ _ _ Hscan) as (pre & post & -> & Hst & Hns & Hs).
      exists ((iY, iX) :: pre), post. split; [done|]. split; [|done].
      rewrite Hst, Hst1, (scan_summary_cons S (iY, iX) pre). by rewrite Z.lor_assoc.
Qed.

Lemma summary_data S cells :
  Z.land (scan_summary S cells) GDAL_DATA_COVERAGE_STATUS_DATA <> 0
  <-> exists iX iY, (iY, iX) ∈ cells /\ (iX, iY) ∈ S.
Proof.
  unfold scan_summary.
  set (e := existsb (fun c => negb (bool_decide ((c.2, c.1) ∈ S))) cells).
  destruct (existsb (fun c => bool_decide ((c.2, c.1) ∈ S)) cells) eqn:E.
  - apply existsb_exists in E as ([iY iX] & Hin & Hs). apply bool_decide_eq_true in Hs.
    split; [|intros _; destruct e; vm_compute; discriminate].
    intros _. exists iX, iY. split; [by apply list_elem_of_In | done].
  - split; [intros H; exfalso; apply H; destruct e; reflexivity|].
    intros (iX & iY & Hin & Hs).
    apply not_true_iff_false in E. exfalso. apply E, existsb_exists.
    exists (iY, iX). split; [by apply list_elem_of_In | by apply bool_decide_eq_true].
Qed.

Lemma summary_empty S cells :
  Z.land (scan_summary S cells) GDAL_DATA_COVERAGE_STATUS_EMPTY <> 0
  <-> exists iX iY, (iY, iX) ∈ cells /\ (iX, iY) ∉ S.
Proof.
  unfold scan_summary.
  set (d := existsb (fun c => bool_decide ((c.2, c.1) ∈ S)) cells).
  destruct (existsb (fun c => negb (bool_decide ((c.2, c.1) ∈ S))) cells) eqn:E.
  - apply existsb_exists in E as ([iY iX] & Hin & Hs).
    apply negb_true_iff, bool_decide_eq_false in Hs.
    split; [|intros _; destruct d; vm_compute; discriminate].
    intros _. exists iX, iY. split; [by apply list_elem_of_In | done].
  - split; [intros H; exfalso; apply H; destruct d; reflexivity|].
    intros (iX & iY & Hin & Hs).
    apply not_true_iff_false in E. exfalso. apply E, existsb_exists.
    exists (iY, iX). split; [by apply list_elem_of_In|].
    by apply negb_true_iff, bool_decide_eq_false.
Qed.

Lemma summary_values S cells :
  cells <> [] ->
  scan_summary S cells = GDAL_DATA_COVERAGE_STATUS_DATA
  \/ scan_summary S cells = GDAL_DATA_COVERAGE_STATUS_EMPTY
  \/ scan_summary S cells
     = Z.lor GDAL_DATA_COVERAGE_STATUS_DATA GDAL_DATA_COVERAGE_STATUS_EMPTY.
Proof.
  intros Hne. unfold scan_summary. destruct cells as [|c l]; [done|].
  cbn [existsb].
  destruct (bool_decide ((c.2, c.1) ∈ S)); cbn [negb orb];
    destruct (existsb (fun c => bool_decide ((c.2, c.1) ∈ S)) l);
    destruct (existsb (fun c => negb (bool_decide ((c.2, c.1) ∈ S))) l); auto.
Qed.

Lemma quot_window (off size b : Z) :
  0 < b -> 0 <= off -> 0 < size -> off + size <= INT_MAX ->
  0 <= (off + size - 1) ÷ b - off ÷ b < INT_MAX.
Proof.
  intros Hb Ho Hs Hm. rewrite !Z.quot_div_nonneg by lia. unfold INT_MAX in *.
  pose proof (Z.div_le_mono off (off + size - 1) b ltac:(lia) ltac:(lia)).
  pose proof (Z.div_pos off b ltac:(lia) ltac:(lia)).
  assert ((off + size - 1) / b <= 2147483646); [|lia].
  apply Z.div_le_upper_bound; [lia|].
  assert (1 * 2147483646 <= b * 2147483646)
    by (apply Z.mul_le_mono_nonneg_r; lia).
  lia.
Qed.

(** X24: [IGetDataCoverageStatus] of a window of a dataset that is not shifted,
    when the statement runs.  The status is DATA, EMPTY or both, and a
    percentage is given.  The status has DATA only if a tile of the window is
    stored, and EMPTY only if a tile of the window is not; when
    [nMaskFlagStop] is 0 it has DATA if and only if a tile of the window is
    stored and EMPTY if and only if one is not.  The percentage is 0 when no
    tile of the window is stored and 100 when all are. *)
Theorem coverage_status_is_exact nXOff nYOff nXSize nYSize nMaskFlagStop db :
  m_nShiftXPixelsMod cfg = 0 -> m_nShiftYPixelsMod cfg = 0 ->
  window_ok cfg nXOff nYOff nXSize nYSize ->
  let w := coverage_window cfg nXOff nYOff nXSize nYSize in
  let r := IGetDataCoverageStatus host cfg NoFault nXOff nYOff nXSize nYSize
             nMaskFlagStop db in
  let some_data :=
    exists iX iY, in_window w iX iY /\ tile_stored host cfg db iX iY in
  let some_empty :=
    exists iX iY, in_window w iX iY /\ ~ tile_stored host cfg db iX iY in
  is_Some r.2
  /\ (r.1 = GDAL_DATA_COVERAGE_STATUS_DATA
      \/ r.1 = GDAL_DATA_COVERAGE_STATUS_EMPTY
      \/ r.1 = Z.lor GDAL_DATA_COVERAGE_STATUS_DATA GDAL_DATA_COVERAGE_STATUS_EMPTY)
  /\ (Z.land r.1 GDAL_DATA_COVERAGE_STATUS_DATA <> 0 -> some_data)
  /\ (Z.land r.1 GDAL_DATA_COVERAGE_STATUS_EMPTY <> 0 -> some_empty)
  /\ (nMaskFlagStop = 0 ->
      (some_data -> Z.land r.1 GDAL_DATA_COVERAGE_STATUS_DATA <> 0)
      /\ (some_empty -> Z.land r.1 GDAL_DATA_COVERAGE_STATUS_EMPTY <> 0))
  /\ (~ some_data -> r = (GDAL_DATA_COVERAGE_STATUS_EMPTY, Some 0%float))
  /\ (~ some_empty -> r = (GDAL_DATA_COVERAGE_STATUS_DATA, Some 100%float)).
Proof.
  intros HsX HsY (Hbx & Hby & Hxo & Hxs & Hxm & Hyo & Hys & Hym) w r some_data some_empty.
  pose proof (quot_window nXOff nXSize (nBlockXSize cfg) Hbx Hxo Hxs Hxm) as Hqx.
  pose proof (quot_window nYOff nYSize (nBlockYSize cfg) Hby Hyo Hys Hym) as Hqy.
  assert (Hcols : iColMax w - iColMin w = (nXOff + nXSize - 1) ÷ nBlockXSize cfg
                                          - nXOff ÷ nBlockXSize cfg).
  { unfold w, coverage_window. simpl. rewrite HsX. simpl. lia. }
  assert (Hrows : iRowMax w - iRowMin w = (nYOff + nYSize - 1) ÷ nBlockYSize cfg
                                          - nYOff ÷ nBlockYSize cfg).
  { unfold w, coverage_window. simpl. rewrite HsY. simpl. lia. }
  assert (Hc : iColMin w <= iColMax w) by lia.
  assert (Hr : iRowMin w <= iRowMax w) by lia.
  set (S := oSetTiles host cfg w db).
  assert (HS : forall iX iY, (iX, iY) ∈ S
                             <-> in_window w iX iY /\ tile_stored host cfg db iX iY)
    by (intros; by apply oSetTiles_spec).
  assert (Hsize : window_size_t w = Z.of_nat (length (window_cells w))).
  { rewrite window_cells_length by done. unfold window_size_t, INT_MAX in *.
    change (2 ^ 64) with 18446744073709551616.
    rewrite (Z.mod_small (iRowMax w - iRowMin w + 1)) by lia.
    rewrite (Z.mod_small (iColMax w - iColMin w + 1)) by lia.
    apply Z.mod_small.
    split; [apply Z.mul_nonneg_nonneg; lia|].
    apply Z.le_lt_trans with (2147483647 * 2147483647); [|reflexivity].
    apply Z.mul_le_mono_nonneg; lia. }
  assert (Hdata : some_data <-> exists iX iY, (iY, iX) ∈ window_cells w /\ (iX, iY) ∈ S).
  { split; intros (iX & iY & H1 & H2); exists iX, iY.
    - split; [by apply window_cells_spec | by apply HS].
    - by apply HS. }
  assert (Hempty : some_empty
                   <-> exists iX iY, (iY, iX) ∈ window_cells w /\ (iX, iY) ∉ S).
  { split; intros (iX & iY & H1 & H2); exists iX, iY.
    - split; [by apply window_cells_spec|]. intros Hin. apply HS in Hin. tauto.
    - apply window_cells_spec in H1. split; [done|]. intros Hst. apply H2, HS. done. }
  assert (Hcell : in_window w (iColMin w) (iRowMin w)) by (unfold in_window; lia).
  assert (Hfull : Z.of_nat (size S) = window_size_t w ->
                  forall iX iY, in_window w iX iY -> (iX, iY) ∈ S).
  { intros Hsz iX iY Hin.
    assert (Heq : S = list_to_set (map (fun c => (c.2, c.1)) (window_cells w))).
    { apply set_subseteq_size_eq.
      - intros [x y] Hxy. apply elem_of_list_to_set, list_elem_of_In, in_map_iff.
        exists (y, x). split; [done|]. apply list_elem_of_In, window_cells_spec.
        by apply HS in Hxy as [? _].
      - rewrite size_list_to_set.
        + rewrite length_map. lia.
        + apply swap_cells_NoDup. }
    rewrite Heq. apply elem_of_list_to_set, list_elem_of_In, in_map_iff.
    exists (iY, iX). split; [done|]. by apply list_elem_of_In, window_cells_spec. }
  subst r. unfold IGetDataCoverageStatus. fold w. fold S.
  destruct (decide (S = ∅)) as [He|Hne].
  - assert (Hnd : ~ some_data).
    { intros (iX & iY & H1 & H2).
      assert ((iX, iY) ∈ S) by (by apply HS). rewrite He in H. set_solver. }
    simpl. split; [by eexists|]. split; [by right; left|].
    split; [intros H; by destruct H|]. split.
    { intros _. exists (iColMin w), (iRowMin w). split; [done|].
      intros Hst. apply Hnd. by exists (iColMin w), (iRowMin w). }
    split; [|split; [done|]].
    + intros _. split; [intros; contradiction|]. intros _. discriminate.
    + intros Hall. exfalso. apply Hall. exists (iColMin w), (iRowMin w).
      split; [done|]. intros Hst. apply Hnd. by exists (iColMin w), (iRowMin w).
  - assert (Hsd : some_data).
    { apply set_choose_L in Hne as [[iX iY] Hin]. exists iX, iY. by apply HS. }
    rewrite HsX, HsY. simpl.
    destruct (Z.eqb_spec (Z.of_nat (size S)) (window_size_t w)) as [Hsz|Hsz].
    + assert (Hne' : ~ some_empty).
      { intros (iX & iY & H1 & H2). apply H2. by apply HS, Hfull. }
      simpl. split; [by eexists|]. split; [by left|]. split; [done|].
      split; [intros H; by destruct H|]. split; [|split; [done|done]].
      intros _. split; [intros _; discriminate | done].
    + destruct (coverage_scan cfg S nXOff nYOff nXSize nYSize nMaskFlagStop
                  (window_cells w) 0 0) as [[st px] stopped] eqn:Hscan.
      destruct (coverage_scan_spec _ _ _ _ _ _ _ _ _ _ _ _ Hscan)
        as (pre & post & Hcells & Hst & Hns & Hs).
      rewrite Z.lor_0_l in Hst.
      assert (Hpre : pre <> []).
      { intros ->. destruct stopped.
        - destruct (Hs eq_refl) as [_ H]. rewrite Hst in H.
          apply H. unfold scan_summary. simpl. apply Z.land_0_r.
        - rewrite (Hns eq_refl) in Hcells. simpl in Hcells.
          assert ((iRowMin w, iColMin w) ∈ window_cells w)
            by (by apply window_cells_spec).
          rewrite Hcells in H. by apply elem_of_nil in H. }
      assert (Hsub : forall c, c ∈ pre -> c ∈ window_cells w).
      { intros c Hc'. rewrite Hcells. apply elem_of_app. by left. }
      assert (Hres : (if stopped then (st, Some (-1)%float)
                      else (st, Some (100 * Z2F px / Z2F (nXSize * nYSize))%float)).1
                     = st) by (by destruct stopped).
      assert (Hpct : is_Some (if stopped then (st, Some (-1)%float)
                      else (st, Some (100 * Z2F px / Z2F (nXSize * nYSize))%float)).2)
        by (destruct stopped; by eexists).
      split; [exact Hpct|]. rewrite Hres, Hst.
      split; [by apply summary_values|]. split.
      { intros H. apply summary_data in H as (iX & iY & H1 & H2).
        apply Hdata. exists iX, iY. split; [by apply Hsub | done]. }
      split.
      { intros H. apply summary_empty in H as (iX & iY & H1 & H2).
        apply Hempty. exists iX, iY. split; [by apply Hsub | done]. }
      split; [|split].
      * intros Hm. destruct stopped; [by destruct (Hs eq_refl)|].
        rewrite (Hns eq_refl), app_nil_r in Hcells. subst pre.
        split; intros H.
        -- apply summary_data. by apply Hdata.
        -- apply summary_empty. by apply Hempty.
      * intros Hnd. contradiction.
      * intros Hall. exfalso. apply Hsz. rewrite Hsize.
        assert (Heq : S = list_to_set (map (fun c => (c.2, c.1)) (window_cells w))).
        { apply set_eq. intros [x y]. rewrite elem_of_list_to_set, list_elem_of_In, in_map_iff.
          split.
          - intros Hxy. exists (y, x). split; [done|].
            apply list_elem_of_In, window_cells_spec. by apply HS in Hxy as [? _].
          - intros ([y' x'] & [= <- <-] & Hin). apply list_elem_of_In in Hin.
            destruct (decide ((x', y') ∈ S)) as [|Hn]; [done|].
            exfalso. apply Hall, Hempty. by exists x', y'. }
        rewrite Heq, size_list_to_set, length_map; [done|].
        apply swap_cells_NoDup.
Qed.

End CoverageProofs.

(** ** Partial tiles *)

(** *** The quadrant flags *)

Lemma testbit_15 j : Z.testbit 15 j = (0 <=? j) && (j <? 4).
Proof.
  destruct (Z.leb_spec 0 j); [|by rewrite Z.testbit_neg_r by lia].
  destruct (Z.ltb_spec j 4).
  - assert (j = 0 \/ j = 1 \/ j = 2 \/ j = 3) as [-> | [-> | [-> | ->]]] by lia;
      reflexivity.
  - apply Z.bits_above_log2; [lia|]. change (Z.log2 15) with 3. lia.
Qed.

Lemma testbit_quadrants q j : 0 <= q <= 15 -> Z.testbit q j = true -> 0 <= j < 4.
Proof.
  intros Hq Hb. destruct (Z.leb_spec 0 j); [|by rewrite Z.testbit_neg_r in Hb by lia].
  destruct (Z.ltb_spec j 4); [lia|].
  rewrite Z.bits_above_log2 in Hb; [done | lia |].
  assert (Z.log2 q <= Z.log2 15) by (apply Z.log2_le_mono; lia).
  change (Z.log2 15) with 3 in *. lia.
Qed.

Lemma quadrant_flags q n i :
  0 <= q <= 15 -> 1 <= n -> 1 <= i ->
  Z.land (Z.shiftl q (4 * (n - 1))) (band_mask i)
  = if i =? n then Z.shiftl q (4 * (n - 1)) else 0.
Proof.
  intros Hq Hn Hi. apply Z.bits_inj'. intros k Hk.
  unfold band_mask. change (Z.shiftl 1 4 - 1) with 15.
  rewrite Z.land_spec, !Z.shiftl_spec by lia. rewrite testbit_15.
  destruct (Z.eqb_spec i n) as [->|Hne].
  - rewrite Z.shiftl_spec by lia.
    destruct (Z.testbit q (k - 4 * (n - 1))) eqn:Hb; [|done].
    apply testbit_quadrants in Hb; [|done].
    destruct (Z.leb_spec 0 (k - 4 * (n - 1))); [|lia].
    destruct (Z.ltb_spec (k - 4 * (n - 1)) 4); [done | lia].
  - rewrite Z.bits_0.
    destruct (Z.testbit q (k - 4 * (n - 1))) eqn:Hb; [|done].
    apply testbit_quadrants in Hb; [|done].
    destruct (Z.leb_spec 0 (k - 4 * (i - 1))); [|done].
    destruct (Z.ltb_spec (k - 4 * (i - 1)) 4); [lia | done].
Qed.

Lemma flags_of_other_band q n i old :
  0 <= q <= 15 -> 1 <= n -> 1 <= i -> i <> n ->
  Z.land (Z.lor (Z.shiftl q (4 * (n - 1))) old) (band_mask i)
  = Z.land old (band_mask i).
Proof.
  intros Hq Hn Hi Hne. rewrite Z.land_lor_distr_l, quadrant_flags by done.
  destruct (Z.eqb_spec i n); [contradiction | done].
Qed.

Lemma flags_of_written_band q n old :
  1 <= q <= 15 -> 1 <= n ->
  Z.land (Z.lor (Z.shiftl q (4 * (n - 1))) old) (band_mask n) <> 0.
Proof.
  intros Hq Hn. rewrite Z.land_lor_distr_l, quadrant_flags by lia.
  rewrite Z.eqb_refl. intros H. apply Z.lor_eq_0_iff in H as [H _].
  apply Z.shiftl_eq_0_iff in H; lia.
Qed.

Lemma written_quadrants_range cfg x y w h :
  1 <= written_quadrants cfg x y w h <= 15.
Proof.
  unfold written_quadrants.
  destruct (x =? 0), (y =? 0), (x + w =? nBlockXSize cfg),
    (y + h =? nBlockYSize cfg); vm_compute; split; discriminate.
Qed.

(** *** The rows of partial_tiles *)

Lemma pt_key_eq r z row col :
  (pt_zoom_level r = z /\ pt_tile_row r = row /\ pt_tile_column r = col)
  <-> pt_key r = (z, col, row).
Proof.
  unfold pt_key. split; [by intros (->&->&->)|]. intros H. by simplify_eq.
Qed.

Lemma find_partial_none z row col db :
  find_partial z row col db = None ->
  forall r, r ∈ partial_tiles db -> pt_key r <> (z, col, row).
Proof.
  unfold find_partial. intros H r Hr Hk. apply pt_key_eq in Hk.
  apply head_None in H.
  assert (Hin : r ∈ filter (fun r => pt_zoom_level r = z /\ pt_tile_row r = row
                                     /\ pt_tile_column r = col) (partial_tiles db))
    by (by apply list_elem_of_filter).
  rewrite H in Hin. by apply elem_of_nil in Hin.
Qed.

Lemma find_partial_some z row col db r :
  find_partial z row col db = Some r ->
  r ∈ partial_tiles db /\ pt_key r = (z, col, row).
Proof.
  unfold find_partial. intros H. apply head_Some_elem_of in H.
  apply list_elem_of_filter in H as [Hk Hr]. split; [done | by apply pt_key_eq].
Qed.

Lemma find_partial_app z row col rows1 r rows2 n :
  (forall x, x ∈ rows1 -> pt_key x <> (z, col, row)) ->
  pt_key r = (z, col, row) ->
  find_partial z row col {| partial_tiles := rows1 ++ r :: rows2; pt_next_id := n |}
  = Some r.
Proof.
  intros H1 Hr. unfold find_partial. simpl. rewrite filter_app.
  assert (filter (fun r => pt_zoom_level r = z /\ pt_tile_row r = row
                           /\ pt_tile_column r = col) rows1 = []) as ->.
  { induction rows1 as [|x l IH]; [done|]. rewrite filter_cons.
    destruct (decide _) as [Hx|Hx].
    - exfalso. apply (H1 x); [by left | by apply pt_key_eq].
    - apply IH. intros y Hy. apply H1. by right. }
  simpl. rewrite filter_cons. apply pt_key_eq in Hr.
  destruct (decide _); [done | contradiction].
Qed.

Lemma map_other_ids (g : PartialTile -> PartialTile) id0 l :
  (forall x, x ∈ l -> pt_id x <> id0) ->
  map (fun r => if pt_id r =? id0 then g r else r) l = l.
Proof.
  induction l as [|x l IH]; intros H; [done|]. simpl.
  destruct (Z.eqb_spec (pt_id x) id0) as [He|_].
  - exfalso. apply (H x); [by left | done].
  - f_equal. apply IH. intros y Hy. apply H. by right.
Qed.

(** INSERT of a row whose key is absent. *)
Lemma insert_row_ok cfg db new z row col :
  partial_tiles_ok cfg db ->
  find_partial z row col db = None ->
  pt_key new = (z, col, row) -> pt_id new = pt_next_id db ->
  partial_row_ok cfg new ->
  let db' := {| partial_tiles := partial_tiles db ++ [new];
                pt_next_id := pt_next_id db + 1 |} in
  partial_tiles_ok cfg db' /\ find_partial z row col db' = Some new.
Proof.
  intros (Hn&Hids&Hkeys&Hrows) Hfind Hk Hid Hok db'. split.
  - unfold partial_tiles_ok, db'. simpl. split; [lia|].
    rewrite !fmap_app. simpl. split; [|split].
    + apply NoDup_app. split; [done|]. split; [|apply NoDup_singleton].
      intros x Hx Hx'. apply list_elem_of_singleton in Hx'. subst x.
      apply list_elem_of_fmap in Hx as (r&Hr&Hin).
      destruct (Hrows r Hin) as [? _]. lia.
    + apply NoDup_app. split; [done|]. split; [|apply NoDup_singleton].
      intros x Hx Hx'. apply list_elem_of_singleton in Hx'. subst x.
      apply list_elem_of_fmap in Hx as (r&Hr&Hin).
      apply (find_partial_none _ _ _ _ Hfind r Hin). congruence.
    + intros r Hr. apply elem_of_app in Hr as [Hr|Hr].
      * destruct (Hrows r Hr) as [? ?]. split; [lia | done].
      * apply list_elem_of_singleton in Hr. subst r. split; [lia | done].
  - apply find_partial_app; [|done]. by apply find_partial_none.
Qed.

(** UPDATE of the row of an id: the row takes the key, which no other row
    has. *)
Lemma update_row_ok cfg db r0 (g : PartialTile -> PartialTile) z row col :
  partial_tiles_ok cfg db ->
  r0 ∈ partial_tiles db ->
  pt_key r0 = (z, col, row) \/ find_partial z row col db = None ->
  pt_id (g r0) = pt_id r0 -> pt_key (g r0) = (z, col, row) ->
  partial_row_ok cfg (g r0) ->
  let db' := on_rows (map (fun r => if pt_id r =? pt_id r0 then g r else r)) db in
  partial_tiles_ok cfg db' /\ find_partial z row col db' = Some (g r0).
Proof.
  intros (Hn&Hids&Hkeys&Hrows) Hin Hkey Hid Hk Hok db'.
  apply list_elem_of_split in Hin as (l1&l2&Hsplit).
  rewrite Hsplit in Hids, Hkeys, Hrows.
  rewrite fmap_app, fmap_cons in Hids. rewrite fmap_app, fmap_cons in Hkeys.
  apply NoDup_app in Hids as (Hi1&Hi12&Hi2).
  apply NoDup_cons in Hi2 as [Hi0 Hi2].
  apply NoDup_app in Hkeys as (Hk1&Hk12&Hk2).
  apply NoDup_cons in Hk2 as [Hk0 Hk2].
  assert (H1 : forall x, x ∈ l1 -> pt_id x <> pt_id r0).
  { intros x Hx He. apply (Hi12 (pt_id x)); [by apply list_elem_of_fmap_2|].
    rewrite He. by left. }
  assert (H2 : forall x, x ∈ l2 -> pt_id x <> pt_id r0).
  { intros x Hx He. apply Hi0. rewrite <- He. by apply list_elem_of_fmap_2. }
  assert (K1 : forall x, x ∈ l1 -> pt_key x <> (z, col, row)).
  { intros x Hx He. destruct Hkey as [Hkey|Hkey].
    - apply (Hk12 (pt_key x)); [by apply list_elem_of_fmap_2|].
      rewrite He, <- Hkey. by left.
    - apply (find_partial_none _ _ _ _ Hkey x); [|done].
      rewrite Hsplit. apply elem_of_app. by left. }
  assert (K2 : forall x, x ∈ l2 -> pt_key x <> (z, col, row)).
  { intros x Hx He. destruct Hkey as [Hkey|Hkey].
    - apply Hk0. rewrite Hkey, <- He. by apply list_elem_of_fmap_2.
    - apply (find_partial_none _ _ _ _ Hkey x); [|done].
      rewrite Hsplit. apply elem_of_app. right. by right. }
  assert (Hdb : db' = {| partial_tiles := l1 ++ g r0 :: l2;
                         pt_next_id := pt_next_id db |}).
  { unfold db', on_rows. f_equal. rewrite Hsplit, map_app. simpl.
    rewrite Z.eqb_refl, !map_other_ids by done. done. }
  rewrite Hdb. split; [|by apply find_partial_app].
  unfold partial_tiles_ok. simpl. split; [done|].
  rewrite !fmap_app, !fmap_cons, Hid, Hk. split; [|split].
  - apply NoDup_app. split; [done|]. split; [done|]. by apply NoDup_cons.
  - apply NoDup_app. split; [done|]. split.
    + intros x Hx Hx'. apply elem_of_cons in Hx' as [->|Hx'].
      * apply list_elem_of_fmap in Hx as (r&Hr&Hrin). by apply (K1 r).
      * apply (Hk12 x Hx). by right.
    + apply NoDup_cons. split; [|done]. intros Hx.
      apply list_elem_of_fmap in Hx as (r&Hr&Hrin). by apply (K2 r).
  - intros r Hr. apply elem_of_app in Hr as [Hr|Hr].
    + apply Hrows. apply elem_of_app. by left.
    + apply elem_of_cons in Hr as [->|Hr].
      * split; [|done]. rewrite Hid. apply Hrows. apply elem_of_app. right. by left.
      * apply Hrows. apply elem_of_app. right. by right.
Qed.

Lemma filter_key_nil z row col (l : list PartialTile) :
  (forall x, x ∈ l -> pt_key x <> (z, col, row)) ->
  filter (fun r => pt_zoom_level r = z /\ pt_tile_row r = row
                   /\ pt_tile_column r = col) l = [].
Proof.
  intros H. induction l as [|x l IH]; [done|]. rewrite filter_cons.
  destruct (decide _) as [Hx|Hx].
  - exfalso. apply (H x); [by left | by apply pt_key_eq].
  - apply IH. intros y Hy. apply H. by right.
Qed.

(** INSERT of a row leaves the rows of the other keys. *)
Lemma insert_row_others db new n z row col :
  pt_key new <> (z, col, row) ->
  find_partial z row col {| partial_tiles := partial_tiles db ++ [new];
                            pt_next_id := n |}
  = find_partial z row col db.
Proof.
  intros Hk. unfold find_partial. simpl. rewrite filter_app.
  rewrite (filter_key_nil z row col [new]); [by rewrite app_nil_r|].
  intros x Hx. apply list_elem_of_singleton in Hx. by subst x.
Qed.

(** UPDATE of the row of an id: a key the row had loses it, the rows of the
    other keys stay. *)
Lemma update_row_others cfg db r0 (g : PartialTile -> PartialTile) z row col :
  partial_tiles_ok cfg db ->
  r0 ∈ partial_tiles db ->
  pt_key (g r0) <> (z, col, row) ->
  let db' := on_rows (map (fun r => if pt_id r =? pt_id r0 then g r else r)) db in
  find_partial z row col db'
  = if decide (pt_key r0 = (z, col, row)) then None else find_partial z row col db.
Proof.
  intros (Hn&Hids&Hkeys&Hrows) Hin Hk db'.
  apply list_elem_of_split in Hin as (l1&l2&Hsplit).
  rewrite Hsplit in Hids, Hkeys.
  rewrite fmap_app, fmap_cons in Hids. rewrite fmap_app, fmap_cons in Hkeys.
  apply NoDup_app in Hids as (Hi1&Hi12&Hi2).
  apply NoDup_cons in Hi2 as [Hi0 Hi2].
  apply NoDup_app in Hkeys as (Hk1&Hk12&Hk2).
  apply NoDup_cons in Hk2 as [Hk0 Hk2].
  assert (H1 : forall x, x ∈ l1 -> pt_id x <> pt_id r0).
  { intros x Hx He. apply (Hi12 (pt_id x)); [by apply list_elem_of_fmap_2|].
    rewrite He. by left. }
  assert (H2 : forall x, x ∈ l2 -> pt_id x <> pt_id r0).
  { intros x Hx He. apply Hi0. rewrite <- He. by apply list_elem_of_fmap_2. }
  assert (Hdb : partial_tiles db' = l1 ++ g r0 :: l2).
  { unfold db', on_rows. simpl. rewrite Hsplit, map_app. simpl.
    rewrite Z.eqb_refl, !map_other_ids by done. done. }
  unfold find_partial. rewrite Hdb, Hsplit, !filter_app, !filter_cons.
  destruct (decide (pt_zoom_level (g r0) = z /\ pt_tile_row (g r0) = row
                    /\ pt_tile_column (g r0) = col)) as [Hg|_].
  { exfalso. apply Hk. by apply pt_key_eq. }
  destruct (decide (pt_key r0 = (z, col, row))) as [Hr|Hr].
  - rewrite (filter_key_nil z row col l1), (filter_key_nil z row col l2); [done | |].
    + intros x Hx He. apply Hk0. rewrite Hr, <- He. by apply list_elem_of_fmap_2.
    + intros x Hx He. apply (Hk12 (pt_key x)); [by apply list_elem_of_fmap_2|].
      rewrite He, <- Hr. by left.
  - destruct (decide (pt_zoom_level r0 = z /\ pt_tile_row r0 = row
                      /\ pt_tile_column r0 = col)) as [Hg|_]; [|done].
    exfalso. apply Hr. by apply pt_key_eq.
Qed.

Lemma slice_of_filled (buf : list Z) (p n k m : nat) (v : Z) :
  buf_slice buf p n = replicate n v -> (k + m <= n)%nat ->
  buf_slice buf (p + k) m = replicate m v.
Proof.
  intros H Hk. apply list_eq. intros i. destruct (decide (i < m)%nat) as [Hi|Hi].
  - rewrite buf_slice_lookup by done. rewrite lookup_replicate_2 by done.
    assert (Hl : buf_slice buf p n !! (k + i)%nat = Some v)
      by (rewrite H; apply lookup_replicate_2; lia).
    rewrite buf_slice_lookup in Hl by lia. rewrite <- Hl. f_equal. lia.
  - unfold buf_slice. rewrite lookup_take_ge by lia.
    symmetry. apply lookup_replicate_None. lia.
Qed.

Section PartialTiles.

Variable host : Host.
Variable cfg : Config.

Hypothesis no_fault : forall l s, sqlite_fault host l s = NoFault.
Hypothesis Hbands : 0 <= nBands cfg <= nCacheTileBands cfg.
Hypothesis Hshift : shifted cfg = true.

Let B := nBlockPixels cfg.
Let T := cache_tile_samples cfg.

(** Band [i] (from 1) of the tile at [p]. *)
Let band (st : State) (p : nat) (i : Z) : list Z :=
  buf_slice (m_pabyCachedTiles st) (band_off cfg p (i - 1)) B.

(** The body of the loop of [load_partial_bands]. *)
Let load_band (r : PartialTile) (fl : Z) (p : nat) (st : State) (iBand : Z) : State :=
  if Z.land fl (band_mask iBand) =? 0
  then FillEmptyTileSingleBand host cfg (band_off cfg p (iBand - 1)) st
  else set_m_pabyCachedTiles
         (memcpy (m_pabyCachedTiles st) (band_off cfg p (iBand - 1))
            (default [] (pt_band r iBand)) (nBlockPixels cfg)) st.

Lemma band_end p i :
  1 <= i <= nBands cfg -> (band_off cfg p (i - 1) + B <= p + T)%nat.
Proof.
  intros Hi. unfold band_off. fold B.
  pose proof (band_below (Z.to_nat (i - 1)) (Z.to_nat (nBands cfg)) B).
  pose proof (bands_fit cfg Hbands) as Hf. cbv zeta in Hf. fold B in Hf. fold T in Hf.
  lia.
Qed.

Lemma within_band_other a b p i x :
  1 <= i -> 1 <= x -> i <> x ->
  within (band_off cfg p (x - 1)) B a b ->
  buf_slice b (band_off cfg p (i - 1)) B = buf_slice a (band_off cfg p (i - 1)) B.
Proof.
  intros Hi Hx Hne [_ Hout]. apply buf_slice_ext. intros j Hj. apply Hout.
  unfold band_off in *.
  pose proof (bands_apart (Z.to_nat (i - 1)) (Z.to_nat (x - 1)) B j p) as Ha.
  assert (Z.to_nat (i - 1) <> Z.to_nat (x - 1)) by lia.
  specialize (Ha ltac:(done) ltac:(lia)). lia.
Qed.

Lemma load_band_within r fl p st x :
  within (band_off cfg p (x - 1)) B (m_pabyCachedTiles st)
    (m_pabyCachedTiles (load_band r fl p st x)).
Proof.
  unfold load_band. destruct (_ =? 0).
  - apply FillBuffer_within.
  - apply within_memcpy.
Qed.

Lemma load_band_spec r fl p st x :
  1 <= x <= nBands cfg ->
  (p + T <= length (m_pabyCachedTiles st))%nat ->
  (Z.land fl (band_mask x) <> 0 ->
   exists blob, pt_band r x = Some blob /\ length blob = B) ->
  band (load_band r fl p st x) p x
  = if Z.land fl (band_mask x) =? 0 then replicate B (fill_value host cfg)
    else default [] (pt_band r x).
Proof.
  intros Hx Hlen Hblob. unfold band, load_band. pose proof (band_end p x Hx).
  destruct (Z.eqb_spec (Z.land fl (band_mask x)) 0) as [_|Hne].
  - unfold FillEmptyTileSingleBand.
    destruct (FillBuffer_filled host cfg (band_off cfg p (x - 1)) B st) as [(_&F&_) _];
      [lia | exact F].
  - destruct (Hblob Hne) as (blob&->&Hl). simpl.
    apply buf_slice_memcpy; [done | lia].
Qed.

Lemma foldl_load_bands r fl p l :
  NoDup l -> (forall x, x ∈ l -> 1 <= x <= nBands cfg) ->
  (forall x, 1 <= x <= nBands cfg -> Z.land fl (band_mask x) <> 0 ->
     exists blob, pt_band r x = Some blob /\ length blob = B) ->
  forall st, (p + T <= length (m_pabyCachedTiles st))%nat ->
  length (m_pabyCachedTiles (foldl (load_band r fl p) st l))
  = length (m_pabyCachedTiles st)
  /\ forall i, 1 <= i <= nBands cfg ->
       band (foldl (load_band r fl p) st l) p i
       = if decide (i ∈ l)
         then (if Z.land fl (band_mask i) =? 0 then replicate B (fill_value host cfg)
               else default [] (pt_band r i))
         else band st p i.
Proof.
  intros Hnd Hl Hblob. induction l as [|x l IH]; intros st Hlen.
  - split; [done|]. intros i Hi. destruct (decide (i ∈ [])) as [Hin|_]; [|done].
    by apply elem_of_nil in Hin.
  - apply NoDup_cons in Hnd as [Hx Hnd]. simpl.
    assert (Hx1 : 1 <= x <= nBands cfg) by (apply Hl; by left).
    pose proof (load_band_within r fl p st x) as Hw.
    assert (Hlen1 : (p + T <= length (m_pabyCachedTiles (load_band r fl p st x)))%nat)
      by (destruct Hw as [-> _]; exact Hlen).
    destruct (IH Hnd (fun y Hy => Hl y (list_elem_of_further _ _ _ Hy))
                (load_band r fl p st x) Hlen1) as [IHl IHb].
    split; [rewrite IHl; by destruct Hw|].
    intros i Hi. rewrite (IHb i Hi).
    destruct (decide (i ∈ l)) as [Hil|Hil].
    + rewrite decide_True; [done | by right].
    + destruct (decide (i = x)) as [->|Hne].
      * rewrite decide_True by (by left). apply load_band_spec; [done..|].
        by apply Hblob.
      * rewrite decide_False.
        2:{ intros Hin. apply elem_of_cons in Hin as [?|?]; contradiction. }
        unfold band. apply (within_band_other _ _ p i x); [lia | lia | done | done].
Qed.

Lemma load_partial_bands_spec r p st :
  partial_row_ok cfg r ->
  (p + T <= length (m_pabyCachedTiles st))%nat ->
  length (m_pabyCachedTiles (load_partial_bands host cfg r (pt_partial_flag r) p st))
  = length (m_pabyCachedTiles st)
  /\ forall i, 1 <= i <= nBands cfg ->
       band (load_partial_bands host cfg r (pt_partial_flag r) p st) p i
       = partial_band host cfg r i.
Proof.
  intros [_ Hok] Hlen.
  destruct (foldl_load_bands r (pt_partial_flag r) p (seqZ 1 (nBands cfg))) with (st := st)
    as [Hl Hb]; [apply NoDup_seqZ | | exact Hok | exact Hlen |].
  { intros x Hx. apply elem_of_seqZ in Hx. lia. }
  split; [exact Hl|]. intros i Hi. unfold load_partial_bands.
  change (band (foldl (load_band r (pt_partial_flag r) p) st (seqZ 1 (nBands cfg))) p i
          = partial_band host cfg r i).
  rewrite (Hb i Hi). rewrite decide_True; [done|]. apply elem_of_seqZ. lia.
Qed.

(** The band [ReadTile] returns for a tile that is not in the tile table:
    that of its partial tile, or the fill value. *)
Let expected (st : State) (nRow_ nCol_ i : Z) : list Z :=
  match m_hTempDB st with
  | Some db =>
      match find_partial (m_nZoomLevel cfg) nRow_ nCol_ db with
      | Some r => partial_band host cfg r i
      | None => replicate B (fill_value host cfg)
      end
  | None => replicate B (fill_value host cfg)
  end.

Lemma FillEmptyTile_band p st i :
  (p + T <= length (m_pabyCachedTiles st))%nat -> 1 <= i <= nBands cfg ->
  band (FillEmptyTile host cfg p st) p i = replicate B (fill_value host cfg).
Proof.
  intros Hlen Hi. unfold band, FillEmptyTile, band_off.
  pose proof (bands_fit cfg Hbands) as Hf. cbv zeta in Hf. fold B in Hf. fold T in Hf.
  destruct (FillBuffer_filled host cfg p (Z.to_nat (nBands cfg) * nBlockPixels cfg) st)
    as [(_&F&_) _]; [fold B; lia|].
  apply (slice_of_filled _ _ _ _ _ _ F). fold B.
  pose proof (band_below (Z.to_nat (i - 1)) (Z.to_nat (nBands cfg)) B). lia.
Qed.

Lemma ReadTileAt_partial nRow_ nCol_ p st :
  0 <= nRow_ < m_nTileMatrixHeight cfg -> 0 <= nCol_ < m_nTileMatrixWidth cfg ->
  tiles (hDB st) !! tile_key host cfg nRow_ nCol_ = None ->
  (forall db, m_hTempDB st = Some db -> partial_tiles_ok cfg db) ->
  (p + T <= length (m_pabyCachedTiles st))%nat ->
  exists st', ReadTileAt host cfg nRow_ nCol_ p st = (true, false, st')
    /\ forall i, 1 <= i <= nBands cfg -> band st' p i = expected st nRow_ nCol_ i.
Proof.
  intros Hr Hc Hrow Hok Hlen. unfold ReadTileAt.
  destruct (Z.ltb_spec nRow_ 0); [lia|]. destruct (Z.ltb_spec nCol_ 0); [lia|].
  destruct (Z.leb_spec (m_nTileMatrixHeight cfg) nRow_); [lia|].
  destruct (Z.leb_spec (m_nTileMatrixWidth cfg) nCol_); [lia|]. simpl.
  unfold exec, tile_key in *. simpl. rewrite no_fault, Hrow. simpl.
  unfold expected. destruct (m_hTempDB st) as [db|] eqn:Hdb.
  - rewrite Hshift, no_fault.
    destruct (find_partial (m_nZoomLevel cfg) nRow_ nCol_ db) as [r|] eqn:Hfind.
    + eexists. split; [reflexivity|].
      destruct (Hok db eq_refl) as (_&_&_&Hrows).
      apply find_partial_some in Hfind as [Hin _].
      destruct (Hrows r Hin) as [_ Hrok].
      by apply load_partial_bands_spec.
    + eexists. split; [reflexivity|]. intros i Hi. by apply FillEmptyTile_band.
  - eexists. split; [reflexivity|]. intros i Hi. by apply FillEmptyTile_band.
Qed.

(** The fields a write to the temporary database leaves. *)
Let same_meta (st st' : State) : Prop :=
  hDB st' = hDB st /\ m_poCT st' = m_poCT st
  /\ m_nTileInsertionCount st' = m_nTileInsertionCount st
  /\ m_bInWriteTile st' = m_bInWriteTile st
  /\ m_nLastSpaceCheckTimestamp st' = m_nLastSpaceCheckTimestamp st.

Lemma open_temp_db_ok st :
  (m_hTempDB st = None -> sqlite3_open_ok host (sql_log st) = true) ->
  (forall db, m_hTempDB st = Some db -> partial_tiles_ok cfg db) ->
  exists st0 db0, open_temp_db host st = (true, st0)
    /\ m_hTempDB st0 = Some db0 /\ partial_tiles_ok cfg db0
    /\ m_pabyCachedTiles st0 = m_pabyCachedTiles st
    /\ same_meta st st0
    /\ match m_hTempDB st with
       | Some db => db0 = db
       | None => partial_tiles db0 = []
       end.
Proof.
  intros Hopen Hok. unfold open_temp_db.
  destruct (m_hTempDB st) as [db|] eqn:Hdb.
  - exists st, db. split; [done|]. split; [done|]. split; [by apply Hok | done].
  - rewrite (Hopen eq_refl). unfold exec. simpl.
    eexists _, _. split; [reflexivity|]. simpl. split; [done|].
    split; [|done]. unfold partial_tiles_ok. simpl.
    split; [lia|]. split; [apply NoDup_nil_2|]. split; [apply NoDup_nil_2|].
    intros r Hr. by apply elem_of_nil in Hr.
Qed.

Lemma partial_flush_idle st :
  m_nLastSpaceCheckTimestamp st < 0 \/ (forall log, bTryFreeing host cfg log = false) ->
  exists ts, DoPartialFlushOfPartialTilesIfNecessary host cfg st
             = (CE_None, set_m_nLastSpaceCheckTimestamp ts st).
Proof.
  intros H. unfold DoPartialFlushOfPartialTilesIfNecessary. cbv zeta.
  destruct st as [a1 a2 a3 a4 a5 a6 a7 a8 a9 a10 a11 a12 a13 a14]. simpl in *.
  destruct H as [H|H].
  - destruct (Z.eqb_spec a11 0); [lia|]. simpl.
    destruct (Z.ltb_spec 0 a11); [lia|]. simpl. eexists. reflexivity.
  - pose proof (H a13) as Hf. unfold bTryFreeing in Hf. cbv zeta in Hf.
    destruct (a11 =? 0); simpl;
      match goal with
      | |- context [if (0 <? ?a) && ?b then _ else _] => destruct ((0 <? a) && b)
      end; rewrite ?Hf; eexists; reflexivity.
Qed.

Lemma select_id_spec s P st db :
  m_hTempDB st = Some db ->
  exists id, select_id host s P st
             = (id, set_sql_log (EvStmt s NoFault :: sql_log st) st)
    /\ (id = 0 \/ exists r0, r0 ∈ partial_tiles db /\ pt_id r0 = id /\ P r0 = true).
Proof.
  intros Hdb. unfold select_id, exec. rewrite no_fault. simpl. rewrite Hdb.
  eexists. split; [reflexivity|].
  destruct (head _) as [r0|] eqn:Hh; simpl; [right | by left].
  exists r0. apply head_Some_elem_of in Hh.
  by apply list_elem_of_filter in Hh as [? ?].
Qed.

Lemma tmp_exec_ok s change st db :
  m_hTempDB st = Some db ->
  NoDup (pt_key <$> partial_tiles (change db)) ->
  tmp_exec host s change st
  = (NoFault, set_m_hTempDB (Some (change db))
                (set_sql_log (EvStmt s NoFault :: sql_log st) st)).
Proof.
  intros Hdb Hnd. unfold tmp_exec, exec. rewrite no_fault. simpl. rewrite Hdb.
  unfold unique_ok. by rewrite bool_decide_eq_true_2.
Qed.

Lemma nBands_le_4 : nBands cfg <= 4.
Proof.
  destruct Hbands as [_ H]. unfold nCacheTileBands in H.
  destruct (decide _); lia.
Qed.

(** The row a band has been written to. *)
Lemma written_row (r1 : PartialTile) bands0 nBand blob q old :
  pt_tile_data_band r1 = set_band bands0 nBand blob ->
  pt_partial_flag r1 = Z.lor (Z.shiftl q (4 * (nBand - 1))) old ->
  1 <= q <= 15 -> 1 <= nBand <= nBands cfg ->
  length bands0 = 4%nat -> length blob = B ->
  (forall i, 1 <= i <= nBands cfg -> Z.land old (band_mask i) <> 0 ->
     exists b, bands0 !! Z.to_nat (i - 1) = Some (Some b) /\ length b = B) ->
  partial_row_ok cfg r1
  /\ forall i, 1 <= i <= nBands cfg ->
       partial_band host cfg r1 i
       = if i =? nBand then blob
         else if Z.land old (band_mask i) =? 0
              then replicate B (fill_value host cfg)
              else default [] (match bands0 !! Z.to_nat (i - 1) with
                               | Some (Some b) => Some b
                               | _ => None
                               end).
Proof.
  intros Hb Hf Hq Hn Hl4 Hlb Hold. pose proof nBands_le_4 as H4.
  assert (Hw : pt_band r1 nBand = Some blob).
  { unfold pt_band. rewrite Hb. unfold set_band.
    rewrite list_lookup_insert_eq; [done | lia]. }
  assert (Ho : forall i, 1 <= i -> i <> nBand ->
            pt_band r1 i = match bands0 !! Z.to_nat (i - 1) with
                           | Some (Some b) => Some b
                           | _ => None
                           end).
  { intros i Hi Hne. unfold pt_band. rewrite Hb. unfold set_band.
    rewrite list_lookup_insert_ne; [done | lia]. }
  split.
  - split; [rewrite Hb; unfold set_band; by rewrite length_insert|].
    intros i Hi Hfl. destruct (decide (i = nBand)) as [->|Hne].
    + by exists blob.
    + rewrite Hf, flags_of_other_band in Hfl; [|lia..].
      destruct (Hold i Hi Hfl) as (b&Hb0&Hlen). exists b.
      rewrite Ho, Hb0 by lia. done.
  - intros i Hi. unfold partial_band. rewrite Hf.
    destruct (Z.eqb_spec i nBand) as [->|Hne].
    + pose proof (flags_of_written_band q nBand old Hq ltac:(lia)) as Hnz.
      destruct (Z.eqb_spec (Z.land (Z.lor (Z.shiftl q (4 * (nBand - 1))) old)
                              (band_mask nBand)) 0); [contradiction|].
      by rewrite Hw.
    + rewrite flags_of_other_band by lia. fold B.
      destruct (_ =? 0); [done|]. by rewrite Ho by lia.
Qed.

Lemma find_by_id (rows : list PartialTile) r :
  NoDup (pt_id <$> rows) -> r ∈ rows ->
  head (filter (fun r' => pt_id r' = pt_id r) rows) = Some r.
Proof.
  intros Hnd Hin. apply list_elem_of_split in Hin as (l1&l2&->).
  rewrite fmap_app, fmap_cons in Hnd. apply NoDup_app in Hnd as (_&H12&_).
  rewrite filter_app, filter_cons.
  assert (filter (fun r' => pt_id r' = pt_id r) l1 = []) as ->.
  { induction l1 as [|a l IH]; [done|]. rewrite filter_cons.
    destruct (decide (pt_id a = pt_id r)) as [He|_].
    - exfalso. apply (H12 (pt_id a)); [rewrite fmap_cons; by left|].
      rewrite He. by left.
    - apply IH. intros z Hz. apply H12. rewrite fmap_cons. by right. }
  simpl. by rewrite decide_True.
Qed.

Lemma full_flags_band i :
  1 <= i <= nBands cfg -> Z.land (nFullFlags cfg) (band_mask i) <> 0.
Proof.
  intros Hi. pose proof nBands_le_4 as H4. unfold nFullFlags.
  assert (nBands cfg = 1 \/ nBands cfg = 2 \/ nBands cfg = 3 \/ nBands cfg = 4)
    as [Hn | [Hn | [Hn | Hn]]] by lia; rewrite Hn in *;
    (assert (i = 1 \/ i = 2 \/ i = 3 \/ i = 4) as [-> | [-> | [-> | ->]]] by lia);
    try lia; vm_compute; discriminate.
Qed.

(** The loop of [WriteShiftedTile] that gathers the bands of a complete tile
    in the first cached tile. *)
Lemma gather_bands_spec nBand id (row : option PartialTile) db l :
  head (filter (fun r => pt_id r = id) (partial_tiles db)) = row ->
  NoDup l -> (forall i, i ∈ l -> 1 <= i <= nBands cfg) ->
  (forall i, i ∈ l -> i <> nBand ->
     exists r0 blob, row = Some r0 /\ pt_band r0 i = Some blob /\ length blob = B) ->
  forall st,
  m_hTempDB st = Some db ->
  (T + T <= length (m_pabyCachedTiles st))%nat ->
  exists st',
    gather_bands host cfg l nBand id T st = Some st'
    /\ m_hTempDB st' = Some db /\ same_meta st st'
    /\ m_asCachedTilesDesc st' = m_asCachedTilesDesc st
    /\ length (m_pabyCachedTiles st') = length (m_pabyCachedTiles st)
    /\ (forall j, (T <= j)%nat -> m_pabyCachedTiles st' !! j = m_pabyCachedTiles st !! j)
    /\ forall i, 1 <= i <= nBands cfg ->
         band st' 0 i
         = if decide (i ∈ l)
           then (if i =? nBand then band st T i
                 else default [] (row ≫= fun r0 => pt_band r0 i))
           else band st 0 i.
Proof.
  intros Hrow Hnd Hl Hblob. induction l as [|a l IH]; intros st Hdb Hlen.
  - exists st. split; [done|]. split; [done|]. split; [done|]. split; [done|].
    split; [done|]. split; [done|]. intros i Hi.
    destruct (decide (i ∈ [])) as [Hin|_]; [by apply elem_of_nil in Hin | done].
  - apply NoDup_cons in Hnd as [Ha Hnd].
    assert (Ha1 : 1 <= a <= nBands cfg) by (apply Hl; by left).
    pose proof (band_end 0 a Ha1) as Hend. simpl in Hend.
    (* the state after band [a] *)
    assert (Hstep : exists sta,
              gather_bands host cfg (a :: l) nBand id T st
              = gather_bands host cfg l nBand id T sta
              /\ m_hTempDB sta = Some db /\ same_meta st sta
              /\ m_asCachedTilesDesc sta = m_asCachedTilesDesc st
              /\ within (band_off cfg 0 (a - 1)) B (m_pabyCachedTiles st)
                   (m_pabyCachedTiles sta)
              /\ band sta 0 a
                 = if a =? nBand then band st T a
                   else default [] (row ≫= fun r0 => pt_band r0 a)).
    { simpl. destruct (Z.eqb_spec a nBand) as [->|Hne].
      - eexists. split; [reflexivity|]. simpl. split; [done|]. split; [done|].
        split; [done|]. split; [apply within_memcpy|].
        unfold band. simpl. apply buf_slice_memcpy.
        + apply buf_slice_length. pose proof (band_end T nBand Ha1). fold B. lia.
        + fold B. lia.
      - destruct (Hblob a) as (r0&blob&Hr0&Hpt&Hlb); [by left | done|].
        unfold exec. rewrite no_fault. simpl. rewrite Hdb, Hrow, Hr0.
        eexists. split; [reflexivity|]. simpl. split; [done|]. split; [done|].
        split; [done|]. split; [apply within_memcpy|].
        unfold band. simpl. rewrite Hpt. simpl. apply buf_slice_memcpy; [done|].
        fold B. lia. }
    destruct Hstep as (sta&Heq&Hdba&Hma&Hda&Hwa&Hba). rewrite Heq.
    assert (Hlena : length (m_pabyCachedTiles sta) = length (m_pabyCachedTiles st))
      by (by destruct Hwa).
    destruct (IH Hnd (fun i Hi => Hl i (list_elem_of_further _ _ _ Hi))
                (fun i Hi => Hblob i (list_elem_of_further _ _ _ Hi)) sta Hdba)
      as (st'&Hg&Hdb'&Hm'&Hd'&Hl'&Hhi'&Hb'); [by rewrite Hlena|].
    assert (HhiA : forall j, (T <= j)%nat ->
              m_pabyCachedTiles sta !! j = m_pabyCachedTiles st !! j).
    { intros j Hj. destruct Hwa as [_ Hout]. apply Hout. lia. }
    exists st'. split; [exact Hg|]. split; [exact Hdb'|]. split.
    { destruct Hm' as (?&?&?&?&?), Hma as (?&?&?&?&?). unfold same_meta.
      repeat split; congruence. }
    split; [congruence|]. split; [congruence|]. split.
    { intros j Hj. rewrite Hhi' by done. by apply HhiA. }
    intros i Hi. rewrite (Hb' i Hi).
    assert (HbT : band sta T i = band st T i).
    { unfold band. apply buf_slice_ext. intros j Hj. apply HhiA.
      unfold band_off in Hj. lia. }
    destruct (decide (i ∈ l)) as [Hil|Hil].
    + rewrite decide_True by (by right). by rewrite HbT.
    + destruct (decide (i = a)) as [->|Hne].
      * rewrite decide_True by (by left). exact Hba.
      * rewrite decide_False.
        2:{ intros Hin. apply elem_of_cons in Hin as [?|?]; contradiction. }
        unfold band. apply (within_band_other _ _ 0 i a); [lia | lia | done | done].
Qed.

Lemma WriteShiftedTile_cases nRow_ nCol_ nBand x y w h st :
  (m_hTempDB st = None -> sqlite3_open_ok host (sql_log st) = true) ->
  (forall db, m_hTempDB st = Some db -> partial_tiles_ok cfg db) ->
  1 <= nBand <= nBands cfg ->
  rect_in_tile cfg x y w h ->
  (2 * T <= length (m_pabyCachedTiles st))%nat ->
  (Z.lor (Z.shiftl (written_quadrants cfg x y w h) (4 * (nBand - 1)))
     (partial_flags cfg st nRow_ nCol_) <> nFullFlags cfg ->
   m_nLastSpaceCheckTimestamp st < 0
   \/ (forall log, bTryFreeing host cfg log = false) ->
   exists st1 db1 r1,
     WriteShiftedTile host cfg nRow_ nCol_ nBand x y w h st = (CE_None, st1)
     /\ m_hTempDB st1 = Some db1 /\ partial_tiles_ok cfg db1
     /\ hDB st1 = hDB st
     /\ length (m_pabyCachedTiles st1) = length (m_pabyCachedTiles st)
     /\ find_partial (m_nZoomLevel cfg) nRow_ nCol_ db1 = Some r1
     /\ (forall i, 1 <= i <= nBands cfg ->
           partial_band host cfg r1 i
           = if i =? nBand
             then merged_band cfg (expected st nRow_ nCol_ i) (band st 0 nBand) x y w h
             else expected st nRow_ nCol_ i)
     /\ forall nRow' nCol' i, (nRow', nCol') <> (nRow_, nCol_) ->
           match find_partial (m_nZoomLevel cfg) nRow' nCol' db1 with
           | Some r => partial_band host cfg r i
           | None => replicate B (fill_value host cfg)
           end = expected st nRow' nCol' i)
  /\ (Z.lor (Z.shiftl (written_quadrants cfg x y w h) (4 * (nBand - 1)))
        (partial_flags cfg st nRow_ nCol_) = nFullFlags cfg ->
      (forall db, m_hTempDB st = Some db ->
         find_partial (-1 - m_nZoomLevel cfg) nRow_ nCol_ db = None) ->
      exists stm db1,
        WriteShiftedTile host cfg nRow_ nCol_ nBand x y w h st
        = (let '(eErr, st4) := WriteTile host cfg stm in
           after_partial_flush host cfg eErr st4)
        /\ m_hTempDB stm = Some db1 /\ partial_tiles_ok cfg db1
        /\ find_partial (m_nZoomLevel cfg) nRow_ nCol_ db1 = None
        /\ same_meta st stm
        /\ desc0 (m_asCachedTilesDesc stm) = desc_all_dirty nRow_ nCol_
        /\ length (m_pabyCachedTiles stm) = length (m_pabyCachedTiles st)
        /\ forall i, 1 <= i <= nBands cfg ->
             band stm 0 i
             = if i =? nBand
               then merged_band cfg (expected st nRow_ nCol_ i) (band st 0 nBand)
                      x y w h
               else expected st nRow_ nCol_ i).
Proof.
  intros Hopen Hok Hband Hrect Hlen.
  destruct (open_temp_db_ok st Hopen Hok)
    as (st0&db0&Hopen0&Hdb0&Hok0&Hpix0&Hmeta0&Hrel).
  pose proof Hmeta0 as (HhDB0&Hct0&Hcnt0&Hinw0&Hts0).
  assert (Hdead0 : (forall db, m_hTempDB st = Some db ->
                      find_partial (-1 - m_nZoomLevel cfg) nRow_ nCol_ db = None) ->
                   find_partial (-1 - m_nZoomLevel cfg) nRow_ nCol_ db0 = None).
  { intros Hd. destruct (m_hTempDB st) as [db|]; [subst db0; by apply Hd|].
    unfold find_partial. by rewrite Hrel. }
  remember (find_partial (m_nZoomLevel cfg) nRow_ nCol_ db0) as found eqn:Hfound.
  assert (Hfl : partial_flags cfg st nRow_ nCol_
                = default 0 (pt_partial_flag <$> found)).
  { unfold partial_flags. rewrite Hfound. destruct (m_hTempDB st); [by subst db0|].
    unfold find_partial. by rewrite Hrel. }
  assert (Hexp0 : forall r c i, expected st r c i
                 = match find_partial (m_nZoomLevel cfg) r c db0 with
                   | Some r => partial_band host cfg r i
                   | None => replicate B (fill_value host cfg)
                   end).
  { intros r c i. unfold expected. destruct (m_hTempDB st); [by subst db0|].
    unfold find_partial. by rewrite Hrel. }
  assert (Hexp : forall i, expected st nRow_ nCol_ i
                 = match found with
                   | Some r => partial_band host cfg r i
                   | None => replicate B (fill_value host cfg)
                   end).
  { intros i. by rewrite Hexp0, Hfound. }
  rewrite Hfl. clear Hrel Hopen Hok.
  pose proof (written_quadrants_range cfg x y w h) as Hq.
  set (q := written_quadrants cfg x y w h) in *.
  assert (HT : cached_tile cfg 1 = T).
  { rewrite (cached_tile_eq cfg 1) by lia. fold T. lia. }
  (* the state before the band is loaded *)
  set (sta := set_sql_log (EvStmt (TmpSelectPartial (m_nZoomLevel cfg) nRow_ nCol_)
                             NoFault :: sql_log st0)
                (set_m_asCachedTilesDesc
                   (invalidate_desc_1_3 (m_asCachedTilesDesc st0)) st0)).
  remember (default 0 (pt_partial_flag <$> found)) as old eqn:Hold.
  remember (default {| pt_id := 0; pt_zoom_level := 0; pt_tile_column := 0;
                       pt_tile_row := 0; pt_tile_data_band := [];
                       pt_partial_flag := 0; pt_age := 0 |} found) as rbase eqn:Hrb.
  set (stc := load_band rbase old T sta nBand).
  assert (Hstc : match found with
                 | Some r =>
                     if Z.land old (band_mask nBand) =? 0
                     then FillEmptyTileSingleBand host cfg
                            (band_off cfg (cached_tile cfg 1) (nBand - 1)) sta
                     else set_m_pabyCachedTiles
                            (memcpy (m_pabyCachedTiles sta)
                               (band_off cfg (cached_tile cfg 1) (nBand - 1))
                               (default [] (pt_band r nBand)) (nBlockPixels cfg)) sta
                 | None => FillEmptyTileSingleBand host cfg
                             (band_off cfg (cached_tile cfg 1) (nBand - 1)) sta
                 end = stc).
  { unfold stc, load_band. rewrite HT, Hold, Hrb.
    by destruct found as [r|]. }
  set (std := set_m_pabyCachedTiles
                (copy_rect cfg (cached_tile cfg 1) 0 nBand x y w h
                   (m_pabyCachedTiles stc)) stc).
  eassert (Heq : WriteShiftedTile host cfg nRow_ nCol_ nBand x y w h st = _).
  { unfold WriteShiftedTile. rewrite Hopen0. simpl negb. cbv iota.
    unfold exec at 1. rewrite no_fault. simpl. rewrite Hdb0.
    rewrite <- Hfound. fold sta. rewrite <- Hold.
    change (m_pabyCachedTiles st0) with (m_pabyCachedTiles sta).
    rewrite Hstc. fold q. fold std. reflexivity. }
  rewrite Heq. clear Heq.
  assert (Hframe : m_hTempDB stc = Some db0 /\ same_meta st stc
                   /\ m_asCachedTilesDesc stc
                      = invalidate_desc_1_3 (m_asCachedTilesDesc st0)).
  { unfold stc, load_band, FillEmptyTileSingleBand, FillBuffer, same_meta.
    destruct (_ =? 0); [destruct (_ || _)|]; simpl;
      by rewrite Hdb0, HhDB0, Hct0, Hcnt0, Hinw0, Hts0. }
  destruct Hframe as (Hdbc&Hmetac&Hdescc).
  pose proof Hmetac as (HhDBc&Hctc&Hcntc&Hinwc&Htsc).
  pose proof (bands_fit cfg Hbands) as Hfit. cbv zeta in Hfit. fold B in Hfit.
  fold T in Hfit.
  assert (HnB : (Z.to_nat nBand * B <= T)%nat).
  { assert (Z.to_nat nBand * B <= Z.to_nat (nBands cfg) * B)%nat
      by (apply Nat.mul_le_mono_r; lia). lia. }
  assert (Hrowok : forall r, found = Some r -> partial_row_ok cfg r /\ 0 < pt_id r
                                               /\ r ∈ partial_tiles db0).
  { intros r Hr. rewrite Hfound in Hr. apply find_partial_some in Hr as [Hin _].
    destruct Hok0 as (_&_&_&Hrows). destruct (Hrows r Hin) as [? ?].
    split; [done|]. split; [lia | done]. }
  assert (Holdc : forall i, 1 <= i <= nBands cfg -> Z.land old (band_mask i) <> 0 ->
            exists blob, pt_band rbase i = Some blob /\ length blob = B).
  { intros i Hi Hnz. rewrite Hrb. rewrite Hold in Hnz.
    destruct found as [r|]; simpl in *.
    - destruct (Hrowok r eq_refl) as [[_ Hr] _]. by apply Hr.
    - rewrite ?Z.land_0_l in Hnz. by destruct Hnz. }
  assert (Hexp' : forall i, expected st nRow_ nCol_ i
                  = if Z.land old (band_mask i) =? 0
                    then replicate B (fill_value host cfg)
                    else default [] (pt_band rbase i)).
  { intros i. rewrite Hexp, Hold, Hrb. by destruct found as [r|]. }
  set (blob := buf_slice (m_pabyCachedTiles std)
                 (band_off cfg (cached_tile cfg 1) (nBand - 1)) (nBlockPixels cfg)).
  assert (Hlena : (T + T <= length (m_pabyCachedTiles sta))%nat).
  { unfold sta. simpl. rewrite Hpix0. lia. }
  pose proof (load_band_within rbase old T sta nBand) as Hw. fold stc in Hw.
  assert (Hblob : blob = merged_band cfg (expected st nRow_ nCol_ nBand)
                           (band st 0 nBand) x y w h
                  /\ length blob = B
                  /\ length (m_pabyCachedTiles std) = length (m_pabyCachedTiles st)).
  { destruct (copy_rect_spec cfg T nBand x y w h Hrect ltac:(lia) HnB
                (m_pabyCachedTiles stc)) as (Hl&Hs&_).
    { destruct Hw as [-> _]. fold B. lia. }
    assert (Hlc : length (m_pabyCachedTiles stc) = length (m_pabyCachedTiles st)).
    { destruct Hw as [-> _]. unfold sta. simpl. by rewrite Hpix0. }
    assert (Hm : blob = merged_band cfg (expected st nRow_ nCol_ nBand)
                          (band st 0 nBand) x y w h).
    { unfold blob, std. simpl. rewrite HT, Hs. f_equal.
      - rewrite Hexp'.
        apply (load_band_spec rbase old T sta nBand Hband Hlena (Holdc nBand Hband)).
      - unfold band. rewrite <- Hpix0.
        change (m_pabyCachedTiles st0) with (m_pabyCachedTiles sta).
        apply buf_slice_ext. intros j Hj. destruct Hw as [_ Hout]. apply Hout.
        pose proof (band_below (Z.to_nat (nBand - 1)) (Z.to_nat nBand) B ltac:(lia)).
        unfold band_off, B in *.
        set (X := (Z.to_nat (nBand - 1) * nBlockPixels cfg)%nat) in *.
        set (Y := (Z.to_nat nBand * nBlockPixels cfg)%nat) in *.
        clearbody X Y. lia. }
    split; [exact Hm|]. split.
    - rewrite Hm. unfold merged_band. rewrite length_imap, Hexp'.
      destruct (Z.eqb_spec (Z.land old (band_mask nBand)) 0) as [_|Hnz].
      + apply length_replicate.
      + destruct (Holdc nBand Hband Hnz) as (b&->&Hb). exact Hb.
    - unfold std. simpl. rewrite HT, Hl. exact Hlc. }
  destruct Hblob as (Hblob&Hbl&Hld).
  split.
  - intros Hflags Hidle.
    destruct (Z.eqb_spec (Z.lor (Z.shiftl q (4 * (nBand - 1))) old) (nFullFlags cfg))
      as [He|_]; [contradiction|].
    assert (Hfin : forall stmt (change : TempDB -> TempDB) S0 r1,
              m_hTempDB S0 = Some db0 -> hDB S0 = hDB st ->
              m_nLastSpaceCheckTimestamp S0 = m_nLastSpaceCheckTimestamp st ->
              length (m_pabyCachedTiles S0) = length (m_pabyCachedTiles st) ->
              partial_tiles_ok cfg (change db0) ->
              find_partial (m_nZoomLevel cfg) nRow_ nCol_ (change db0) = Some r1 ->
              exists st3 st1,
                tmp_exec host stmt change S0 = (NoFault, st3)
                /\ after_partial_flush host cfg CE_None st3 = (CE_None, st1)
                /\ m_hTempDB st1 = Some (change db0) /\ hDB st1 = hDB st
                /\ length (m_pabyCachedTiles st1) = length (m_pabyCachedTiles st)).
    { intros stmt change S0 r1 H1 H2 H3 H4 H5 H6.
      rewrite (tmp_exec_ok stmt change S0 db0 H1) by apply H5.
      set (st3 := set_m_hTempDB _ _).
      destruct (partial_flush_idle st3) as [ts Hpf].
      { destruct Hidle as [Hi|Hi]; [left | by right]. unfold st3. simpl. by rewrite H3. }
      eexists _, _. split; [reflexivity|]. unfold after_partial_flush. rewrite Hpf.
      split; [reflexivity|]. simpl. by rewrite H2, H4. }
    match goal with
    | |- context [let '(nExistingId, st2) := ?e in _] =>
        assert (Hsel : exists id l,
                  e = (id, set_sql_log l std)
                  /\ ((id = 0 /\ found = None)
                      \/ exists r0, r0 ∈ partial_tiles db0 /\ pt_id r0 = id /\ 0 < id
                                    /\ (found = Some r0
                                        \/ (found = None /\ pt_partial_flag r0 = 0))))
    end.
    { assert (Hpos : forall r0, r0 ∈ partial_tiles db0 -> 0 < pt_id r0).
      { intros r0 Hr0. destruct Hok0 as (_&_&_&Hrows). destruct (Hrows r0 Hr0). lia. }
      destruct found as [r|] eqn:Hf.
      + destruct (Hrowok r eq_refl) as (_&Hp&Hin). simpl.
        destruct (Z.eqb_spec (pt_id r) 0); [lia|].
        exists (pt_id r), (sql_log std). split; [reflexivity|]. right. exists r.
        repeat split; try done. by left.
      + simpl.
        match goal with
        | |- context [select_id host ?s ?P std] =>
            destruct (select_id_spec s P std db0 Hdbc) as (id1&Hs1&Hid1); rewrite Hs1
        end.
        destruct (Z.eqb_spec id1 0) as [->|Hne].
        * match goal with
          | |- context [select_id host ?s ?P ?S] =>
              destruct (select_id_spec s P S db0 Hdbc) as (id2&Hs2&Hid2); rewrite Hs2
          end.
          eexists id2, _. split; [reflexivity|].
          destruct Hid2 as [->|(r0&Hr0&<-&HP)]; [by left | right].
          exists r0. split; [done|]. split; [done|]. split; [by apply Hpos|].
          right. split; [done|]. by apply Z.eqb_eq in HP.
        * eexists id1, _. split; [reflexivity|].
          destruct Hid1 as [->|(r0&Hr0&<-&HP)]; [done | right].
          exists r0. split; [done|]. split; [done|]. split; [by apply Hpos|].
          right. split; [done|].
          apply andb_prop in HP as [HP _]. apply andb_prop in HP as [HP _].
          apply andb_prop in HP as [HP _]. by apply Z.eqb_eq in HP. }
    destruct Hsel as (id&l&->&Hid).
    set (S0 := set_m_nAge (m_nAge (set_sql_log l std) + 1) (set_sql_log l std)).
    assert (HS0 : m_hTempDB S0 = Some db0 /\ hDB S0 = hDB st
                  /\ m_nLastSpaceCheckTimestamp S0 = m_nLastSpaceCheckTimestamp st
                  /\ length (m_pabyCachedTiles S0) = length (m_pabyCachedTiles st))
      by (by unfold S0; simpl).
    destruct HS0 as (S1&S2&S3&S4).
    change (buf_slice (m_pabyCachedTiles (set_sql_log l std))
              (band_off cfg (cached_tile cfg 1) (nBand - 1)) (nBlockPixels cfg))
      with blob.
    set (age := m_nAge (set_sql_log l std)).
    set (fl := Z.lor (Z.shiftl q (4 * (nBand - 1))) old).
    destruct Hid as [[-> Hnone] | (r0&Hin0&<-&Hpos&Hf0)].
    + change (0 =? 0) with true. cbv iota.
      set (new := {| pt_id := pt_next_id db0; pt_zoom_level := m_nZoomLevel cfg;
                     pt_tile_column := nCol_; pt_tile_row := nRow_;
                     pt_tile_data_band := set_band [None; None; None; None] nBand blob;
                     pt_partial_flag := fl; pt_age := age |}).
      assert (Hold0 : old = 0) by (by rewrite Hold, Hnone).
      destruct (written_row new [None; None; None; None] nBand blob q old)
        as [Hrok Hpb]; [done.. | |].
      { intros i Hi Hnz. rewrite Hold0, Z.land_0_l in Hnz. by destruct Hnz. }
      destruct (insert_row_ok cfg db0 new (m_nZoomLevel cfg) nRow_ nCol_)
        as [Hok1 Hfind1]; [done | by rewrite <- Hfound | done..|].
      match goal with
      | |- context [tmp_exec host ?s ?c S0] =>
          destruct (Hfin s c S0 new S1 S2 S3 S4 Hok1 Hfind1)
            as (st3&st1&Htmp&Hapf&F1&F2&F3); rewrite Htmp
      end.
      exists st1, {| partial_tiles := partial_tiles db0 ++ [new];
                     pt_next_id := pt_next_id db0 + 1 |}, new. split; [exact Hapf|]. split; [exact F1|].
      split; [exact Hok1|]. split; [exact F2|]. split; [exact F3|].
      split; [exact Hfind1|]. split.
      * intros i Hi. rewrite (Hpb i Hi).
        destruct (Z.eqb_spec i nBand) as [->|_]; [exact Hblob|].
        rewrite Hexp', Hold0. by rewrite Z.land_0_l.
      * intros nRow' nCol' i Hne. rewrite Hexp0.
        rewrite (insert_row_others db0 new); [done|].
        unfold pt_key, new. simpl. congruence.
    + destruct (Z.eqb_spec (pt_id r0) 0) as [?|_]; [lia|].
      set (g := fun r : PartialTile =>
                  {| pt_id := pt_id r; pt_zoom_level := m_nZoomLevel cfg;
                     pt_tile_column := nCol_; pt_tile_row := nRow_;
                     pt_tile_data_band := set_band (pt_tile_data_band r) nBand blob;
                     pt_partial_flag := fl; pt_age := age |}).
      assert (Hr0ok : partial_row_ok cfg r0).
      { destruct Hok0 as (_&_&_&Hrows). by destruct (Hrows r0 Hin0). }
      assert (Hcase : (rbase = r0 /\ old = pt_partial_flag r0) \/ old = 0).
      { destruct Hf0 as [Hf0|[Hf0 _]]; rewrite Hf0 in Hold, Hrb; [left | right]; done. }
      destruct (written_row (g r0) (pt_tile_data_band r0) nBand blob q old)
        as [Hrok Hpb]; [done.. | by destruct Hr0ok | done | |].
      { intros i Hi Hnz. destruct Hcase as [[_ Ho]|Ho].
        + destruct Hr0ok as [_ Hb]. rewrite Ho in Hnz.
          destruct (Hb i Hi Hnz) as (b&Hpt&Hlb). exists b. split; [|done].
          unfold pt_band in Hpt. by repeat case_match; simplify_eq.
        + rewrite Ho, Z.land_0_l in Hnz. by destruct Hnz. }
      destruct (update_row_ok cfg db0 r0 g (m_nZoomLevel cfg) nRow_ nCol_)
        as [Hok1 Hfind1]; [done | done | | done..|].
      { destruct Hf0 as [Hf0|[Hf0 _]]; rewrite Hf0 in Hfound; symmetry in Hfound.
        + left. by apply find_partial_some in Hfound as [_ ?].
        + by right. }
      match goal with
      | |- context [tmp_exec host ?s ?c S0] =>
          destruct (Hfin s c S0 (g r0) S1 S2 S3 S4 Hok1 Hfind1)
            as (st3&st1&Htmp&Hapf&F1&F2&F3); rewrite Htmp
      end.
      exists st1, (on_rows (map (fun r => if pt_id r =? pt_id r0 then g r else r)) db0),
        (g r0). split; [exact Hapf|]. split; [exact F1|].
      split; [exact Hok1|]. split; [exact F2|]. split; [exact F3|].
      split; [exact Hfind1|]. split.
      * intros i Hi. rewrite (Hpb i Hi).
        destruct (Z.eqb_spec i nBand) as [->|_]; [exact Hblob|]. rewrite Hexp'.
        destruct Hcase as [[-> _]|Ho]; [done|]. by rewrite Ho, Z.land_0_l.
      * intros nRow' nCol' i Hne. rewrite Hexp0.
        rewrite (update_row_others cfg db0 r0 g (m_nZoomLevel cfg) nRow' nCol' Hok0 Hin0).
        2:{ unfold pt_key, g. simpl. congruence. }
        destruct (decide (pt_key r0 = (m_nZoomLevel cfg, nCol', nRow'))) as [Hk|Hk];
          [|done].
        assert (Hf : find_partial (m_nZoomLevel cfg) nRow' nCol' db0 = Some r0).
        { apply list_elem_of_split in Hin0 as (l1&l2&Hsplit).
          destruct db0 as [rows nid]. simpl in Hsplit. subst rows.
          apply find_partial_app; [|done].
          destruct Hok0 as (_&_&Hkeys&_). simpl in Hkeys.
          rewrite fmap_app, fmap_cons in Hkeys.
          apply NoDup_app in Hkeys as (_&Hk12&_).
          intros x0 Hx0 He. apply (Hk12 (pt_key x0)); [by apply list_elem_of_fmap_2|].
          rewrite He, <- Hk. by left. }
        rewrite Hf. destruct Hf0 as [Hf0|[_ Hz]].
        -- exfalso. rewrite Hf0 in Hfound. symmetry in Hfound.
          apply find_partial_some in Hfound as [_ Hk0]. rewrite Hk in Hk0.
          apply Hne. congruence.
        -- unfold partial_band. by rewrite Hz, Z.land_0_l.

  - intros Hfull Hdead. specialize (Hdead0 Hdead).
    rewrite Hfull, Z.eqb_refl, HT.
    assert (Hothers : forall i, 1 <= i <= nBands cfg -> i <> nBand ->
              Z.land old (band_mask i) <> 0).
    { intros i Hi Hne Hz. apply (full_flags_band i Hi).
      rewrite <- Hfull, flags_of_other_band; [exact Hz | lia..]. }
    assert (Hbase : forall i, 1 <= i <= nBands cfg -> i <> nBand ->
              found = Some rbase).
    { intros i Hi Hne. pose proof (Hothers i Hi Hne) as Hnz. rewrite Hold in Hnz.
      rewrite Hrb. destruct found as [r|]; [done|]. simpl in Hnz.
      rewrite ?Z.land_0_l in Hnz. by destruct Hnz. }
    assert (Hpos : forall r0, r0 ∈ partial_tiles db0 -> 0 < pt_id r0).
    { intros r0 Hr0. destruct Hok0 as (_&_&_&Hrows). destruct (Hrows r0 Hr0). lia. }
    set (id := default 0 (pt_id <$> found)).
    assert (Hhead : head (filter (fun r => pt_id r = id) (partial_tiles db0)) = found).
    { unfold id. destruct found as [r|] eqn:Hf; simpl.
      - destruct (Hrowok r eq_refl) as (_&_&Hin). apply find_by_id; [|done].
        by destruct Hok0 as (_&?&_).
      - destruct (head _) as [r0|] eqn:Hh; [|done]. apply head_Some_elem_of in Hh.
        apply list_elem_of_filter in Hh as [Hz Hin]. pose proof (Hpos r0 Hin). lia. }
    destruct (gather_bands_spec nBand id found db0 (seqZ 1 (nBands cfg)) Hhead
                (NoDup_seqZ _ _)) with (st := std)
      as (stg&Hg&Hdbg&Hmg&Hdg&Hlg&Hhig&Hbg).
    { intros i Hi. apply elem_of_seqZ in Hi. lia. }
    { intros i Hi Hne. apply elem_of_seqZ in Hi.
      assert (Hi' : 1 <= i <= nBands cfg) by lia.
      destruct (Holdc i Hi' (Hothers i Hi' Hne)) as (b&Hb&Hlb).
      exists rbase, b. split; [by apply (Hbase i) | done]. }
    { exact Hdbc. }
    { rewrite Hld. lia. }
    rewrite Hg.
    set (stg' := set_m_asCachedTilesDesc _ stg).
    assert (Hdbg' : m_hTempDB stg' = Some db0) by exact Hdbg.
    assert (Hmark : exists db1,
              partial_tiles_ok cfg db1
              /\ find_partial (m_nZoomLevel cfg) nRow_ nCol_ db1 = None
              /\ tmp_exec host (TmpMarkDead id)
                   (on_rows (map (fun r => if pt_id r =? id then pt_dead cfg r else r)))
                   stg'
                 = (NoFault,
                    set_m_hTempDB (Some db1)
                      (set_sql_log (EvStmt (TmpMarkDead id) NoFault :: sql_log stg')
                         stg'))).
    { unfold id. destruct found as [r|] eqn:Hf; simpl.
      - destruct (Hrowok r eq_refl) as (Hrok&_&Hin).
        assert (Hkey : pt_key r = (m_nZoomLevel cfg, nCol_, nRow_)).
        { symmetry in Hfound. by apply find_partial_some in Hfound as [_ ?]. }
        destruct (update_row_ok cfg db0 r (pt_dead cfg) (-1 - m_nZoomLevel cfg)
                    nRow_ nCol_ Hok0 Hin) as [Hok1 _].
        { by right. }
        { reflexivity. }
        { unfold pt_key in *. simpl. congruence. }
        { destruct Hrok as [Hl4 _]. split; [exact Hl4|]. intros i Hi Hnz.
          simpl in Hnz. rewrite ?Z.land_0_l in Hnz. by destruct Hnz. }
        pose proof (update_row_others cfg db0 r (pt_dead cfg) (m_nZoomLevel cfg)
                      nRow_ nCol_ Hok0 Hin) as Hoth. cbv zeta in Hoth.
        rewrite decide_True in Hoth by done.
        eexists. split; [exact Hok1|]. split.
        + apply Hoth. unfold pt_key. simpl. intros He. injection He. lia.
        + rewrite (tmp_exec_ok _ _ stg' db0 Hdbg') by (by destruct Hok1 as (_&_&?&_)).
          reflexivity.
      - assert (Hsame : on_rows (map (fun r => if pt_id r =? 0 then pt_dead cfg r
                                               else r)) db0 = db0).
        { destruct db0 as [rows nid]. unfold on_rows. simpl. f_equal.
          apply map_other_ids. intros r0 Hr0 He. pose proof (Hpos r0 Hr0). lia. }
        exists db0. split; [done|]. split; [by rewrite <- Hfound|].
        rewrite (tmp_exec_ok _ _ stg' db0 Hdbg') by (rewrite Hsame; by destruct Hok0 as (_&_&?&_)).
        by rewrite Hsame. }
    destruct Hmark as (db1&Hok1&Hfind1&Htmp). rewrite Htmp.
    eexists _, db1. split; [reflexivity|]. simpl. split; [done|]. split; [done|].
    split; [done|]. split.
    { destruct Hmg as (E1&E2&E3&E4&E5), Hmetac as (F1&F2&F3&F4&F5).
      unfold std in E1, E2, E3, E4, E5. simpl in E1, E2, E3, E4, E5.
      unfold same_meta. simpl. repeat split; congruence. }
    split; [done|]. split; [by rewrite Hlg|].
    intros i Hi.
    change (band stg 0 i
            = if i =? nBand
              then merged_band cfg (expected st nRow_ nCol_ i) (band st 0 nBand) x y w h
              else expected st nRow_ nCol_ i).
    rewrite (Hbg i Hi), decide_True by (apply elem_of_seqZ; lia).
    destruct (Z.eqb_spec i nBand) as [->|Hne].
    + rewrite <- Hblob. unfold band, blob. by rewrite HT.
    + rewrite Hexp'. destruct (Z.eqb_spec (Z.land old (band_mask i)) 0) as [Hz|_].
      { by destruct (Hothers i Hi Hne). }
      by rewrite (Hbase i Hi Hne).
Qed.

(** When the tile stays partial. *)
Lemma WriteShiftedTile_partial nRow_ nCol_ nBand x y w h st :
  (m_hTempDB st = None -> sqlite3_open_ok host (sql_log st) = true) ->
  (forall db, m_hTempDB st = Some db -> partial_tiles_ok cfg db) ->
  1 <= nBand <= nBands cfg ->
  rect_in_tile cfg x y w h ->
  Z.lor (Z.shiftl (written_quadrants cfg x y w h) (4 * (nBand - 1)))
    (partial_flags cfg st nRow_ nCol_) <> nFullFlags cfg ->
  m_nLastSpaceCheckTimestamp st < 0 \/ (forall log, bTryFreeing host cfg log = false) ->
  (2 * T <= length (m_pabyCachedTiles st))%nat ->
  exists st1 db1 r1,
    WriteShiftedTile host cfg nRow_ nCol_ nBand x y w h st = (CE_None, st1)
    /\ m_hTempDB st1 = Some db1 /\ partial_tiles_ok cfg db1
    /\ hDB st1 = hDB st
    /\ length (m_pabyCachedTiles st1) = length (m_pabyCachedTiles st)
    /\ find_partial (m_nZoomLevel cfg) nRow_ nCol_ db1 = Some r1
    /\ (forall i, 1 <= i <= nBands cfg ->
          partial_band host cfg r1 i
          = if i =? nBand
            then merged_band cfg (expected st nRow_ nCol_ i) (band st 0 nBand) x y w h
            else expected st nRow_ nCol_ i)
    /\ forall nRow' nCol' i, (nRow', nCol') <> (nRow_, nCol_) ->
          match find_partial (m_nZoomLevel cfg) nRow' nCol' db1 with
          | Some r => partial_band host cfg r i
          | None => replicate B (fill_value host cfg)
          end = expected st nRow' nCol' i.
Proof.
  intros Hopen Hok Hband Hrect Hflags Hidle Hlen.
  destruct (WriteShiftedTile_cases nRow_ nCol_ nBand x y w h st Hopen Hok Hband
              Hrect Hlen) as [Hp _].
  exact (Hp Hflags Hidle).
Qed.

(** X25: A band of a block written to a tile that stays partial: [WriteShiftedTile]
    succeeds and keeps the table of partial tiles well formed, and [ReadTile]
    then returns for the tile the bands it returned before, but for the
    rectangle of band [nBand], which holds the pixels of the first cached
    tile.  The tile has no row in the tile table, the temporary database can
    be created when it does not exist, the tile is not complete after the
    write and the partial flush finds nothing to free. *)
Theorem partial_tile_write_then_read nRow_ nCol_ nBand x y w h p st :
  0 <= nRow_ < m_nTileMatrixHeight cfg -> 0 <= nCol_ < m_nTileMatrixWidth cfg ->
  tiles (hDB st) !! tile_key host cfg nRow_ nCol_ = None ->
  (m_hTempDB st = None -> sqlite3_open_ok host (sql_log st) = true) ->
  (forall db, m_hTempDB st = Some db -> partial_tiles_ok cfg db) ->
  1 <= nBand <= nBands cfg ->
  rect_in_tile cfg x y w h ->
  Z.lor (Z.shiftl (written_quadrants cfg x y w h) (4 * (nBand - 1)))
    (partial_flags cfg st nRow_ nCol_) <> nFullFlags cfg ->
  m_nLastSpaceCheckTimestamp st < 0 \/ (forall log, bTryFreeing host cfg log = false) ->
  (2 * cache_tile_samples cfg <= length (m_pabyCachedTiles st))%nat ->
  (p + cache_tile_samples cfg <= length (m_pabyCachedTiles st))%nat ->
  exists st1 db1 stA stB,
    WriteShiftedTile host cfg nRow_ nCol_ nBand x y w h st = (CE_None, st1)
    /\ m_hTempDB st1 = Some db1 /\ partial_tiles_ok cfg db1
    /\ ReadTileAt host cfg nRow_ nCol_ p st = (true, false, stA)
    /\ ReadTileAt host cfg nRow_ nCol_ p st1 = (true, false, stB)
    /\ forall i, 1 <= i <= nBands cfg ->
         buf_slice (m_pabyCachedTiles stB) (band_off cfg p (i - 1)) (nBlockPixels cfg)
         = if i =? nBand
           then merged_band cfg
                  (buf_slice (m_pabyCachedTiles stA) (band_off cfg p (i - 1))
                     (nBlockPixels cfg))
                  (buf_slice (m_pabyCachedTiles st) (band_off cfg 0 (nBand - 1))
                     (nBlockPixels cfg))
                  x y w h
           else buf_slice (m_pabyCachedTiles stA) (band_off cfg p (i - 1))
                  (nBlockPixels cfg).
Proof.
  intros Hr Hc Hrow Hopen Hok Hband Hrect Hflags Hidle Hlen Hp.
  destruct (WriteShiftedTile_partial nRow_ nCol_ nBand x y w h st Hopen Hok Hband
              Hrect Hflags Hidle Hlen)
    as (st1&db1&r1&Hw&Hdb1&Hok1&HhDB1&Hlen1&Hfind1&Hpb&_).
  destruct (ReadTileAt_partial nRow_ nCol_ p st Hr Hc Hrow Hok Hp) as (stA&HA&HbA).
  destruct (ReadTileAt_partial nRow_ nCol_ p st1 Hr Hc) as (stB&HB&HbB).
  { by rewrite HhDB1. }
  { intros db Hdb. rewrite Hdb1 in Hdb. by simplify_eq. }
  { by rewrite Hlen1. }
  exists st1, db1, stA, stB. repeat (split; [done|]).
  intros i Hi. specialize (HbA i Hi). specialize (HbB i Hi).
  unfold band, B in HbA, HbB. rewrite HbB, HbA.
  unfold expected at 1. rewrite Hdb1, Hfind1. apply (Hpb i Hi).
Qed.

(** X26: The same write leaves what [ReadTile] returns for the other tiles that
    have no row in the tile table. *)
Theorem partial_tile_write_keeps_other_tiles nRow_ nCol_ nBand x y w h
  nRow' nCol' p st :
  (m_hTempDB st = None -> sqlite3_open_ok host (sql_log st) = true) ->
  (forall db, m_hTempDB st = Some db -> partial_tiles_ok cfg db) ->
  1 <= nBand <= nBands cfg ->
  rect_in_tile cfg x y w h ->
  Z.lor (Z.shiftl (written_quadrants cfg x y w h) (4 * (nBand - 1)))
    (partial_flags cfg st nRow_ nCol_) <> nFullFlags cfg ->
  m_nLastSpaceCheckTimestamp st < 0 \/ (forall log, bTryFreeing host cfg log = false) ->
  (2 * cache_tile_samples cfg <= length (m_pabyCachedTiles st))%nat ->
  (nRow', nCol') <> (nRow_, nCol_) ->
  0 <= nRow' < m_nTileMatrixHeight cfg -> 0 <= nCol' < m_nTileMatrixWidth cfg ->
  tiles (hDB st) !! tile_key host cfg nRow' nCol' = None ->
  (p + cache_tile_samples cfg <= length (m_pabyCachedTiles st))%nat ->
  exists st1 stA stB,
    WriteShiftedTile host cfg nRow_ nCol_ nBand x y w h st = (CE_None, st1)
    /\ ReadTileAt host cfg nRow' nCol' p st = (true, false, stA)
    /\ ReadTileAt host cfg nRow' nCol' p st1 = (true, false, stB)
    /\ forall i, 1 <= i <= nBands cfg ->
         buf_slice (m_pabyCachedTiles stB) (band_off cfg p (i - 1)) (nBlockPixels cfg)
         = buf_slice (m_pabyCachedTiles stA) (band_off cfg p (i - 1))
             (nBlockPixels cfg).
Proof.
  intros Hopen Hok Hband Hrect Hflags Hidle Hlen Hne Hr Hc Hrow Hp.
  destruct (WriteShiftedTile_partial nRow_ nCol_ nBand x y w h st Hopen Hok Hband
              Hrect Hflags Hidle Hlen)
    as (st1&db1&r1&Hw&Hdb1&Hok1&HhDB1&Hlen1&_&_&Hothers).
  destruct (ReadTileAt_partial nRow' nCol' p st Hr Hc Hrow Hok Hp) as (stA&HA&HbA).
  destruct (ReadTileAt_partial nRow' nCol' p st1 Hr Hc) as (stB&HB&HbB).
  { by rewrite HhDB1. }
  { intros db Hdb. rewrite Hdb1 in Hdb. by simplify_eq. }
  { by rewrite Hlen1. }
  exists st1, stA, stB. repeat (split; [done|]).
  intros i Hi. specialize (HbA i Hi). specialize (HbB i Hi).
  unfold band, B in HbA, HbB. rewrite HbB, HbA.
  unfold expected at 1. rewrite Hdb1. apply (Hothers nRow' nCol' i Hne).
Qed.

Lemma slice_sub (a b : list Z) (p q n k m : nat) :
  buf_slice a p n = buf_slice b q n -> (k + m <= n)%nat ->
  buf_slice a (p + k) m = buf_slice b (q + k) m.
Proof.
  intros H Hk. apply list_eq. intros i. destruct (decide (i < m)%nat) as [Hi|Hi].
  - rewrite !buf_slice_lookup by done.
    assert (Hl : buf_slice a p n !! (k + i)%nat = buf_slice b q n !! (k + i)%nat)
      by (by rewrite H).
    rewrite !buf_slice_lookup in Hl by lia.
    replace (p + k + i)%nat with (p + (k + i))%nat by lia.
    replace (q + k + i)%nat with (q + (k + i))%nat by lia. exact Hl.
  - unfold buf_slice. by rewrite !lookup_take_ge by lia.
Qed.

(** X27: The write that completes a partial tile of an RGB dataset stored as PNG
    through a codec that loses nothing: [WriteShiftedTile] gathers the bands,
    retires the row of partial_tiles and writes the tile to the tile table,
    and succeeds; [ReadTile] then returns for the tile the bands it returned
    before, but for the rectangle of band [nBand], which holds the pixels of
    the first cached tile.  The tile lies inside the raster and had no row in
    the tile table, and no retired row of partial_tiles has its key. *)
Theorem partial_tile_completed nRow_ nCol_ nBand x y w h p st :
  lossless_png host -> (forall k r, m_osWHERE host k r = true) ->
  m_eDT cfg = GDT_Byte -> m_eTF cfg = GPKG_TF_PNG -> nBands cfg = 3 ->
  bUpdate cfg = true ->
  0 <= nRow_ < m_nTileMatrixHeight cfg -> 0 <= nCol_ < m_nTileMatrixWidth cfg ->
  0 <= tile_nXOff cfg nCol_ <= nRasterXSize cfg - nBlockXSize cfg ->
  0 <= tile_nYOff cfg nRow_ <= nRasterYSize cfg - nBlockYSize cfg ->
  0 < nBlockXSize cfg -> 0 < nBlockYSize cfg ->
  tiles (hDB st) !! tile_key host cfg nRow_ nCol_ = None ->
  (forall db, m_hTempDB st = Some db ->
     partial_tiles_ok cfg db
     /\ find_partial (-1 - m_nZoomLevel cfg) nRow_ nCol_ db = None) ->
  1 <= nBand <= nBands cfg ->
  rect_in_tile cfg x y w h ->
  Z.lor (Z.shiftl (written_quadrants cfg x y w h) (4 * (nBand - 1)))
    (partial_flags cfg st nRow_ nCol_) = nFullFlags cfg ->
  m_poCT st = None -> 0 <= m_nTileInsertionCount st < 1000 ->
  m_bInWriteTile st = false ->
  m_nLastSpaceCheckTimestamp st < 0 \/ (forall log, bTryFreeing host cfg log = false) ->
  (2 * cache_tile_samples cfg <= length (m_pabyCachedTiles st))%nat ->
  (p + cache_tile_samples cfg <= length (m_pabyCachedTiles st))%nat ->
  exists st1 db1 stA stB,
    WriteShiftedTile host cfg nRow_ nCol_ nBand x y w h st = (CE_None, st1)
    /\ m_hTempDB st1 = Some db1 /\ partial_tiles_ok cfg db1
    /\ find_partial (m_nZoomLevel cfg) nRow_ nCol_ db1 = None
    /\ ReadTileAt host cfg nRow_ nCol_ p st = (true, false, stA)
    /\ ReadTileAt host cfg nRow_ nCol_ p st1 = (true, false, stB)
    /\ forall i, 1 <= i <= nBands cfg ->
         buf_slice (m_pabyCachedTiles stB) (band_off cfg p (i - 1)) (nBlockPixels cfg)
         = if i =? nBand
           then merged_band cfg
                  (buf_slice (m_pabyCachedTiles stA) (band_off cfg p (i - 1))
                     (nBlockPixels cfg))
                  (buf_slice (m_pabyCachedTiles st) (band_off cfg 0 (nBand - 1))
                     (nBlockPixels cfg))
                  x y w h
           else buf_slice (m_pabyCachedTiles stA) (band_off cfg p (i - 1))
                  (nBlockPixels cfg).
Proof.
  intros codec no_filter HDT HTF H3 Hupd Hr Hc Hx Hy HBX HBY Hrow Hdb Hband Hrect
    Hfull Hct Hcnt Hinw Hidle Hlen Hp.
  assert (Hok : forall db, m_hTempDB st = Some db -> partial_tiles_ok cfg db)
    by (intros db Hd; by destruct (Hdb db Hd)).
  assert (Hdead : forall db, m_hTempDB st = Some db ->
            find_partial (-1 - m_nZoomLevel cfg) nRow_ nCol_ db = None)
    by (intros db Hd; by destruct (Hdb db Hd)).
  pose proof (written_quadrants_range cfg x y w h) as Hq.
  assert (Hopen : m_hTempDB st = None -> sqlite3_open_ok host (sql_log st) = true).
  { intros Hnone. exfalso. unfold partial_flags in Hfull. rewrite Hnone in Hfull.
    set (i := if nBand =? 1 then 2 else 1).
    assert (Hi : 1 <= i <= nBands cfg /\ i <> nBand)
      by (unfold i; destruct (Z.eqb_spec nBand 1); lia).
    apply (full_flags_band i (proj1 Hi)).
    rewrite <- Hfull, flags_of_other_band; [apply Z.land_0_l | lia..]. }
  assert (HT4 : T = (4 * B)%nat).
  { unfold T, cache_tile_samples, nCacheTileBands.
    destruct (decide (m_eDT cfg = GDT_Byte)); [done | contradiction]. }
  fold T in Hlen, Hp.
  destruct (WriteShiftedTile_cases nRow_ nCol_ nBand x y w h st Hopen Hok Hband
              Hrect Hlen) as [_ Hc2].
  destruct (Hc2 Hfull Hdead)
    as (stm&db1&Heq&Hdbm&Hok1&Hfind1&Hmeta&Hdesc&Hlenm&Hbm).
  destruct Hmeta as (HhDBm&Hctm&Hcntm&Hinwm&Htsm).
  destruct (ReadTileAt_partial nRow_ nCol_ p st Hr Hc Hrow Hok Hp) as (stA&HA&HbA).
  (* what is left to show of the bands read *)
  assert (Hfinish : forall stB,
            buf_slice (m_pabyCachedTiles stB) p (3 * B)
            = buf_slice (m_pabyCachedTiles stm) 0 (3 * B) ->
            forall i, 1 <= i <= nBands cfg ->
              buf_slice (m_pabyCachedTiles stB) (band_off cfg p (i - 1))
                (nBlockPixels cfg)
              = if i =? nBand
                then merged_band cfg
                       (buf_slice (m_pabyCachedTiles stA) (band_off cfg p (i - 1))
                          (nBlockPixels cfg))
                       (buf_slice (m_pabyCachedTiles st) (band_off cfg 0 (nBand - 1))
                          (nBlockPixels cfg))
                       x y w h
                else buf_slice (m_pabyCachedTiles stA) (band_off cfg p (i - 1))
                       (nBlockPixels cfg)).
  { intros stB Hs i Hi. specialize (HbA i Hi). specialize (Hbm i Hi).
    unfold band, B in HbA, Hbm. rewrite HbA, <- Hbm.
    unfold band_off. fold B.
    apply (slice_sub _ _ p 0%nat (3 * B)%nat); [exact Hs|].
    pose proof (band_below (Z.to_nat (i - 1)) 3 B ltac:(lia)). lia. }
  rewrite Heq. unfold WriteTile. rewrite Hcntm, Hinwm, Hinw.
  destruct (Z.ltb_spec (m_nTileInsertionCount st) 0); [lia|].
  set (stw := set_m_bInWriteTile true (EnterDisableDirtyBlockFlush stm)).
  assert (Hd0 : desc0 (m_asCachedTilesDesc stw) = desc_all_dirty nRow_ nCol_)
    by exact Hdesc.
  assert (Hslot : slot_all_dirty cfg stw).
  { unfold slot_all_dirty. cbv zeta. rewrite Hd0. simpl.
    split; [done|]. split; [lia|]. split; [lia|]. split; [done|]. split; [lia|].
    split; [|lia]. intros i Hi. unfold band_dirty. rewrite Hd0. simpl.
    assert (i = 0 \/ i = 1 \/ i = 2) as [-> | [-> | ->]] by lia; reflexivity. }
  assert (Hin : tile_inside cfg stw).
  { unfold tile_inside. cbv zeta. rewrite Hd0. simpl. lia. }
  pose proof (validity_inside cfg H3 stw Hin) as Hv. rewrite Hd0 in Hv.
  change (nRow (desc_all_dirty nRow_ nCol_)) with nRow_ in Hv.
  change (nCol (desc_all_dirty nRow_ nCol_)) with nCol_ in Hv.
  rewrite (WriteTileInternal_all_dirty host cfg stw Hslot). cbv zeta. rewrite Hd0.
  change (nRow (desc_all_dirty nRow_ nCol_)) with nRow_.
  change (nCol (desc_all_dirty nRow_ nCol_)) with nCol_.
  assert (Hctw : m_poCT (flushing stw) = None) by (simpl; by rewrite Hctm).
  rewrite (detect_empty_rgb host cfg HDT H3 (flushing stw) Hctw).
  change (m_pabyCachedTiles (flushing stw)) with (m_pabyCachedTiles stm).
  destruct ((negb (bHasNoData cfg) || (dfNoDataValue cfg =? 0)%float)
            && forallb (fun v => v =? 0)
                 (buf_slice (m_pabyCachedTiles stm) 0 (nBlockPixels cfg * 3))) eqn:He.
  - apply andb_prop in He as [Hnd Hz].
    replace (nBlockPixels cfg * 3)%nat with (3 * B)%nat in Hz by (unfold B; lia).
    set (std := (DeleteTile host cfg nRow_ nCol_ (flushing stw)).2).
    assert (Hstd : tiles (hDB std) !! tile_key host cfg nRow_ nCol_ = None
                   /\ m_hTempDB std = Some db1
                   /\ m_pabyCachedTiles std = m_pabyCachedTiles stm
                   /\ m_nLastSpaceCheckTimestamp std = m_nLastSpaceCheckTimestamp st).
    { unfold std, DeleteTile, exec. simpl. rewrite no_fault. simpl.
      split; [apply lookup_delete_eq | done]. }
    destruct Hstd as (Hnone&Hdbd&Hpxd&Htsd).
    set (st4 := LeaveDisableDirtyBlockFlush (set_m_bInWriteTile false std)).
    destruct (partial_flush_idle st4) as [ts Hpf].
    { destruct Hidle as [Hi|Hi]; [left | by right]. unfold st4. simpl. by rewrite Htsd. }
    set (st1 := set_m_nLastSpaceCheckTimestamp ts st4) in Hpf.
    destruct (ReadTileAt_partial nRow_ nCol_ p st1 Hr Hc) as (stB&HB&HbB).
    { exact Hnone. }
    { intros db Hd. unfold st1, st4 in Hd. simpl in Hd. rewrite Hdbd in Hd.
      by simplify_eq. }
    { unfold st1, st4. simpl. by rewrite Hpxd, Hlenm. }
    exists st1, db1, stA, stB.
    split; [unfold after_partial_flush; cbv beta iota zeta; fold std; fold st4;
            by rewrite Hpf|].
    split; [exact Hdbd|]. split; [exact Hok1|]. split; [exact Hfind1|].
    split; [exact HA|]. split; [exact HB|].
    apply Hfinish.
    assert (Hz3 : buf_slice (m_pabyCachedTiles stm) 0 (3 * B) = replicate (3 * B) 0).
    { apply (all_zero_slice cfg); [|exact Hz]. rewrite Hlenm. lia. }
    rewrite Hz3. apply list_eq. intros j.
    destruct (decide (j < 3 * B)%nat) as [Hj|Hj].
    + rewrite buf_slice_lookup, lookup_replicate_2 by done.
      assert (Hjb : exists i k, 1 <= i <= 3 /\ (k < B)%nat
                /\ (p + j = band_off cfg p (i - 1) + k)%nat).
      { unfold band_off. fold B.
        destruct (decide (j < B)%nat); [exists 1, j; simpl; lia|].
        destruct (decide (j < 2 * B)%nat); [exists 2, (j - B)%nat; simpl; lia|].
        exists 3, (j - 2 * B)%nat. simpl. lia. }
      destruct Hjb as (i&k&Hi&Hk&->).
      rewrite <- (buf_slice_lookup _ _ B) by done.
      fold (band stB p i). rewrite (HbB i ltac:(lia)).
      unfold expected. replace (m_hTempDB st1) with (Some db1) by (symmetry; exact Hdbd).
      rewrite Hfind1. rewrite lookup_replicate_2 by done.
      unfold fill_value. by rewrite Hnd.
    + unfold buf_slice. rewrite lookup_take_ge by lia.
      symmetry. apply lookup_replicate_None. lia.
  - destruct (encode_and_store_rgb host cfg no_fault codec HTF H3 nRow_ nCol_
                (flushing stw))
      as (blob&ste&Hw&Hcopy&(id&Hrowe)&Hcte&Hpxe&Htmpe&Htse);
      [exact Hctw | simpl; by rewrite Hcntm | exact Hv |].
    rewrite Hw.
    set (st4 := LeaveDisableDirtyBlockFlush (set_m_bInWriteTile false ste)).
    destruct (partial_flush_idle st4) as [ts Hpf].
    { destruct Hidle as [Hi|Hi]; [left | by right]. unfold st4. simpl.
      rewrite Htse. simpl. by rewrite Htsm. }
    set (st1 := set_m_nLastSpaceCheckTimestamp ts st4) in Hpf.
    destruct (read_stored_rgb host cfg no_fault codec no_filter HDT HTF H3
                nRow_ nCol_ p st1 _ blob id Hr Hc Hcte Hrowe Hcopy)
      as (stB&HB&Hslice).
    { reflexivity. }
    { rewrite (rgb_concat cfg (flushing stw)). apply buf_slice_length.
      change (m_pabyCachedTiles (flushing stw)) with (m_pabyCachedTiles stm).
      rewrite Hlenm. fold B. lia. }
    { unfold st1, st4. simpl. rewrite Hpxe.
      change (m_pabyCachedTiles (flushing stw)) with (m_pabyCachedTiles stm).
      rewrite Hlenm. fold B. lia. }
    exists st1, db1, stA, stB.
    split; [unfold after_partial_flush; cbv beta iota zeta; fold st4; by rewrite Hpf|].
    split; [unfold st1, st4; simpl; by rewrite Htmpe|].
    split; [exact Hok1|]. split; [exact Hfind1|].
    split; [exact HA|]. split; [exact HB|].
    apply Hfinish. fold B in Hslice. rewrite Hslice.
    apply (rgb_concat cfg (flushing stw)).
Qed.

End PartialTiles.

(** * Instances *)

Lemma C2_three_commits_witness :
  tx_shape (FlushTiles (raw_host true) (strip_cfg 1 GDT_Byte GPKG_TF_PNG 0 3000 0 None)
              (run_calls (raw_host true)
                 (strip_cfg 1 GDT_Byte GPKG_TF_PNG 0 3000 0 None)
                 (write_strip 3000) (fresh []))).2 =
    [TxCommit] ++ replicate 1000 TxInsert ++ [TxBegin; TxCommit] ++
    replicate 1000 TxInsert ++ [TxBegin; TxCommit] ++
    replicate 1000 TxInsert ++ [TxBegin]
  /\ n_commits (FlushTiles (raw_host true)
                  (strip_cfg 1 GDT_Byte GPKG_TF_PNG 0 3000 0 None)
                  (run_calls (raw_host true)
                     (strip_cfg 1 GDT_Byte GPKG_TF_PNG 0 3000 0 None)
                     (write_strip 3000) (fresh []))).2 = 3
  /\ m_nTileInsertionCount
       (FlushTiles (raw_host true) (strip_cfg 1 GDT_Byte GPKG_TF_PNG 0 3000 0 None)
          (run_calls (raw_host true)
             (strip_cfg 1 GDT_Byte GPKG_TF_PNG 0 3000 0 None)
             (write_strip 3000) (fresh []))).2 = 0.
Proof.
  apply (C2_three_commits_for_3000_upserts (raw_host true)
           (strip_cfg 1 GDT_Byte GPKG_TF_PNG 0 3000 0 None) (write_strip 3000)
           (fresh [])
           (FlushTiles (raw_host true) (strip_cfg 1 GDT_Byte GPKG_TF_PNG 0 3000 0 None)
              (run_calls (raw_host true)
                 (strip_cfg 1 GDT_Byte GPKG_TF_PNG 0 3000 0 None)
                 (write_strip 3000) (fresh []))).1).
  - reflexivity.
  - reflexivity.
  - apply surjective_pairing.
  - vm_compute. reflexivity.
  - vm_compute. reflexivity.
Defined.

Lemma C3_commit_failure_witness :
  let h := raw_host false in
  let c := strip_cfg 1 GDT_Byte GPKG_TF_PNG 0 2 0 None in
  let st1 := run_calls h c (write_strip 1) (fresh []) in
  m_nTileInsertionCount st1 = 1
  /\ (FlushTiles h c st1).1 = CE_Failure
  /\ m_nTileInsertionCount (FlushTiles h c st1).2 = -1
  /\ WriteTile h c (FlushTiles h c st1).2 = (CE_Failure, (FlushTiles h c st1).2).
Proof.
  intros h c st1.
  destruct (C3_commit_failure_poisons_the_batcher h c) as (_ & Hflush & Hfast & _).
  split; [reflexivity|].
  destruct (Hflush st1 (FlushTiles h c st1).1 (FlushTiles h c st1).2) as [He Hc].
  - apply surjective_pairing.
  - vm_compute. discriminate.
  - generalize dependent (FlushTiles h c st1). intros p He Hc.
    split; [exact He|]. split; [exact Hc|].
    refine (proj1 (Hfast p.2 _)). rewrite Hc. reflexivity.
Defined.

Lemma C4_clean_slot_witness :
  let h := raw_host true in
  let c := strip_cfg 1 GDT_Byte GPKG_TF_PNG 0 2 0 None in
  let st := stage (slot0 0 1 [false; false; false; false]) (replicate 64 7) ∅
              (run_calls h c (write_strip 1) (fresh [])) in
  WriteTileInternal h c st = (CE_None, st)
  /\ (0 <= m_nTileInsertionCount st -> m_bInWriteTile st = false ->
      WriteTile h c st = (CE_None, st)).
Proof.
  intros h c st. apply (C4_flush_of_clean_slot_is_noop h c st).
  intros i Hi. assert (i = 0) as -> by (simpl in Hi; lia). reflexivity.
Defined.

Lemma C7_geometry_mismatch_witness :
  let h := raw_host true in
  let c := strip_cfg 1 GDT_Byte GPKG_TF_PNG 0 2 0 None in
  let st := fresh (replicate 64 7) in
  exists st' msg,
    ReadTileBlob h c [3; 2; 1; 9; 9; 9; 9; 9; 9] 16%nat 0%float 1%float st
      = (CE_Failure, false, st')
    /\ filled (m_pabyCachedTiles st) (m_pabyCachedTiles st') 16%nat
         (tile_samples c) (fill_value h c)
    /\ same_but_pixels st st'
    /\ cpl_errors st' = msg :: cpl_errors st.
Proof.
  intros h c st.
  apply (C7_decode_validates_tile_geometry h c [3; 2; 1; 9; 9; 9; 9; 9; 9] 16%nat
           0%float 1%float st).
  - vm_compute. lia.
  - intros (Hx & _). vm_compute in Hx. discriminate.
Defined.

Lemma C10_outside_matrix_witness :
  let h := raw_host true in
  let c := strip_cfg 1 GDT_Byte GPKG_TF_PNG 0 2 0 (Some 5%float) in
  let st := fresh (replicate 64 7) in
  exists st', ReadTileAt h c 0 2 0%nat st = (true, false, st')
    /\ filled (m_pabyCachedTiles st) (m_pabyCachedTiles st') 0%nat
         (tile_samples c) (fill_value h c)
    /\ same_but_pixels st st'
    /\ cpl_errors st' = cpl_errors st.
Proof.
  intros h c st. apply (C10_tile_outside_matrix_reads_as_nodata h c 0 2 0%nat st).
  - right. right. right. simpl. lia.
  - vm_compute. lia.
Defined.

Lemma copy_rect_merges_witness :
  let c := strip_cfg 1 GDT_Byte GPKG_TF_PNG 0 2 0 None in
  let buf := [1; 2; 3; 4; 5; 6; 7; 8] in
  let res := copy_rect c 4 0 1 1 0 1 2 buf in
  length res = length buf
  /\ buf_slice res (band_off c 4 (1 - 1)) (nBlockPixels c)
     = merged_band c (buf_slice buf (band_off c 4 (1 - 1)) (nBlockPixels c))
         (buf_slice buf (band_off c 0 (1 - 1)) (nBlockPixels c)) 1 0 1 2
  /\ forall j, (j < band_off c 4 (1 - 1)
                \/ band_off c 4 (1 - 1) + nBlockPixels c <= j)%nat ->
               res !! j = buf !! j.
Proof.
  intros c buf.
  apply (copy_rect_merges c 4 1 1 0 1 2).
  - unfold rect_in_tile. simpl. lia.
  - lia.
  - vm_compute. lia.
  - vm_compute. lia.
Defined.

Lemma empty_tile_witness :
  let h := raw_host true in
  let c := strip_cfg 4 GDT_Byte GPKG_TF_PNG 0 2 0 None in
  let st := stage (slot0 0 0 [true; true; true; true]) (replicate 64 0) ∅
              (run_calls h c (write_strip 1) (fresh [])) in
  is_Some (tiles (hDB st) !! (0, 0, 0))
  /\ exists st', WriteTileInternal h c st = (CE_None, st')
                 /\ tile_removed h c st st'.
Proof.
  intros h c st. split; [vm_compute; eauto|].
  assert (Hslot : slot_all_dirty c st).
  { unfold slot_all_dirty. cbv zeta. repeat split; try (vm_compute; congruence).
    intros i Hi. change (nBands c) with 4 in Hi.
    assert (i = 0 \/ i = 1 \/ i = 2 \/ i = 3) as [->|[->|[->| ->]]] by lia;
      reflexivity. }
  refine (proj1 (empty_tile_of_dirty_bands_is_removed h c (fun _ _ => eq_refl)
                   st Hslot) eq_refl eq_refl _).
  left. split; [vm_compute; discriminate|]. split; [vm_compute; discriminate|].
  vm_compute. repeat constructor.
Defined.


Lemma ReadTile_of_missing_tile_witness :
  let h := raw_host true in
  let c := strip_cfg 1 GDT_Byte GPKG_TF_PNG 0 2 0 (Some 5%float) in
  let st := fresh (replicate 64 7) in
  exists st', ReadTileAt h c 0 1 0%nat st = (true, false, st')
    /\ filled (m_pabyCachedTiles st) (m_pabyCachedTiles st') 0%nat
         (tile_samples c) (fill_value h c)
    /\ sql_log st' = EvStmt (SelectTile 0 0 1) NoFault :: sql_log st
    /\ cpl_errors st' = cpl_errors st.
Proof.
  intros h c st. apply (ReadTile_of_missing_tile h c 0 1 0%nat st).
  - simpl. lia.
  - simpl. lia.
  - reflexivity.
  - reflexivity.
  - by left.
  - vm_compute. lia.
Defined.



Lemma GPKGFindBestEntry_is_nearest_witness :
  let ct := [ {| c1 := 0; c2 := 0; c3 := 0; c4 := 255 |};
              {| c1 := 255; c2 := 255; c3 := 255; c4 := 255 |};
              {| c1 := 250; c2 := 250; c3 := 250; c4 := 255 |} ] in
  exists k e,
    GPKGFindBestEntry ct 251 250 250 255 3 = Z.of_nat k
    /\ (k < 256)%nat /\ ct !! k = Some e
    /\ (forall j e', (j < 256)%nat -> ct !! j = Some e' ->
          color_distance e 251 250 250 255 3 <= color_distance e' 251 250 250 255 3)
    /\ (forall j e', (j < k)%nat -> ct !! j = Some e' ->
          color_distance e 251 250 250 255 3 < color_distance e' 251 250 250 255 3).
Proof.
  intros ct. apply (GPKGFindBestEntry_is_nearest ct 251 250 250 255 3).
  - discriminate.
  - repeat constructor; simpl; lia.
  - lia.
  - lia.
  - lia.
  - lia.
Defined.

Lemma ReadTile_writes_only_its_tile_witness :
  let h := raw_host true in
  let c := strip_cfg 3 GDT_Byte GPKG_TF_PNG 0 2 0 None in
  let st := fresh (replicate 64 7) in
  let st' := (ReadTileAt h c 0 1 16%nat st).2 in
  length (m_pabyCachedTiles st') = length (m_pabyCachedTiles st)
  /\ forall j, (j < 16 \/ 16 + cache_tile_samples c <= j)%nat ->
       m_pabyCachedTiles st' !! j = m_pabyCachedTiles st !! j.
Proof.
  intros h c st. apply (ReadTile_writes_only_its_tile h c).
  vm_compute. split; discriminate.
Defined.

Lemma ReadTile_keeps_dirty_bands_witness :
  let h := raw_host true in
  let c := strip_cfg 3 GDT_Byte GPKG_TF_PNG 0 2 0 None in
  let st := stage (slot0 0 0 [true; false; false; false]) (replicate 64 7) ∅
              (fresh []) in
  let dest := cached_tile c 2 in
  let fetched := ReadTileAt h c 0 0 (cached_tile c 3) st in
  exists p st', ReadTileCached h c 0 0 st = Some (p, st')
    /\ (p = Some dest \/ p = None /\ bAllNonDirty c st = true)
    /\ read_only st st'
    /\ (forall j, (j < dest)%nat ->
          m_pabyCachedTiles st' !! j = m_pabyCachedTiles st !! j)
    /\ (forall i, 0 <= i < nBands c -> band_dirty st i = true ->
          buf_slice (m_pabyCachedTiles st') (band_off c dest i) (nBlockPixels c)
          = buf_slice (m_pabyCachedTiles st) (band_off c dest i) (nBlockPixels c))
    /\ (bAllNonDirty c st = false -> fetched.1.1 = true ->
        forall i, 0 <= i < nBands c -> band_dirty st i = false ->
          buf_slice (m_pabyCachedTiles st') (band_off c dest i) (nBlockPixels c)
          = buf_slice (m_pabyCachedTiles fetched.2)
              (band_off c (cached_tile c 3) i) (nBlockPixels c)).
Proof.
  intros h c st. apply (ReadTile_keeps_dirty_bands h c 0 0 st).
  - reflexivity.
  - vm_compute. split; discriminate.
  - vm_compute. lia.
Defined.




Lemma band_accepts_its_colour_interpretation_witness :
  let h := raw_host true in
  let c := strip_cfg 4 GDT_Byte GPKG_TF_PNG 0 2 0 None in
  let r := GetColorInterpretation h c 0 1 2 3 6 4 (fresh []) in
  SetColorInterpretation c 0 1 2 3 6 4 r.1 r.2 = (CE_Of CE_None, r.2).
Proof.
  intros h c. apply (band_accepts_its_colour_interpretation h c 0 1 2 3 6 4 (fresh [])).
  simpl. lia.
Defined.

Lemma SetColorTable_then_GetColorTable_witness :
  let h := raw_host true in
  let c := strip_cfg 1 GDT_Byte GPKG_TF_PNG 0 2 0 None in
  let ct := Some [ {| c1 := 0; c2 := 0; c3 := 0; c4 := 255 |} ] in
  let st' := AssignColorTable ct (fresh []) in
  GetColorTable h c st' = (ct, st')
  /\ sql_log st' = sql_log (fresh [])
  /\ forall b poCT2, (SetColorTable c b poCT2 st').1 = CE_Failure.
Proof.
  intros h c ct st'. apply (SetColorTable_then_GetColorTable h c true ct (fresh []) st').
  reflexivity.
Defined.

Lemma SetNoDataValue_of_Byte_bands_agree_witness :
  let c := strip_cfg 3 GDT_Byte GPKG_TF_PNG 0 2 0 None in
  let pam := fun _ : Z => (0%float, false) in
  let b := {| m_bHasNoData := false; m_dfNoDataValue := 0 |} in
  let s := {| rb_bands := [b; b; b]; rb_usGPKGNull := 65535;
              m_bMetadataDirty := false; rb_errors := [] |} in
  match SetNoDataValue c pam NoFault 2 5 s with
  | (CE_None, s') =>
      ((0 <=? 5)%float && (5 <=? 255)%float && is_integral 5 = true)
      /\ GetNoDataValue pam s' 2 = (5%float, true)
      /\ (forall i, 1 <= i <= nBands c ->
            (GetNoDataValue pam s' i).2 = true ->
            ((GetNoDataValue pam s' i).1 =? 5)%float = true)
      /\ m_bMetadataDirty s' = true
  | (CE_Failure, s') =>
      rb_bands s' = rb_bands s /\ m_bMetadataDirty s' = m_bMetadataDirty s
      /\ rb_usGPKGNull s' = rb_usGPKGNull s
  end.
Proof.
  intros c pam b s.
  apply (SetNoDataValue_of_Byte_bands_agree c pam NoFault 2 5 s).
  - reflexivity.
  - simpl. lia.
  - simpl. lia.
Defined.

Lemma SetNoDataValue_of_gridded_band_witness :
  let c := strip_cfg 1 GDT_UInt16 GPKG_TF_PNG_16BIT 0 2 0 None in
  let pam := fun _ : Z => (0%float, false) in
  let s := {| rb_bands := [ {| m_bHasNoData := false; m_dfNoDataValue := 0 |} ];
              rb_usGPKGNull := 65535; m_bMetadataDirty := false; rb_errors := [] |} in
  let r := SetNoDataValue c pam NoFault 1 7 s in
  r.1 = CE_Failure
  /\ GetNoDataValue pam r.2 1 = (7%float, true)
  /\ (forall i, 1 <= i -> i <> 1 -> band_at r.2 i = band_at s i)
  /\ (NoFault <> PrepareError -> m_eTF c = GPKG_TF_PNG_16BIT ->
      0 <= rb_usGPKGNull r.2 < 65536)
  /\ (NoFault = PrepareError \/ m_eTF c <> GPKG_TF_PNG_16BIT ->
      rb_usGPKGNull r.2 = rb_usGPKGNull s).
Proof.
  intros c pam s. apply (SetNoDataValue_of_gridded_band c pam NoFault 1 7 s).
  - discriminate.
  - simpl. lia.
Defined.

Lemma raw_host_lossless : lossless_png (raw_host true).
Proof.
  split; [reflexivity|]. intros opts m Hct. eexists. split; [reflexivity|].
  intros drivers _. eexists. split; [reflexivity|]. by repeat split.
Qed.

Lemma RGB_tile_round_trip_witness :
  let h := raw_host true in
  let c := strip_cfg 3 GDT_Byte GPKG_TF_PNG 0 2 0 None in
  let st := stage (slot0 0 0 [true; true; true; false]) (map Z.of_nat (seq 0 64))
              ∅ (fresh []) in
  exists st1 st2,
    WriteTileInternal h c st = (CE_None, st1)
    /\ ReadTileAt h c 0 0 16%nat st1 = (true, false, st2)
    /\ buf_slice (m_pabyCachedTiles st2) 16 (3 * nBlockPixels c)
       = buf_slice (m_pabyCachedTiles st) 0 (3 * nBlockPixels c).
Proof.
  intros h c st.
  apply (RGB_tile_round_trip h c (fun _ _ => eq_refl) raw_host_lossless
           (fun _ _ => eq_refl) eq_refl eq_refl eq_refl st 16%nat).
  - by left.
  - unfold slot_all_dirty. cbv zeta. repeat split; try (vm_compute; congruence).
    intros i Hi. change (nBands c) with 3 in Hi.
    assert (i = 0 \/ i = 1 \/ i = 2) as [-> | [-> | ->]] by lia; reflexivity.
  - unfold tile_inside. vm_compute. repeat split; congruence.
  - reflexivity.
  - vm_compute. split; congruence.
  - vm_compute. lia.
  - vm_compute. lia.
Defined.

Lemma RGBA_tile_round_trip_witness :
  let h := raw_host true in
  let c := strip_cfg 4 GDT_Byte GPKG_TF_PNG 0 2 0 None in
  let st := stage (slot0 0 0 [true; true; true; true])
              ([10; 20; 30; 40; 11; 21; 31; 41; 12; 22; 32; 42; 255; 255; 0; 255]
               ++ replicate 48 7) ∅ (fresh []) in
  exists st1 st2,
    WriteTileInternal h c st = (CE_None, st1)
    /\ ReadTileAt h c 0 0 16%nat st1 = (true, false, st2)
    /\ buf_slice (m_pabyCachedTiles st2) 16 (4 * nBlockPixels c)
       = if forallb (fun v => v =? 0)
              (buf_slice (m_pabyCachedTiles st) (band_off c 0 3) (nBlockPixels c))
         then replicate (4 * nBlockPixels c) (fill_value h c)
         else buf_slice (m_pabyCachedTiles st) 0 (4 * nBlockPixels c).
Proof.
  intros h c st.
  apply (RGBA_tile_round_trip h c (fun _ _ => eq_refl) raw_host_lossless
           (fun _ _ => eq_refl) eq_refl eq_refl eq_refl st 16%nat).
  - by left.
  - unfold slot_all_dirty. cbv zeta. repeat split; try (vm_compute; congruence).
    intros i Hi. change (nBands c) with 4 in Hi.
    assert (i = 0 \/ i = 1 \/ i = 2 \/ i = 3) as [-> | [-> | [-> | ->]]] by lia;
      reflexivity.
  - vm_compute. reflexivity.
  - vm_compute. reflexivity.
  - reflexivity.
  - vm_compute. split; congruence.
  - vm_compute. lia.
  - vm_compute. lia.
  - vm_compute. lia.
Defined.

Lemma raw_host_row_convention : row_convention (raw_host true).
Proof. split; [done|]. left. by intros a b. Qed.

Lemma coverage_status_is_exact_witness :
  let h := raw_host true in
  let c := strip_cfg 1 GDT_Byte GPKG_TF_PNG 0 3 0 None in
  let db := {| tiles := {[ (0, 0, 1) := {| tile_id := 1; tile_data := Some [2; 2; 1; 7; 7; 7; 7] |} ]};
               tile_next_id := 2; ancillary := ∅ |} in
  let w := coverage_window c 0 0 6 2 in
  let r := IGetDataCoverageStatus h c NoFault 0 0 6 2 0 db in
  let some_data := exists iX iY, in_window w iX iY /\ tile_stored h c db iX iY in
  let some_empty := exists iX iY, in_window w iX iY /\ ~ tile_stored h c db iX iY in
  is_Some r.2
  /\ (r.1 = GDAL_DATA_COVERAGE_STATUS_DATA
      \/ r.1 = GDAL_DATA_COVERAGE_STATUS_EMPTY
      \/ r.1 = Z.lor GDAL_DATA_COVERAGE_STATUS_DATA GDAL_DATA_COVERAGE_STATUS_EMPTY)
  /\ (Z.land r.1 GDAL_DATA_COVERAGE_STATUS_DATA <> 0 -> some_data)
  /\ (Z.land r.1 GDAL_DATA_COVERAGE_STATUS_EMPTY <> 0 -> some_empty)
  /\ (0 = 0 ->
      (some_data -> Z.land r.1 GDAL_DATA_COVERAGE_STATUS_DATA <> 0)
      /\ (some_empty -> Z.land r.1 GDAL_DATA_COVERAGE_STATUS_EMPTY <> 0))
  /\ (~ some_data -> r = (GDAL_DATA_COVERAGE_STATUS_EMPTY, Some 0%float))
  /\ (~ some_empty -> r = (GDAL_DATA_COVERAGE_STATUS_DATA, Some 100%float)).
Proof.
  intros h c db.
  apply (coverage_status_is_exact h c raw_host_row_convention 0 0 6 2 0 db).
  - reflexivity.
  - reflexivity.
  - unfold window_ok, INT_MAX. simpl. lia.
Defined.

Lemma partial_tile_write_then_read_witness :
  let h := raw_host true in
  let c := strip_cfg 3 GDT_Byte GPKG_TF_PNG 0 3 1 None in
  let st := fresh (map Z.of_nat (seq 0 64)) in
  exists st1 db1 stA stB,
    WriteShiftedTile h c 0 1 2 1 0 1 2 st = (CE_None, st1)
    /\ m_hTempDB st1 = Some db1 /\ partial_tiles_ok c db1
    /\ ReadTileAt h c 0 1 32%nat st = (true, false, stA)
    /\ ReadTileAt h c 0 1 32%nat st1 = (true, false, stB)
    /\ forall i, 1 <= i <= nBands c ->
         buf_slice (m_pabyCachedTiles stB) (band_off c 32 (i - 1)) (nBlockPixels c)
         = if i =? 2
           then merged_band c
                  (buf_slice (m_pabyCachedTiles stA) (band_off c 32 (i - 1))
                     (nBlockPixels c))
                  (buf_slice (m_pabyCachedTiles st) (band_off c 0 (2 - 1))
                     (nBlockPixels c))
                  1 0 1 2
           else buf_slice (m_pabyCachedTiles stA) (band_off c 32 (i - 1))
                  (nBlockPixels c).
Proof.
  intros h c st. apply (partial_tile_write_then_read h c).
  - intros l s. reflexivity.
  - vm_compute. split; discriminate.
  - reflexivity.
  - vm_compute. split; [discriminate | reflexivity].
  - vm_compute. split; [discriminate | reflexivity].
  - reflexivity.
  - intros _. reflexivity.
  - intros db H. discriminate H.
  - vm_compute. split; discriminate.
  - vm_compute. repeat split; discriminate.
  - vm_compute. discriminate.
  - right. intros log. reflexivity.
  - vm_compute. lia.
  - vm_compute. lia.
Defined.

Lemma partial_tile_write_keeps_other_tiles_witness :
  let h := raw_host true in
  let c := strip_cfg 3 GDT_Byte GPKG_TF_PNG 0 3 1 None in
  let st := fresh (map Z.of_nat (seq 0 64)) in
  exists st1 stA stB,
    WriteShiftedTile h c 0 1 2 1 0 1 2 st = (CE_None, st1)
    /\ ReadTileAt h c 0 2 32%nat st = (true, false, stA)
    /\ ReadTileAt h c 0 2 32%nat st1 = (true, false, stB)
    /\ forall i, 1 <= i <= nBands c ->
         buf_slice (m_pabyCachedTiles stB) (band_off c 32 (i - 1)) (nBlockPixels c)
         = buf_slice (m_pabyCachedTiles stA) (band_off c 32 (i - 1)) (nBlockPixels c).
Proof.
  intros h c st. apply (partial_tile_write_keeps_other_tiles h c).
  - intros l s. reflexivity.
  - vm_compute. split; discriminate.
  - reflexivity.
  - intros _. reflexivity.
  - intros db H. discriminate H.
  - vm_compute. split; discriminate.
  - vm_compute. repeat split; discriminate.
  - vm_compute. discriminate.
  - right. intros log. reflexivity.
  - vm_compute. lia.
  - intros H. discriminate H.
  - vm_compute. split; [discriminate | reflexivity].
  - vm_compute. split; [discriminate | reflexivity].
  - reflexivity.
  - vm_compute. lia.
Defined.

Lemma partial_tile_completed_witness :
  let h := raw_host true in
  let c := strip_cfg 3 GDT_Byte GPKG_TF_PNG 0 3 1 None in
  let db := {| partial_tiles :=
                 [{| pt_id := 1; pt_zoom_level := 0; pt_tile_column := 1;
                     pt_tile_row := 0;
                     pt_tile_data_band :=
                       [Some [1; 2; 3; 4]; Some [5; 6; 7; 8]; Some [9; 10; 11; 12];
                        None];
                     pt_partial_flag := 3935; pt_age := 0 |}];
               pt_next_id := 2 |} in
  let st := set_m_hTempDB (Some db) (fresh (map Z.of_nat (seq 0 64))) in
  exists st1 db1 stA stB,
    WriteShiftedTile h c 0 1 2 1 0 1 2 st = (CE_None, st1)
    /\ m_hTempDB st1 = Some db1 /\ partial_tiles_ok c db1
    /\ find_partial (m_nZoomLevel c) 0 1 db1 = None
    /\ ReadTileAt h c 0 1 32%nat st = (true, false, stA)
    /\ ReadTileAt h c 0 1 32%nat st1 = (true, false, stB)
    /\ forall i, 1 <= i <= nBands c ->
         buf_slice (m_pabyCachedTiles stB) (band_off c 32 (i - 1)) (nBlockPixels c)
         = if i =? 2
           then merged_band c
                  (buf_slice (m_pabyCachedTiles stA) (band_off c 32 (i - 1))
                     (nBlockPixels c))
                  (buf_slice (m_pabyCachedTiles st) (band_off c 0 (2 - 1))
                     (nBlockPixels c))
                  1 0 1 2
           else buf_slice (m_pabyCachedTiles stA) (band_off c 32 (i - 1))
                  (nBlockPixels c).
Proof.
  intros h c db st. apply (partial_tile_completed h c).
  - intros l s. reflexivity.
  - vm_compute. split; discriminate.
  - reflexivity.
  - apply raw_host_lossless.
  - intros k r. reflexivity.
  - reflexivity.
  - reflexivity.
  - reflexivity.
  - reflexivity.
  - vm_compute. split; [discriminate | reflexivity].
  - vm_compute. split; [discriminate | reflexivity].
  - vm_compute. split; discriminate.
  - vm_compute. split; discriminate.
  - reflexivity.
  - reflexivity.
  - reflexivity.
  - intros db' H. injection H as <-. split; [|reflexivity].
    split; [reflexivity|]. split; [apply NoDup_singleton|].
    split; [apply NoDup_singleton|]. intros r Hr.
    apply list_elem_of_singleton in Hr. subst r.
    split; [split; reflexivity|]. split; [reflexivity|]. intros i Hi _.
    assert (i = 1 \/ i = 2 \/ i = 3) as [-> | [-> | ->]]
      by (change (nBands c) with 3 in Hi; lia);
      eexists; split; reflexivity.
  - vm_compute. split; discriminate.
  - vm_compute. repeat split; discriminate.
  - reflexivity.
  - reflexivity.
  - vm_compute. split; [discriminate | reflexivity].
  - reflexivity.
  - right. intros log. reflexivity.
  - vm_compute. lia.
  - vm_compute. lia.
Defined.
